(* ===== verification/_CoqProject ===== *)
-Q . S2P
Prelude.v
Crates.v
Memory.v
Paging.v
BumpAlloc.v
AddressSpace.v
PagingTheorems.v
MapperClient.v
WindowMapper.v
Buddy.v
BuddyHeap.v
ChunkPool.v
KernelHeap.v
VecHeap.v
HeapSetup.v
FrameSupply.v
BootInfo.v
Ports.v
SpinLock.v
Fmt.v
Serial.v
KernelLoader.v
KernelImage.v
KernelLoad.v
KernelExample.v
Descriptors.v
Processor.v
InterruptStubs.v
SharedHeap.v
IntrusiveList.v
Stage3.v
Pic8259.v
KernelInterrupts.v
Exceptions.v
Stage4.v
Stage4Theorems.v
SelfTest.v
KernelMain.v
KernelStart.v
Stage4Start.v
Stage4Complete.v
Stage4Example.v
HandOver.v
Boot.v
Disk.v
Mbr.v
MemoryMap.v
Vesa.v
Fat.v
FatSpec.v
FatDir.v
FatLoad.v
FatExample.v
Teletype.v
Stage2.v
Stage2Example.v
BootChain.v
DiskImage.v
BuildScripts.v
