(* ===== verification/Prelude.v ===== *)
(** * MiniatureOs: a verification of its boot loader and kernel memory management

    MiniatureOs boots from a BIOS.  The boot sector loads stage 2, which reads
    the later stages and the kernel from a FAT volume into fixed places of
    physical memory, asks the BIOS for the memory map and enters protected mode.
    Stage 3 builds a first page table and enters long mode.  Stage 4 builds the
    kernel's own page table: the segments of the kernel's ELF file, its stack,
    the descriptor table, the boot information and a window onto all of physical
    memory.  It jumps to the kernel, which installs its descriptor tables, maps
    its heap and serves allocations from a buddy allocator.  The crate [x86_64]
    (addresses, page tables, frame allocator, descriptor tables) is shared by the
    boot stages and the kernel.

    ** The library

    - this file: outcomes of Rust code, machine integers, byte memory, loops;
    - [Crates]: the third-party crates [bit_field] and [bitflags] as classes;
    - [Memory]: [x86_64/src/memory.rs], addresses, frames, pages, regions;
    - [Paging]: [x86_64/src/paging/*], page table entries, the walker, the
      mapper for 4 KiB and 2 MiB pages; the traits [FrameMapping],
      [FrameAllocator], [Mapper] and [Translator] are classes;
    - [BumpAlloc]: [x86_64/src/paging/bump_frame_allocator.rs];
    - [AddressSpace], [PagingTheorems], [MapperClient]: the abstract address
      space, the refinement, the contract [MapperSpec] of the mapper, and what
      clients of the contract share; [WindowMapper]: a second instance of the
      contract that sets part of the address space aside, and huge pages there;
    - [Buddy]: [kernel/src/allocator/buddy_allocator.rs]; [BuddyHeap] and
      [KernelHeap]: its representation invariant and the heap under its clients;
      [HeapSetup]: [init_heap] of [kernel/src/allocator.rs];
    - [BootInfo]: [bootloader/x86_64/bios/common] and [bootloader/api];
    - [KernelLoader]: [stage4/src/elf.rs]; [KernelImage], [KernelLoad],
      [KernelExample]: the theorems on its callbacks, on loading as a whole, and a
      concrete kernel;
    - [Stage4]: [stage4/src/main.rs]; [Stage4Theorems], [Stage4Start]: the theorems
      on its steps; [Stage4Complete], [Stage4Example]: all of [start], and a
      concrete run; [HandOver]: the frames the kernel is told are free;
    - [Descriptors]: [x86_64/src/gdt.rs], [tss.rs], [idt.rs];
    - [Disk]: [stage2/src/disk.rs] and [dap.rs]; [Fat]: [stage2/src/fat.rs];
      [FatSpec], [FatDir], [FatLoad], [FatExample]: the theorems and a concrete
      volume;
    - [Mbr]: [mbr/src/*], the boot sector; [MemoryMap], [Vesa]: the BIOS services
      of stage 2 for memory and video; [Teletype]: [stage2/src/print.rs] and what
      the screen shows; [Stage2], [Stage2Example]: [start] of
      [stage2/src/main.rs] and a concrete disk;
    - [Processor]: [x86_64/src/register.rs], the loading of tables, and
      [stage2/src/protected_mode.rs]; [Stage3]: [stage3/src/*];
    - [InterruptStubs]: the assembly macros of [x86_64/src/interrupts.rs];
    - [SpinLock]: [x86_64/src/mutex.rs]; [Ports]: [x86_64/src/port.rs] and
      [kernel/src/qemu.rs]; [Fmt]: how [core::fmt] writes numbers; [Serial]:
      [x86_64/src/uart.rs] and [print.rs];
    - [Pic8259]: [kernel/src/interrupts/hardware/pic8259.rs]; [KernelInterrupts]:
      [kernel/src/interrupts/mod.rs] and the handler table of stage 4;
      [Exceptions]: the handlers themselves, and the way from a vector to one;
    - [VecHeap]: [Vec] and [Box] of the standard library over the kernel's heap;
      [SelfTest]: the heap tests of [kernel/src/main.rs]; [KernelMain]:
      [kernel/src/lib.rs], [kernel/src/paging.rs] and the memory map as the kernel
      reads it; [KernelStart]: [start] of [kernel/src/main.rs] and of the kernel of
      the unit tests;
    - [IntrusiveList]: [util/intrusive_linked_list];
    - [SharedHeap]: the locked allocator of [kernel/src/allocator.rs] under several
      contexts; [ChunkPool]: the two lists of [buddy_allocator.rs] behind their trait;
    - [FrameSupply]: set-up of the heap on two allocators that hand out the same
      frames; [Boot]: the kernel on what stage 4 hands over; [BootChain]: boot
      sector, stages and kernel, the [_start] of each, one after the other;
    - [DiskImage]: [bootloader/src/lib.rs], the host program that builds the image;
      [BuildScripts]: the build scripts around it, and the commands that start the
      emulator.

    ** How code is modelled

    A function that can panic returns an [outcome]; a Rust [Result] inside it is
    a value.  Mutable state (memory, the allocator, the disk with its position)
    is passed along explicitly, and what was changed before an error is returned
    stays changed, as in the code.  Unsigned integers are [Z] with their width at
    each operation: the boot stages 2, 3 and 4 and the kernel are built with
    overflow checks, so that arithmetic that does not fit panics ([checked]); a
    cast wraps ([ucast]).  [usize] is 32 bits wide in stage 2 and 64 bits in
    stage 4 and the kernel.  Unsafe code works on a byte memory [mem]; words are
    little endian; page tables, list nodes inside free chunks, disk buffers and
    kernel images are bytes of such a memory.

    Code that is not in the repository is a parameter: [bit_field], [bitflags]
    ([Crates]), [elfloader] ([KernelLoader]), the BIOS services ([Disk],
    [MemoryMap], [Vesa]), the devices behind the ports ([Serial], [Pic8259]),
    the crates [mbrman] and [fatfs] and the files of the host ([DiskImage]), the
    programs the build scripts call ([BuildScripts]), the
    layout the compiler gives to a few structures ([Stage4]) and the addresses the
    linker chooses.  Each is a class with its operations and, where theorems
    depend on it, a class with the laws its documentation states; a reference
    instance shows that the laws hold of something.  Machine instructions are
    functions on a small processor state ([Processor]), with the stack pointer and the
    words above it where a stage pushes arguments, or on registers and a stack
    ([InterruptStubs]).  The frames the compiler makes on a stack are not modelled.  The
    display is what was sent to the teletype and the video mode that was set; setting
    it clears the text.

    ** What is proved

    - Heap: from a fresh heap, whatever its clients allocate, free and write,
      live allocations are aligned, inside the heap and disjoint; each operation
      returns, keeps the invariant and the contents of other allocations; a
      failed allocation of at most 512 KiB had no free block that was large enough, and
      a larger one panics; a heap whose
      allocations were all freed is free again.  The heap's placement is a
      hypothesis ([heap_ok], true of the kernel's heap): 16-byte granularity and
      no two free buddies of the largest class, as the allocator loses those
      (also proved).
    - Page tables: mapping, unmapping and translating refine update, removal and
      lookup of an abstract address space, on every branch, for any frame
      mapping and frame allocator that keep their contract; the footprint in
      memory is part of it.  [MapperSpec] packages this, and the theorems on the
      heap set-up, the kernel loader and stage 4 are proved against it.
    - Frame allocator: it hands out exactly the frames of the usable regions.
    - Kernel loader: after loading, every segment reads as its bytes of the file
      followed by zeroes, through the page table, with its protection; a
      relocation writes its eight bytes and nothing else; both together for all
      segments and relocations of a file.
    - Stage 4: the stack with its guard page; the memory map for the kernel; and
      [start] as a whole, from the memory map and the kernel file to the complete
      address space and processor state the kernel is entered with.
    - File loading: a file found by name is copied cluster by cluster to its
      destination, if it has a cluster and clusters have at most eight sectors (empty
      files and larger clusters go wrong); directory entries and FAT12 entries are read
      back as encoded.
    - Descriptors: the fields the processor reads are those that were written.
    - Defects: some theorems state what the code does where it departs from its
      purpose; they carry the kind of an error.
    - The boot chain: the build scripts compile the stages and write the images; a
      machine that starts from an image of the image builder finds stage 2 and the
      boot partition in it; the boot sector loads stage 2 completely; stage 2 loads
      its three files, sets the best video mode, hands over what it found and shows
      it on the screen; unreal mode has the segments it is for; stage 3 maps the
      first 10 GiB one to one and enters stage 4 in long mode with its argument.
      Stage 4 builds the memory map before its last allocations, so that the kernel's
      frame allocator would hand out the table of the physical memory window
      ([HandOver]).  The theorems on the kernel therefore ask for tables outside the
      free frames of the first regions only, as many as the kernel takes; stage 4
      provides that when the usable regions in front of the one with the loaded files
      hold 104 frames ([Boot]).  A region at address 0 does not count: stage 4
      overwrites it, so on a map whose low memory starts there the kernel does take
      frames that are in use.  On the other maps the stages compose: from the boot sector to the idle loop of the kernel,
      on one memory, one processor and one serial line ([BootChain]).
    - Interrupts: a stub gives its handler the frame and the error code and
      resumes where it came from; [interrupts::init] leaves tables, registers and
      controllers consistent, with a stub of the right kind under every vector;
      every registered exception is reported, most with their frame, and returns or stays
      in its handler as it should; device interrupts are acknowledged; both while the
      locks the handlers take are free.
    - Locks: mutual exclusion and handover over all interleavings of contexts;
      printing sends its text and returns; a handler that wants the lock of the
      code it interrupted waits forever.  Contexts that share the heap through its
      lock behave like clients of a sequential heap, and keep out of each other's
      memory; an allocation that fails under the lock leaves it locked.
    - The kernel: [kernel_init] composes all of this with the page tables, the
      frame allocator and the heap; the kernel reads the memory map that stage 4
      wrote; its self tests of the heap pass, with the growing vector on it; and
      [start] as a whole reaches the idle loop, with the complete text it writes on
      the serial line, from which the memory map can be read back.
    - The intrusive list refines a deque as long as it is not taken apart from the
      front.

    ** Fuel

    Loops without a structural bound take fuel and panic with [FuelExhausted],
    which the code never does; every theorem that something returns therefore
    also says that the fuel was enough.  The buddy lists and [add_region] need
    more fuel than the heap has 16-byte chunks ([ho_fuel]); page range loops more
    than the range has pages; [read_sectors] and [load_cluster] supply their own
    (one more than the sectors left); cluster chains need one more than the
    length of the chain; the memory map query as many as the firmware has
    regions, the search for a video mode one more than there are modes; polling
    the serial line more than the transmitter is ever busy.  Taking a free lock
    needs one iteration, and a taken one exhausts any fuel, which is the model of
    spinning; the transition system of [SpinLock] has no fuel.

    ** What is not modelled

    The assembly that enters the boot sector; the functions of the kernel that provoke
    exceptions and are not called; accessors that are the identity on addresses.  The models of components are those of a single processor
    without interrupts, but for [InterruptStubs] and [Exceptions], which deliver
    one; interleavings are modelled where state is shared, at the lock and at the
    heap behind it. *)
From Stdlib Require Import ZArith Lia.
From stdpp Require Import base tactics numbers list gmap.

#[local] Open Scope Z_scope.

(** ** Outcomes of Rust code: a value, or a panic *)

Inductive panic_kind :=
  | ArithOverflow      (** overflow check, see the workspace profiles *)
  | DivisionByZero
  | IndexOutOfBounds
  | UnwrapNone         (** [unwrap]/[expect] on [None] or [Err] *)
  | AssertFailed
  | ExplicitPanic      (** [panic!], [unimplemented!], [unreachable!] *)
  | FuelExhausted.     (** a fuel-indexed loop of the model ran out *)

Inductive outcome (A : Type) : Type :=
  | Ret (a : A)
  | Panic (p : panic_kind).
Arguments Ret {A} a.
Arguments Panic {A} p.

(** Rust's [Result]. *)
Inductive Result (T E : Type) : Type :=
  | Ok (t : T)
  | Err (e : E).
Arguments Ok {T E} t.
Arguments Err {T E} e.

#[global] Instance panic_kind_eq_dec : EqDecision panic_kind.
Proof. solve_decision. Defined.
#[global] Instance outcome_eq_dec `{EqDecision A} : EqDecision (outcome A).
Proof. solve_decision. Defined.
#[global] Instance Result_eq_dec `{EqDecision T} `{EqDecision E} :
  EqDecision (Result T E).
Proof. solve_decision. Defined.

#[global] Instance outcome_ret : MRet outcome := @Ret.
#[global] Instance outcome_bind : MBind outcome := fun A B k c =>
  match c with Ret a => k a | Panic p => Panic p end.

(** [opt.unwrap()] / [opt.expect(..)]. *)
Definition unwrap {A} (o : option A) : outcome A :=
  match o with Some a => Ret a | None => Panic UnwrapNone end.

(** [res.unwrap()] / [res.expect(..)]. *)
Definition expect {T E} (r : Result T E) : outcome T :=
  match r with Ok t => Ret t | Err _ => Panic UnwrapNone end.

(** [assert!(b)]. *)
Definition assert_true (b : bool) : outcome unit :=
  if b then Ret tt else Panic AssertFailed.

(** Indexing a slice or array: out of range panics. *)
Definition index {A} (l : list A) (i : Z) : outcome A :=
  if 0 <=? i then
    match l !! Z.to_nat i with Some a => Ret a | None => Panic IndexOutOfBounds end
  else Panic IndexOutOfBounds.

Lemma bind_Ret_inv {A B} (c : outcome A) (k : A -> outcome B) b :
  (c ≫= k) = Ret b -> exists a, c = Ret a /\ k a = Ret b.
Proof. destruct c; cbn; [eauto | discriminate]. Qed.

Lemma bind_Ret {A B} (a : A) (k : A -> outcome B) : (Ret a ≫= k) = k a.
Proof. reflexivity. Qed.

Lemma bind_eq {A B} (c : outcome A) a (k : A -> outcome B) : c = Ret a -> (c ≫= k) = k a.
Proof. now intros ->. Qed.

Lemma bind_ext {A B} (c : outcome A) (k k' : A -> outcome B) : (forall a, k a = k' a) -> (c ≫= k) = (c ≫= k').
Proof. intros H. destruct c; [apply H | reflexivity]. Qed.

Lemma bind_run {A B} (c : outcome A) (k : A -> outcome B) a r :
  c = Ret a -> k a = r -> (c ≫= k) = r.
Proof. now intros -> <-. Qed.

Lemma bind_assoc {A B C} (c : outcome A) (k : A -> outcome B) (h : B -> outcome C) :
  ((c ≫= k) ≫= h) = (c ≫= (fun a => k a ≫= h)).
Proof. destruct c; reflexivity. Qed.

(** Decompose every hypothesis [(x ← c; k) = Ret b]. *)
Ltac inv_ret :=
  repeat match goal with
  | H : Ret _ = Ret _ |- _ => injection H as H; try subst
  | H : Panic _ = Ret _ |- _ => discriminate H
  | H : (_ ≫= _) = Ret _ |- _ =>
      let a := fresh "a" in let Ha := fresh "Ha" in
      apply bind_Ret_inv in H as (a & Ha & H); cbn beta in H
  end.

(** ** Machine integers *)

Definition fits (w z : Z) : bool := (0 <=? z) && (z <? 2 ^ w).
Definition in_width (w z : Z) : Prop := 0 <= z < 2 ^ w.

(** A result that does not fit its width panics (overflow checks are on). *)
Definition checked (w z : Z) : outcome Z :=
  if fits w z then Ret z else Panic ArithOverflow.

Definition uadd (w x y : Z) : outcome Z := checked w (x + y).
Definition usub (w x y : Z) : outcome Z := checked w (x - y).
Definition umul (w x y : Z) : outcome Z := checked w (x * y).
Definition udiv (x y : Z) : outcome Z :=
  if y =? 0 then Panic DivisionByZero else Ret (x / y).
Definition urem (x y : Z) : outcome Z :=
  if y =? 0 then Panic DivisionByZero else Ret (x mod y).
(** [!x] *)
Definition unot (w x : Z) : Z := 2 ^ w - 1 - x.
(** [x << k] and [x >> k]: the shift amount is checked, the bits wrap. *)
Definition ushl (w x k : Z) : outcome Z :=
  if (0 <=? k) && (k <? w) then Ret (Z.shiftl x k mod 2 ^ w) else Panic ArithOverflow.
Definition ushr (w x k : Z) : outcome Z :=
  if (0 <=? k) && (k <? w) then Ret (Z.shiftr x k) else Panic ArithOverflow.
(** [x as u<w>] *)
Definition ucast (w x : Z) : Z := x mod 2 ^ w.

Lemma fits_spec w z : fits w z = true <-> in_width w z.
Proof. unfold fits, in_width. lia. Qed.

Lemma checked_ok w z : 0 <= z < 2 ^ w -> checked w z = Ret z.
Proof. intros H. unfold checked. now rewrite (proj2 (fits_spec w z) H). Qed.

Lemma checked_inv w z r : checked w z = Ret r -> r = z /\ 0 <= z < 2 ^ w.
Proof.
  unfold checked. destruct (fits w z) eqn:E; [|discriminate].
  apply fits_spec in E. intros [= <-]. auto.
Qed.

Lemma checked_panic w z : ~ (0 <= z < 2 ^ w) -> checked w z = Panic ArithOverflow.
Proof.
  intros H. unfold checked. destruct (fits w z) eqn:E; [|reflexivity].
  now apply fits_spec in E.
Qed.

(** Run the checked operations of the goal whose side conditions [lia] proves. *)
Ltac run_checked :=
  repeat (unfold uadd, usub, umul; rewrite checked_ok by lia; cbn [mbind outcome_bind]).

(** Decompose checked operations among the hypotheses. *)
Ltac inv_checked :=
  unfold uadd, usub, umul in *;
  repeat match goal with
  | H : checked _ _ = Ret _ |- _ => apply checked_inv in H as [-> H]
  end.

(** ** Powers of two and bit masks *)

Lemma land_unot_mask x k w :
  0 <= k <= w -> 0 <= x < 2 ^ w ->
  Z.land x (unot w (2 ^ k - 1)) = x - x mod 2 ^ k.
Proof.
  intros Hk Hx.
  assert (Hpk : 0 < 2 ^ k) by (apply Z.pow_pos_nonneg; lia).
  rewrite <- Z.land_ones by lia.
  assert (E : unot w (2 ^ k - 1) = Z.ldiff (Z.ones w) (Z.ones k)).
  { unfold unot. rewrite <- Z.sub_nocarry_ldiff.
    - rewrite !Z.ones_equiv. lia.
    - apply Z.bits_inj'. intros n Hn. rewrite Z.ldiff_spec, Z.bits_0.
      destruct (Z.ltb_spec n k);
        rewrite ?(Z.ones_spec_low k), ?(Z.ones_spec_high k), ?(Z.ones_spec_low w) by lia;
        reflexivity. }
  rewrite E, Z.sub_nocarry_ldiff.
  - apply Z.bits_inj'. intros n Hn.
    rewrite Z.land_spec, !Z.ldiff_spec, Z.land_spec.
    destruct (Z.ltb_spec n w).
    + rewrite (Z.ones_spec_low w) by lia.
      now destruct (Z.testbit x n), (Z.testbit (Z.ones k) n).
    + replace (Z.testbit x n) with false; [reflexivity|].
      symmetry. rewrite <- (Z.mod_small x (2 ^ w)) by lia.
      apply Z.mod_pow2_bits_high; lia.
  - apply Z.bits_inj'. intros n Hn.
    rewrite Z.ldiff_spec, Z.land_spec, Z.bits_0.
    now destruct (Z.testbit x n), (Z.testbit (Z.ones k) n).
Qed.

Lemma land_ones_mod x k : 0 <= k -> Z.land x (2 ^ k - 1) = x mod 2 ^ k.
Proof. intros Hk. rewrite <- Z.land_ones by lia. f_equal. rewrite Z.ones_equiv. lia. Qed.

(** Numbers with no common bit: [or] is [+]. *)
Lemma lor_add_low hi lo k :
  0 <= k -> hi mod 2 ^ k = 0 -> 0 <= lo < 2 ^ k -> Z.lor hi lo = hi + lo.
Proof.
  intros Hk Hhi Hlo. symmetry. apply Z.add_nocarry_lor.
  apply Z.bits_inj'. intros n Hn. rewrite Z.land_spec, Z.bits_0.
  destruct (Z.ltb_spec n k).
  - rewrite <- (Z.mod_pow2_bits_low hi k n), Hhi, Z.bits_0 by lia. reflexivity.
  - rewrite <- (Z.mod_small lo (2 ^ k)), (Z.mod_pow2_bits_high lo k n) by lia.
    apply andb_false_r.
Qed.

Lemma lor_bound a b w : 0 <= w -> 0 <= a < 2 ^ w -> 0 <= b < 2 ^ w -> 0 <= Z.lor a b < 2 ^ w.
Proof.
  intros Hw Ha Hb. split; [apply Z.lor_nonneg; lia|].
  rewrite <- (Z.mod_small a (2 ^ w)), <- (Z.mod_small b (2 ^ w)) by lia.
  rewrite <- !Z.land_ones, <- Z.land_lor_distr_l, Z.land_ones by lia.
  apply Z.mod_pos_bound, Z.pow_pos_nonneg; lia.
Qed.

Lemma land_bound a b w : 0 <= w -> 0 <= b < 2 ^ w -> 0 <= Z.land a b < 2 ^ w.
Proof.
  intros Hw Hb. rewrite <- (Z.mod_small b (2 ^ w)), <- Z.land_ones, Z.land_assoc, Z.land_ones by lia.
  apply Z.mod_pos_bound, Z.pow_pos_nonneg; lia.
Qed.

Lemma testbit_high v i w : 0 <= v < 2 ^ w -> 0 <= w <= i -> Z.testbit v i = false.
Proof.
  intros Hv Hi. rewrite <- (Z.mod_small v (2 ^ w)) by lia.
  apply Z.mod_pow2_bits_high; lia.
Qed.

Lemma pow2_mod_le x j k : 0 <= j <= k -> x mod 2 ^ k = 0 -> x mod 2 ^ j = 0.
Proof.
  intros Hjk Hx.
  rewrite <- (Z.mod_mod_divide x (2 ^ k) (2 ^ j)), Hx.
  - apply Zmod_0_l.
  - exists (2 ^ (k - j)). rewrite <- Z.pow_add_r by lia. f_equal. lia.
Qed.

(** A list without duplicates within a range of integers is no longer than it. *)
Lemma seqZ_bound lo hi (l : list Z) :
  NoDup l -> (forall x, x ∈ l -> lo <= x < hi) -> Z.of_nat (length l) <= Z.max 0 (hi - lo).
Proof.
  intros Hnd Hin. pose proof (submseteq_length l (seqZ lo (hi - lo))) as Hs.
  rewrite length_seqZ in Hs. cut (length l <= Z.to_nat (hi - lo))%nat; [lia|].
  apply Hs, NoDup_submseteq; [assumption|]. intros x Hx%Hin. apply elem_of_seqZ. lia.
Qed.

(** ** Byte-addressed memory

    Raw memory as the unsafe code sees it: an address holds a byte (a cell is
    read modulo 256), words are little endian. *)

Abbreviation mem := (Z -> Z).

Definition load8 (m : mem) (a : Z) : Z := m a mod 256.

Fixpoint load_le (m : mem) (a : Z) (n : nat) : Z :=
  match n with
  | O => 0
  | S n => load8 m a + 256 * load_le m (a + 1) n
  end.

Definition store_le (m : mem) (a : Z) (n : nat) (v : Z) : mem := fun x =>
  if (a <=? x) && (x <? a + Z.of_nat n) then (v / 256 ^ (x - a)) mod 256 else m x.

Definition load64 (m : mem) (a : Z) : Z := load_le m a 8.
Definition store64 (m : mem) (a v : Z) : mem := store_le m a 8 v.

(** [ptr::write_bytes(a, b, n)] *)
Definition write_bytes (m : mem) (a b n : Z) : mem := fun x =>
  if (a <=? x) && (x <? a + n) then b else m x.

(** [ptr::copy_nonoverlapping(src, dst, n)] *)
Definition copy_bytes (m : mem) (src dst n : Z) : mem := fun x =>
  if (dst <=? x) && (x <? dst + n) then m (src + (x - dst)) else m x.

(** [ptr::write] of a byte array. *)
Definition write_list (m : mem) (a : Z) (bs : list Z) : mem := fun x =>
  if (a <=? x) && (x <? a + Z.of_nat (length bs))
  then nth (Z.to_nat (x - a)) bs 0 else m x.

(** The bytes of [m] from [a] to [a + n]. *)
Definition read_list (m : mem) (a : Z) (n : nat) : list Z :=
  (fun i => load8 m (a + i)) <$> seqZ 0 (Z.of_nat n).

Lemma read_list_agree m m' x n : (forall y, x <= y < x + Z.of_nat n -> m y = m' y) -> read_list m x n = read_list m' x n.
Proof.
  intros H'. unfold read_list. apply list_fmap_ext. intros i y Hy%list_elem_of_lookup_2%elem_of_seqZ.
  unfold load8. now rewrite H' by lia.
Qed.

(** Memories that agree on a range of addresses. *)
Definition agree_on (m m' : mem) (lo hi : Z) : Prop :=
  forall x, lo <= x < hi -> m x = m' x.

(** Two ranges [a, a+n) and [b, b+k) that do not meet. *)
Definition ranges_disjoint (a n b k : Z) : Prop := a + n <= b \/ b + k <= a.

Section Memory.
Implicit Types (m : mem) (a b v x : Z) (n k : nat).

Lemma load_le_agree m m' a n :
  agree_on m m' a (a + Z.of_nat n) -> load_le m a n = load_le m' a n.
Proof.
  revert a. induction n as [|n IH]; intros a H; [reflexivity|]. cbn [load_le].
  unfold load8. rewrite (H a), (IH (a + 1)); [reflexivity| |lia].
  intros x Hx. apply H. lia.
Qed.

Lemma load_le_bound m a n : 0 <= load_le m a n < 256 ^ Z.of_nat n.
Proof.
  revert a. induction n as [|n IH]; intros a; [cbn; lia|]. cbn [load_le].
  rewrite Nat2Z.inj_succ, Z.pow_succ_r by lia.
  pose proof (IH (a + 1)). pose proof (Z.mod_pos_bound (m a) 256). unfold load8. lia.
Qed.

Lemma load64_bound m a : 0 <= load64 m a < 2 ^ 64.
Proof. exact (load_le_bound m a 8). Qed.

Lemma store_le_outside m a n v x :
  x < a \/ a + Z.of_nat n <= x -> store_le m a n v x = m x.
Proof.
  intros H. unfold store_le.
  destruct (Z.leb_spec a x), (Z.ltb_spec x (a + Z.of_nat n)); cbn; lia || reflexivity.
Qed.

Lemma load_store_disjoint m a n v b k :
  ranges_disjoint a (Z.of_nat n) b (Z.of_nat k) ->
  load_le (store_le m a n v) b k = load_le m b k.
Proof.
  intros H. apply load_le_agree. intros x Hx. apply store_le_outside.
  unfold ranges_disjoint in H. lia.
Qed.

Lemma load_store_suffix m a n v j k :
  (j + k = n)%nat ->
  load_le (store_le m a n v) (a + Z.of_nat j) k
  = (v / 256 ^ Z.of_nat j) mod 256 ^ Z.of_nat k.
Proof.
  revert j. induction k as [|k IH]; intros j Hjk.
  - cbn. now rewrite Z.mod_1_r.
  - cbn [load_le].
    replace (a + Z.of_nat j + 1) with (a + Z.of_nat (S j)) by lia.
    rewrite IH by lia. unfold load8, store_le.
    replace ((a <=? a + Z.of_nat j) && (a + Z.of_nat j <? a + Z.of_nat n)) with true by lia.
    replace (a + Z.of_nat j - a) with (Z.of_nat j) by lia.
    rewrite Z.mod_mod by lia.
    rewrite !Nat2Z.inj_succ, !Z.pow_succ_r by lia.
    rewrite (Z.mul_comm 256 (256 ^ Z.of_nat j)), <- Z.div_div by lia.
    rewrite Z.rem_mul_r by lia. reflexivity.
Qed.

Lemma load_store_same m a n v :
  0 <= v < 256 ^ Z.of_nat n -> load_le (store_le m a n v) a n = v.
Proof.
  intros Hv. pose proof (load_store_suffix m a n v 0 n eq_refl) as H.
  rewrite Z.add_0_r, Z.pow_0_r, Z.div_1_r, Z.mod_small in H by lia. exact H.
Qed.

Lemma load64_store64_same m a v :
  0 <= v < 2 ^ 64 -> load64 (store64 m a v) a = v.
Proof. exact (load_store_same m a 8 v). Qed.

Lemma load64_store64_other m a v b :
  ranges_disjoint a 8 b 8 -> load64 (store64 m a v) b = load64 m b.
Proof. exact (load_store_disjoint m a 8 v b 8). Qed.

Lemma load64_agree m m' a : agree_on m m' a (a + 8) -> load64 m a = load64 m' a.
Proof. exact (load_le_agree m m' a 8). Qed.

Lemma write_bytes_outside m a b (n : Z) x :
  x < a \/ a + n <= x -> write_bytes m a b n x = m x.
Proof.
  intros H. unfold write_bytes.
  destruct (Z.leb_spec a x), (Z.ltb_spec x (a + n)); cbn; lia || reflexivity.
Qed.

Lemma load64_write_bytes_other m a b (n : Z) c :
  ranges_disjoint a n c 8 -> load64 (write_bytes m a b n) c = load64 m c.
Proof.
  intros H. apply load64_agree. intros x Hx. apply write_bytes_outside.
  unfold ranges_disjoint in H. lia.
Qed.

Lemma write_list_outside m a bs x :
  x < a \/ a + Z.of_nat (length bs) <= x -> write_list m a bs x = m x.
Proof.
  intros H. unfold write_list.
  destruct (Z.leb_spec a x), (Z.ltb_spec x (a + Z.of_nat (length bs))); cbn; lia || reflexivity.
Qed.

Lemma write_list_inside m a bs (i : Z) b :
  0 <= i -> bs !! Z.to_nat i = Some b -> write_list m a bs (a + i) = b.
Proof.
  intros Hi E. pose proof (lookup_lt_Some _ _ _ E). unfold write_list.
  replace ((a <=? a + i) && (a + i <? a + Z.of_nat (length bs))) with true by lia.
  replace (a + i - a) with i by lia. now apply nth_lookup_Some.
Qed.

Lemma load_le_zero m a n :
  (forall x, a <= x < a + Z.of_nat n -> m x = 0) -> load_le m a n = 0.
Proof.
  revert a. induction n as [|n IH]; intros a H; [reflexivity|]. cbn [load_le].
  unfold load8. rewrite H, IH by lia || (intros; apply H; lia). reflexivity.
Qed.

Lemma load64_write_zero m a (n : Z) c :
  a <= c -> c + 8 <= a + n -> load64 (write_bytes m a 0 n) c = 0.
Proof.
  intros H1 H2. apply (load_le_zero _ c 8). intros x Hx. unfold write_bytes.
  replace ((a <=? x) && (x <? a + n)) with true by lia. reflexivity.
Qed.
End Memory.

(** ** Byte strings *)

(** [&raw[a..b]]; out of range panics. *)
Definition slice (raw : list Z) (a b : Z) : outcome (list Z) :=
  if (0 <=? a) && (a <=? b) && (b <=? Z.of_nat (length raw))
  then Ret (take (Z.to_nat (b - a)) (drop (Z.to_nat a) raw)) else Panic IndexOutOfBounds.

(** [uN::from_le_bytes] and [uN::to_le_bytes] *)
Fixpoint from_le_bytes (bs : list Z) : Z :=
  match bs with [] => 0 | b :: bs => b + 256 * from_le_bytes bs end.

Fixpoint to_le_bytes (n : nat) (v : Z) : list Z :=
  match n with O => [] | S n => v mod 256 :: to_le_bytes n (v / 256) end.

Lemma length_to_le_bytes n v : length (to_le_bytes n v) = n.
Proof. revert v. induction n as [|n IH]; intros v; [reflexivity|]. cbn. now rewrite IH. Qed.

Lemma from_to_le_bytes n v : 0 <= v < 256 ^ Z.of_nat n -> from_le_bytes (to_le_bytes n v) = v.
Proof.
  revert v. induction n as [|n IH]; intros v Hv; [cbn in *; lia|]. cbn [to_le_bytes from_le_bytes].
  rewrite Nat2Z.inj_succ, Z.pow_succ_r in Hv by lia.
  rewrite IH; [pose proof (Z.div_mod v 256); lia|].
  split; [apply Z.div_pos; lia | apply Z.div_lt_upper_bound; lia].
Qed.

Lemma lookup_to_le_bytes n v i :
  (i < n)%nat -> to_le_bytes n v !! i = Some ((v / 256 ^ Z.of_nat i) mod 256).
Proof.
  revert v i. induction n as [|n IH]; intros v [|i] Hi; [lia..| |]; cbn [to_le_bytes].
  - cbn. now rewrite Z.div_1_r.
  - cbn [lookup list_lookup]. change (to_le_bytes n (v / 256) !! i = Some ((v / 256 ^ Z.of_nat (S i)) mod 256)).
    rewrite IH by lia. rewrite Nat2Z.inj_succ, Z.pow_succ_r, Z.div_div by lia. reflexivity.
Qed.

(** ** Iterators and [for] loops

    [next] is the [Iterator::next] of the source: it returns the item, if any,
    and the advanced iterator.  [for_loop] is Rust's [for a in it { body }]; the
    fuel bounds the number of calls of [next]. *)

Class Iterator (I A : Type) := next : I -> outcome (option A * I).

Fixpoint for_loop {I A St} `{Iterator I A} (fuel : nat)
    (body : A -> St -> outcome St) (it : I) (s : St) : outcome St :=
  match fuel with
  | O => Panic FuelExhausted
  | S fuel =>
      '(item, it') ← next it;
      match item with
      | None => Ret s
      | Some a => s' ← body a s; for_loop fuel body it' s'
      end
  end.

(** The items of a terminating iterator. *)
Inductive yields {I A} `{Iterator I A} : I -> list A -> Prop :=
  | yields_nil it it' : next it = Ret (None, it') -> yields it []
  | yields_cons it it' a l :
      next it = Ret (Some a, it') -> yields it' l -> yields it (a :: l).

(** What an iterator yields depends on its [next] only. *)
Lemma yields_same_next {I A} `{Iterator I A} (it it' : I) l :
  next it' = next it -> yields it l -> yields it' l.
Proof. intros E Hy. destruct Hy; econstructor; first [now rewrite E; eauto | assumption]. Qed.

Fixpoint fold_outcome {A St} (body : A -> St -> outcome St) (l : list A) (s : St) : outcome St :=
  match l with
  | [] => Ret s
  | a :: l => s' ← body a s; fold_outcome body l s'
  end.

Lemma for_loop_yields {I A St} `{Iterator I A} (body : A -> St -> outcome St) it l fuel s :
  yields it l -> (length l < fuel)%nat ->
  for_loop fuel body it s = fold_outcome body l s.
Proof.
  intros Hy. revert fuel s. induction Hy as [it it' E | it it' a l E Hy IH];
    intros fuel s Hf; (destruct fuel as [|fuel]; [cbn in Hf; lia|]); cbn [for_loop];
    rewrite E; cbn; [reflexivity|].
  destruct (body a s); cbn; [apply IH; cbn in Hf; lia | reflexivity].
Qed.

Lemma fold_outcome_app {A St} (body : A -> St -> outcome St) l1 l2 s :
  fold_outcome body (l1 ++ l2) s = (s' ← fold_outcome body l1 s; fold_outcome body l2 s').
Proof.
  revert s. induction l1 as [|a l1 IH]; intros s; [reflexivity|]. cbn.
  destruct (body a s); cbn; [apply IH | reflexivity].
Qed.
