(* ===== verification/Crates.v ===== *)
(** Third-party crates the sources call: [bit_field] and [bitflags].

    Their code is not part of the repository, so their operations are the
    methods of a class and what their documentation promises are the laws of a
    second, propositional class.  Every component that uses them is
    parameterised by the first; its theorems assume the second.  A reference
    instance of each shows that the laws can hold and lets concrete runs
    evaluate. *)
From Stdlib Require Import ZArith Lia.
From stdpp Require Import base numbers.
From S2P Require Import Prelude.
#[local] Open Scope Z_scope.

(** ** [bit_field::BitField] *)

Class BitField := {
  (** [v.get_bits(lo..hi)] ([hi] exclusive) *)
  get_bits : Z -> Z -> Z -> Z;
  (** [v.set_bits(lo..hi, x)], the new value of [v]; panics when [x] has a bit
      outside the range *)
  set_bits : Z -> Z -> Z -> Z -> outcome Z;
  (** [v.set_bit(i, b)], the new value of [v] *)
  set_bit : Z -> Z -> bool -> Z;
}.

Class BitFieldSpec (B : BitField) : Prop := {
  get_bits_spec v lo hi :
    0 <= v < 2 ^ 64 -> 0 <= lo < hi -> hi <= 64 ->
    get_bits v lo hi = (v / 2 ^ lo) mod 2 ^ (hi - lo);
  set_bits_spec v lo hi x :
    0 <= v < 2 ^ 64 -> 0 <= lo < hi -> hi <= 64 -> 0 <= x < 2 ^ (hi - lo) ->
    exists r, set_bits v lo hi x = Ret r /\ 0 <= r < 2 ^ 64 /\
      forall i, 0 <= i ->
        Z.testbit r i = if (lo <=? i) && (i <? hi) then Z.testbit x (i - lo)
                        else Z.testbit v i;
  set_bits_panics v lo hi x :
    0 <= v < 2 ^ 64 -> 0 <= lo < hi -> hi <= 64 -> 2 ^ (hi - lo) <= x ->
    set_bits v lo hi x = Panic AssertFailed;
  set_bit_spec v i b :
    0 <= v < 2 ^ 64 -> 0 <= i < 64 ->
    0 <= set_bit v i b < 2 ^ 64 /\
    forall j, 0 <= j -> Z.testbit (set_bit v i b) j = if j =? i then b else Z.testbit v j;
}.

(** ** [bitflags!]

    A flags type is its bits; the operations below are the generated methods.
    [all] is the union of the flags the type declares. *)

Class Bitflags := {
  (** [a | b] *)
  flags_union : Z -> Z -> Z;
  (** [a & b] *)
  flags_inter : Z -> Z -> Z;
  (** [!a], within the declared flags [all] *)
  flags_complement : Z -> Z -> Z;
  (** [a.contains(b)] *)
  flags_contains : Z -> Z -> bool;
  (** [a.is_empty()] *)
  flags_is_empty : Z -> bool;
  (** [T::from_bits_truncate(bits)] *)
  flags_from_bits_truncate : Z -> Z -> Z;
  (** [T::from_bits(bits)] *)
  flags_from_bits : Z -> Z -> option Z;
}.

Class BitflagsSpec (F : Bitflags) : Prop := {
  flags_union_spec a b : flags_union a b = Z.lor a b;
  flags_inter_spec a b : flags_inter a b = Z.land a b;
  flags_complement_spec all a : flags_complement all a = Z.ldiff all a;
  flags_contains_spec a b : flags_contains a b = true <-> Z.land a b = b;
  flags_is_empty_spec a : flags_is_empty a = true <-> a = 0;
  flags_from_bits_truncate_spec all bits :
    flags_from_bits_truncate all bits = Z.land bits all;
  flags_from_bits_spec all bits :
    flags_from_bits all bits = if Z.land bits all =? bits then Some bits else None;
}.

(** ** Reference instances *)

#[local] Instance ref_bit_field : BitField := {
  get_bits v lo hi := Z.land (Z.shiftr v lo) (Z.ones (hi - lo));
  set_bits v lo hi x :=
    if Z.shiftr x (hi - lo) =? 0
    then Ret (Z.lor (Z.ldiff v (Z.shiftl (Z.ones (hi - lo)) lo)) (Z.shiftl x lo))
    else Panic AssertFailed;
  set_bit v i b := if b then Z.setbit v i else Z.clearbit v i;
}.

#[local] Instance ref_bitflags : Bitflags := {
  flags_union := Z.lor;
  flags_inter := Z.land;
  flags_complement := Z.ldiff;
  flags_contains a b := Z.land a b =? b;
  flags_is_empty a := a =? 0;
  flags_from_bits_truncate all bits := Z.land bits all;
  flags_from_bits all bits := if Z.land bits all =? bits then Some bits else None;
}.

Lemma ref_bitflags_ok : BitflagsSpec ref_bitflags.
Proof. split; intros; cbn; rewrite ?Z.eqb_eq; reflexivity. Qed.

Lemma bits_below v w : 0 <= w -> 0 <= v ->
  (forall i, w <= i -> Z.testbit v i = false) -> v < 2 ^ w.
Proof.
  intros Hw Hv H. destruct (Z.ltb_spec v (2 ^ w)) as [|Hge]; [lia|].
  assert (Hpos : 0 < 2 ^ w) by (apply Z.pow_pos_nonneg; lia).
  pose proof (Z.bit_log2 v ltac:(lia)) as Hb.
  rewrite H in Hb; [discriminate|]. apply Z.log2_le_pow2; lia.
Qed.

Lemma ref_bit_field_ok : BitFieldSpec ref_bit_field.
Proof.
  split; intros; cbn -[Z.testbit Z.ldiff Z.shiftl Z.pow Z.setbit Z.clearbit].
  - rewrite Z.land_ones, Z.shiftr_div_pow2 by lia. reflexivity.
  - rewrite Z.shiftr_div_pow2, Z.div_small by lia. cbn -[Z.testbit Z.ldiff Z.shiftl Z.pow].
    eexists; split; [reflexivity|].
    assert (Hbits : forall i, 0 <= i ->
      Z.testbit (Z.lor (Z.ldiff v (Z.shiftl (Z.ones (hi - lo)) lo)) (Z.shiftl x lo)) i
      = if (lo <=? i) && (i <? hi) then Z.testbit x (i - lo) else Z.testbit v i).
    { intros i Hi. rewrite Z.lor_spec, Z.ldiff_spec, !Z.shiftl_spec by lia.
      destruct (Z.leb_spec lo i), (Z.ltb_spec i hi); cbn [andb].
      - rewrite Z.ones_spec_low by lia. now rewrite andb_false_r.
      - rewrite Z.ones_spec_high, (testbit_high x (i - lo) (hi - lo)) by lia.
        now rewrite andb_true_r, orb_false_r.
      - rewrite !(Z.testbit_neg_r _ (i - lo)) by lia. now rewrite andb_true_r, orb_false_r.
      - rewrite !(Z.testbit_neg_r _ (i - lo)) by lia. now rewrite andb_true_r, orb_false_r. }
    split; [|exact Hbits].
    assert (Hnn : 0 <= Z.lor (Z.ldiff v (Z.shiftl (Z.ones (hi - lo)) lo)) (Z.shiftl x lo)).
    { apply Z.lor_nonneg. split; [apply Z.ldiff_nonneg; lia | apply Z.shiftl_nonneg; lia]. }
    split; [exact Hnn|]. apply bits_below; [lia|exact Hnn|].
    intros i Hi. rewrite Hbits by lia.
    replace ((lo <=? i) && (i <? hi)) with false by lia. apply (testbit_high v i 64); lia.
  - rewrite Z.shiftr_div_pow2 by lia.
    assert (1 <= x / 2 ^ (hi - lo)) by (apply Z.div_le_lower_bound; lia).
    destruct (Z.eqb_spec (x / 2 ^ (hi - lo)) 0); [lia | reflexivity].
  - assert (Hbits : forall j, 0 <= j ->
      Z.testbit (if b then Z.setbit v i else Z.clearbit v i) j
      = if j =? i then b else Z.testbit v j).
    { intros j Hj. destruct (Z.eqb_spec j i) as [->|Hne], b.
      - apply Z.setbit_eq; lia.
      - apply Z.clearbit_eq.
      - apply Z.setbit_neq; lia.
      - apply Z.clearbit_neq; lia. }
    split; [|exact Hbits].
    assert (Hnn : 0 <= if b then Z.setbit v i else Z.clearbit v i).
    { unfold Z.setbit, Z.clearbit. destruct b; [apply Z.lor_nonneg | apply Z.ldiff_nonneg].
      - split; [lia | apply Z.shiftl_nonneg; lia].
      - lia. }
    split; [exact Hnn|]. apply bits_below; [lia|exact Hnn|].
    intros j Hj. rewrite Hbits by lia.
    replace (j =? i) with false by lia. apply (testbit_high v j 64); lia.
Qed.
