(* ===== verification/Memory.v ===== *)
(** Addresses, frames, pages and memory regions: [x86_64/src/memory.rs].

    [PhysicalAddress] and [VirtualAddress] are newtypes over [u64] and are kept
    as [Z]; arithmetic is checked at 64 bits.  A frame or page carries its page
    size as a phantom index, as [PhysicalFrame<S>] and [Page<S>] do. *)
From Stdlib Require Import ZArith Lia.
From stdpp Require Import base tactics numbers list.
From S2P Require Import Prelude Crates.
#[local] Open Scope Z_scope.

Definition KIB : Z := 1024.
Definition MIB : Z := KIB * 1024.
Definition GIB : Z := MIB * 1024.
Definition TIB : Z := GIB * 1024.

(** ** Memory regions *)

Class MemoryRegion (D : Type) := {
  region_start : D -> Z;
  region_set_start : D -> Z -> D;
  region_end : D -> outcome Z;
  region_size : D -> Z;
  region_set_size : D -> Z -> D;
  region_contains : D -> Z -> outcome bool;
  region_is_usable : D -> bool;
}.

Record Region := { r_start : Z; r_size : Z }.

Definition Region_new (start len : Z) : Region := {| r_start := start; r_size := len |}.

#[global] Instance Region_MemoryRegion : MemoryRegion Region := {
  region_start r := r_start r;
  region_end r := uadd 64 (r_start r) (r_size r);
  region_size r := r_size r;
  region_contains r address :=
    if r_start r <=? address then
      e ← uadd 64 (r_start r) (r_size r); Ret (address <=? e)
    else Ret false;
  region_is_usable _ := true;
  region_set_start r start := {| r_start := start; r_size := r_size r |};
  region_set_size r size := {| r_start := r_start r; r_size := size |};
}.

Inductive PhysicalMemoryRegionType := Reserved | Free | Used.

#[global] Instance PhysicalMemoryRegionType_eq_dec : EqDecision PhysicalMemoryRegionType.
Proof. solve_decision. Defined.

Record PhysicalMemoryRegion := {
  pmr_start : Z;
  pmr_size : Z;
  pmr_typ : PhysicalMemoryRegionType;
}.

#[global] Instance PhysicalMemoryRegion_eq_dec : EqDecision PhysicalMemoryRegion.
Proof. solve_decision. Defined.

Definition PhysicalMemoryRegion_new (start size : Z) (typ : PhysicalMemoryRegionType) :
    PhysicalMemoryRegion :=
  {| pmr_start := start; pmr_size := size; pmr_typ := typ |}.

Definition PhysicalMemoryRegion_address (r : PhysicalMemoryRegion) : Z := pmr_start r.

#[global] Instance PhysicalMemoryRegion_MemoryRegion : MemoryRegion PhysicalMemoryRegion := {
  region_start r := pmr_start r;
  region_end r := uadd 64 (pmr_start r) (pmr_size r);
  region_size r := pmr_size r;
  region_contains r address :=
    if pmr_start r <=? address then
      e ← uadd 64 (pmr_start r) (pmr_size r); Ret (address <=? e)
    else Ret false;
  region_is_usable r := bool_decide (pmr_typ r = Free);
  region_set_start r start :=
    {| pmr_start := start; pmr_size := pmr_size r; pmr_typ := pmr_typ r |};
  region_set_size r size :=
    {| pmr_start := pmr_start r; pmr_size := size; pmr_typ := pmr_typ r |};
}.

(** ** Page sizes *)

Inductive PageSize := Size4KiB | Size2MiB.

Definition SIZE (S : PageSize) : Z :=
  match S with Size4KiB => 0x1000 | Size2MiB => 0x200000 end.

(** ** Addresses *)

Definition PhysicalAddress : Set := Z.
Definition VirtualAddress : Set := Z.

(** [self.0 & !(align - 1)] *)
Definition phys_align_down (a align : Z) : outcome PhysicalAddress :=
  k ← usub 64 align 1; Ret (Z.land a (unot 64 k)).

(** [(self.0 + align - 1) & !(align - 1)] *)
Definition phys_align_up (a align : Z) : outcome PhysicalAddress :=
  s ← uadd 64 a align; s ← usub 64 s 1; k ← usub 64 align 1; Ret (Z.land s (unot 64 k)).

Definition phys_add (a rhs : Z) : outcome PhysicalAddress := uadd 64 a rhs.

(** [self.0.checked_sub(rhs).unwrap()] *)
Definition phys_sub (a rhs : Z) : outcome Z :=
  unwrap (if rhs <=? a then Some (a - rhs) else None).

Definition phys_add_assign (a rhs : Z) : outcome PhysicalAddress := uadd 64 a rhs.

Definition virt_is_aligned (a align : Z) : outcome bool :=
  k ← usub 64 align 1; Ret (Z.land a k =? 0).

Definition virt_align_down (a align : Z) : outcome VirtualAddress :=
  k ← usub 64 align 1; Ret (Z.land a (unot 64 k)).

Definition virt_align_up (a align : Z) : outcome VirtualAddress :=
  s ← uadd 64 a align; s ← usub 64 s 1; k ← usub 64 align 1; Ret (Z.land s (unot 64 k)).

Definition virt_add (a rhs : Z) : outcome VirtualAddress := uadd 64 a rhs.

(** [Add<VirtualAddress>] *)
Definition virt_add_virt (a rhs : VirtualAddress) : outcome VirtualAddress := uadd 64 a rhs.

Definition virt_sub (a rhs : Z) : outcome Z :=
  unwrap (if rhs <=? a then Some (a - rhs) else None).

Definition virt_add_assign (a rhs : Z) : outcome VirtualAddress := uadd 64 a rhs.

Section Indices.
Context `{BF : BitField}.

Definition l4_index (a : VirtualAddress) : Z := get_bits a 39 48.
Definition l3_index (a : VirtualAddress) : Z := get_bits a 30 39.
Definition l2_index (a : VirtualAddress) : Z := get_bits a 21 30.
Definition l1_index (a : VirtualAddress) : Z := get_bits a 12 21.
End Indices.

(** ** Frames *)

Record PhysicalFrame (S : PageSize) := mkFrame { frame_address : PhysicalAddress }.
Arguments mkFrame S frame_address : clear implicits.
Arguments frame_address {S} _.

#[global] Instance PhysicalFrame_eq_dec S : EqDecision (PhysicalFrame S).
Proof. solve_decision. Defined.

Definition frame_containing_address (S : PageSize) (a : PhysicalAddress) :
    outcome (PhysicalFrame S) :=
  a' ← phys_align_down a (SIZE S); Ret (mkFrame S a').

Definition frame_start {S} (f : PhysicalFrame S) : Z := frame_address f.
Definition frame_size {S} (f : PhysicalFrame S) : Z := SIZE S.
Definition frame_end {S} (f : PhysicalFrame S) : outcome Z :=
  uadd 64 (frame_start f) (frame_size f).

(** [frame + n], [frame - n] in units of [S::SIZE]; [frame - frame]. *)
Definition frame_add {S} (f : PhysicalFrame S) (rhs : Z) : outcome (PhysicalFrame S) :=
  d ← umul 64 rhs (SIZE S); a ← phys_add (frame_address f) d; frame_containing_address S a.
(** [Add<PhysicalFrame>]: the sum of the addresses. *)
Definition frame_add_frame {S} (f rhs : PhysicalFrame S) : outcome Z := phys_add (frame_address f) (frame_address rhs).
Definition frame_sub {S} (f : PhysicalFrame S) (rhs : Z) : outcome (PhysicalFrame S) :=
  d ← umul 64 rhs (SIZE S); a ← phys_sub (frame_address f) d; frame_containing_address S a.
Definition frame_diff {S} (f rhs : PhysicalFrame S) : outcome Z :=
  d ← usub 64 (frame_address f) (frame_address rhs); udiv d (SIZE S).
Definition frame_add_assign {S} (f : PhysicalFrame S) (rhs : Z) : outcome (PhysicalFrame S) :=
  d ← umul 64 (SIZE S) rhs; a ← phys_add_assign (frame_address f) d; Ret (mkFrame S a).

Record PhysicalFrameRangeInclusive (S : PageSize) := mkFrameRange {
  fr_start : PhysicalFrame S;
  fr_end : PhysicalFrame S;
}.
Arguments mkFrameRange {S} _ _.
Arguments fr_start {S} _.
Arguments fr_end {S} _.

Definition frame_range_inclusive {S} (a b : PhysicalFrame S) : PhysicalFrameRangeInclusive S :=
  mkFrameRange a b.

Definition frame_range_next {S} (r : PhysicalFrameRangeInclusive S) :
    outcome (option (PhysicalFrame S) * PhysicalFrameRangeInclusive S) :=
  if frame_address (fr_start r) <=? frame_address (fr_end r) then
    let frame := fr_start r in
    start' ← frame_add_assign (fr_start r) 1;
    Ret (Some frame, mkFrameRange start' (fr_end r))
  else Ret (None, r).

#[global] Instance frame_range_iterator S :
  Iterator (PhysicalFrameRangeInclusive S) (PhysicalFrame S) := frame_range_next.

(** ** Pages *)

Record Page (S : PageSize) := mkPage { page_address : VirtualAddress }.
Arguments mkPage S page_address : clear implicits.
Arguments page_address {S} _.

#[global] Instance Page_eq_dec S : EqDecision (Page S).
Proof. solve_decision. Defined.

Definition page_containing_address (S : PageSize) (a : VirtualAddress) : outcome (Page S) :=
  a' ← virt_align_down a (SIZE S); Ret (mkPage S a').

Definition page_for_address (S : PageSize) (a : VirtualAddress) : outcome (Page S) :=
  b ← virt_is_aligned a (SIZE S); _ ← assert_true b; Ret (mkPage S a).

Definition page_size {S} (p : Page S) : Z := SIZE S.
Definition page_end {S} (p : Page S) : outcome VirtualAddress := virt_add (page_address p) (SIZE S).
Definition page_start {S} (p : Page S) : Z := page_address p.

Definition page_add {S} (p : Page S) (rhs : Z) : outcome (Page S) :=
  d ← umul 64 rhs (SIZE S); a ← virt_add (page_address p) d; page_containing_address S a.
Definition page_sub {S} (p : Page S) (rhs : Z) : outcome (Page S) :=
  d ← umul 64 rhs (SIZE S); a ← virt_sub (page_address p) d; page_containing_address S a.
Definition page_diff {S} (p rhs : Page S) : outcome Z :=
  d ← usub 64 (page_address p) (page_address rhs); udiv d (SIZE S).
Definition page_add_assign {S} (p : Page S) (rhs : Z) : outcome (Page S) :=
  d ← umul 64 (SIZE S) rhs; a ← virt_add_assign (page_address p) d; Ret (mkPage S a).

Record PageRangeInclusive (S : PageSize) := mkPageRange {
  pr_start : Page S;
  pr_end : Page S;
}.
Arguments mkPageRange {S} _ _.
Arguments pr_start {S} _.
Arguments pr_end {S} _.

Definition page_range_inclusive {S} (a b : Page S) : PageRangeInclusive S := mkPageRange a b.

Definition page_range_next {S} (r : PageRangeInclusive S) :
    outcome (option (Page S) * PageRangeInclusive S) :=
  if page_address (pr_start r) <=? page_address (pr_end r) then
    let page := pr_start r in
    start' ← page_add_assign (pr_start r) 1;
    Ret (Some page, mkPageRange start' (pr_end r))
  else Ret (None, r).

#[global] Instance page_range_iterator S :
  Iterator (PageRangeInclusive S) (Page S) := page_range_next.

(** ** The frame allocator interface

    [unsafe trait FrameAllocator]: the implementer guarantees that
    [allocate_frame] returns only unique unused frames.  [fa_free a f] reads
    "[a] may still hand out the frame at address [f]"; the laws state the
    guarantee, for allocators in a state [fa_ok].  Nothing is promised of an
    allocator that has once been exhausted. *)

Class FrameAllocator (A : Type) :=
  allocate_frame : A -> outcome (option (PhysicalFrame Size4KiB) * A).

Definition valid_frame (f : Z) : Prop := 0 <= f < 2 ^ 48 /\ f mod 4096 = 0.

Class FrameAllocatorSpec (A : Type) `{FrameAllocator A} := {
  fa_ok : A -> Prop;
  fa_free : A -> Z -> Prop;
  (** the number of frames left *)
  fa_avail : A -> Z;
  fa_total a : fa_ok a ->
    exists r a', allocate_frame a = Ret (r, a') /\
      match r with
      | Some _ => fa_ok a' /\ fa_avail a' = fa_avail a - 1
      | None => fa_avail a = 0
      end;
  fa_unique a f a' :
    fa_ok a -> allocate_frame a = Ret (Some f, a') ->
    fa_free a (frame_address f) /\ ~ fa_free a' (frame_address f);
  fa_shrinks a r a' g :
    fa_ok a -> allocate_frame a = Ret (r, a') -> fa_free a' g -> fa_free a g;
  fa_valid a g : fa_ok a -> fa_free a g -> valid_frame g;
}.

(** ** Theorems *)

Definition page_shift (S : PageSize) : Z := match S with Size4KiB => 12 | Size2MiB => 21 end.

Lemma SIZE_pow2 S : SIZE S = 2 ^ page_shift S.
Proof. now destruct S. Qed.

Lemma SIZE_pos S : 0 < SIZE S.
Proof. now destruct S. Qed.

Lemma page_shift_range S : 0 <= page_shift S < 64.
Proof. destruct S; cbn; lia. Qed.

#[export] Hint Resolve SIZE_pos page_shift_range : core.

Lemma align_down_pow2 a k :
  0 <= k < 64 -> in_width 64 a ->
  (t ← usub 64 (2 ^ k) 1; Ret (Z.land a (unot 64 t))) = Ret (a - a mod 2 ^ k).
Proof.
  intros Hk Ha.
  assert (0 < 2 ^ k < 2 ^ 64)
    by (split; [apply Z.pow_pos_nonneg; lia | apply Z.pow_lt_mono_r; lia]).
  unfold usub. rewrite checked_ok by lia. cbn -[Z.pow Z.land Z.modulo].
  rewrite land_unot_mask by (unfold in_width in Ha; lia). reflexivity.
Qed.

Lemma frame_containing_eq S a :
  in_width 64 a -> frame_containing_address S a = Ret (mkFrame S (a - a mod SIZE S)).
Proof.
  intros Ha. unfold frame_containing_address, phys_align_down.
  rewrite SIZE_pow2, align_down_pow2 by auto. reflexivity.
Qed.

Lemma page_containing_eq S a :
  in_width 64 a -> page_containing_address S a = Ret (mkPage S (a - a mod SIZE S)).
Proof.
  intros Ha. unfold page_containing_address, virt_align_down.
  rewrite SIZE_pow2, align_down_pow2 by auto. reflexivity.
Qed.

Lemma sub_mod_aligned a n : 0 < n -> (a - a mod n) mod n = 0.
Proof. intros Hn. rewrite Zminus_mod_idemp_r, Z.sub_diag. apply Zmod_0_l. Qed.

Lemma align_up_pow2 a k :
  0 <= k < 64 -> 0 <= a -> a + 2 ^ k <= 2 ^ 64 - 1 ->
  virt_align_up a (2 ^ k) = Ret (a + (- a) mod 2 ^ k).
Proof.
  intros Hk Ha Hsum.
  assert (0 < 2 ^ k) by (apply Z.pow_pos_nonneg; lia).
  unfold virt_align_up, uadd, usub.
  repeat (rewrite checked_ok by lia; cbn -[Z.pow Z.land Z.modulo]).
  rewrite land_unot_mask by lia. f_equal.
  pose proof (Z.div_mod (a + 2 ^ k - 1) (2 ^ k)). pose proof (Z.div_mod (- a) (2 ^ k)).
  pose proof (Z.mod_pos_bound (a + 2 ^ k - 1) (2 ^ k)). pose proof (Z.mod_pos_bound (- a) (2 ^ k)).
  assert ((a + 2 ^ k - 1) / 2 ^ k = - (- a / 2 ^ k)); [|nia].
  symmetry. apply Z.div_unique with (r := 2 ^ k - 1 - (- a) mod 2 ^ k); nia.
Qed.

(** [align_up] to a power of two never panics below the top of the address
    space, and gives the least multiple of the alignment not below the address. *)
Theorem virt_align_up_spec a k :
  0 <= k < 64 -> 0 <= a -> a + 2 ^ k < 2 ^ 64 ->
  exists r, virt_align_up a (2 ^ k) = Ret r /\ r mod 2 ^ k = 0 /\ a <= r /\
    forall s, s mod 2 ^ k = 0 -> a <= s -> r <= s.
Proof.
  intros Hk Ha Hsum. eexists. split; [apply align_up_pow2; lia|].
  assert (Hp : 0 < 2 ^ k) by (apply Z.pow_pos_nonneg; lia).
  assert (Hm : (a + (- a) mod 2 ^ k) mod 2 ^ k = 0)
    by (rewrite Zplus_mod_idemp_r, Z.add_opp_diag_r; apply Zmod_0_l).
  pose proof (Z.mod_pos_bound (- a) (2 ^ k) Hp) as Hb. split; [exact Hm|]. split; [lia|].
  intros s Hs Hle. apply Z.mod_divide in Hs as [x ->]; [|lia]. apply Z.mod_divide in Hm as [y Hy]; [|lia].
  rewrite Hy in *. assert (y < x + 1) by nia. nia.
Qed.

(** *** Ranges *)

Definition pages_from (S : PageSize) (a n : Z) : list (Page S) :=
  (fun i => mkPage S (a + i * SIZE S)) <$> seqZ 0 n.
Definition frames_from (S : PageSize) (a n : Z) : list (PhysicalFrame S) :=
  (fun i => mkFrame S (a + i * SIZE S)) <$> seqZ 0 n.

Lemma from_cons {A} (f : Z -> A) n :
  0 < n -> f <$> seqZ 0 n = f 0 :: ((fun i => f (1 + i)) <$> seqZ 0 (n - 1)).
Proof.
  intros Hn. rewrite seqZ_cons by lia. cbn. f_equal.
  replace (Z.succ 0) with (1 + 0) by lia. replace (Z.pred n) with (n - 1) by lia.
  rewrite <- (fmap_add_seqZ 1 0), <- list_fmap_compose. reflexivity.
Qed.

Lemma pages_from_cons S a n :
  0 < n -> pages_from S a n = mkPage S a :: pages_from S (a + SIZE S) (n - 1).
Proof.
  intros Hn. unfold pages_from. rewrite from_cons by lia. f_equal.
  - f_equal. lia.
  - apply list_fmap_ext. intros _ i _. f_equal. lia.
Qed.

Lemma frames_from_cons S a n :
  0 < n -> frames_from S a n = mkFrame S a :: frames_from S (a + SIZE S) (n - 1).
Proof.
  intros Hn. unfold frames_from. rewrite from_cons by lia. f_equal.
  - f_equal. lia.
  - apply list_fmap_ext. intros _ i _. f_equal. lia.
Qed.

(** An inclusive page range yields every page from the first to the last. *)
Lemma page_range_yields S a n :
  0 <= n -> 0 <= a -> a + n * SIZE S < 2 ^ 64 ->
  yields (page_range_inclusive (mkPage S a) (mkPage S (a + (n - 1) * SIZE S)))
         (pages_from S a n).
Proof.
  intros Hn. remember (a + (n - 1) * SIZE S) as e eqn:Ee. revert a Ee.
  pose proof (SIZE_pos S) as HS.
  revert Hn. apply (natlike_ind (fun n => forall a, e = a + (n - 1) * SIZE S -> 0 <= a ->
    a + n * SIZE S < 2 ^ 64 -> yields (page_range_inclusive (mkPage S a) (mkPage S e))
    (pages_from S a n))).
  - intros b -> _ _. eapply yields_nil. unfold next, page_range_iterator, page_range_next. cbn -[SIZE Z.mul].
    rewrite (proj2 (Z.leb_gt b _)) by nia. reflexivity.
  - intros m Hm IH b -> Hb Hle. rewrite pages_from_cons by lia.
    assert (b + 1 * SIZE S <= b + Z.succ m * SIZE S) by nia.
    eapply yields_cons.
    + unfold next, page_range_iterator, page_range_next. cbn -[SIZE Z.pow Z.mul].
      rewrite (proj2 (Z.leb_le b _)) by nia.
      unfold page_add_assign, umul, virt_add_assign, uadd.
      rewrite checked_ok by lia. cbn -[SIZE Z.pow Z.mul].
      rewrite checked_ok by lia. reflexivity.
    + rewrite Z.mul_1_r. replace (pages_from S (b + SIZE S) (Z.succ m - 1)) with (pages_from S (b + SIZE S) m) by (f_equal; lia).
      apply IH; nia.
Qed.

Lemma frame_range_yields S a n :
  0 <= n -> 0 <= a -> a + n * SIZE S < 2 ^ 64 ->
  yields (frame_range_inclusive (mkFrame S a) (mkFrame S (a + (n - 1) * SIZE S)))
         (frames_from S a n).
Proof.
  intros Hn. remember (a + (n - 1) * SIZE S) as e eqn:Ee. revert a Ee.
  pose proof (SIZE_pos S) as HS.
  revert Hn. apply (natlike_ind (fun n => forall a, e = a + (n - 1) * SIZE S -> 0 <= a ->
    a + n * SIZE S < 2 ^ 64 -> yields (frame_range_inclusive (mkFrame S a) (mkFrame S e))
    (frames_from S a n))).
  - intros b -> _ _. eapply yields_nil. unfold next, frame_range_iterator, frame_range_next. cbn -[SIZE Z.mul].
    rewrite (proj2 (Z.leb_gt b _)) by nia. reflexivity.
  - intros m Hm IH b -> Hb Hle. rewrite frames_from_cons by lia.
    assert (b + 1 * SIZE S <= b + Z.succ m * SIZE S) by nia.
    eapply yields_cons.
    + unfold next, frame_range_iterator, frame_range_next. cbn -[SIZE Z.pow Z.mul].
      rewrite (proj2 (Z.leb_le b _)) by nia.
      unfold frame_add_assign, umul, phys_add_assign, uadd.
      rewrite checked_ok by lia. cbn -[SIZE Z.pow Z.mul].
      rewrite checked_ok by lia. reflexivity.
    + rewrite Z.mul_1_r. replace (frames_from S (b + SIZE S) (Z.succ m - 1)) with (frames_from S (b + SIZE S) m) by (f_equal; lia).
      apply IH; nia.
Qed.

(** A [for] loop over an inclusive page range runs its body on every page from
    the first to the last, in order and once, and then stops; an empty range runs
    it never. *)
Theorem page_range_loop {St} S (body : Page S -> St -> outcome St) a n fuel (s : St) :
  0 <= n -> 0 <= a -> a + n * SIZE S < 2 ^ 64 -> n < Z.of_nat fuel ->
  for_loop fuel body (page_range_inclusive (mkPage S a) (mkPage S (a + (n - 1) * SIZE S))) s
  = fold_outcome body (pages_from S a n) s.
Proof.
  intros Hn Ha He Hf. apply for_loop_yields; [now apply page_range_yields|].
  unfold pages_from. rewrite length_fmap, length_seqZ. lia.
Qed.

(** *** Page-table indices *)

Section IndexLemmas.
Context `{BF : BitField} `{BFS : !BitFieldSpec BF}.

Lemma l4_index_eq a : in_width 64 a -> l4_index a = (a / 2 ^ 39) mod 512.
Proof. intros [? ?]. unfold l4_index. rewrite get_bits_spec by lia. reflexivity. Qed.
Lemma l3_index_eq a : in_width 64 a -> l3_index a = (a / 2 ^ 30) mod 512.
Proof. intros [? ?]. unfold l3_index. rewrite get_bits_spec by lia. reflexivity. Qed.
Lemma l2_index_eq a : in_width 64 a -> l2_index a = (a / 2 ^ 21) mod 512.
Proof. intros [? ?]. unfold l2_index. rewrite get_bits_spec by lia. reflexivity. Qed.
Lemma l1_index_eq a : in_width 64 a -> l1_index a = (a / 2 ^ 12) mod 512.
Proof. intros [? ?]. unfold l1_index. rewrite get_bits_spec by lia. reflexivity. Qed.

Lemma index_range a : in_width 64 a ->
  0 <= l4_index a < 512 /\ 0 <= l3_index a < 512 /\
  0 <= l2_index a < 512 /\ 0 <= l1_index a < 512.
Proof.
  intros Ha. rewrite l4_index_eq, l3_index_eq, l2_index_eq, l1_index_eq by exact Ha.
  repeat split; apply Z.mod_pos_bound; lia.
Qed.

(** The four table indices and the page offset determine the low 48 bits of
    an address. *)
Lemma indices_decompose a : in_width 64 a ->
  a mod 2 ^ 48 = l4_index a * 2 ^ 39 + l3_index a * 2 ^ 30 + l2_index a * 2 ^ 21
                 + l1_index a * 2 ^ 12 + a mod 4096.
Proof.
  intros Ha. rewrite l4_index_eq, l3_index_eq, l2_index_eq, l1_index_eq by exact Ha.
  change (2 ^ 48) with (2 ^ 39 * 512). rewrite Z.rem_mul_r by lia.
  change (2 ^ 39) with (2 ^ 30 * 512) at 1. rewrite Z.rem_mul_r by lia.
  change (2 ^ 30) with (2 ^ 21 * 512) at 1. rewrite Z.rem_mul_r by lia.
  change (2 ^ 21) with (2 ^ 12 * 512) at 1. rewrite Z.rem_mul_r by lia.
  change 4096 with (2 ^ 12). lia.
Qed.

(** Two addresses of the lower half of the address space with the same four
    table indices lie in the same page. *)
Theorem same_indices_same_page a b :
  0 <= a < 2 ^ 48 -> 0 <= b < 2 ^ 48 ->
  l4_index a = l4_index b -> l3_index a = l3_index b ->
  l2_index a = l2_index b -> l1_index a = l1_index b ->
  page_containing_address Size4KiB a = page_containing_address Size4KiB b.
Proof.
  intros Ha Hb E4 E3 E2 E1. rewrite !page_containing_eq by (unfold in_width; lia).
  pose proof (indices_decompose a) as Da. pose proof (indices_decompose b) as Db.
  unfold in_width in *. rewrite !Z.mod_small in Da, Db by lia.
  cbn [SIZE]. change 0x1000 with 4096. do 2 f_equal. rewrite E4, E3, E2, E1 in Da. lia.
Qed.
End IndexLemmas.

(** ** Concrete instances *)

Lemma virt_align_up_spec_witness :
  exists r, virt_align_up 0x12345 (2 ^ 12) = Ret r /\ r mod 2 ^ 12 = 0 /\ 0x12345 <= r /\
    forall s, s mod 2 ^ 12 = 0 -> 0x12345 <= s -> r <= s.
Proof. apply (virt_align_up_spec 0x12345 12); lia. Defined.

Lemma page_range_loop_witness :
  for_loop 4 (fun p s => Ret (page_address p :: s))
    (page_range_inclusive (mkPage Size4KiB 0x1000) (mkPage Size4KiB (0x1000 + (3 - 1) * SIZE Size4KiB))) []
  = fold_outcome (fun p s => Ret (page_address p :: s)) (pages_from Size4KiB 0x1000 3) [].
Proof.
  apply (page_range_loop Size4KiB (fun p s => Ret (page_address p :: s)) 0x1000 3 4 []); cbn [SIZE]; lia.
Defined.

Section IndexWitness.
#[local] Existing Instances ref_bit_field ref_bit_field_ok.

Lemma same_indices_same_page_witness :
  page_containing_address Size4KiB 0x7f0000201123 = page_containing_address Size4KiB 0x7f0000201fff.
Proof.
  apply (same_indices_same_page 0x7f0000201123 0x7f0000201fff); [lia | lia | reflexivity..].
Defined.
End IndexWitness.
