(* ===== verification/Paging.v ===== *)
(** Page tables: [x86_64/src/paging/mod.rs], [mapped_page_table.rs] and
    [offset_page_table.rs].

    A page table is the 512 little-endian words at its virtual address in the
    byte memory of the prelude; an entry is its 64 bits.  The walker reaches a
    table through [frame_to_virtual], as the source does.  The mapper threads
    the memory and the frame allocator; an error returned after some tables were
    allocated keeps those tables, as in the source. *)
From Stdlib Require Import ZArith Lia.
From stdpp Require Import base tactics numbers list.
From S2P Require Import Prelude Crates Memory.
#[local] Open Scope Z_scope.

(** ** [PageTableEntryFlags] *)

Definition NONE : Z := 0.
Definition PRESENT : Z := 1.
Definition WRITABLE : Z := 1 ≪ 1.
Definition USER_ACCESSIBLE : Z := 1 ≪ 2.
Definition WRITE_THROUGH : Z := 1 ≪ 3.
Definition NO_CACHE : Z := 1 ≪ 4.
Definition ACCESSED : Z := 1 ≪ 5.
Definition DIRTY : Z := 1 ≪ 6.
Definition HUGE_PAGE : Z := 1 ≪ 7.
Definition GLOBAL : Z := 1 ≪ 8.
Definition BIT_9 : Z := 1 ≪ 9.
Definition BIT_10 : Z := 1 ≪ 10.
Definition BIT_11 : Z := 1 ≪ 11.
Definition NO_EXECUTE : Z := 1 ≪ 63.

(** The union of the declared flags: bits 0 to 11 and 52 to 63. *)
Definition PageTableEntryFlags_all : Z :=
  Z.lor (Z.ones 12) (Z.shiftl (Z.ones 12) 52).

Definition TABLE_ENTRY_COUNT : Z := 512.

(** [PageTable::SIZE] *)
Definition PageTable_SIZE : Z := 8 * TABLE_ENTRY_COUNT.

Inductive MappingError := FrameAllocationFailed | PageAlreadyMapped.
Inductive UnmappingError := PageNotMapped.
Inductive TranslationError := NotMapped.

#[global] Instance MappingError_eq_dec : EqDecision MappingError.
Proof. solve_decision. Defined.

Record TlbFlusher (S : PageSize) := mkTlbFlusher { flusher_page : Page S }.
Arguments mkTlbFlusher {S} _.
Arguments flusher_page {S} _.

(** ** [PageTableEntry] *)

Section Entry.
Context `{BF : BitField} `{FL : Bitflags}.

Definition pte_is_present (e : Z) : bool := negb (Z.land e PRESENT =? 0).
Definition pte_is_unused (e : Z) : bool := e =? 0.
(** [get_bits(12..48) << 12] *)
Definition pte_address (e : Z) : PhysicalAddress := ucast 64 (Z.shiftl (get_bits e 12 48) 12).
Definition pte_physical_frame (e : Z) : outcome (PhysicalFrame Size4KiB) :=
  frame_containing_address Size4KiB (pte_address e).
Definition pte_set_address (addr : PhysicalAddress) (flags : Z) : Z := Z.lor addr flags.
Definition pte_flags (e : Z) : Z := flags_from_bits_truncate PageTableEntryFlags_all e.
Definition pte_set_flags (flags : Z) : Z := flags.
Definition pte_add_flags (e flags : Z) : Z := Z.lor e flags.
Definition pte_set_unused : Z := 0.
End Entry.

(** ** [PageTable] *)

(** [table[i]] for the table at [t]: the address of the entry. *)
Definition entry_addr (t i : Z) : outcome Z :=
  if (0 <=? i) && (i <? TABLE_ENTRY_COUNT) then Ret (t + 8 * i) else Panic IndexOutOfBounds.

Definition initialize_empty_at_address (m : mem) (address : VirtualAddress) : outcome mem :=
  _ ← assert_true (address mod PageTable_SIZE =? 0);
  Ret (write_bytes m address 0 PageTable_SIZE).

(** ** Reaching tables *)

Class PageTableFrameMapping (P : Type) :=
  frame_to_virtual : P -> PhysicalFrame Size4KiB -> outcome VirtualAddress.

(** [PageTableWalker], the [walker] field of the mapped table, holds only the mapping. *)
Record MappedPageTable (P : Type) := mkMappedPageTable { walker : P; pml4t : VirtualAddress }.
Arguments mkMappedPageTable {P} _ _.
Arguments walker {P} _.
Arguments pml4t {P} _.

Record PhysicalOffset := mkPhysicalOffset { offset : Z }.

#[global] Instance PhysicalOffset_mapping : PageTableFrameMapping PhysicalOffset :=
  fun p frame => uadd 64 (offset p) (frame_address frame).

Section Walker.
Context `{BF : BitField} `{FL : Bitflags} `{PM : PageTableFrameMapping P}.

(** [ea] is the address of the entry the source passes as [&mut PageTableEntry]. *)
Definition get_or_allocate_pagetable `{FrameAllocator A} (w : P) (ea flags : Z)
    (st : mem * A) : outcome (option VirtualAddress * (mem * A)) :=
  let '(m, al) := st in
  let e := load64 m ea in
  if pte_is_unused e then
    '(fr, al) ← allocate_frame al;
    match fr with
    | None => Ret (None, (m, al))
    | Some frame =>
        let m := store64 m ea (pte_set_address (frame_address frame) flags) in
        virtual_address ← frame_to_virtual w frame;
        m ← initialize_empty_at_address m virtual_address;
        Ret (Some virtual_address, (m, al))
    end
  else
    let m := if negb (flags_is_empty flags) && negb (flags_contains (pte_flags e) flags)
             then store64 m ea (pte_add_flags e flags) else m in
    frame ← pte_physical_frame (load64 m ea);
    virtual_address ← frame_to_virtual w frame;
    Ret (Some virtual_address, (m, al)).

Definition get_pagetable (w : P) (m : mem) (ea : Z) : outcome (option VirtualAddress) :=
  let e := load64 m ea in
  if pte_is_unused e then Ret None
  else
    frame ← pte_physical_frame e;
    virtual_address ← frame_to_virtual w frame;
    Ret (Some virtual_address).
End Walker.

(** ** The [Mapper] and [Translator] interfaces *)

Class Mapper (S : PageSize) (M : Type) := {
  map_to : forall {A} `{FrameAllocator A}, M -> PhysicalFrame S -> Page S -> Z -> mem * A ->
    outcome (Result (TlbFlusher S) MappingError * (mem * A));
  unmap : M -> Page S -> mem ->
    outcome (Result (PhysicalFrame S * TlbFlusher S) UnmappingError * mem);
}.

Class Translator (S : PageSize) (M : Type) :=
  translate : M -> mem -> Page S ->
    outcome (Result (PhysicalFrame S * Z) TranslationError).

(** The default method [identity_map]. *)
Definition identity_map {S M} `{Mapper S M} `{FrameAllocator A} (pt : M)
    (frame : PhysicalFrame S) (flags : Z) (st : mem * A) :
    outcome (Result (TlbFlusher S) MappingError * (mem * A)) :=
  page ← page_containing_address S (frame_address frame);
  map_to pt frame page flags st.

Section MappedPageTable.
Context `{BF : BitField} `{FL : Bitflags} `{PM : PageTableFrameMapping P}.

Definition parent_flags : Z := flags_union (flags_union PRESENT WRITABLE) USER_ACCESSIBLE.

Definition map_to_4k `{FrameAllocator A} (pt : MappedPageTable P)
    (frame : PhysicalFrame Size4KiB) (page : Page Size4KiB) (flags : Z) (st : mem * A) :
    outcome (Result (TlbFlusher Size4KiB) MappingError * (mem * A)) :=
  e4 ← entry_addr (pml4t pt) (l4_index (page_address page));
  '(l3, st) ← get_or_allocate_pagetable (walker pt) e4 parent_flags st;
  match l3 with
  | None => Ret (Err FrameAllocationFailed, st)
  | Some l3 =>
  e3 ← entry_addr l3 (l3_index (page_address page));
  '(l2, st) ← get_or_allocate_pagetable (walker pt) e3 parent_flags st;
  match l2 with
  | None => Ret (Err FrameAllocationFailed, st)
  | Some l2 =>
  e2 ← entry_addr l2 (l2_index (page_address page));
  '(l1, st) ← get_or_allocate_pagetable (walker pt) e2 parent_flags st;
  match l1 with
  | None => Ret (Err FrameAllocationFailed, st)
  | Some l1 =>
  pte ← entry_addr l1 (l1_index (page_address page));
  let '(m, al) := st in
  if pte_is_present (load64 m pte) then Ret (Err PageAlreadyMapped, (m, al))
  else Ret (Ok (mkTlbFlusher page),
            (store64 m pte (pte_set_address (frame_address frame) flags), al))
  end end end.

Definition unmap_4k (pt : MappedPageTable P) (page : Page Size4KiB) (m : mem) :
    outcome (Result (PhysicalFrame Size4KiB * TlbFlusher Size4KiB) UnmappingError * mem) :=
  e4 ← entry_addr (pml4t pt) (l4_index (page_address page));
  o ← get_pagetable (walker pt) m e4; l3 ← unwrap o;
  e3 ← entry_addr l3 (l3_index (page_address page));
  o ← get_pagetable (walker pt) m e3; l2 ← unwrap o;
  e2 ← entry_addr l2 (l2_index (page_address page));
  o ← get_pagetable (walker pt) m e2; l1 ← unwrap o;
  pte ← entry_addr l1 (l1_index (page_address page));
  if negb (flags_contains (pte_flags (load64 m pte)) PRESENT) then Ret (Err PageNotMapped, m)
  else
    let m := store64 m pte pte_set_unused in
    frame ← frame_containing_address Size4KiB (pte_address (load64 m pte));
    Ret (Ok (frame, mkTlbFlusher page), m).

Definition translate_4k (pt : MappedPageTable P) (m : mem) (page : Page Size4KiB) :
    outcome (Result (PhysicalFrame Size4KiB * Z) TranslationError) :=
  e4 ← entry_addr (pml4t pt) (l4_index (page_address page));
  l3 ← get_pagetable (walker pt) m e4;
  match l3 with None => Ret (Err NotMapped) | Some l3 =>
  e3 ← entry_addr l3 (l3_index (page_address page));
  l2 ← get_pagetable (walker pt) m e3;
  match l2 with None => Ret (Err NotMapped) | Some l2 =>
  e2 ← entry_addr l2 (l2_index (page_address page));
  l1 ← get_pagetable (walker pt) m e2;
  match l1 with None => Ret (Err NotMapped) | Some l1 =>
  pte ← entry_addr l1 (l1_index (page_address page));
  if pte_is_present (load64 m pte) then
    frame ← frame_containing_address Size4KiB (pte_address (load64 m pte));
    Ret (Ok (frame, pte_flags (load64 m pte)))
  else Ret (Err NotMapped)
  end end end.

Definition map_to_2m `{FrameAllocator A} (pt : MappedPageTable P)
    (frame : PhysicalFrame Size2MiB) (page : Page Size2MiB) (flags : Z) (st : mem * A) :
    outcome (Result (TlbFlusher Size2MiB) MappingError * (mem * A)) :=
  e4 ← entry_addr (pml4t pt) (l4_index (page_address page));
  '(l3, st) ← get_or_allocate_pagetable (walker pt) e4 parent_flags st;
  match l3 with
  | None => Ret (Err FrameAllocationFailed, st)
  | Some l3 =>
  e3 ← entry_addr l3 (l3_index (page_address page));
  '(l2, st) ← get_or_allocate_pagetable (walker pt) e3 parent_flags st;
  match l2 with
  | None => Ret (Err FrameAllocationFailed, st)
  | Some l2 =>
  pte ← entry_addr l2 (l2_index (page_address page));
  let '(m, al) := st in
  if pte_is_present (load64 m pte) then Ret (Err PageAlreadyMapped, (m, al))
  else Ret (Ok (mkTlbFlusher page),
            (store64 m pte (pte_set_address (frame_address frame)
                              (flags_union flags HUGE_PAGE)), al))
  end end.

Definition unmap_2m (pt : MappedPageTable P) (page : Page Size2MiB) (m : mem) :
    outcome (Result (PhysicalFrame Size2MiB * TlbFlusher Size2MiB) UnmappingError * mem) :=
  e4 ← entry_addr (pml4t pt) (l4_index (page_address page));
  o ← get_pagetable (walker pt) m e4; l3 ← unwrap o;
  e3 ← entry_addr l3 (l3_index (page_address page));
  o ← get_pagetable (walker pt) m e3; l2 ← unwrap o;
  pte ← entry_addr l2 (l2_index (page_address page));
  if negb (flags_contains (pte_flags (load64 m pte)) PRESENT) then Ret (Err PageNotMapped, m)
  else
    let m := store64 m pte pte_set_unused in
    frame ← frame_containing_address Size2MiB (pte_address (load64 m pte));
    Ret (Ok (frame, mkTlbFlusher page), m).

Definition translate_2m (pt : MappedPageTable P) (m : mem) (page : Page Size2MiB) :
    outcome (Result (PhysicalFrame Size2MiB * Z) TranslationError) :=
  e4 ← entry_addr (pml4t pt) (l4_index (page_address page));
  l3 ← get_pagetable (walker pt) m e4;
  match l3 with None => Ret (Err NotMapped) | Some l3 =>
  e3 ← entry_addr l3 (l3_index (page_address page));
  l2 ← get_pagetable (walker pt) m e3;
  match l2 with None => Ret (Err NotMapped) | Some l2 =>
  pte ← entry_addr l2 (l2_index (page_address page));
  if pte_is_present (load64 m pte) then
    frame ← frame_containing_address Size2MiB (pte_address (load64 m pte));
    Ret (Ok (frame, pte_flags (load64 m pte)))
  else Ret (Err NotMapped)
  end end.

#[global] Instance MappedPageTable_Mapper_4k : Mapper Size4KiB (MappedPageTable P) := {
  map_to A _ := map_to_4k;
  unmap := unmap_4k;
}.
#[global] Instance MappedPageTable_Mapper_2m : Mapper Size2MiB (MappedPageTable P) := {
  map_to A _ := map_to_2m;
  unmap := unmap_2m;
}.
#[global] Instance MappedPageTable_Translator_4k : Translator Size4KiB (MappedPageTable P) :=
  translate_4k.
#[global] Instance MappedPageTable_Translator_2m : Translator Size2MiB (MappedPageTable P) :=
  translate_2m.
End MappedPageTable.

(** ** [OffsetPageTable] *)

Record OffsetPageTable (P : Type) := mkOffsetPageTable { inner : MappedPageTable P }.
Arguments mkOffsetPageTable {P} _.
Arguments inner {P} _.

Definition OffsetPageTable_new {P} (pml4t : VirtualAddress) (mapping : P) : OffsetPageTable P :=
  mkOffsetPageTable (mkMappedPageTable mapping pml4t).

Section OffsetPageTable.
Context `{BF : BitField} `{FL : Bitflags} `{PM : PageTableFrameMapping P}.

#[global] Instance OffsetPageTable_Mapper_4k : Mapper Size4KiB (OffsetPageTable P) := {
  map_to A _ pt := map_to (inner pt);
  unmap pt := unmap (inner pt);
}.
#[global] Instance OffsetPageTable_Mapper_2m : Mapper Size2MiB (OffsetPageTable P) := {
  map_to A _ pt := map_to (inner pt);
  unmap pt := unmap (inner pt);
}.
#[global] Instance OffsetPageTable_Translator_4k : Translator Size4KiB (OffsetPageTable P) :=
  fun pt => translate (inner pt).
#[global] Instance OffsetPageTable_Translator_2m : Translator Size2MiB (OffsetPageTable P) :=
  fun pt => translate (inner pt).
End OffsetPageTable.
