(* ===== verification/BumpAlloc.v ===== *)
(** The bump frame allocator: [x86_64/src/paging/bump_frame_allocator.rs].

    The memory map, a [Peekable] iterator over regions, is the list of the
    regions it still yields; [usable_frames] is the lazy iterator of the source,
    so that the end of a region is only computed when it is reached.  The
    allocator is an instance of the [FrameAllocator] interface and satisfies its
    contract on every map whose usable regions start on a page, do not overlap
    and end below [2^48]. *)
From Stdlib Require Import ZArith Lia.
From stdpp Require Import base tactics numbers list.
From S2P Require Import Prelude Memory.
#[local] Open Scope Z_scope.

Record BumpFrameAllocator (D : Type) := mkBump { memory_map : list D; bump_next : Z }.
Arguments mkBump {D} _ _.
Arguments memory_map {D} _.
Arguments bump_next {D} _.

(** [Iterator::nth] *)
Fixpoint iter_nth {I A} `{Iterator I A} (n : nat) (it : I) : outcome (option A) :=
  '(item, it) ← next it;
  match n with
  | O => Ret item
  | S n => match item with Some _ => iter_nth n it | None => Ret None end
  end.

Section Bump.
Context `{MR : MemoryRegion D}.

Definition bump_new (memory_map : list D) : BumpFrameAllocator D := mkBump memory_map 0.

(** The [while let] of [new_starting_at]: the region of the frame is the next
    one the iterator yields, with its start moved to the frame. *)
Fixpoint advance_to (frame : PhysicalFrame Size4KiB) (memory_map : list D) : outcome (list D) :=
  match memory_map with
  | [] => Ret []
  | region :: rest =>
      c ← region_contains region (frame_address frame);
      if (c : bool) then
        if negb (region_is_usable region) then Panic ExplicitPanic
        else Ret (region_set_start region (frame_start frame) :: rest)
      else advance_to frame rest
  end.

Definition bump_new_starting_at (frame : PhysicalFrame Size4KiB) (memory_map : list D) :
    outcome (BumpFrameAllocator D) :=
  memory_map ← advance_to frame memory_map;
  Ret (mkBump memory_map 0).

(** [map(|r| r.end()).max()] *)
Fixpoint max_end (memory_map : list D) (acc : option Z) : outcome (option Z) :=
  match memory_map with
  | [] => Ret acc
  | r :: rest =>
      e ← region_end r;
      max_end rest (Some match acc with Some a => Z.max a e | None => e end)
  end.

Definition max_physical_address (b : BumpFrameAllocator D) : outcome PhysicalAddress :=
  m ← max_end (memory_map b) None; unwrap m.

(** The iterator [usable_frames]: the regions not yet reached and what is left
    of the stepped address range of the current one. *)
Record UsableFrames := mkUsableFrames { uf_regions : list D; uf_range : option (Z * Z) }.

Definition usable_frames (b : BumpFrameAllocator D) : UsableFrames :=
  mkUsableFrames (memory_map b) None.

Definition uf_yield (a e : Z) (rest : list D) : outcome (option (PhysicalFrame Size4KiB) * UsableFrames) :=
  frame ← frame_containing_address Size4KiB a;
  Ret (Some frame, mkUsableFrames rest (Some (a + SIZE Size4KiB, e))).

Fixpoint uf_next_region (regions : list D) : outcome (option (PhysicalFrame Size4KiB) * UsableFrames) :=
  match regions with
  | [] => Ret (None, mkUsableFrames [] None)
  | r :: rest =>
      if region_is_usable r then
        e ← region_end r;
        if region_start r <? e then uf_yield (region_start r) e rest
        else uf_next_region rest
      else uf_next_region rest
  end.

Definition uf_next (it : UsableFrames) : outcome (option (PhysicalFrame Size4KiB) * UsableFrames) :=
  match uf_range it with
  | Some (a, e) => if a <? e then uf_yield a e (uf_regions it) else uf_next_region (uf_regions it)
  | None => uf_next_region (uf_regions it)
  end.

#[global] Instance UsableFrames_iterator : Iterator UsableFrames (PhysicalFrame Size4KiB) := uf_next.

Definition bump_allocate_frame (b : BumpFrameAllocator D) :
    outcome (option (PhysicalFrame Size4KiB) * BumpFrameAllocator D) :=
  frame ← iter_nth (Z.to_nat (bump_next b)) (usable_frames b);
  n ← uadd 64 (bump_next b) 1;
  Ret (frame, mkBump (memory_map b) n).

#[global] Instance Bump_FrameAllocator : FrameAllocator (BumpFrameAllocator D) := bump_allocate_frame.
End Bump.
Arguments UsableFrames D : clear implicits.

(** ** Theorems *)

Lemma iter_nth_yields {I A} `{Iterator I A} (it : I) l n :
  yields it l -> iter_nth n it = Ret (l !! n).
Proof.
  intros Hy. revert n. induction Hy as [it it' E|it it' a l E _ IH]; intros [|n];
    cbn [iter_nth]; rewrite E; cbn; [reflexivity..|apply IH].
Qed.

Lemma drop_S_tail {A} n (l : list A) : drop (S n) l = tail (drop n l).
Proof. revert n. induction l as [|x l IH]; intros [|n]; cbn; [easy.. | apply IH]. Qed.

(** The start addresses of the pages that meet [start, start + size). *)
Definition page_addrs (start size : Z) : list Z :=
  (fun i => start + i * 4096) <$> seqZ 0 ((size + 4095) / 4096).

Lemma page_addrs_cons start size :
  0 < size -> page_addrs start size = start :: page_addrs (start + 4096) (size - 4096).
Proof.
  intros Hs. unfold page_addrs.
  assert (E : (size + 4095) / 4096 = 1 + (size - 4096 + 4095) / 4096)
    by (rewrite <- Z.div_add_l by lia; f_equal; lia).
  assert (0 < (size + 4095) / 4096) by (apply Z.div_str_pos; lia).
  rewrite from_cons by assumption. f_equal; [lia|].
  replace ((size + 4095) / 4096 - 1) with ((size - 4096 + 4095) / 4096) by lia.
  apply list_fmap_ext. intros _ i _. lia.
Qed.

Lemma page_addrs_nil start size : size <= 0 -> page_addrs start size = [].
Proof.
  intros Hs. unfold page_addrs. rewrite seqZ_nil; [reflexivity|].
  pose proof (Z.div_lt_upper_bound (size + 4095) 4096 1). lia.
Qed.

Lemma elem_of_page_addrs start size x :
  x ∈ page_addrs start size <-> exists i, 0 <= i /\ x = start + i * 4096 /\ x < start + size.
Proof.
  unfold page_addrs. rewrite list_elem_of_fmap. split.
  - intros (i & -> & Hi). rewrite elem_of_seqZ in Hi. exists i. repeat split; [lia|].
    assert (i + 1 <= (size + 4095) / 4096) by lia.
    pose proof (Z.mul_div_le (size + 4095) 4096 ltac:(lia)). lia.
  - intros (i & Hi & -> & Hlt). exists i. split; [reflexivity|]. rewrite elem_of_seqZ.
    split; [lia|]. apply Z.lt_le_trans with (i + 1); [lia|]. apply Z.div_le_lower_bound; lia.
Qed.

Lemma NoDup_page_addrs start size : NoDup (page_addrs start size).
Proof.
  unfold page_addrs. apply NoDup_fmap_2; [|apply NoDup_seqZ]. intros i j. lia.
Qed.

Section BumpSpec.
Context `{MR : MemoryRegion D}.
Implicit Types (r : D) (map : list D) (b : BumpFrameAllocator D).

(** A usable region the allocator can serve. *)
Record region_ok r : Prop := {
  ro_start : 0 <= region_start r;
  ro_aligned : region_start r mod 4096 = 0;
  ro_size : 0 <= region_size r;
  ro_end : region_end r = Ret (region_start r + region_size r);
  ro_limit : region_start r + region_size r <= 2 ^ 48;
}.

Definition regions_disjoint r r' : Prop :=
  ranges_disjoint (region_start r) (region_size r) (region_start r') (region_size r').

(** A map whose usable regions can be served and do not overlap. *)
Fixpoint map_ok map : Prop :=
  match map with
  | [] => True
  | r :: map =>
      (region_is_usable r = true ->
         region_ok r /\
         forall r', r' ∈ map -> region_is_usable r' = true -> regions_disjoint r r') /\
      map_ok map
  end.

(** The frames of a map, in the order in which they are handed out. *)
Fixpoint usable_addrs map : list Z :=
  match map with
  | [] => []
  | r :: map =>
      (if region_is_usable r then page_addrs (region_start r) (region_size r) else [])
      ++ usable_addrs map
  end.

Lemma frame_of_aligned a :
  0 <= a < 2 ^ 48 -> a mod 4096 = 0 ->
  frame_containing_address Size4KiB a = Ret (mkFrame Size4KiB a).
Proof.
  intros Ha Hal. rewrite frame_containing_eq by (unfold in_width; lia).
  cbn [SIZE]. change 0x1000 with 4096. now rewrite Hal, Z.sub_0_r.
Qed.

(** Stepping through a range, then the rest of the map. *)
Lemma yields_range map a e l :
  0 <= a -> a mod 4096 = 0 -> e <= 2 ^ 48 ->
  yields (mkUsableFrames map None) l ->
  yields (mkUsableFrames map (Some (a, e))) ((mkFrame Size4KiB <$> page_addrs a (e - a)) ++ l).
Proof.
  intros Ha Hal He Hl.
  remember (Z.to_nat (e - a)) as n eqn:En. revert a Ha Hal En.
  induction n as [n IH] using lt_wf_ind. intros a Ha Hal En.
  destruct (Z.ltb_spec a e) as [Hlt|Hge].
  - rewrite page_addrs_cons by lia. cbn [fmap list_fmap app]. eapply yields_cons.
    + unfold next, UsableFrames_iterator, uf_next. cbn [uf_range uf_regions].
      rewrite (proj2 (Z.ltb_lt a e) Hlt). unfold uf_yield.
      rewrite frame_of_aligned by (assumption || lia). reflexivity.
    + cbn [SIZE]. change 0x1000 with 4096. replace (e - a - 4096) with (e - (a + 4096)) by lia.
      eapply IH; [|lia| |reflexivity]; [lia|]. now rewrite Z.add_mod, Hal by lia.
  - rewrite page_addrs_nil by lia. cbn [fmap list_fmap app].
    apply (yields_same_next (mkUsableFrames map None)); [|assumption].
    unfold next, UsableFrames_iterator, uf_next. cbn [uf_range uf_regions].
    now rewrite (proj2 (Z.ltb_ge a e) Hge).
Qed.

Lemma usable_frames_yields map :
  map_ok map -> yields (mkUsableFrames map None) (mkFrame Size4KiB <$> usable_addrs map).
Proof.
  induction map as [|r map IH]; cbn [map_ok usable_addrs]; intros Hok.
  - now eapply yields_nil.
  - destruct Hok as [Hr Hok]. specialize (IH Hok). rewrite fmap_app.
    destruct (region_is_usable r) eqn:Eu.
    + destruct (Hr eq_refl) as [Hro _].
      pose proof (yields_range map (region_start r) (region_start r + region_size r) _
        (ro_start _ Hro) (ro_aligned _ Hro) (ro_limit _ Hro) IH) as Hy.
      replace (region_start r + region_size r - region_start r) with (region_size r) in Hy by lia.
      eapply yields_same_next; [|exact Hy].
      unfold next, UsableFrames_iterator, uf_next. cbn [uf_range uf_regions uf_next_region].
      rewrite Eu, (ro_end _ Hro). reflexivity.
    + eapply yields_same_next; [|exact IH].
      unfold next, UsableFrames_iterator, uf_next. cbn [uf_range uf_regions uf_next_region].
      now rewrite Eu.
Qed.

Lemma elem_of_usable_addrs map x :
  x ∈ usable_addrs map <->
  exists r, r ∈ map /\ region_is_usable r = true /\
    exists i, 0 <= i /\ x = region_start r + i * 4096 /\ x < region_start r + region_size r.
Proof.
  induction map as [|r map IH]; cbn [usable_addrs].
  - split; [intros []%not_elem_of_nil | intros (? & []%not_elem_of_nil & _)].
  - rewrite elem_of_app, IH. split.
    + intros [H|(r' & H & ?)].
      * destruct (region_is_usable r) eqn:Eu; [|now apply not_elem_of_nil in H].
        apply elem_of_page_addrs in H. exists r. split; [constructor | auto].
      * exists r'. split; [now constructor | assumption].
    + intros (r' & [->|H]%elem_of_cons & Hu & Hi).
      * left. rewrite Hu. now apply elem_of_page_addrs.
      * right. eauto.
Qed.

Lemma map_ok_region map r : map_ok map -> r ∈ map -> region_is_usable r = true -> region_ok r.
Proof.
  induction map as [|r' map IH]; cbn [map_ok]; intros Hok Hr Hu.
  - now apply not_elem_of_nil in Hr.
  - apply elem_of_cons in Hr as [->|Hr]; [now apply Hok | now apply IH].
Qed.

Lemma usable_addrs_valid map x : map_ok map -> x ∈ usable_addrs map -> valid_frame x.
Proof.
  intros Hok (r & Hr & Hu & i & Hi & -> & Hlt)%elem_of_usable_addrs.
  destruct (map_ok_region map r Hok Hr Hu) as [H1 H2 _ _ H5].
  split; [lia|]. now rewrite Z.mod_add by lia.
Qed.

Lemma NoDup_usable_addrs map : map_ok map -> NoDup (usable_addrs map).
Proof.
  induction map as [|r map IH]; cbn [map_ok usable_addrs]; intros Hok; [constructor|].
  destruct Hok as [Hr Hok]. destruct (region_is_usable r) eqn:Eu; [|now apply IH].
  destruct (Hr eq_refl) as [Hro Hdisj]. apply NoDup_app.
  split; [apply NoDup_page_addrs|]. split; [|now apply IH].
  intros x (i & Hi & -> & Hlt)%elem_of_page_addrs
    (r' & Hr' & Hu' & j & Hj & Hx & Hlt')%elem_of_usable_addrs.
  destruct (map_ok_region map r' Hok Hr' Hu') as [? Hal' ? _ _]. destruct Hro as [? Hal ? _ _].
  pose proof (Z.div_mod (region_start r) 4096). pose proof (Z.div_mod (region_start r') 4096).
  destruct (Hdisj r' Hr' Hu'); lia.
Qed.

Lemma bump_allocate_eq b :
  map_ok (memory_map b) -> 0 <= bump_next b < 2 ^ 64 - 1 ->
  bump_allocate_frame b =
  Ret (mkFrame Size4KiB <$> usable_addrs (memory_map b) !! Z.to_nat (bump_next b),
       mkBump (memory_map b) (bump_next b + 1)).
Proof.
  intros Hok Hn. unfold bump_allocate_frame, usable_frames.
  rewrite (iter_nth_yields _ _ _ (usable_frames_yields _ Hok)), list_lookup_fmap.
  cbn [mbind outcome_bind]. unfold uadd. now rewrite checked_ok by lia.
Qed.

Lemma usable_addrs_length map : map_ok map -> Z.of_nat (length (usable_addrs map)) <= 2 ^ 48.
Proof.
  intros Hok. apply (seqZ_bound 0 (2 ^ 48)); [now apply NoDup_usable_addrs|].
  intros x Hx. now destruct (usable_addrs_valid map x Hok Hx).
Qed.

(** An allocator that has not yet failed. *)
Definition bump_ok b : Prop :=
  map_ok (memory_map b) /\ 0 <= bump_next b <= Z.of_nat (length (usable_addrs (memory_map b))).

(** The frames it may still hand out. *)
Definition bump_left b : list Z := drop (Z.to_nat (bump_next b)) (usable_addrs (memory_map b)).

Lemma bump_step b :
  bump_ok b ->
  exists b', bump_allocate_frame b = Ret (mkFrame Size4KiB <$> head (bump_left b), b') /\
    memory_map b' = memory_map b /\ bump_left b' = tail (bump_left b) /\
    (bump_left b <> [] -> bump_ok b').
Proof.
  intros [Hok Hn]. pose proof (usable_addrs_length _ Hok) as Hlen.
  rewrite bump_allocate_eq by (assumption || lia). eexists. split.
  - unfold bump_left. now rewrite head_lookup, lookup_drop, Nat.add_0_r.
  - split; [reflexivity|]. unfold bump_left, bump_ok. cbn [memory_map bump_next].
    replace (Z.to_nat (bump_next b + 1)) with (S (Z.to_nat (bump_next b))) by lia.
    split; [apply drop_S_tail|]. intros Hne. split; [assumption|].
    assert (Z.to_nat (bump_next b) < length (usable_addrs (memory_map b)))%nat; [|lia].
    apply Nat.nle_gt. intros Hle. apply Hne. now apply drop_ge.
Qed.
End BumpSpec.

#[global] Program Instance Bump_FrameAllocatorSpec `{MemoryRegion D} :
    FrameAllocatorSpec (BumpFrameAllocator D) := {
  fa_ok := bump_ok;
  fa_free b f := f ∈ bump_left b;
  fa_avail b := Z.of_nat (length (bump_left b));
}.
Next Obligation.
  intros D MR b Hok. destruct (bump_step b Hok) as (b' & E & _ & Hl & Hok').
  exists (mkFrame Size4KiB <$> head (bump_left b)), b'. split; [exact E|].
  destruct (bump_left b) as [|x l] eqn:El; cbn; [reflexivity|].
  split; [now apply Hok'|]. rewrite Hl. cbn. lia.
Qed.
Next Obligation.
  intros D MR b f b' Hok E. destruct (bump_step b Hok) as (b1 & E1 & _ & Hl & _).
  pose proof (eq_trans (eq_sym E1) E) as E2.
  assert (Hnd : NoDup (bump_left b)) by (eapply sublist_NoDup; [apply NoDup_usable_addrs, Hok | apply sublist_drop]).
  destruct (bump_left b) as [|x l] eqn:El; [discriminate|]. injection E2 as <- <-.
  apply NoDup_cons in Hnd as [Hx _]. split; [apply list_elem_of_here | now rewrite Hl].
Qed.
Next Obligation.
  intros D MR b r b' g Hok E Hg. destruct (bump_step b Hok) as (b1 & E1 & _ & Hl & _).
  pose proof (eq_trans (eq_sym E1) E) as E2. injection E2 as _ <-. cbn in Hg. rewrite Hl in Hg.
  destruct (bump_left b); [assumption | now constructor].
Qed.
Next Obligation.
  intros D MR b g [Hok _] Hg. apply (usable_addrs_valid _ _ Hok).
  eapply elem_of_sublist; [exact Hg | apply sublist_drop].
Qed.

(** [n] allocations in a row, each expected to succeed. *)
Fixpoint allocate_frames {A} `{FrameAllocator A} (n : nat) (a : A) :
    outcome (list (PhysicalFrame Size4KiB) * A) :=
  match n with
  | O => Ret ([], a)
  | S n =>
      '(f, a) ← allocate_frame a; f ← unwrap f;
      '(l, a) ← allocate_frames n a; Ret (f :: l, a)
  end.

Section BumpTheorems.
Context `{MR : MemoryRegion D}.
Implicit Types (map : list D) (b : BumpFrameAllocator D).

Lemma bump_allocate_frames_left n b :
  bump_ok b -> (n <= length (bump_left b))%nat ->
  exists b', allocate_frames n b = Ret (mkFrame Size4KiB <$> take n (bump_left b), b') /\
    bump_ok b' /\ bump_left b' = drop n (bump_left b).
Proof.
  revert b. induction n as [|n IH]; intros b Hok Hn; [cbn; eauto|].
  cbn [allocate_frames]. change (allocate_frame b) with (bump_allocate_frame b).
  destruct (bump_step b Hok) as (b1 & -> & _ & Hl & Hok1).
  destruct (bump_left b) as [|x l] eqn:El; [cbn in Hn; lia|].
  cbn [head fmap option_fmap option_map mbind outcome_bind unwrap].
  destruct (IH b1) as (b' & -> & ? & Hd); [now apply Hok1 | rewrite Hl; cbn in Hn |- *; lia|].
  exists b'. rewrite Hl in *. cbn in *. auto.
Qed.

(** C15: as long as frames are left, a fresh allocator hands out the frames of the
    usable regions in map order: all distinct, page aligned and each starting
    inside a usable region; and it keeps its invariant. *)
Theorem bump_allocates_usable_frames map n :
  map_ok map -> (n <= length (usable_addrs map))%nat ->
  exists fs b', allocate_frames n (bump_new map) = Ret (mkFrame Size4KiB <$> fs, b') /\
    fs = take n (usable_addrs map) /\ bump_ok b' /\ NoDup fs /\
    forall f, f ∈ fs -> valid_frame f /\
      exists r, r ∈ map /\ region_is_usable r = true /\
        region_start r <= f < region_start r + region_size r.
Proof.
  intros Hok Hn. pose proof (NoDup_usable_addrs map Hok) as Hnd.
  destruct (bump_allocate_frames_left n (bump_new map)) as (b' & E & Hok' & _).
  - split; [assumption | cbn; lia].
  - assumption.
  - exists (take n (usable_addrs map)), b'. split; [exact E|]. split; [reflexivity|].
    split; [assumption|]. split; [eapply sublist_NoDup; [exact Hnd | apply sublist_take]|].
    intros f Hf. apply (elem_of_sublist _ (usable_addrs map)) in Hf; [|apply sublist_take].
    split; [now apply (usable_addrs_valid map)|].
    apply elem_of_usable_addrs in Hf as (r & ? & ? & i & ? & -> & ?).
    exists r. repeat split; [assumption..| lia | lia].
Qed.

Lemma max_end_spec map acc :
  (forall r, r ∈ map -> region_end r = Ret (region_start r + region_size r)) ->
  map <> [] \/ acc <> None ->
  exists m, max_end map acc = Ret (Some m) /\
    (acc = Some m \/ exists r, r ∈ map /\ m = region_start r + region_size r) /\
    (forall a, acc = Some a -> a <= m) /\
    forall r, r ∈ map -> region_start r + region_size r <= m.
Proof.
  revert acc. induction map as [|r map IH]; intros acc Hend Hne; cbn [max_end].
  - destruct acc as [a|]; [|destruct Hne; congruence]. exists a.
    split; [reflexivity|]. split; [now left|]. split; [intros ? [= ->]; lia|].
    intros r Hr. now apply not_elem_of_nil in Hr.
  - rewrite Hend by constructor. cbn [mbind outcome_bind].
    destruct (IH (Some match acc with
                       | Some a => Z.max a (region_start r + region_size r)
                       | None => region_start r + region_size r end)) as (m & E & Hin & Hacc & Hall).
    { intros r' Hr'. apply Hend. now constructor. }
    { now right. }
    exists m. split; [exact E|]. specialize (Hacc _ eq_refl). split; [|split].
    + destruct Hin as [[= <-]|(r' & ? & ->)]; [|right; exists r'; split; [now constructor | reflexivity]].
      destruct acc as [a|]; [|right; exists r; split; [constructor | reflexivity]].
      destruct (Z.max_spec a (region_start r + region_size r)) as [[_ ->]|[_ ->]]; [right|now left].
      exists r. split; [constructor | reflexivity].
    + intros a ->. lia.
    + intros r' [->|Hr']%elem_of_cons; [destruct acc; lia | now apply Hall].
Qed.

(** The largest physical address is the greatest region end of the map. *)
Theorem max_physical_address_spec b :
  memory_map b <> [] ->
  (forall r, r ∈ memory_map b -> region_end r = Ret (region_start r + region_size r)) ->
  exists m, max_physical_address b = Ret m /\
    (exists r, r ∈ memory_map b /\ m = region_start r + region_size r) /\
    forall r, r ∈ memory_map b -> region_start r + region_size r <= m.
Proof.
  intros Hne Hend. destruct (max_end_spec (memory_map b) None Hend) as (m & E & Hin & _ & Hall).
  { now left. }
  exists m. unfold max_physical_address. rewrite E. split; [reflexivity|].
  split; [|assumption]. now destruct Hin.
Qed.
End BumpTheorems.

(** An allocator created by [new_starting_at] at a frame [d] bytes into a
    region runs [d] bytes past the end of the region: only the start of the
    region is moved, so that its end moves too.  After the frames up to the old
    end the next frame handed out starts at the old end. *)
Theorem bump_starting_at_overshoots (r : PhysicalMemoryRegion) rest d :
  region_ok r -> region_is_usable r = true ->
  0 < d <= region_size r -> d mod 4096 = 0 -> region_size r mod 4096 = 0 ->
  region_start r + region_size r + d <= 2 ^ 48 -> map_ok rest ->
  (forall r', r' ∈ rest -> region_is_usable r' = true ->
     region_start r + region_size r + d <= region_start r') ->
  exists b fs b' b'', bump_new_starting_at (mkFrame Size4KiB (region_start r + d)) (r :: rest) = Ret b /\
    allocate_frames (Z.to_nat ((region_size r - d) / 4096)) b = Ret (fs, b') /\
    allocate_frame b' = Ret (Some (mkFrame Size4KiB (region_start r + region_size r)), b'').
Proof.
  intros Hro Hu Hd Hd4 Hs4 Hlim Hrest Hlt. destruct r as [s z ty]. cbn in * |-.
  destruct Hro as [H1 H2 H3 H4 H5]. cbn in * |-.
  set (r' := {| pmr_start := s + d; pmr_size := z; pmr_typ := ty |}).
  assert (Hok : map_ok (r' :: rest)).
  { split; [|assumption]. intros _. split.
    - split; cbn; [lia | now rewrite Z.add_mod, H2, Hd4 by lia | lia | | lia].
      unfold uadd. rewrite checked_ok by lia. reflexivity.
    - intros r1 Hr1 Hu1. left. cbn. specialize (Hlt r1 Hr1 Hu1). lia. }
  set (n := Z.to_nat ((z - d) / 4096)).
  pose proof (Z.div_mod z 4096). pose proof (Z.div_mod d 4096). pose proof (Z.div_mod (z - d) 4096).
  assert (Hzd : (z - d) mod 4096 = 0) by (rewrite Zminus_mod, Hs4, Hd4; reflexivity).
  assert (Hnth : usable_addrs (r' :: rest) !! n = Some (s + z)).
  { cbn [usable_addrs]. unfold region_is_usable in *. cbn in Hu |- *. rewrite Hu.
    apply lookup_app_l_Some. unfold page_addrs. rewrite list_lookup_fmap.
    assert (0 < (z + 4095) / 4096) by (apply Z.div_str_pos; lia).
    rewrite lookup_seqZ_lt.
    - cbn. f_equal. unfold n. rewrite Z2Nat.id by (apply Z.div_pos; lia). lia.
    - unfold n. rewrite Z2Nat.id by (apply Z.div_pos; lia).
      apply Z.div_lt_upper_bound; [lia|]. pose proof (Z.mul_succ_div_gt (z + 4095) 4096 ltac:(lia)). lia. }
  destruct (bump_allocate_frames_left n (bump_new (r' :: rest))) as (b' & E & Hok' & Hl').
  { split; [assumption | cbn [bump_new bump_next memory_map]; lia]. }
  { apply Nat.lt_le_incl. exact (lookup_lt_Some _ _ _ Hnth). }
  destruct (bump_step b' Hok') as (b'' & E' & _).
  cbn [region_start region_size PhysicalMemoryRegion_MemoryRegion pmr_start pmr_size].
  exists (bump_new (r' :: rest)), (mkFrame Size4KiB <$> take n (bump_left (bump_new (r' :: rest)))), b', b''.
  split; [|split; [exact E|]].
  - unfold bump_new_starting_at. cbn [advance_to region_contains PhysicalMemoryRegion_MemoryRegion pmr_start pmr_size frame_address].
    rewrite (proj2 (Z.leb_le s (s + d))) by lia. unfold uadd. rewrite checked_ok by lia.
    cbn [mbind outcome_bind]. rewrite (proj2 (Z.leb_le (s + d) (s + z))) by lia.
    cbn [region_is_usable PhysicalMemoryRegion_MemoryRegion pmr_typ]. rewrite Hu. reflexivity.
  - change (allocate_frame b') with (bump_allocate_frame b'). rewrite E', Hl', head_lookup, lookup_drop, Nat.add_0_r.
    change (bump_left (bump_new (r' :: rest))) with (usable_addrs (r' :: rest)). now rewrite Hnth.
Qed.

(** ** A concrete memory map: two usable regions around a reserved one *)

Definition ex_memory_map : list PhysicalMemoryRegion :=
  [PhysicalMemoryRegion_new 0x10000 0x2000 Free;
   PhysicalMemoryRegion_new 0x12000 0x4000 Reserved;
   PhysicalMemoryRegion_new 0x20000 0x1800 Free].

Lemma ex_region_ok s z :
  0 <= s -> s mod 4096 = 0 -> 0 <= z -> s + z <= 2 ^ 48 ->
  region_ok (PhysicalMemoryRegion_new s z Free).
Proof.
  intros Hs Hal Hz He. split; cbn; [assumption..| |assumption].
  unfold uadd. rewrite checked_ok by lia. reflexivity.
Qed.

Lemma ex_memory_map_ok : map_ok ex_memory_map.
Proof.
  split; [|split; [|split; [|exact I]]]; [intros _|discriminate|intros _]; split.
  - apply ex_region_ok; (lia || reflexivity).
  - intros r' Hr Hu. repeat (apply elem_of_cons in Hr as [->|Hr]); [discriminate | left; cbn; lia|].
    now apply not_elem_of_nil in Hr.
  - apply ex_region_ok; (lia || reflexivity).
  - intros r' []%not_elem_of_nil.
Qed.

Lemma bump_allocates_usable_frames_witness :
  exists fs b', allocate_frames 4 (bump_new ex_memory_map) = Ret (mkFrame Size4KiB <$> fs, b') /\
    fs = take 4 (usable_addrs ex_memory_map) /\ bump_ok b' /\ NoDup fs /\
    forall f, f ∈ fs -> valid_frame f /\
      exists r, r ∈ ex_memory_map /\ region_is_usable r = true /\
        region_start r <= f < region_start r + region_size r.
Proof.
  apply (bump_allocates_usable_frames ex_memory_map 4 ex_memory_map_ok).
  apply Nat.leb_le. vm_compute. reflexivity.
Defined.

Lemma max_physical_address_spec_witness :
  exists m, max_physical_address (bump_new ex_memory_map) = Ret m /\
    (exists r, r ∈ ex_memory_map /\ m = region_start r + region_size r) /\
    forall r, r ∈ ex_memory_map -> region_start r + region_size r <= m.
Proof.
  apply (max_physical_address_spec (bump_new ex_memory_map)); [discriminate|].
  cbn [bump_new memory_map]. intros r Hr. repeat (apply elem_of_cons in Hr as [->|Hr]); [reflexivity..|].
  now apply not_elem_of_nil in Hr.
Defined.

Lemma bump_starting_at_overshoots_witness :
  exists b fs b' b'',
    bump_new_starting_at (mkFrame Size4KiB (0x10000 + 0x1000)) [PhysicalMemoryRegion_new 0x10000 0x4000 Free] = Ret b /\
    allocate_frames (Z.to_nat ((0x4000 - 0x1000) / 4096)) b = Ret (fs, b') /\
    allocate_frame b' = Ret (Some (mkFrame Size4KiB (0x10000 + 0x4000)), b'').
Proof.
  apply (bump_starting_at_overshoots (PhysicalMemoryRegion_new 0x10000 0x4000 Free) [] 0x1000).
  - apply ex_region_ok; (lia || reflexivity).
  - reflexivity.
  - cbn. lia.
  - reflexivity.
  - reflexivity.
  - cbn. lia.
  - exact I.
  - intros r' []%not_elem_of_nil.
Defined.
