(* ===== verification/AddressSpace.v ===== *)
(** The address space a page table denotes, and the refinement of the mapper.

    [walk] follows table pointers from the root; a page table is well formed
    ([pt_inv]) when the tables it reaches are distinct frames the allocator will
    not hand out again.  [lookup4k] and [lookup2m] are the abstract address
    space: a partial function from pages to frames and flags.  The theorems show
    that [map_to], [unmap] and [translate] implement update, removal and lookup
    of that function. *)
From Stdlib Require Import ZArith Lia.
From stdpp Require Import base tactics numbers list.
From S2P Require Import Prelude Crates Memory Paging.
#[local] Open Scope Z_scope.

(** ** Entries *)

(** Bits 12 to 47. *)
Definition ADDR_MASK : Z := Z.shiftl (Z.ones 36) 12.

Definition pte_frame (e : Z) : Z := Z.land e ADDR_MASK.
Definition pte_huge (e : Z) : bool := Z.testbit e 7.

(** A flags value is a union of declared flags. *)
Definition valid_flags (fl : Z) : Prop := Z.land fl PageTableEntryFlags_all = fl.

Lemma pte_frame_spec e : pte_frame e = (e / 2 ^ 12) mod 2 ^ 36 * 2 ^ 12.
Proof.
  unfold pte_frame, ADDR_MASK. rewrite <- Z.shiftl_mul_pow2 by lia.
  rewrite <- Z.land_ones, <- Z.shiftr_div_pow2 by lia.
  apply Z.bits_inj'. intros n Hn. rewrite Z.land_spec, !Z.shiftl_spec by lia.
  destruct (Z.ltb_spec n 12).
  - rewrite !(Z.testbit_neg_r _ (n - 12)) by lia. apply andb_false_r.
  - rewrite Z.land_spec, Z.shiftr_spec by lia. do 2 f_equal. lia.
Qed.

Lemma pte_frame_valid e : valid_frame (pte_frame e).
Proof.
  rewrite pte_frame_spec. pose proof (Z.mod_pos_bound (e / 2 ^ 12) (2 ^ 36)).
  split; [lia|]. change 4096 with (2 ^ 12). apply Z.mod_mul. lia.
Qed.

Lemma valid_frame_mask f : valid_frame f -> Z.land f ADDR_MASK = f.
Proof.
  intros [Hf Hal]. fold (pte_frame f). rewrite pte_frame_spec.
  rewrite Z.mod_small; [|split; [apply Z.div_pos; lia | apply Z.div_lt_upper_bound; lia]].
  pose proof (Z.div_mod f (2 ^ 12)). change 4096 with (2 ^ 12) in Hal. lia.
Qed.

Lemma valid_flags_mask fl : valid_flags fl -> Z.land fl ADDR_MASK = 0.
Proof.
  intros <-. rewrite <- Z.land_assoc.
  change (Z.land PageTableEntryFlags_all ADDR_MASK) with 0. apply Z.land_0_r.
Qed.

Lemma pte_frame_lor f fl :
  valid_frame f -> valid_flags fl -> pte_frame (Z.lor f fl) = f.
Proof.
  intros Hf Hfl. unfold pte_frame.
  rewrite Z.land_lor_distr_l, valid_frame_mask, valid_flags_mask, Z.lor_0_r by assumption.
  reflexivity.
Qed.

Lemma pte_frame_add_flags e fl : valid_flags fl -> pte_frame (Z.lor e fl) = pte_frame e.
Proof.
  intros Hfl. unfold pte_frame. rewrite Z.land_lor_distr_l, (valid_flags_mask fl) by assumption.
  apply Z.lor_0_r.
Qed.

Lemma valid_frame_flags f : valid_frame f -> Z.land f PageTableEntryFlags_all = 0.
Proof.
  intros Hf. rewrite <- (valid_frame_mask f Hf), <- Z.land_assoc.
  change (Z.land ADDR_MASK PageTableEntryFlags_all) with 0. apply Z.land_0_r.
Qed.

Lemma pte_huge_lor f fl : valid_frame f -> pte_huge (Z.lor f fl) = pte_huge fl.
Proof.
  intros [_ Hf]. unfold pte_huge. rewrite Z.lor_spec.
  rewrite <- (Z.mod_pow2_bits_low f 12) by lia. change 4096 with (2 ^ 12) in Hf.
  now rewrite Hf, Z.bits_0.
Qed.

Lemma present_lor f fl : valid_frame f -> Z.testbit (Z.lor f fl) 0 = Z.testbit fl 0.
Proof.
  intros [_ Hf]. rewrite Z.lor_spec.
  rewrite <- (Z.mod_pow2_bits_low f 12) by lia. change 4096 with (2 ^ 12) in Hf.
  now rewrite Hf, Z.bits_0.
Qed.

Lemma valid_flags_bound fl : valid_flags fl -> 0 <= fl < 2 ^ 64.
Proof.
  intros Hfl.
  assert (E : fl = Z.land (Z.land fl PageTableEntryFlags_all) (Z.ones 64)).
  { rewrite <- Z.land_assoc. change (Z.land PageTableEntryFlags_all (Z.ones 64))
      with PageTableEntryFlags_all. now rewrite Hfl. }
  rewrite E, Z.land_ones by lia. apply Z.mod_pos_bound. lia.
Qed.

Lemma entry_bound f fl :
  valid_frame f -> valid_flags fl -> 0 <= Z.lor f fl < 2 ^ 64.
Proof.
  intros [Hf _] Hfl%valid_flags_bound. apply lor_bound; lia.
Qed.

Section EntryLemmas.
Context `{BF : BitField} `{BFS : !BitFieldSpec BF} `{FL : Bitflags} `{FLS : !BitflagsSpec FL}.

Lemma pte_address_eq e : 0 <= e < 2 ^ 64 -> pte_address e = pte_frame e.
Proof.
  intros He. unfold pte_address, ucast.
  rewrite get_bits_spec, Z.shiftl_mul_pow2, <- pte_frame_spec by lia.
  apply Z.mod_small. pose proof (pte_frame_valid e) as [? _]. lia.
Qed.

Lemma pte_physical_frame_eq e :
  0 <= e < 2 ^ 64 -> pte_physical_frame e = Ret (mkFrame Size4KiB (pte_frame e)).
Proof.
  intros He. unfold pte_physical_frame. rewrite pte_address_eq by assumption.
  destruct (pte_frame_valid e) as [? Hal].
  rewrite frame_containing_eq by (unfold in_width; lia). cbn [SIZE].
  change 0x1000 with 4096. rewrite Hal, Z.sub_0_r. reflexivity.
Qed.

Lemma pte_flags_lor f fl :
  valid_frame f -> valid_flags fl -> pte_flags (Z.lor f fl) = fl.
Proof.
  intros Hf Hfl. unfold pte_flags. rewrite flags_from_bits_truncate_spec.
  rewrite Z.land_lor_distr_l, (valid_frame_flags f Hf). exact Hfl.
Qed.

Lemma pte_is_present_spec e : pte_is_present e = Z.testbit e 0.
Proof.
  unfold pte_is_present, PRESENT. change 1 with (Z.ones 1).
  rewrite Z.land_ones by lia. change (2 ^ 1) with 2.
  rewrite Z.bit0_odd, Zmod_odd. now destruct (Z.odd e).
Qed.

Lemma parent_flags_eq : parent_flags = 7.
Proof. unfold parent_flags. now rewrite !flags_union_spec. Qed.
End EntryLemmas.

(** ** What a mapping of frames into the address space must provide *)

Class PageTableFrameMappingSpec (P : Type) `{PageTableFrameMapping P} := {
  pm_ok : P -> Prop;
  frame_va : P -> Z -> Z;
  pm_total w f : pm_ok w -> valid_frame (frame_address f) ->
    frame_to_virtual w f = Ret (frame_va w (frame_address f));
  pm_aligned w f : pm_ok w -> valid_frame f -> frame_va w f mod 4096 = 0;
  pm_inj w f g : pm_ok w -> valid_frame f -> valid_frame g ->
    frame_va w f = frame_va w g -> f = g;
}.

(** Frames that overlap where they are mapped are the same. *)
Lemma pm_overlap `{FMS : PageTableFrameMappingSpec P} w f g x :
  pm_ok w -> valid_frame f -> valid_frame g ->
  frame_va w f <= x < frame_va w f + 4096 -> frame_va w g <= x < frame_va w g + 4096 -> f = g.
Proof.
  intros Hw Hf Hg Hxf Hxg. apply (pm_inj w); [assumption..|].
  pose proof (pm_aligned w f Hw Hf). pose proof (pm_aligned w g Hw Hg). Z.to_euclidean_division_equations; lia.
Qed.

(** The physical memory window at a page-aligned offset is such a mapping. *)
#[global] Program Instance PhysicalOffset_spec : PageTableFrameMappingSpec PhysicalOffset := {
  pm_ok w := 0 <= offset w /\ offset w mod 4096 = 0 /\ offset w + 2 ^ 48 <= 2 ^ 64;
  frame_va w f := offset w + f;
}.
Next Obligation.
  intros w f (? & ? & ?) [? ?]. unfold frame_to_virtual, PhysicalOffset_mapping, uadd.
  apply checked_ok. lia.
Qed.
Next Obligation.
  cbn. intros w f (? & H1 & ?) [? H2]. rewrite Z.add_mod, H1, H2 by lia. reflexivity.
Qed.
Next Obligation. cbn. intros. lia. Qed.

(** ** Walks *)

Definition idx_ok (i : Z) : Prop := 0 <= i < 512.
(** Indices from the root; at most three lead to a table. *)
Definition path_ok (q : list Z) : Prop := Forall idx_ok q /\ (length q <= 3)%nat.

Lemma path_ok_snoc q i : path_ok (q ++ [i]) <-> Forall idx_ok q /\ idx_ok i /\ (length q <= 2)%nat.
Proof.
  unfold path_ok. rewrite Forall_app, Forall_singleton, length_app. cbn. intuition lia.
Qed.

Lemma path_ok_init q i : path_ok (q ++ [i]) -> path_ok q.
Proof. rewrite path_ok_snoc. intros (? & ? & ?). split; [assumption | lia]. Qed.

Lemma entries_disjoint t i t' i' :
  t mod 4096 = 0 -> t' mod 4096 = 0 -> idx_ok i -> idx_ok i' -> (t, i) <> (t', i') ->
  ranges_disjoint (t + 8 * i) 8 (t' + 8 * i') 8.
Proof.
  intros Ht Ht' Hi Hi' Hne. unfold ranges_disjoint, idx_ok in *.
  destruct (Z.eq_dec t t') as [->|Htt].
  - assert (i <> i') by congruence. lia.
  - pose proof (Z.div_mod t 4096). pose proof (Z.div_mod t' 4096).
    assert (t / 4096 <> t' / 4096) by (intros E; rewrite E in *; lia). lia.
Qed.

Section Walk.
Context `{FMS : PageTableFrameMappingSpec P} (w : P).
Implicit Types (m : mem) (t root i e : Z) (q : list Z).

(** The table an entry of a level-[lvl] table points to.  A level-2 entry
    with [HUGE_PAGE] maps memory instead. *)
Definition next_of_entry (lvl : nat) e : option Z :=
  if e =? 0 then None
  else if (lvl =? 2)%nat && pte_huge e then None
  else Some (frame_va w (pte_frame e)).

Definition next_table m t (lvl : nat) i : option Z := next_of_entry lvl (load64 m (t + 8 * i)).

Fixpoint walk m t (lvl : nat) q : option Z :=
  match q with
  | [] => Some t
  | i :: q => match next_table m t lvl i with
              | None => None
              | Some t' => walk m t' (pred lvl) q
              end
  end.

(** The entry at index [i] of the table at path [q]; zero when there is no table. *)
Definition entry_at m root q i : Z :=
  match walk m root 4 q with Some t => load64 m (t + 8 * i) | None => 0 end.

Lemma walk_app m t lvl q r :
  walk m t lvl (q ++ r) =
  match walk m t lvl q with
  | None => None
  | Some t' => walk m t' (lvl - length q) r
  end.
Proof.
  revert t lvl. induction q as [|j q IH]; intros t lvl; cbn [walk app length].
  - now rewrite Nat.sub_0_r.
  - destruct (next_table m t lvl j); [|reflexivity]. rewrite IH.
    replace (lvl - S (length q))%nat with (pred lvl - length q)%nat by lia. reflexivity.
Qed.

Lemma walk_snoc_gen m t lvl q i :
  walk m t lvl (q ++ [i]) =
  match walk m t lvl q with
  | None => None
  | Some t' => next_table m t' (lvl - length q) i
  end.
Proof.
  rewrite walk_app. destruct (walk m t lvl q) as [t'|]; [|reflexivity].
  cbn. now destruct (next_table m t' (lvl - length q) i).
Qed.

Lemma walk_snoc m root q i :
  walk m root 4 (q ++ [i]) = next_of_entry (4 - length q) (entry_at m root q i).
Proof.
  rewrite walk_snoc_gen. unfold entry_at. destruct (walk m root 4 q); [reflexivity|].
  unfold next_of_entry. now rewrite Z.eqb_refl.
Qed.

(** Memories whose entries agree away from one entry agree on the walks that
    do not pass through it. *)
Lemma walk_agree m m' root x :
  (forall q i t, path_ok (q ++ [i]) -> walk m root 4 q = Some t -> q ++ [i] <> x ->
     next_table m' t (4 - length q) i = next_table m t (4 - length q) i) ->
  forall q, path_ok q -> ~ x `prefix_of` q -> walk m' root 4 q = walk m root 4 q.
Proof.
  intros Hnt q. induction q as [|i q IH] using rev_ind; intros Hok Hx; [reflexivity|].
  rewrite !walk_snoc_gen, IH.
  - destruct (walk m root 4 q) eqn:E; [|reflexivity]. apply Hnt; [assumption..|].
    intros <-. now apply Hx.
  - now apply path_ok_init in Hok.
  - intros Hp. apply Hx. now apply prefix_app_r.
Qed.
End Walk.

(** ** Well-formed page tables *)

Section Invariant.
Context `{FMS : PageTableFrameMappingSpec P} (w : P) (root : Z).
Context `{FAS : FrameAllocatorSpec A}.
Implicit Types (m : mem) (t i e : Z) (q : list Z) (a : A).

Record pt_inv m a : Prop := {
  inv_alloc : fa_ok a;
  inv_tables q t : path_ok q -> walk w m root 4 q = Some t ->
    exists f, valid_frame f /\ t = frame_va w f /\ ~ fa_free a f;
  inv_inj q q' t : path_ok q -> path_ok q' ->
    walk w m root 4 q = Some t -> walk w m root 4 q' = Some t -> q = q';
  inv_present q i : path_ok (q ++ [i]) -> walk w m root 4 (q ++ [i]) <> None ->
    Z.testbit (entry_at w m root q i) 0 = true;
}.

(** The entries of [m'] are those of [m] but for one. *)
Definition entry_update m m' q i e : Prop :=
  entry_at w m' root q i = e /\
  forall q' i', path_ok q' -> idx_ok i' -> (q', i') <> (q, i) ->
    entry_at w m' root q' i' = entry_at w m root q' i'.

(** The memory that belongs to the tables: the tables and the free frames. *)
Definition owned m a (x : Z) : Prop :=
  (exists q t, path_ok q /\ walk w m root 4 q = Some t /\ t <= x < t + 4096) \/
  (exists f, fa_free a f /\ frame_va w f <= x < frame_va w f + 4096).

(** Everything that is not theirs is left alone, and stays not theirs. *)
Definition footprint m a m' a' : Prop :=
  forall x, ~ owned m a x -> m' x = m x /\ ~ owned m' a' x.

Lemma footprint_refl m a : footprint m a m a.
Proof. intros x Hx. auto. Qed.

Lemma footprint_trans m1 a1 m2 a2 m3 a3 :
  footprint m1 a1 m2 a2 -> footprint m2 a2 m3 a3 -> footprint m1 a1 m3 a3.
Proof.
  intros H1 H2 x Hx. destruct (H1 x Hx) as [E1 Hx2]. destruct (H2 x Hx2) as [E2 Hx3].
  split; [congruence | assumption].
Qed.

Lemma footprint_alloc m a a' : (forall g, fa_free a' g -> fa_free a g) -> footprint m a m a'.
Proof.
  intros Hsh x Hx. split; [reflexivity|]. intros [Ho|(f & Hf & Hxf)]; apply Hx; [now left|].
  right. eauto.
Qed.

Lemma footprint_store m a q t i v :
  path_ok q -> idx_ok i -> walk w m root 4 q = Some t ->
  (forall q', path_ok q' -> walk w (store64 m (t + 8 * i) v) root 4 q' = walk w m root 4 q') ->
  footprint m a (store64 m (t + 8 * i) v) a.
Proof.
  intros Hq Hi Ht Hsame x Hx. unfold idx_ok in Hi. split.
  - apply store_le_outside. destruct (decide (t <= x < t + 4096)); [|lia].
    destruct Hx. left. eauto.
  - intros [(q' & t' & Hq' & E & Hxt)|Ho]; apply Hx; [left | now right].
    rewrite Hsame in E by assumption. eauto.
Qed.

Context (Hw : pm_ok w).

Lemma inv_aligned m a q t :
  pt_inv m a -> path_ok q -> walk w m root 4 q = Some t -> t mod 4096 = 0.
Proof.
  intros Hinv Hq Ht. destruct (inv_tables _ _ Hinv q t Hq Ht) as (f & Hf & -> & _).
  now apply pm_aligned.
Qed.

(** Storing into one entry of a reachable table. *)
Lemma load_other_entry m a q t i v q' t' i' :
  pt_inv m a -> path_ok q -> path_ok q' -> idx_ok i -> idx_ok i' ->
  walk w m root 4 q = Some t -> walk w m root 4 q' = Some t' -> (q', i') <> (q, i) ->
  load64 (store64 m (t + 8 * i) v) (t' + 8 * i') = load64 m (t' + 8 * i').
Proof.
  intros Hinv Hq Hq' Hi Hi' Ht Ht' Hne. apply load64_store64_other, entries_disjoint;
    eauto using inv_aligned.
  intros [= <- <-]. apply Hne. f_equal. symmetry. eapply inv_inj; eauto.
Qed.

(** If the stored entry leads nowhere new, no walk changes. *)
Lemma store_entry_keep m a q t i v :
  pt_inv m a -> path_ok q -> idx_ok i -> walk w m root 4 q = Some t -> 0 <= v < 2 ^ 64 ->
  ((length q <= 2)%nat -> next_of_entry w (4 - length q) v =
                     next_of_entry w (4 - length q) (load64 m (t + 8 * i))) ->
  ((length q <= 2)%nat -> next_of_entry w (4 - length q) v <> None -> Z.testbit v 0 = true) ->
  let m' := store64 m (t + 8 * i) v in
  (forall q', path_ok q' -> walk w m' root 4 q' = walk w m root 4 q') /\
  entry_update m m' q i v /\ pt_inv m' a /\ footprint m a m' a.
Proof.
  intros Hinv Hq Hi Ht Hv Hnext Hpres m'.
  assert (Hwalk : forall q', path_ok q' -> walk w m' root 4 q' = walk w m root 4 q').
  { intros q' Hq'. apply (walk_agree w m m' root [0;0;0;0]); [|assumption|].
    - intros q1 i1 t1 Hq1 Ht1 _. unfold next_table, m'.
      pose proof Hq1 as (Hf1 & Hi1 & Hl1)%path_ok_snoc.
      destruct (decide ((q1, i1) = (q, i))) as [[= -> ->]|Hne].
      + rewrite Ht in Ht1. injection Ht1 as <-.
        rewrite load64_store64_same by assumption. now apply Hnext.
      + rewrite (load_other_entry m a q t i v q1 t1 i1); eauto using path_ok_init.
    - destruct Hq' as [_ Hl]. intros Hp%prefix_length. cbn in Hp. lia. }
  assert (Hupd : entry_update m m' q i v).
  { split.
    - unfold entry_at. rewrite (Hwalk q Hq), Ht. now apply load64_store64_same.
    - intros q' i' Hq' Hi' Hne. unfold entry_at. rewrite (Hwalk q' Hq').
      destruct (walk w m root 4 q') as [t'|] eqn:E; [|reflexivity].
      now apply (load_other_entry m a q t i v q' t' i'). }
  split; [assumption|]. split; [assumption|]. split; [|now apply (footprint_store m a q)].
  split; [apply Hinv | | |].
  - intros q' t'. intros Hq'. rewrite (Hwalk q' Hq'). now apply Hinv.
  - intros q1 q2 t' H1 H2. rewrite (Hwalk q1 H1), (Hwalk q2 H2). now apply Hinv.
  - intros q' i' Hqi' Hsome. pose proof Hqi' as (_ & Hi' & Hl')%path_ok_snoc.
    pose proof (path_ok_init _ _ Hqi') as Hq'.
    destruct (decide ((q', i') = (q, i))) as [[= -> ->]|Hne].
    + destruct Hupd as [Hupd _]. rewrite Hupd. apply Hpres; [assumption|].
      now rewrite walk_snoc, Hupd in Hsome.
    + destruct Hupd as [_ Hupd]. rewrite Hupd by assumption.
      apply Hinv; [assumption|]. now rewrite <- Hwalk.
Qed.

(** Hanging a fresh, zeroed table under an empty entry. *)
Section NewTable.
Context (m : mem) (a a' : A) (q : list Z) (t i f fl : Z).
Context (Hinv : pt_inv m a) (Hqi : path_ok (q ++ [i])) (Ht : walk w m root 4 q = Some t).
Context (Hzero : load64 m (t + 8 * i) = 0).
Context (Hok' : fa_ok a') (Hfree : fa_free a f) (Hnfree : ~ fa_free a' f).
Context (Hshrink : forall g, fa_free a' g -> fa_free a g).
Context (Hfl : valid_flags fl) (Hpres : Z.testbit fl 0 = true) (Hhuge : pte_huge fl = false).

Let m' : mem := write_bytes (store64 m (t + 8 * i) (Z.lor f fl)) (frame_va w f) 0 4096.

Lemma new_frame_valid : valid_frame f.
Proof. apply (fa_valid a); [apply Hinv | assumption]. Qed.

Lemma new_frame_fresh q' t' :
  path_ok q' -> walk w m root 4 q' = Some t' -> frame_va w f <> t'.
Proof.
  intros Hq' Ht' E. destruct (inv_tables _ _ Hinv q' t' Hq' Ht') as (g & Hg & -> & Hng).
  apply pm_inj in E; [subst; tauto | assumption | apply new_frame_valid | assumption].
Qed.

Lemma new_table_loads q' t' i' :
  path_ok q' -> idx_ok i' -> walk w m root 4 q' = Some t' ->
  load64 m' (t' + 8 * i') = load64 (store64 m (t + 8 * i) (Z.lor f fl)) (t' + 8 * i').
Proof.
  intros Hq' Hi' Ht'. apply load64_write_bytes_other.
  pose proof (inv_aligned _ _ _ _ Hinv Hq' Ht') as Hal'.
  pose proof (pm_aligned w f Hw new_frame_valid) as Hfva.
  pose proof (new_frame_fresh _ _ Hq' Ht') as Hne.
  unfold ranges_disjoint, idx_ok in *.
  pose proof (Z.div_mod t' 4096). pose proof (Z.div_mod (frame_va w f) 4096).
  assert (t' / 4096 <> frame_va w f / 4096) by (intros E; rewrite E in *; lia). lia.
Qed.

Lemma new_table_other_walks q' :
  path_ok q' -> ~ (q ++ [i]) `prefix_of` q' ->
  walk w m' root 4 q' = walk w m root 4 q'.
Proof.
  intros Hq' Hp. apply (walk_agree w m m' root (q ++ [i])); [|assumption..].
  intros q1 i1 t1 Hq1 Ht1 Hne1. unfold next_table.
  pose proof Hq1 as (_ & Hi1 & _)%path_ok_snoc. pose proof (path_ok_init _ _ Hq1).
  pose proof Hqi as (_ & Hi & _)%path_ok_snoc. pose proof (path_ok_init _ _ Hqi).
  rewrite (new_table_loads q1), (load_other_entry m a q t i _ q1 t1 i1); auto. congruence.
Qed.

Lemma new_table_entry : entry_at w m' root q i = Z.lor f fl.
Proof.
  unfold entry_at. pose proof (path_ok_init _ _ Hqi) as Hq.
  pose proof Hqi as (_ & Hi & _)%path_ok_snoc.
  rewrite new_table_other_walks, Ht, (new_table_loads q) by
    (assumption || (intros Hp%prefix_length; rewrite length_app in Hp; cbn in Hp; lia)).
  apply load64_store64_same, entry_bound; [apply new_frame_valid | assumption].
Qed.

Lemma new_table_walk : walk w m' root 4 (q ++ [i]) = Some (frame_va w f).
Proof.
  pose proof new_frame_valid as Hf.
  rewrite walk_snoc, new_table_entry. unfold next_of_entry.
  rewrite pte_frame_lor by assumption.
  destruct (Z.eqb_spec (Z.lor f fl) 0) as [E|_].
  - apply (f_equal (fun z => Z.testbit z 0)) in E.
    rewrite Z.lor_spec, Hpres, orb_true_r in E. discriminate.
  - now rewrite pte_huge_lor, Hhuge, andb_false_r.
Qed.

Lemma new_table_below r j :
  walk w m' root 4 ((q ++ [i]) ++ j :: r) = None \/ ~ idx_ok j.
Proof.
  destruct (decide (0 <= j < 512)) as [Hj|]; [left|now right].
  rewrite walk_app, new_table_walk. cbn [walk]. unfold next_table, m'.
  rewrite load64_write_zero by lia. reflexivity.
Qed.

Lemma old_below r : walk w m root 4 ((q ++ [i]) ++ r) = None.
Proof.
  rewrite walk_app, walk_snoc. unfold entry_at. rewrite Ht, Hzero. reflexivity.
Qed.

(** The walks of the new memory: the new path, or a walk of the old one. *)
Lemma new_table_cases q' t' :
  path_ok q' -> walk w m' root 4 q' = Some t' ->
  (q' = q ++ [i] /\ t' = frame_va w f) \/
  (~ (q ++ [i]) `prefix_of` q' /\ walk w m root 4 q' = Some t').
Proof.
  intros Hq' Ht'. destruct (decide ((q ++ [i]) `prefix_of` q')) as [[r ->]|Hp].
  - left. destruct r as [|j r].
    + rewrite app_nil_r in *. rewrite new_table_walk in Ht'. injection Ht' as <-. auto.
    + destruct (new_table_below r j) as [E|E]; [rewrite E in Ht'; discriminate|].
      destruct Hq' as [[_ [Hj _]%Forall_cons]%Forall_app _]. contradiction.
  - right. rewrite new_table_other_walks in Ht' by assumption. auto.
Qed.

Lemma new_table_update : entry_update m m' q i (Z.lor f fl).
Proof.
  split; [apply new_table_entry|]. intros q' i' Hq' Hi' Hne. unfold entry_at.
  pose proof Hqi as (_ & Hi & _)%path_ok_snoc. pose proof (path_ok_init _ _ Hqi).
  destruct (walk w m' root 4 q') as [t'|] eqn:E.
  - destruct (new_table_cases q' t' Hq' E) as [[-> ->]|[_ Hold]].
    + pose proof (old_below []) as Hn. rewrite app_nil_r in Hn. rewrite Hn.
      unfold m', idx_ok in *. apply load64_write_zero; lia.
    + rewrite Hold, (new_table_loads q') by assumption.
      now apply (load_other_entry m a q t i _ q' t' i').
  - destruct (decide ((q ++ [i]) `prefix_of` q')) as [[r ->]|Hp].
    + now rewrite old_below.
    + rewrite new_table_other_walks in E by assumption. now rewrite E.
Qed.

Lemma new_table_inv : pt_inv m' a'.
Proof.
  split; [assumption | | |].
  - intros q' t' Hq' [[_ ->]|[_ Hold]]%new_table_cases; [| |assumption].
    + exists f. auto using new_frame_valid.
    + destruct (inv_tables _ _ Hinv q' t' Hq' Hold) as (g & ? & ? & ?). exists g. intuition auto.
  - intros q1 q2 t' H1 H2 E1 E2.
    destruct (new_table_cases q1 t' H1 E1) as [[-> N1]|[_ O1]],
             (new_table_cases q2 t' H2 E2) as [[-> N2]|[_ O2]]; [reflexivity| | |].
    + now destruct (new_frame_fresh q2 t' H2 O2).
    + now destruct (new_frame_fresh q1 t' H1 O1).
    + now apply (inv_inj _ _ Hinv q1 q2 t').
  - intros q' i' Hqi' Hsome. pose proof Hqi' as (_ & Hi' & _)%path_ok_snoc.
    pose proof (path_ok_init _ _ Hqi') as Hq'. destruct new_table_update as [Hsame Hother].
    destruct (decide ((q', i') = (q, i))) as [[= -> ->]|Hne].
    + now rewrite Hsame, Z.lor_spec, Hpres, orb_true_r.
    + rewrite Hother by assumption. apply Hinv; [assumption|].
      destruct (walk w m' root 4 (q' ++ [i'])) as [t'|] eqn:E; [|easy].
      destruct (new_table_cases _ _ Hqi' E) as [[[-> [= ->]]%app_inj_2 _]|[_ ->]]; easy.
Qed.

Lemma new_table_footprint : footprint m a m' a'.
Proof.
  pose proof (path_ok_init _ _ Hqi) as Hq. pose proof Hqi as (_ & Hi & _)%path_ok_snoc. unfold idx_ok in Hi.
  assert (Hf : forall x, ~ owned m a x -> ~ (frame_va w f <= x < frame_va w f + 4096)).
  { intros x Hx Hxf. apply Hx. right. eauto. }
  intros x Hx. split.
  - unfold m'. rewrite write_bytes_outside by (specialize (Hf x Hx); lia).
    apply store_le_outside. destruct (decide (t <= x < t + 4096)); [|lia].
    destruct Hx. left. eauto.
  - intros [(q' & t' & Hq' & E & Hxt)|(g & Hg & Hxg)]; [|destruct Hx; right; eauto].
    destruct (new_table_cases q' t' Hq' E) as [[-> ->]|[_ Hold]]; [now apply (Hf x)|].
    apply Hx. left. eauto.
Qed.
End NewTable.
End Invariant.

(** ** The operations of the walker *)

Section Operations.
Context `{BF : BitField} `{BFS : !BitFieldSpec BF} `{FL : Bitflags} `{FLS : !BitflagsSpec FL}.
Context `{FMS : PageTableFrameMappingSpec P} (w : P) (root : Z) (Hw : pm_ok w).
Context `{FAS : FrameAllocatorSpec A}.
Implicit Types (m : mem) (t i e : Z) (q : list Z) (a : A).

Abbreviation inv := (pt_inv w root).
Abbreviation entry m q i := (entry_at w m root q i).
Abbreviation table m q := (walk w m root 4 q).

(** [a'] is [a] after handing out at most [n] frames. *)
Definition consumed (n : Z) a a' : Prop :=
  fa_avail a - n <= fa_avail a' /\ forall g, fa_free a' g -> fa_free a g.

Lemma consumed_refl n a : 0 <= n -> consumed n a a.
Proof. split; [lia | auto]. Qed.

Lemma consumed_trans n1 n2 a1 a2 a3 :
  consumed n1 a1 a2 -> consumed n2 a2 a3 -> consumed (n1 + n2) a1 a3.
Proof. intros [? ?] [? ?]. split; [lia | auto]. Qed.

(** The same mapped pages: level-1 entries are unchanged, and a level-2 entry
    that changed maps no huge page before or after. *)
Definition same_leaves m m' : Prop :=
  (forall q i, path_ok q -> length q = 3%nat -> idx_ok i -> entry m' q i = entry m q i) /\
  (forall q i, path_ok q -> length q = 2%nat -> idx_ok i ->
     entry m' q i = entry m q i \/
     (pte_huge (entry m q i) = false /\ pte_huge (entry m' q i) = false)).

Lemma same_leaves_refl m : same_leaves m m.
Proof. split; auto. Qed.

Lemma same_leaves_trans m1 m2 m3 :
  same_leaves m1 m2 -> same_leaves m2 m3 -> same_leaves m1 m3.
Proof.
  intros [H1 H2] [H3 H4]. split; intros q i Hq Hl Hi.
  - rewrite H3, H1; auto.
  - destruct (H2 q i Hq Hl Hi) as [E|[? ?]], (H4 q i Hq Hl Hi) as [E'|[? ?]];
      rewrite ?E', ?E in *; auto.
Qed.

Lemma same_leaves_huge m m' q i :
  same_leaves m m' -> path_ok q -> length q = 2%nat -> idx_ok i ->
  pte_huge (entry m q i) = false -> pte_huge (entry m' q i) = false.
Proof. intros [_ H2] Hq Hl Hi Hh. destruct (H2 q i Hq Hl Hi) as [->|[_ ?]]; auto. Qed.

Lemma update_same_leaves m m' q i e :
  entry_update w root m m' q i e -> (length q <= 2)%nat ->
  (length q = 2%nat -> pte_huge (entry m q i) = false) -> pte_huge e = pte_huge (entry m q i) ->
  same_leaves m m'.
Proof.
  intros [He Hother] Hlen Hh2 Hh. split; intros q' i' Hq' Hl Hi'.
  - apply Hother; [assumption..|]. intros [= -> ->]. lia.
  - destruct (decide ((q', i') = (q, i))) as [[= -> ->]|Hne]; [right|left; auto].
    rewrite He, Hh. auto.
Qed.

(** Only entries along [path] differ: those a walk along it reads. *)
Definition changed_on (path : list Z) m m' : Prop :=
  forall q i, path_ok q -> idx_ok i -> ~ (q ++ [i]) `prefix_of` path -> entry m' q i = entry m q i.

Lemma changed_on_refl path m : changed_on path m m.
Proof. intros q i _ _ _. reflexivity. Qed.

Lemma changed_on_trans path m1 m2 m3 :
  changed_on path m1 m2 -> changed_on path m2 m3 -> changed_on path m1 m3.
Proof. intros H1 H2 q i Hq Hi Hp. rewrite H2, H1; auto. Qed.

Lemma changed_on_below path path' m m' : path `prefix_of` path' -> changed_on path m m' -> changed_on path' m m'.
Proof. intros Hp Hc q i Hq Hi Hn. apply Hc; [assumption..|]. intros H1. apply Hn. now transitivity path. Qed.

Lemma update_changed_on path m m' q i e :
  entry_update w root m m' q i e -> (q ++ [i]) `prefix_of` path -> changed_on path m m'.
Proof. intros [_ Hother] Hp q' i' Hq' Hi' Hn. apply Hother; [assumption..|]. intros [= -> ->]. contradiction. Qed.

Lemma entry_bound_at m q i : 0 <= entry m q i < 2 ^ 64.
Proof. unfold entry_at. destruct (walk w m root 4 q); [apply load64_bound | lia]. Qed.

Lemma entry_of_table m q t i : table m q = Some t -> load64 m (t + 8 * i) = entry m q i.
Proof. intros Ht. unfold entry_at. now rewrite Ht. Qed.

Lemma get_pagetable_spec m q t i :
  table m q = Some t ->
  get_pagetable w m (t + 8 * i) =
  Ret (if entry m q i =? 0 then None else Some (frame_va w (pte_frame (entry m q i)))).
Proof.
  intros Ht. unfold get_pagetable. rewrite (entry_of_table _ _ _ _ Ht).
  unfold pte_is_unused. destruct (Z.eqb_spec (entry m q i) 0); [reflexivity|].
  rewrite pte_physical_frame_eq by apply entry_bound_at. cbn.
  rewrite pm_total by (assumption || apply pte_frame_valid). reflexivity.
Qed.

Lemma valid_flags_7 : valid_flags 7.
Proof. reflexivity. Qed.

(** An empty entry: a fresh zeroed table, or an exhausted allocator. *)
Lemma get_or_allocate_unused m a q i t :
  inv m a -> path_ok (q ++ [i]) -> table m q = Some t -> entry m q i = 0 ->
  (exists a', get_or_allocate_pagetable w (t + 8 * i) 7 (m, a) = Ret (None, (m, a')) /\
     allocate_frame a = Ret (None, a') /\ fa_avail a = 0) \/
  (exists t1 m' a', get_or_allocate_pagetable w (t + 8 * i) 7 (m, a) = Ret (Some t1, (m', a')) /\
     consumed 1 a a' /\ inv m' a' /\ table m' (q ++ [i]) = Some t1 /\ same_leaves m m' /\
     footprint w root m a m' a' /\ forall path, (q ++ [i]) `prefix_of` path -> changed_on path m m').
Proof.
  intros Hinv Hqi Ht E0. pose proof (inv_alloc _ _ _ _ Hinv) as Hok.
  assert (Hload : load64 m (t + 8 * i) = 0) by now rewrite (entry_of_table _ _ _ i Ht).
  unfold get_or_allocate_pagetable. rewrite Hload. cbn [pte_is_unused Z.eqb].
  destruct (fa_total a Hok) as (r & a' & Hall & Hok'). rewrite Hall. cbn.
  assert (Hsh : forall g, fa_free a' g -> fa_free a g) by eauto using fa_shrinks.
  destruct r as [[f]|]; [right|left; eauto].
  - destruct Hok' as [Hok' Hav].
    destruct (fa_unique _ _ _ Hok Hall) as [Hf1 Hf2]. cbn in Hf1, Hf2.
    pose proof (fa_valid _ _ Hok Hf1) as Hf.
    rewrite (pm_total w (mkFrame Size4KiB f) Hw Hf). cbn -[Z.lor write_bytes].
    unfold initialize_empty_at_address. change PageTable_SIZE with 4096.
    rewrite (pm_aligned w f Hw Hf). cbn -[Z.lor write_bytes].
    pose proof Hqi as (_ & _ & Hlq)%path_ok_snoc.
    do 3 eexists. split; [reflexivity|]. split; [split; [lia | assumption]|]. split; [|split; [|split; [|split]]].
    + eapply new_table_inv; eauto using valid_flags_7.
    + eapply new_table_walk; eauto using valid_flags_7.
    + eapply update_same_leaves; [eapply new_table_update; eauto using valid_flags_7 | lia | |].
      * now rewrite E0.
      * now rewrite E0, pte_huge_lor.
    + eapply new_table_footprint; eauto using valid_flags_7.
    + intros path. eapply update_changed_on, new_table_update; eauto using valid_flags_7.
Qed.

(** A used entry that is no huge page: the table it points to; the entry may
    gain the parent flags. *)
Lemma get_or_allocate_used m a q i t :
  inv m a -> path_ok (q ++ [i]) -> table m q = Some t -> entry m q i <> 0 ->
  (length q = 2%nat -> pte_huge (entry m q i) = false) ->
  exists t1 m', get_or_allocate_pagetable w (t + 8 * i) 7 (m, a) = Ret (Some t1, (m', a)) /\
     inv m' a /\ table m' (q ++ [i]) = Some t1 /\ same_leaves m m' /\ footprint w root m a m' a /\
     forall path, (q ++ [i]) `prefix_of` path -> changed_on path m m'.
Proof.
  intros Hinv Hqi Ht E0 Hhuge. pose proof Hqi as (_ & Hi & Hlq)%path_ok_snoc.
  pose proof (path_ok_init _ _ Hqi) as Hqok. pose proof (entry_bound_at m q i) as Heb.
  unfold get_or_allocate_pagetable. rewrite (entry_of_table _ _ _ i Ht).
  unfold pte_is_unused. rewrite (proj2 (Z.eqb_neq _ _) E0).
  set (e := entry m q i) in *.
  assert (He7 : pte_huge (Z.lor e 7) = pte_huge e).
  { unfold pte_huge. rewrite Z.lor_spec. apply orb_false_r. }
  assert (Hnext : table m (q ++ [i]) = Some (frame_va w (pte_frame e))).
  { rewrite walk_snoc. fold e. unfold next_of_entry. rewrite (proj2 (Z.eqb_neq _ _) E0).
    destruct (Nat.eqb_spec (4 - length q) 2); [|reflexivity]. now rewrite Hhuge by lia. }
  destruct (negb (flags_is_empty 7) && _) eqn:Eadd.
  - unfold pte_add_flags.
    destruct (store_entry_keep w root Hw m a q t i (Z.lor e 7)) as (Hwalk & Hupd & Hinv' & Hfoot);
      [assumption..|apply lor_bound; lia| |intros; now rewrite Z.lor_spec, orb_true_r|].
    { intros _. rewrite (entry_of_table _ _ _ i Ht). fold e. unfold next_of_entry.
      rewrite He7, (pte_frame_add_flags e 7 valid_flags_7).
      destruct (Z.eqb_spec (Z.lor e 7) 0) as [[? ?]%Z.lor_eq_0_iff|_]; [discriminate|].
      now rewrite (proj2 (Z.eqb_neq _ _) E0). }
    rewrite load64_store64_same by (apply lor_bound; lia).
    rewrite pte_physical_frame_eq by (apply lor_bound; lia). cbn -[Z.lor store64].
    rewrite (pte_frame_add_flags e 7 valid_flags_7).
    rewrite pm_total by (assumption || apply pte_frame_valid).
    do 2 eexists. split; [reflexivity|]. split; [assumption|]. split; [|split; [|split; [exact Hfoot|]]].
    + rewrite Hwalk by assumption. exact Hnext.
    + eapply update_same_leaves; eauto.
    + intros path Hp. eapply update_changed_on; eauto.
  - rewrite (entry_of_table _ _ _ i Ht). fold e.
    rewrite pte_physical_frame_eq by assumption. cbn.
    rewrite pm_total by (assumption || apply pte_frame_valid).
    do 2 eexists. split; [reflexivity|]. auto 10 using same_leaves_refl, footprint_refl, changed_on_refl.
Qed.

Lemma get_or_allocate_spec m a q i t :
  inv m a -> path_ok (q ++ [i]) -> table m q = Some t ->
  (length q = 2%nat -> pte_huge (entry m q i) = false) ->
  (exists a', get_or_allocate_pagetable w (t + 8 * i) parent_flags (m, a) = Ret (None, (m, a')) /\
     allocate_frame a = Ret (None, a') /\ fa_avail a = 0) \/
  (exists t1 m' a', get_or_allocate_pagetable w (t + 8 * i) parent_flags (m, a)
       = Ret (Some t1, (m', a')) /\
     consumed 1 a a' /\ inv m' a' /\ table m' (q ++ [i]) = Some t1 /\ same_leaves m m' /\
     footprint w root m a m' a' /\ forall path, (q ++ [i]) `prefix_of` path -> changed_on path m m').
Proof.
  intros Hinv Hqi Ht Hhuge. rewrite parent_flags_eq.
  destruct (Z.eq_dec (entry m q i) 0) as [E|E].
  - now apply get_or_allocate_unused.
  - right. destruct (get_or_allocate_used m a q i t) as (t1 & m' & ? & ?); eauto.
    exists t1, m', a. split; [assumption|]. split; [apply consumed_refl; lia | assumption].
Qed.

(** ** The abstract address space *)

Definition dir_path (va : Z) : list Z := [l4_index va; l3_index va].
Definition table_path (va : Z) : list Z := [l4_index va; l3_index va; l2_index va].
Definition leaf_path (va : Z) : list Z := table_path va ++ [l1_index va].

(** The virtual page number: bits 12 to 47. *)
Definition vpn (va : Z) : Z := (va mod 2 ^ 48) / 4096.

Definition lookup4k m (p : Page Size4KiB) : option (PhysicalFrame Size4KiB * Z) :=
  let e := entry m (table_path (page_address p)) (l1_index (page_address p)) in
  if Z.testbit e 0
  then Some (mkFrame Size4KiB (pte_frame e), Z.land e PageTableEntryFlags_all) else None.

Definition lookup2m m (p : Page Size2MiB) : option (PhysicalFrame Size2MiB * Z) :=
  let e := entry m (dir_path (page_address p)) (l2_index (page_address p)) in
  if Z.testbit e 0 && pte_huge e
  then Some (mkFrame Size2MiB (pte_frame e - pte_frame e mod SIZE Size2MiB),
             Z.land e PageTableEntryFlags_all) else None.

(** No huge page covers the address. *)
Definition not_huge m (va : Z) : Prop := pte_huge (entry m (dir_path va) (l2_index va)) = false.

Lemma paths_ok va : in_width 64 va ->
  path_ok (dir_path va) /\ path_ok (table_path va) /\ path_ok [l4_index va] /\
  idx_ok (l4_index va) /\ idx_ok (l3_index va) /\ idx_ok (l2_index va) /\ idx_ok (l1_index va).
Proof.
  intros (? & ? & ? & ?)%index_range.
  unfold path_ok, dir_path, table_path, idx_ok. rewrite !Forall_cons, !Forall_nil. cbn.
  repeat split; lia.
Qed.

Lemma vpn_indices va vb : in_width 64 va -> in_width 64 vb ->
  vpn va = vpn vb <->
  table_path va = table_path vb /\ l1_index va = l1_index vb.
Proof.
  intros Ha Hb. unfold vpn, table_path. rewrite !indices_decompose by assumption.
  pose proof (index_range va Ha). pose proof (index_range vb Hb).
  pose proof (Z.mod_pos_bound va 4096). pose proof (Z.mod_pos_bound vb 4096).
  assert (D : forall i4 i3 i2 i1 o, 0 <= o < 4096 ->
    (i4 * 2 ^ 39 + i3 * 2 ^ 30 + i2 * 2 ^ 21 + i1 * 2 ^ 12 + o) / 4096
    = i4 * 2 ^ 27 + i3 * 2 ^ 18 + i2 * 2 ^ 9 + i1).
  { intros. symmetry. apply Z.div_unique with o; lia. }
  rewrite !D by lia. split.
  - intros E. assert (l4_index va = l4_index vb /\ l3_index va = l3_index vb /\
      l2_index va = l2_index vb /\ l1_index va = l1_index vb) as (-> & -> & -> & ->) by lia.
    auto.
  - intros [[= -> -> ->] ->]. reflexivity.
Qed.

Lemma same_leaves_lookup m m' : same_leaves m m' ->
  (forall p, in_width 64 (page_address p) -> lookup4k m' p = lookup4k m p) /\
  (forall p, in_width 64 (page_address p) -> lookup2m m' p = lookup2m m p).
Proof.
  intros [H4 H2]. split; intros p Hp;
    destruct (paths_ok _ Hp) as (Hd & Ht & _ & _ & _ & Hi2 & Hi1).
  - unfold lookup4k. now rewrite H4.
  - unfold lookup2m. destruct (H2 _ _ Hd eq_refl Hi2) as [->|[-> ->]]; [reflexivity|].
    now rewrite !andb_false_r.
Qed.

Lemma same_leaves_not_huge m m' va :
  same_leaves m m' -> in_width 64 va -> not_huge m va -> not_huge m' va.
Proof.
  intros Hsl Hva Hh. destruct (paths_ok _ Hva) as (Hd & _ & _ & _ & _ & H2 & _).
  now apply (same_leaves_huge m).
Qed.

Lemma entry_addr_ok t i : idx_ok i -> entry_addr t i = Ret (t + 8 * i).
Proof.
  intros Hi. unfold entry_addr, TABLE_ENTRY_COUNT, idx_ok in *.
  replace ((0 <=? i) && (i <? 512)) with true by lia. reflexivity.
Qed.

Lemma get_pagetable_walk m q t i :
  table m q = Some t -> (length q = 2%nat -> pte_huge (entry m q i) = false) ->
  (length q <= 2)%nat ->
  get_pagetable w m (t + 8 * i) = Ret (table m (q ++ [i])).
Proof.
  intros Ht Hh Hl. rewrite (get_pagetable_spec m q t i Ht), walk_snoc. unfold next_of_entry.
  destruct (Z.eqb_spec (entry m q i) 0); [reflexivity|].
  destruct (Nat.eqb_spec (4 - length q) 2); [|reflexivity]. now rewrite Hh by lia.
Qed.

Lemma entry_below_none m q r i : table m q = None -> entry m (q ++ r) i = 0.
Proof. intros Hq. unfold entry_at. rewrite walk_app, Hq. reflexivity. Qed.

Lemma frame_containing_pte e :
  0 <= e < 2 ^ 64 ->
  frame_containing_address Size4KiB (pte_address e) = Ret (mkFrame Size4KiB (pte_frame e)).
Proof. exact (pte_physical_frame_eq e). Qed.

Definition as_result {T} (o : option T) : Result T TranslationError :=
  match o with Some x => Ok x | None => Err NotMapped end.

Abbreviation pt := (mkMappedPageTable w root).

(** [translate] computes the abstract lookup. *)
Lemma translate_4k_lookup m p :
  in_width 64 (page_address p) -> not_huge m (page_address p) ->
  translate_4k pt m p = Ret (as_result (lookup4k m p)).
Proof.
  intros Hp Hh. destruct (paths_ok _ Hp) as (_ & _ & _ & H4 & H3 & H2 & H1).
  unfold translate_4k, lookup4k, not_huge, dir_path, table_path in *. cbn [walker pml4t].
  set (i4 := l4_index _) in *. set (i3 := l3_index _) in *. set (i2 := l2_index _) in *.
  set (i1 := l1_index _) in *.
  rewrite entry_addr_ok by assumption. cbn [mbind outcome_bind].
  rewrite (get_pagetable_walk m [] root i4) by (reflexivity || cbn; lia). cbn [mbind outcome_bind app].
  destruct (table m [i4]) as [t3|] eqn:E3; [|now rewrite (entry_below_none m [i4] [i3; i2])].
  rewrite entry_addr_ok by assumption. cbn [mbind outcome_bind].
  rewrite (get_pagetable_walk m [i4] t3 i3) by (assumption || cbn; lia). cbn [mbind outcome_bind app].
  destruct (table m [i4; i3]) as [t2|] eqn:E2; [|now rewrite (entry_below_none m [i4; i3] [i2])].
  rewrite entry_addr_ok by assumption. cbn [mbind outcome_bind].
  rewrite (get_pagetable_walk m [i4; i3] t2 i2) by (assumption || (intros; assumption) || cbn; lia).
  cbn [mbind outcome_bind app].
  destruct (table m [i4; i3; i2]) as [t1|] eqn:E1;
    [|now rewrite (entry_below_none m [i4; i3; i2] [])].
  rewrite entry_addr_ok by assumption. cbn [mbind outcome_bind].
  rewrite (entry_of_table _ _ _ i1 E1), pte_is_present_spec.
  destruct (Z.testbit (entry m [i4; i3; i2] i1) 0); [|reflexivity].
  rewrite frame_containing_pte by apply entry_bound_at. cbn.
  unfold pte_flags. now rewrite flags_from_bits_truncate_spec.
Qed.

(** Storing a level-1 entry updates one page of the address space. *)
Lemma store_leaf m a va t e :
  inv m a -> in_width 64 va -> table m (table_path va) = Some t -> 0 <= e < 2 ^ 64 ->
  let m' := store64 m (t + 8 * l1_index va) e in
  inv m' a /\
  (forall p, in_width 64 (page_address p) -> vpn (page_address p) = vpn va ->
     lookup4k m' p = if Z.testbit e 0
       then Some (mkFrame Size4KiB (pte_frame e), Z.land e PageTableEntryFlags_all) else None) /\
  (forall p, in_width 64 (page_address p) -> vpn (page_address p) <> vpn va ->
     lookup4k m' p = lookup4k m p) /\
  (forall p, in_width 64 (page_address p) -> lookup2m m' p = lookup2m m p) /\
  (forall vb, in_width 64 vb -> not_huge m vb -> not_huge m' vb) /\
  footprint w root m a m' a /\ changed_on (leaf_path va) m m'.
Proof.
  intros Hinv Hva Ht He m'. destruct (paths_ok _ Hva) as (_ & Hq & _ & _ & _ & _ & H1).
  destruct (store_entry_keep w root Hw m a _ t _ e Hinv Hq H1 Ht He) as (_ & Hupd & Hinv' & Hfoot);
    [cbn; lia..|]. pose proof Hupd as [Hsame Hother].
  split; [exact Hinv'|].
  split; [|split; [|split; [|split; [|split; [exact Hfoot | now apply (update_changed_on _ _ _ _ _ _ Hupd)]]]]]; intros p Hp;
    destruct (paths_ok _ Hp) as (Hd & Hq' & _ & _ & _ & H2' & H1').
  - intros [E1 E2]%vpn_indices; [|assumption..]. unfold lookup4k. rewrite E1, E2.
    unfold m'. now rewrite Hsame.
  - intros Hne. unfold lookup4k. unfold m'. rewrite Hother; [reflexivity|assumption..|].
    intros [= E4 E3 E2 E1]. apply Hne, vpn_indices; [assumption..|].
    unfold table_path. split; congruence.
  - unfold lookup2m. unfold m'. rewrite Hother; [reflexivity|assumption..|discriminate].
  - unfold not_huge, m'. now rewrite Hother.
Qed.

(** The result of [map_to] on the abstract address space. *)
Definition mapped_4k m m' (page : Page Size4KiB) (frame : PhysicalFrame Size4KiB) (flags : Z) : Prop :=
  lookup4k m page = None /\
  (forall p, in_width 64 (page_address p) -> vpn (page_address p) = vpn (page_address page) ->
     lookup4k m' p = if Z.testbit flags 0 then Some (frame, flags) else None) /\
  (forall p, in_width 64 (page_address p) -> vpn (page_address p) <> vpn (page_address page) ->
     lookup4k m' p = lookup4k m p) /\
  (forall p, in_width 64 (page_address p) -> lookup2m m' p = lookup2m m p).

Definition unchanged m m' : Prop :=
  (forall p, in_width 64 (page_address p) -> lookup4k m' p = lookup4k m p) /\
  (forall p, in_width 64 (page_address p) -> lookup2m m' p = lookup2m m p).

Definition map_to_4k_post m a (page : Page Size4KiB) (frame : PhysicalFrame Size4KiB) (flags : Z)
    (r : Result (TlbFlusher Size4KiB) MappingError) m' (a' : A) : Prop :=
  (forall va, in_width 64 va -> not_huge m va -> not_huge m' va) /\
  footprint w root m a m' a' /\
  match r with
  | Ok fl => inv m' a' /\ consumed 3 a a' /\
      flusher_page fl = page /\ mapped_4k m m' page frame flags
  | Err PageAlreadyMapped => inv m' a' /\ consumed 3 a a' /\
      lookup4k m page <> None /\ unchanged m m'
  | Err FrameAllocationFailed => fa_avail a < 3 /\
      (exists a0, inv m' a0 /\ allocate_frame a0 = Ret (None, a')) /\ unchanged m m'
  end.

Lemma alloc_failed_post m a m' page frame flags (a' a0 : A) :
  fa_avail a < 3 -> inv m' a0 -> allocate_frame a0 = Ret (None, a') -> same_leaves m m' ->
  footprint w root m a m' a0 ->
  map_to_4k_post m a page frame flags (Err FrameAllocationFailed) m' a'.
Proof.
  intros Hav Hi E Hsl Hfoot. split; [eauto using same_leaves_not_huge|]. split.
  - eapply footprint_trans; [exact Hfoot|]. apply footprint_alloc. intros g.
    eapply fa_shrinks; [apply Hi | exact E].
  - split; [assumption|]. split; [eauto | now apply same_leaves_lookup].
Qed.

(** The last step of [map_to], at the level-1 table. *)
Lemma map_leaf_post m m1 a0 a frame page flags t1 :
  consumed 3 a0 a -> inv m1 a -> same_leaves m m1 -> footprint w root m a0 m1 a ->
  in_width 64 (page_address page) ->
  valid_frame (frame_address frame) -> valid_flags flags ->
  table m1 (table_path (page_address page)) = Some t1 ->
  exists r m', (if pte_is_present (load64 m1 (t1 + 8 * l1_index (page_address page)))
    then Ret (Err PageAlreadyMapped, (m1, a))
    else Ret (Ok (mkTlbFlusher page),
      (store64 m1 (t1 + 8 * l1_index (page_address page))
         (pte_set_address (frame_address frame) flags), a))) = Ret (r, (m', a)) /\
    map_to_4k_post m a0 page frame flags r m' a /\ changed_on (leaf_path (page_address page)) m1 m'.
Proof.
  intros Hav Hinv Hsl Hfoot Hp Hf Hfl Ht1. unfold pte_set_address.
  destruct (same_leaves_lookup _ _ Hsl) as [S4 S2].
  destruct (store_leaf m1 a _ t1 (Z.lor (frame_address frame) flags) Hinv Hp Ht1)
    as (Hinv' & L1 & L2 & L3 & L4 & L5 & L6); [now apply entry_bound|].
  rewrite (entry_of_table _ _ _ _ Ht1), pte_is_present_spec.
  assert (Hl : lookup4k m page = lookup4k m1 page) by (symmetry; auto).
  unfold lookup4k at 2 in Hl.
  destruct (Z.testbit (entry m1 _ _) 0) eqn:Epres; do 2 eexists;
    (split; [reflexivity|]); (split; [|auto using changed_on_refl]); split; [|split| |split].
  - eauto using same_leaves_not_huge.
  - exact Hfoot.
  - split; [assumption|]. split; [assumption|]. split; [now rewrite Hl | split; auto].
  - intros vb Hvb Hnh. apply L4; eauto using same_leaves_not_huge.
  - eapply footprint_trans; [exact Hfoot | exact L5].
  - split; [exact Hinv'|]. split; [assumption|]. split; [reflexivity|].
    destruct frame as [f]. cbn [frame_address] in *.
    repeat split; [exact Hl| | |].
    + intros p Hp' Hv. rewrite (L1 p Hp' Hv), pte_frame_lor by assumption.
      now rewrite Z.land_lor_distr_l, (valid_frame_flags f Hf), Z.lor_0_l, Hfl, present_lor.
    + intros p Hp' Hv. rewrite L2; auto.
    + intros p Hp'. rewrite L3; auto.
Qed.

(** [map_to] refines the update of the abstract address space, and changes only
    the entries on the way to the page. *)
Lemma map_to_4k_run m a frame page flags :
  inv m a -> in_width 64 (page_address page) -> not_huge m (page_address page) ->
  valid_frame (frame_address frame) -> valid_flags flags ->
  exists r m' a', map_to_4k pt frame page flags (m, a) = Ret (r, (m', a')) /\
    map_to_4k_post m a page frame flags r m' a' /\ changed_on (leaf_path (page_address page)) m m'.
Proof.
  intros Hinv Hp Hh Hf Hfl.
  destruct (paths_ok _ Hp) as (Hd & Ht & Hq4 & H4 & H3 & H2 & H1).
  assert (P3 : ([] ++ [l4_index (page_address page)]) `prefix_of` leaf_path (page_address page)) by now eexists.
  assert (P2 : ([l4_index (page_address page)] ++ [l3_index (page_address page)]) `prefix_of` leaf_path (page_address page))
    by now eexists.
  assert (P1 : (dir_path (page_address page) ++ [l2_index (page_address page)]) `prefix_of` leaf_path (page_address page))
    by now eexists.
  unfold map_to_4k. cbn [walker pml4t].
  rewrite entry_addr_ok by assumption. cbn [mbind outcome_bind].
  destruct (get_or_allocate_spec m a [] (l4_index (page_address page)) root)
    as [(a1 & -> & Ha0 & Hv0)|(t3 & m3 & a3 & -> & V3 & I3 & T3 & S3 & F3 & C3)];
    [assumption..|reflexivity|discriminate| |]; cbn [mbind outcome_bind].
  { do 3 eexists. split; [reflexivity|]. split; [|apply changed_on_refl].
    eapply alloc_failed_post; eauto using same_leaves_refl, footprint_refl. lia. }
  apply C3 in P3.
  rewrite entry_addr_ok by assumption. cbn [mbind outcome_bind].
  destruct (get_or_allocate_spec m3 a3 [l4_index (page_address page)] (l3_index (page_address page)) t3)
    as [(a1 & -> & Ha0 & Hv0)|(t2 & m2 & a2 & -> & V2 & I2 & T2 & S2 & F2 & C2)];
    [assumption..|discriminate| |]; cbn [mbind outcome_bind].
  { do 3 eexists. split; [reflexivity|]. split; [|eauto using changed_on_trans].
    eapply alloc_failed_post; eauto using same_leaves_trans, footprint_trans. unfold consumed in *; lia. }
  rewrite entry_addr_ok by assumption. cbn [mbind outcome_bind].
  pose proof (same_leaves_trans _ _ _ S3 S2) as S23. apply C2 in P2. pose proof (changed_on_trans _ _ _ _ P3 P2) as P32.
  destruct (get_or_allocate_spec m2 a2 (dir_path (page_address page)) (l2_index (page_address page)) t2)
    as [(a1 & -> & Ha0 & Hv0)|(t1 & m1 & a1 & -> & V1 & I1 & T1 & S1 & F1 & C1)];
    [assumption..|intros; eapply same_leaves_huge; eauto| |]; cbn [mbind outcome_bind].
  { do 3 eexists. split; [reflexivity|]. split; [|eauto using changed_on_trans].
    eapply alloc_failed_post; eauto using same_leaves_trans, footprint_trans. unfold consumed in *; lia. }
  rewrite entry_addr_ok by assumption. cbn [mbind outcome_bind].
  apply C1 in P1. pose proof (changed_on_trans _ _ _ _ P32 P1).
  destruct (map_leaf_post m m1 a a1 frame page flags t1) as (r & m' & -> & Hpost & Hc);
    [exact (consumed_trans 2 1 _ _ _ (consumed_trans 1 1 _ _ _ V3 V2) V1) | eauto using same_leaves_trans, footprint_trans..].
  do 3 eexists. split; [reflexivity|]. split; [exact Hpost|]. eauto using changed_on_trans.
Qed.

Lemma map_to_4k_spec m a frame page flags :
  inv m a -> in_width 64 (page_address page) -> not_huge m (page_address page) ->
  valid_frame (frame_address frame) -> valid_flags flags ->
  exists r m' a', map_to_4k pt frame page flags (m, a) = Ret (r, (m', a')) /\
    map_to_4k_post m a page frame flags r m' a'.
Proof. intros. destruct (map_to_4k_run m a frame page flags) as (r & m' & a' & E & Hpost & _); eauto 6. Qed.

(** A page that was mapped translates to the frame and flags it was mapped with. *)
Lemma map_to_4k_translate m a frame page flags fl m' a' :
  inv m a -> in_width 64 (page_address page) -> not_huge m (page_address page) ->
  valid_frame (frame_address frame) -> valid_flags flags -> Z.testbit flags 0 = true ->
  map_to_4k pt frame page flags (m, a) = Ret (Ok fl, (m', a')) ->
  translate_4k pt m' page = Ret (Ok (frame, flags)).
Proof.
  intros Hinv Hp Hh Hf Hfl Hpres Hmap.
  destruct (map_to_4k_spec m a frame page flags) as (r & m1 & a1 & E & Hnh & _ & Hpost);
    [assumption..|]. rewrite Hmap in E. injection E as <- <- <-.
  destruct Hpost as (_ & _ & _ & _ & Hnew & _ & _).
  rewrite translate_4k_lookup by auto. now rewrite Hnew, Hpres.
Qed.

(** *** Unmapping *)

Lemma unmap_4k_eq m p :
  in_width 64 (page_address p) -> not_huge m (page_address p) ->
  unmap_4k pt p m =
  match table m (table_path (page_address p)) with
  | None => Panic UnwrapNone
  | Some t => match lookup4k m p with
      | None => Ret (Err PageNotMapped, m)
      | Some _ => Ret (Ok (mkFrame Size4KiB 0, mkTlbFlusher p),
                       store64 m (t + 8 * l1_index (page_address p)) 0)
      end
  end.
Proof.
  intros Hp Hh. destruct (paths_ok _ Hp) as (_ & _ & _ & H4 & H3 & H2 & H1).
  unfold unmap_4k, lookup4k, not_huge, dir_path, table_path in *. cbn [walker pml4t].
  set (i4 := l4_index _) in *. set (i3 := l3_index _) in *. set (i2 := l2_index _) in *.
  set (i1 := l1_index _) in *.
  rewrite entry_addr_ok by assumption. cbn [mbind outcome_bind].
  rewrite (get_pagetable_walk m [] root i4) by (reflexivity || cbn; lia). cbn [mbind outcome_bind app].
  destruct (table m [i4]) as [t3|] eqn:E3; cbn [unwrap mbind outcome_bind];
    [|now rewrite (walk_app w m root 4 [i4] [i3; i2]), E3].
  rewrite entry_addr_ok by assumption. cbn [mbind outcome_bind].
  rewrite (get_pagetable_walk m [i4] t3 i3) by (assumption || cbn; lia). cbn [mbind outcome_bind app].
  destruct (table m [i4; i3]) as [t2|] eqn:E2; cbn [unwrap mbind outcome_bind];
    [|now rewrite (walk_app w m root 4 [i4; i3] [i2]), E2].
  rewrite entry_addr_ok by assumption. cbn [mbind outcome_bind].
  rewrite (get_pagetable_walk m [i4; i3] t2 i2) by (assumption || (intros; assumption) || cbn; lia).
  cbn [mbind outcome_bind app].
  destruct (table m [i4; i3; i2]) as [t1|] eqn:E1; cbn [unwrap mbind outcome_bind]; [|reflexivity].
  rewrite entry_addr_ok by assumption. cbn [mbind outcome_bind].
  rewrite (entry_of_table _ _ _ i1 E1). unfold pte_flags, pte_set_unused.
  rewrite flags_from_bits_truncate_spec, load64_store64_same by lia.
  assert (E : flags_contains (Z.land (entry m [i4; i3; i2] i1) PageTableEntryFlags_all) PRESENT
              = Z.testbit (entry m [i4; i3; i2] i1) 0).
  { apply eq_true_iff_eq. rewrite flags_contains_spec, <- Z.land_assoc.
    change (Z.land PageTableEntryFlags_all PRESENT) with 1.
    rewrite <- pte_is_present_spec. unfold pte_is_present, PRESENT.
    change 1 with (Z.ones 1). rewrite Z.land_ones by lia. change (2 ^ 1) with 2.
    rewrite Zmod_odd. destruct (Z.odd (entry m [i4; i3; i2] i1)); cbn; easy. }
  rewrite E. destruct (Z.testbit (entry m [i4; i3; i2] i1) 0); cbn [negb]; [|reflexivity].
  rewrite frame_containing_pte by lia. reflexivity.
Qed.

(** Unmapping a mapped page removes exactly that page. *)
Lemma unmap_4k_run m a p :
  inv m a -> in_width 64 (page_address p) -> not_huge m (page_address p) ->
  lookup4k m p <> None ->
  exists r m', unmap_4k pt p m = Ret (Ok r, m') /\ inv m' a /\
    (forall p', in_width 64 (page_address p') -> vpn (page_address p') = vpn (page_address p) ->
       lookup4k m' p' = None) /\
    (forall p', in_width 64 (page_address p') -> vpn (page_address p') <> vpn (page_address p) ->
       lookup4k m' p' = lookup4k m p') /\
    (forall p', in_width 64 (page_address p') -> lookup2m m' p' = lookup2m m p') /\
    (forall va, in_width 64 va -> not_huge m va -> not_huge m' va) /\
    footprint w root m a m' a /\ changed_on (leaf_path (page_address p)) m m'.
Proof.
  intros Hinv Hp Hh Hsome. rewrite unmap_4k_eq by assumption.
  destruct (table m (table_path (page_address p))) as [t|] eqn:Et.
  - destruct (lookup4k m p) eqn:El; [|easy]. do 2 eexists. split; [reflexivity|].
    destruct (store_leaf m a _ t 0 Hinv Hp Et) as (? & L1 & L2 & L3 & L4 & L5 & L6); [lia|].
    split; [assumption|]. split; [exact L1|]. split; [exact L2|]. split; [exact L3|]. auto.
  - destruct Hsome. unfold lookup4k, entry_at. now rewrite Et.
Qed.

Lemma unmap_4k_spec m a p :
  inv m a -> in_width 64 (page_address p) -> not_huge m (page_address p) ->
  lookup4k m p <> None ->
  exists r m', unmap_4k pt p m = Ret (Ok r, m') /\ inv m' a /\
    (forall p', in_width 64 (page_address p') -> vpn (page_address p') = vpn (page_address p) ->
       lookup4k m' p' = None) /\
    (forall p', in_width 64 (page_address p') -> vpn (page_address p') <> vpn (page_address p) ->
       lookup4k m' p' = lookup4k m p') /\
    (forall p', in_width 64 (page_address p') -> lookup2m m' p' = lookup2m m p') /\
    (forall va, in_width 64 va -> not_huge m va -> not_huge m' va) /\
    footprint w root m a m' a.
Proof.
  intros Hinv Hp Hh Hl. destruct (unmap_4k_run m a p Hinv Hp Hh Hl) as (r & m' & E & ? & ? & ? & ? & ? & ? & _).
  exists r, m'. auto 10.
Qed.

(** Whatever frame the page was mapped to, [unmap] returns frame 0: it reads
    the address from the entry it has just cleared. *)
Lemma unmap_4k_frame_zero m p f m' :
  in_width 64 (page_address p) -> not_huge m (page_address p) ->
  unmap_4k pt p m = Ret (Ok f, m') -> frame_address (fst f) = 0.
Proof.
  intros Hp Hh. rewrite unmap_4k_eq by assumption.
  destruct (walk w m root 4 _); [|discriminate]. destruct (lookup4k m p); [|discriminate].
  intros [= <- _]. reflexivity.
Qed.

(** *** Huge pages *)

(** The number of the 2 MiB page: bits 21 to 47. *)
Definition vpn2m (va : Z) : Z := vpn va / 512.

Lemma vpn2m_indices va vb : in_width 64 va -> in_width 64 vb ->
  vpn2m va = vpn2m vb <-> dir_path va = dir_path vb /\ l2_index va = l2_index vb.
Proof.
  intros Ha Hb. unfold vpn2m, vpn, dir_path. rewrite !indices_decompose by assumption.
  pose proof (index_range va Ha). pose proof (index_range vb Hb).
  pose proof (Z.mod_pos_bound va 4096). pose proof (Z.mod_pos_bound vb 4096).
  assert (D : forall i4 i3 i2 i1 o, 0 <= o < 4096 -> 0 <= i1 < 512 ->
    (i4 * 2 ^ 39 + i3 * 2 ^ 30 + i2 * 2 ^ 21 + i1 * 2 ^ 12 + o) / 4096 / 512
    = i4 * 2 ^ 18 + i3 * 2 ^ 9 + i2).
  { intros. rewrite Z.div_div by lia. symmetry. apply Z.div_unique with (i1 * 4096 + o); lia. }
  rewrite !D by lia. split.
  - intros E. assert (l4_index va = l4_index vb /\ l3_index va = l3_index vb /\
      l2_index va = l2_index vb) as (-> & -> & ->) by lia. auto.
  - intros [[= -> ->] ->]. reflexivity.
Qed.

Definition mapped_2m m m' (page : Page Size2MiB) (frame : PhysicalFrame Size2MiB) (flags : Z) : Prop :=
  lookup2m m page = None /\
  (forall p, in_width 64 (page_address p) -> vpn2m (page_address p) = vpn2m (page_address page) ->
     lookup2m m' p = if Z.testbit flags 0 then Some (frame, Z.lor flags HUGE_PAGE) else None) /\
  (forall p, in_width 64 (page_address p) -> vpn2m (page_address p) <> vpn2m (page_address page) ->
     lookup2m m' p = lookup2m m p) /\
  (forall p, in_width 64 (page_address p) -> lookup4k m' p = lookup4k m p).

Definition map_to_2m_post m a (page : Page Size2MiB) (frame : PhysicalFrame Size2MiB) (flags : Z)
    (r : Result (TlbFlusher Size2MiB) MappingError) m' (a' : A) : Prop :=
  footprint w root m a m' a' /\
  match r with
  | Ok fl => inv m' a' /\ consumed 2 a a' /\
      flusher_page fl = page /\ mapped_2m m m' page frame flags
  | Err PageAlreadyMapped => inv m' a' /\ consumed 2 a a' /\
      Z.testbit (entry m' (dir_path (page_address page)) (l2_index (page_address page))) 0 = true /\
      unchanged m m'
  | Err FrameAllocationFailed => fa_avail a < 2 /\
      (exists a0, inv m' a0 /\ allocate_frame a0 = Ret (None, a')) /\ unchanged m m'
  end.

Lemma valid_flags_huge fl : valid_flags fl -> valid_flags (Z.lor fl HUGE_PAGE).
Proof. intros Hfl. unfold valid_flags in *. now rewrite Z.land_lor_distr_l, Hfl. Qed.

Lemma pte_huge_flag fl : pte_huge (Z.lor fl HUGE_PAGE) = true.
Proof. unfold pte_huge. rewrite Z.lor_spec. apply orb_true_r. Qed.

(** Storing a huge entry over one that leads to no table. *)
Lemma store_huge m a va t f fl :
  inv m a -> in_width 64 va -> table m (dir_path va) = Some t ->
  Z.testbit (entry m (dir_path va) (l2_index va)) 0 = false ->
  valid_frame f -> valid_flags fl ->
  let e := Z.lor f (Z.lor fl HUGE_PAGE) in
  let m' := store64 m (t + 8 * l2_index va) e in
  inv m' a /\ entry_update w root m m' (dir_path va) (l2_index va) e /\ footprint w root m a m' a.
Proof.
  intros Hinv Hva Ht Hnp Hf Hfl e m'. destruct (paths_ok _ Hva) as (Hd & Hq & _ & _ & _ & H2 & _).
  assert (Hnone : next_of_entry w 2 e = None).
  { unfold next_of_entry, e. rewrite pte_huge_lor, pte_huge_flag by assumption.
    now destruct (_ =? 0). }
  destruct (store_entry_keep w root Hw m a _ t _ e Hinv Hd H2 Ht) as (_ & Hupd & Hinv' & Hfoot).
  - now apply entry_bound, valid_flags_huge.
  - intros _. cbn [length dir_path Nat.sub]. rewrite Hnone, (entry_of_table _ _ _ _ Ht).
    destruct (next_of_entry w 2 (entry m (dir_path va) (l2_index va))) eqn:E; [|reflexivity].
    pose proof (inv_present _ _ _ _ Hinv (dir_path va) (l2_index va) Hq) as Hpr.
    rewrite Hpr in Hnp; [discriminate|]. rewrite walk_snoc. cbn [length dir_path Nat.sub].
    now rewrite E.
  - cbn [length dir_path Nat.sub]. now rewrite Hnone.
  - auto.
Qed.

Lemma map_huge_post m m1 a0 a frame page flags t :
  consumed 2 a0 a -> inv m1 a -> same_leaves m m1 -> footprint w root m a0 m1 a -> in_width 64 (page_address page) ->
  valid_frame (frame_address frame) -> frame_address frame mod SIZE Size2MiB = 0 ->
  valid_flags flags -> table m1 (dir_path (page_address page)) = Some t ->
  exists r m', (if pte_is_present (load64 m1 (t + 8 * l2_index (page_address page)))
    then Ret (Err PageAlreadyMapped, (m1, a))
    else Ret (Ok (mkTlbFlusher page),
      (store64 m1 (t + 8 * l2_index (page_address page))
         (pte_set_address (frame_address frame) (flags_union flags HUGE_PAGE)), a))) = Ret (r, (m', a)) /\
    map_to_2m_post m a0 page frame flags r m' a /\ changed_on (table_path (page_address page)) m1 m' /\
    (r = Err PageAlreadyMapped -> m' = m1).
Proof.
  intros Hav Hinv Hsl Hfoot Hp Hf Hal Hfl Ht. unfold pte_set_address. rewrite flags_union_spec.
  destruct (same_leaves_lookup _ _ Hsl) as [S4 S2]. destruct frame as [f]. cbn [frame_address] in *.
  rewrite (entry_of_table _ _ _ _ Ht), pte_is_present_spec.
  destruct (Z.testbit (entry m1 _ _) 0) eqn:Ep; do 2 eexists; (split; [reflexivity|]).
  - split; [|auto using changed_on_refl]. split; [exact Hfoot|]. split; [assumption|]. split; [assumption|]. split; [assumption | split; auto].
  - destruct (store_huge m1 a _ t f flags Hinv Hp Ht Ep Hf Hfl) as (Hinv' & Hupd & Hf2).
    destruct (paths_ok _ Hp) as (Hd & _ & _ & _ & _ & H2 & _).
    split; [|split; [now apply (update_changed_on _ _ _ _ _ _ Hupd) | discriminate]]. destruct Hupd as [Hsame Hother].
    split; [eapply footprint_trans; [exact Hfoot | exact Hf2]|].
    split; [assumption|]. split; [assumption|]. split; [reflexivity|]. split; [|split; [|split]].
    + rewrite <- S2 by assumption. unfold lookup2m. now rewrite Ep.
    + intros p Hp' [E1 E2]%vpn2m_indices; [|assumption..]. unfold lookup2m. rewrite E1, E2, Hsame.
      rewrite pte_huge_lor, pte_huge_flag, pte_frame_lor, andb_true_r, present_lor
        by auto using valid_flags_huge.
      rewrite Z.lor_spec, orb_false_r, Hal, Z.sub_0_r.
      rewrite Z.land_lor_distr_l, (valid_frame_flags f Hf), Z.lor_0_l.
      now rewrite (valid_flags_huge flags Hfl).
    + intros p Hp' Hne. rewrite <- S2 by assumption. unfold lookup2m.
      destruct (paths_ok _ Hp') as (Hd' & _ & _ & _ & _ & H2' & _).
      rewrite Hother; [reflexivity|assumption..|].
      intros [= E4 E3 E2]. apply Hne, vpn2m_indices; [assumption..|]. unfold dir_path. split; congruence.
    + intros p Hp'. rewrite <- S4 by assumption. unfold lookup4k.
      destruct (paths_ok _ Hp') as (_ & Hq' & _ & _ & _ & _ & H1').
      rewrite Hother; [reflexivity|assumption..|discriminate].
Qed.

(** Mapping a 2 MiB page refines the update of the huge part of the address space. *)
Lemma map_to_2m_run m a frame page flags :
  inv m a -> in_width 64 (page_address page) ->
  valid_frame (frame_address frame) -> frame_address frame mod SIZE Size2MiB = 0 ->
  valid_flags flags ->
  exists r m' a', map_to_2m pt frame page flags (m, a) = Ret (r, (m', a')) /\
    map_to_2m_post m a page frame flags r m' a' /\ changed_on (table_path (page_address page)) m m' /\
    (r = Err PageAlreadyMapped -> Z.testbit (entry m (dir_path (page_address page)) (l2_index (page_address page))) 0 = true).
Proof.
  intros Hinv Hp Hf Hal Hfl.
  destruct (paths_ok _ Hp) as (Hd & Ht & Hq4 & H4 & H3 & H2 & H1).
  assert (Hfail : forall m0 a0 a', fa_avail a < 2 -> inv m0 a0 -> allocate_frame a0 = Ret (None, a') ->
    same_leaves m m0 -> footprint w root m a m0 a0 ->
    map_to_2m_post m a page frame flags (Err FrameAllocationFailed) m0 a').
  { intros m0 a0 a' Hav Hi E Hsl Hfoot. split.
    - eapply footprint_trans; [exact Hfoot|]. apply footprint_alloc. intros g.
      eapply fa_shrinks; [apply Hi | exact E].
    - split; [assumption|]. split; [eauto | now apply same_leaves_lookup]. }
  assert (P3 : ([] ++ [l4_index (page_address page)]) `prefix_of` dir_path (page_address page)) by now eexists.
  assert (P2 : ([l4_index (page_address page)] ++ [l3_index (page_address page)]) `prefix_of` dir_path (page_address page))
    by now eexists.
  assert (Hbelow : dir_path (page_address page) `prefix_of` table_path (page_address page)) by now eexists [_].
  unfold map_to_2m. cbn [walker pml4t].
  rewrite entry_addr_ok by assumption. cbn [mbind outcome_bind].
  destruct (get_or_allocate_spec m a [] (l4_index (page_address page)) root)
    as [(a1 & -> & Ha0 & Hv0)|(t3 & m3 & a3 & -> & V3 & I3 & T3 & S3 & F3 & C3)];
    [assumption..|reflexivity|discriminate| |]; cbn [mbind outcome_bind].
  { do 3 eexists. split; [reflexivity|]. split; [|split; [apply changed_on_refl | discriminate]].
    eapply Hfail; eauto using same_leaves_refl, footprint_refl. lia. }
  apply C3 in P3.
  rewrite entry_addr_ok by assumption. cbn [mbind outcome_bind].
  destruct (get_or_allocate_spec m3 a3 [l4_index (page_address page)] (l3_index (page_address page)) t3)
    as [(a1 & -> & Ha0 & Hv0)|(t2 & m2 & a2 & -> & V2 & I2 & T2 & S2 & F2 & C2)];
    [assumption..|discriminate| |]; cbn [mbind outcome_bind].
  { do 3 eexists. split; [reflexivity|]. split; [|split; [apply (changed_on_below _ _ _ _ Hbelow P3) | discriminate]].
    eapply Hfail; eauto using same_leaves_trans, footprint_trans. unfold consumed in *; lia. }
  apply C2 in P2.
  rewrite entry_addr_ok by assumption. cbn [mbind outcome_bind].
  destruct (map_huge_post m m2 a a2 frame page flags t2) as (r & m' & -> & Hpost & Hc & Herr);
    [exact (consumed_trans 1 1 _ _ _ V3 V2) | eauto using same_leaves_trans, footprint_trans..].
  pose proof (changed_on_trans _ _ _ _ P3 P2) as P32.
  do 3 eexists. split; [reflexivity|]. split; [exact Hpost|].
  split; [exact (changed_on_trans _ _ _ _ (changed_on_below _ _ _ _ Hbelow P32) Hc)|]. intros ->.
  destruct Hpost as (_ & _ & _ & Hpr & _). rewrite <- Hpr, (Herr eq_refl). f_equal. symmetry.
  apply P32; [assumption..|]. intros Hl%prefix_length. cbn in Hl. lia.
Qed.

Lemma map_to_2m_spec m a frame page flags :
  inv m a -> in_width 64 (page_address page) ->
  valid_frame (frame_address frame) -> frame_address frame mod SIZE Size2MiB = 0 ->
  valid_flags flags ->
  exists r m' a', map_to_2m pt frame page flags (m, a) = Ret (r, (m', a')) /\
    map_to_2m_post m a page frame flags r m' a'.
Proof. intros. destruct (map_to_2m_run m a frame page flags) as (r & m' & a' & E & Hpost & _); eauto 6. Qed.

Lemma translate_2m_lookup m p r :
  in_width 64 (page_address p) -> lookup2m m p = Some r ->
  translate_2m pt m p = Ret (Ok r).
Proof.
  intros Hp Hl. destruct (paths_ok _ Hp) as (_ & _ & _ & H4 & H3 & H2 & _).
  unfold translate_2m, lookup2m, dir_path in *. cbn [walker pml4t].
  set (i4 := l4_index _) in *. set (i3 := l3_index _) in *. set (i2 := l2_index _) in *.
  rewrite entry_addr_ok by assumption. cbn [mbind outcome_bind].
  rewrite (get_pagetable_walk m [] root i4) by (reflexivity || cbn; lia). cbn [mbind outcome_bind app].
  destruct (table m [i4]) as [t3|] eqn:E3;
    [|rewrite (entry_below_none m [i4] [i3]) in Hl by assumption; discriminate].
  rewrite entry_addr_ok by assumption. cbn [mbind outcome_bind].
  rewrite (get_pagetable_walk m [i4] t3 i3) by (assumption || cbn; lia). cbn [mbind outcome_bind app].
  destruct (table m [i4; i3]) as [t2|] eqn:E2;
    [|rewrite (entry_below_none m [i4; i3] []) in Hl by assumption; discriminate].
  rewrite entry_addr_ok by assumption. cbn [mbind outcome_bind].
  rewrite (entry_of_table _ _ _ i2 E2), pte_is_present_spec.
  destruct (Z.testbit (entry m [i4; i3] i2) 0); [|discriminate]. cbn [andb] in Hl.
  destruct (pte_huge _); [|discriminate]. injection Hl as <-.
  rewrite pte_address_eq by apply entry_bound_at.
  destruct (pte_frame_valid (entry m [i4; i3] i2)) as [? _].
  rewrite frame_containing_eq by (unfold in_width; lia). cbn [mbind outcome_bind].
  unfold pte_flags. now rewrite flags_from_bits_truncate_spec.
Qed.

(** *** An empty table *)

Lemma empty_walk m q i :
  (forall i, idx_ok i -> load64 m (root + 8 * i) = 0) -> idx_ok i -> table m (i :: q) = None.
Proof. intros Hz Hi. cbn [walk]. unfold next_table. now rewrite Hz. Qed.

Lemma empty_walk_nil m q t :
  (forall i, idx_ok i -> load64 m (root + 8 * i) = 0) -> path_ok q -> table m q = Some t ->
  q = [] /\ t = root.
Proof.
  intros Hz [Hq _] E. destruct q as [|i q]; [now injection E as <-|].
  apply Forall_cons in Hq as [Hi _]. now rewrite empty_walk in E.
Qed.

Lemma empty_inv m a f :
  (forall i, idx_ok i -> load64 m (root + 8 * i) = 0) -> fa_ok a ->
  valid_frame f -> root = frame_va w f -> ~ fa_free a f -> inv m a.
Proof.
  intros Hz Ha Hf Hr Hnf.
  assert (Hnil : forall q t, path_ok q -> table m q = Some t -> q = [] /\ t = root)
    by (intros; now apply (empty_walk_nil m)).
  split.
  - assumption.
  - intros q t Hq [_ ->]%Hnil; [eauto | assumption].
  - intros q q' t Hq Hq' [-> _]%Hnil [-> _]%Hnil; auto.
  - intros q i Hqi Hs. destruct (table m (q ++ [i])) eqn:E; [|easy].
    apply Hnil in E as [E _]; [|assumption]. now destruct q.
Qed.

Lemma empty_lookup m :
  (forall i, idx_ok i -> load64 m (root + 8 * i) = 0) ->
  (forall p, in_width 64 (page_address p) -> lookup4k m p = None) /\
  (forall p, in_width 64 (page_address p) -> lookup2m m p = None) /\
  (forall va, in_width 64 va -> not_huge m va).
Proof.
  intros Hz. split; [|split]; intros p Hp;
    destruct (paths_ok _ Hp) as (_ & _ & _ & H4 & _);
    unfold lookup4k, lookup2m, not_huge, entry_at, table_path, dir_path; now rewrite empty_walk.
Qed.
End Operations.

(** ** Writes outside the tables *)

Section Writes.
Context `{BF : BitField} `{FMS : PageTableFrameMappingSpec P} (w : P) (root : Z).
Context `{FAS : FrameAllocatorSpec A}.
Implicit Types (m : mem) (a : A) (q : list Z).

(** [m'] has the tables of [m]. *)
Definition same_tables m m' a : Prop := forall x, owned w root m a x -> m' x = m x.

Lemma same_tables_load m m' a q t i :
  same_tables m m' a -> path_ok q -> idx_ok i -> walk w m root 4 q = Some t ->
  load64 m' (t + 8 * i) = load64 m (t + 8 * i).
Proof.
  intros Hs Hq Hi Ht. apply load64_agree. intros x Hx. apply Hs. left. exists q, t.
  unfold idx_ok in Hi. split; [assumption|]. split; [assumption | lia].
Qed.

Lemma same_tables_walk m m' a q :
  same_tables m m' a -> path_ok q -> walk w m' root 4 q = walk w m root 4 q.
Proof.
  intros Hs Hq. apply (walk_agree w m m' root [0; 0; 0; 0]); [|assumption|].
  - intros q1 i1 t1 Hq1 Ht1 _. unfold next_table. pose proof Hq1 as (_ & Hi1 & _)%path_ok_snoc.
    rewrite (same_tables_load m m' a q1 t1 i1); eauto using path_ok_init.
  - destruct Hq as [_ Hl]. intros Hp%prefix_length. cbn in Hp. lia.
Qed.

Lemma same_tables_entry m m' a q i :
  same_tables m m' a -> path_ok q -> idx_ok i -> entry_at w m' root q i = entry_at w m root q i.
Proof.
  intros Hs Hq Hi. unfold entry_at. rewrite (same_tables_walk m m' a) by assumption.
  destruct (walk w m root 4 q) eqn:E; [|reflexivity]. eapply same_tables_load; eauto.
Qed.

Lemma same_tables_owned m m' a x :
  same_tables m m' a -> owned w root m' a x <-> owned w root m a x.
Proof.
  intros Hs. split; (intros [(q & t & Hq & Ht & Hx)|Ho]; [left; exists q, t | now right]);
    (split; [assumption|]); (split; [|assumption]);
    now rewrite (same_tables_walk m m' a) in * by assumption.
Qed.

Lemma same_tables_inv m m' a : same_tables m m' a -> pt_inv w root m a -> pt_inv w root m' a.
Proof.
  intros Hs [I1 I2 I3 I4]. split; [assumption | | |].
  - intros q t Hq. rewrite (same_tables_walk m m' a) by assumption. now apply I2.
  - intros q q' t Hq Hq'. rewrite !(same_tables_walk m m' a) by assumption. now apply I3.
  - intros q i Hqi. pose proof Hqi as (_ & Hi & _)%path_ok_snoc.
    rewrite (same_tables_walk m m' a), (same_tables_entry m m' a) by eauto using path_ok_init. now apply I4.
Qed.

Lemma same_tables_lookup `{BFS : !BitFieldSpec BF} m m' a va :
  same_tables m m' a -> in_width 64 va ->
  lookup4k w root m' (mkPage Size4KiB va) = lookup4k w root m (mkPage Size4KiB va) /\
  (not_huge w root m va -> not_huge w root m' va).
Proof.
  intros Hs Hva. destruct (paths_ok _ Hva) as (Hd & Hq & _ & _ & _ & H2 & H1).
  unfold lookup4k, not_huge. cbn [page_address].
  now rewrite !(same_tables_entry m m' a) by assumption.
Qed.

(** The frame an allocator hands out is not owned any more. *)
Lemma allocated_not_owned m a f a' x :
  pm_ok w -> pt_inv w root m a -> allocate_frame a = Ret (Some f, a') ->
  frame_va w (frame_address f) <= x < frame_va w (frame_address f) + 4096 -> ~ owned w root m a' x.
Proof.
  intros Hw Hi E Hx. pose proof (inv_alloc _ _ _ _ Hi) as Hok.
  destruct (fa_unique _ _ _ Hok E) as [Hfree Hnf]. pose proof (fa_valid _ _ Hok Hfree) as Hf.
  assert (Hsame : forall g, valid_frame g -> frame_va w g <= x < frame_va w g + 4096 -> g = frame_address f).
  { intros g Hg Hxg. now apply (pm_overlap w _ _ x). }
  intros [(q & t & Hq & Ht & Hxt)|(g & Hg & Hxg)].
  - destruct (inv_tables _ _ _ _ Hi q t Hq Ht) as (g & Hg & -> & Hng).
    apply Hng. rewrite (Hsame g Hg Hxt). exact Hfree.
  - pose proof (fa_shrinks _ _ _ _ Hok E Hg) as Hg0. apply Hnf.
    rewrite <- (Hsame g (fa_valid _ _ Hok Hg0) Hxg). exact Hg.
Qed.
End Writes.

(** ** What a mapper promises its clients

    [ms_lookup] is the address space; [ms_plain] says that no huge page covers
    an address.  [map_to] adds one page, and fails only for the documented
    reasons: the page is mapped, or a table frame could not be allocated (which
    cannot happen while three frames are left).  [ms_owned] is the memory the
    mapper keeps its tables in, now or later: the operations write nowhere else,
    and writes elsewhere change no mapping.  A frame that was handed out is not
    owned any more; its bytes are those from [ms_frame_va]. *)

Class MapperSpec (M A : Type) `{Mapper Size4KiB M} `{Translator Size4KiB M} `{FrameAllocatorSpec A} := {
  ms_inv : M -> mem -> A -> Prop;
  ms_plain : M -> mem -> Z -> Prop;
  ms_lookup : M -> mem -> Page Size4KiB -> option (PhysicalFrame Size4KiB * Z);
  ms_owned : M -> mem -> A -> Z -> Prop;
  ms_frame_va : M -> Z -> Z;
  ms_frames pt m a : ms_inv pt m a -> fa_ok a;
  ms_alloc pt m a f a' :
    ms_inv pt m a -> allocate_frame a = Ret (Some f, a') ->
    ms_inv pt m a' /\ (forall x, ~ ms_owned pt m a x -> ~ ms_owned pt m a' x) /\
    (forall x, ms_frame_va pt (frame_address f) <= x < ms_frame_va pt (frame_address f) + 4096 ->
       ms_owned pt m a x /\ ~ ms_owned pt m a' x);
  ms_map_to pt m a frame page flags :
    ms_inv pt m a -> in_width 64 (page_address page) -> ms_plain pt m (page_address page) ->
    valid_frame (frame_address frame) -> valid_flags flags ->
    exists r m' a', map_to pt frame page flags (m, a) = Ret (r, (m', a')) /\
      (forall va, in_width 64 va -> ms_plain pt m va -> ms_plain pt m' va) /\
      (forall x, ~ ms_owned pt m a x -> m' x = m x /\ ~ ms_owned pt m' a' x) /\
      match r with
      | Ok _ => ms_inv pt m' a' /\ consumed 3 a a' /\ ms_lookup pt m page = None /\
          forall p, in_width 64 (page_address p) ->
            ms_lookup pt m' p =
              if vpn (page_address p) =? vpn (page_address page)
              then if Z.testbit flags 0 then Some (frame, flags) else None
              else ms_lookup pt m p
      | Err PageAlreadyMapped => ms_lookup pt m page <> None
      | Err FrameAllocationFailed => fa_avail a < 3
      end;
  ms_unmap pt m a page :
    ms_inv pt m a -> in_width 64 (page_address page) -> ms_plain pt m (page_address page) ->
    ms_lookup pt m page <> None ->
    exists r m', unmap pt page m = Ret (Ok r, m') /\ ms_inv pt m' a /\
      (forall va, in_width 64 va -> ms_plain pt m va -> ms_plain pt m' va) /\
      (forall x, ~ ms_owned pt m a x -> m' x = m x /\ ~ ms_owned pt m' a x) /\
      (forall p, in_width 64 (page_address p) ->
         ms_lookup pt m' p = if vpn (page_address p) =? vpn (page_address page) then None
                             else ms_lookup pt m p);
  ms_valid pt m page f fl : ms_lookup pt m page = Some (mkFrame Size4KiB f, fl) -> valid_frame f;
  ms_translate pt m a page :
    ms_inv pt m a -> in_width 64 (page_address page) -> ms_plain pt m (page_address page) ->
    translate pt m page = Ret (as_result (ms_lookup pt m page));
  ms_write pt m m' a :
    ms_inv pt m a -> (forall x, ms_owned pt m a x -> m' x = m x) ->
    ms_inv pt m' a /\ (forall x, ms_owned pt m' a x <-> ms_owned pt m a x) /\
    (forall va, in_width 64 va -> ms_plain pt m va -> ms_plain pt m' va) /\
    (forall p, in_width 64 (page_address p) -> ms_lookup pt m' p = ms_lookup pt m p);
}.

Section OffsetMapper.
Context `{BF : BitField} `{BFS : !BitFieldSpec BF} `{FL : Bitflags} `{FLS : !BitflagsSpec FL}.
Context `{FMS : PageTableFrameMappingSpec P} `{FAS : FrameAllocatorSpec A}.

(** A page table keeps its invariant when its allocator hands out a frame. *)
Lemma pt_inv_alloc (w : P) root m (a : A) f a' :
  pt_inv w root m a -> allocate_frame a = Ret (Some f, a') -> pt_inv w root m a'.
Proof.
  intros [I1 I2 I3 I4] E. destruct (fa_total a I1) as (r & a1 & E1 & Hok).
  rewrite E in E1. injection E1 as <- <-. split; [apply Hok| |assumption..].
  intros q t Hq Ht. destruct (I2 q t Hq Ht) as (g & ? & ? & Hng). exists g.
  split; [assumption|]. split; [assumption|]. intros Hg. apply Hng. eapply fa_shrinks; eauto.
Qed.

#[global] Program Instance OffsetPageTable_MapperSpec : MapperSpec (OffsetPageTable P) A := {
  ms_inv pt m a := pm_ok (walker (inner pt)) /\ pt_inv (walker (inner pt)) (pml4t (inner pt)) m a;
  ms_plain pt m va := not_huge (walker (inner pt)) (pml4t (inner pt)) m va;
  ms_lookup pt m p := lookup4k (walker (inner pt)) (pml4t (inner pt)) m p;
  ms_owned pt m a x := owned (walker (inner pt)) (pml4t (inner pt)) m a x;
  ms_frame_va pt f := frame_va (walker (inner pt)) f;
}.
Next Obligation. intros pt m a [_ H']. apply H'. Qed.
Next Obligation.
  intros pt m a f a' [Hw Hi] E. split; [split; [assumption | eapply pt_inv_alloc; eauto]|].
  pose proof (inv_alloc _ _ _ _ Hi) as Hok. split.
  - intros x Hx. apply (footprint_alloc _ _ m a a'); [|assumption]. intros g. eapply fa_shrinks; eauto.
  - intros x Hx. split; [|eapply allocated_not_owned; eauto].
    right. exists (frame_address f). destruct (fa_unique _ _ _ Hok E). auto.
Qed.
Next Obligation.
  intros [[w root]] m a frame page flags [Hw Hi] Hp Hpl Hf Hfl. cbn in *.
  destruct (map_to_4k_spec w root Hw m a frame page flags Hi Hp Hpl Hf Hfl)
    as (r & m' & a' & E & Hnh & Hfoot & Hpost).
  exists r, m', a'. split; [exact E|]. split; [exact Hnh|]. split; [exact Hfoot|].
  destruct r as [fl|[|]].
  - destruct Hpost as (Hi' & Hc & _ & Hn & Hsame & Hother & _).
    split; [auto|]. split; [assumption|]. split; [assumption|].
    intros p Hp'. destruct (Z.eqb_spec (vpn (page_address p)) (vpn (page_address page))); auto.
  - apply Hpost.
  - apply Hpost.
Qed.
Next Obligation.
  intros [[w root]] m a page [Hw Hi] Hp Hpl Hl. cbn in *.
  destruct (unmap_4k_spec w root Hw m a page Hi Hp Hpl Hl) as (r & m' & E & Hi' & L1 & L2 & _ & L4 & L5).
  exists r, m'. split; [exact E|]. split; [auto|]. split; [exact L4|]. split; [exact L5|].
  intros p Hp'. destruct (Z.eqb_spec (vpn (page_address p)) (vpn (page_address page))); auto.
Qed.
Next Obligation.
  intros [[w root]] m page f fl. cbn. unfold lookup4k. destruct (Z.testbit _ 0); [|discriminate].
  intros [= <- _]. apply pte_frame_valid.
Qed.
Next Obligation. intros [[w root]] m a page [Hw Hi] Hp Hpl. now apply translate_4k_lookup. Qed.
Next Obligation.
  intros [[w root]] m m' a [Hw Hi] Hs. cbn in *.
  split; [split; [assumption | eapply same_tables_inv; eauto]|].
  split; [intros x; now apply same_tables_owned|].
  split; [|intros [p]]; intros; now apply (same_tables_lookup w root m m' a).
Qed.
End OffsetMapper.
