(* ===== verification/PagingTheorems.v ===== *)
(** The properties of the page tables the boot stages and the kernel use:
    [OffsetPageTable] over a frame mapping and a frame allocator, each known only
    by its contract. *)
From Stdlib Require Import ZArith Lia.
From stdpp Require Import base tactics numbers list.
From S2P Require Import Prelude Crates Memory Paging BumpAlloc AddressSpace.
#[local] Open Scope Z_scope.

Section Theorems.
Context `{BF : BitField} `{BFS : !BitFieldSpec BF} `{FL : Bitflags} `{FLS : !BitflagsSpec FL}.
Context `{FMS : PageTableFrameMappingSpec P} (w : P) (root : Z) (Hw : pm_ok w).
Context `{FAS : FrameAllocatorSpec A}.
Implicit Types (m : mem) (a : A).

Abbreviation pt := (OffsetPageTable_new root w).

(** C4: mapping a 4 KiB page refines the update of the address space.  It never
    panics; on success exactly that page changes, to the given frame and flags;
    [PageAlreadyMapped] and [FrameAllocationFailed] leave every mapping as it
    was, and are returned only when the page is mapped or fewer than three
    frames are left.  Nothing is written outside the tables and the free frames. *)
Theorem map_to_refines m a (frame : PhysicalFrame Size4KiB) (page : Page Size4KiB) flags :
  pt_inv w root m a -> in_width 64 (page_address page) -> not_huge w root m (page_address page) ->
  valid_frame (frame_address frame) -> valid_flags flags ->
  exists r m' a', map_to pt frame page flags (m, a) = Ret (r, (m', a')) /\
    map_to_4k_post w root m a page frame flags r m' a'.
Proof.
  intros Hi Hp Hh Hf Hfl. exact (map_to_4k_spec w root Hw m a frame page flags Hi Hp Hh Hf Hfl).
Qed.

(** An unmapped page can be mapped while three frames are left, and then it
    translates to the frame and the flags it was mapped with. *)
Theorem map_then_translate m a (frame : PhysicalFrame Size4KiB) (page : Page Size4KiB) flags :
  pt_inv w root m a -> in_width 64 (page_address page) -> not_huge w root m (page_address page) ->
  valid_frame (frame_address frame) -> valid_flags flags -> Z.testbit flags 0 = true ->
  lookup4k w root m page = None -> 3 <= fa_avail a ->
  exists m' a', map_to pt frame page flags (m, a) = Ret (Ok (mkTlbFlusher page), (m', a')) /\
    translate pt m' page = Ret (Ok (frame, flags)).
Proof.
  intros Hi Hp Hh Hf Hfl Hpr Hn Ha.
  destruct (map_to_4k_spec w root Hw m a frame page flags) as (r & m' & a' & E & Hnh & _ & Hpost);
    [assumption..|]. exists m', a'.
  destruct r as [[fl]|[|]]; [|lia|now destruct Hpost as (_ & _ & [] & _)].
  destruct Hpost as (_ & _ & Hfl' & _). cbn in Hfl'. subst fl. split; [exact E|].
  eapply map_to_4k_translate; eauto.
Qed.

(** C29: translating a page computes the lookup in the address space, wherever no
    huge page covers it. *)
Theorem translate_refines m (page : Page Size4KiB) :
  in_width 64 (page_address page) -> not_huge w root m (page_address page) ->
  translate pt m page = Ret (as_result (lookup4k w root m page)).
Proof. intros. now apply translate_4k_lookup. Qed.

(** C28: unmapping a mapped page removes exactly that page, keeps the table
    well formed and writes nothing outside the tables. *)
Theorem unmap_refines m a (page : Page Size4KiB) :
  pt_inv w root m a -> in_width 64 (page_address page) -> not_huge w root m (page_address page) ->
  lookup4k w root m page <> None ->
  exists r m', unmap pt page m = Ret (Ok r, m') /\ pt_inv w root m' a /\
    (forall p, in_width 64 (page_address p) ->
       lookup4k w root m' p = if vpn (page_address p) =? vpn (page_address page) then None
                              else lookup4k w root m p) /\
    (forall p, in_width 64 (page_address p) -> lookup2m w root m' p = lookup2m w root m p) /\
    footprint w root m a m' a.
Proof.
  intros Hi Hp Hh Hl. destruct (unmap_4k_spec w root Hw m a page) as (r & m' & E & Hi' & L1 & L2 & L3 & _ & L5);
    [assumption..|]. exists r, m'. split; [exact E|]. split; [assumption|]. split; [|split; assumption].
  intros p Hp'. destruct (Z.eqb_spec (vpn (page_address p)) (vpn (page_address page))); auto.
Qed.

(** The frame [unmap] reports is always frame 0, whatever the page was mapped
    to: the address is read from the entry after it was cleared. *)
Theorem unmap_reports_frame_zero m (page : Page Size4KiB) :
  in_width 64 (page_address page) -> not_huge w root m (page_address page) ->
  lookup4k w root m page <> None ->
  exists m', unmap pt page m = Ret (Ok (mkFrame Size4KiB 0, mkTlbFlusher page), m').
Proof.
  intros Hp Hh Hl. change (unmap pt page m) with (unmap_4k (mkMappedPageTable w root) page m).
  rewrite (unmap_4k_eq w root Hw) by assumption.
  destruct (walk w m root 4 _) eqn:Et; [|destruct Hl; unfold lookup4k, entry_at; now rewrite Et].
  destruct (lookup4k w root m page); [eauto | easy].
Qed.

(** Mapping a 2 MiB page refines the update of the huge part of the address
    space, leaves the 4 KiB pages alone, and writes nothing outside the tables
    and the free frames. *)
Theorem map_huge_refines m a (frame : PhysicalFrame Size2MiB) (page : Page Size2MiB) flags :
  pt_inv w root m a -> in_width 64 (page_address page) ->
  valid_frame (frame_address frame) -> frame_address frame mod SIZE Size2MiB = 0 ->
  valid_flags flags ->
  exists r m' a', map_to pt frame page flags (m, a) = Ret (r, (m', a')) /\
    map_to_2m_post w root m a page frame flags r m' a'.
Proof.
  intros Hi Hp Hf Hal Hfl. exact (map_to_2m_spec w root Hw m a frame page flags Hi Hp Hf Hal Hfl).
Qed.

(** A mapped 2 MiB page translates to its frame, with the huge flag added. *)
Theorem map_huge_then_translate m a (frame : PhysicalFrame Size2MiB) (page : Page Size2MiB) flags fl m' a' :
  pt_inv w root m a -> in_width 64 (page_address page) ->
  valid_frame (frame_address frame) -> frame_address frame mod SIZE Size2MiB = 0 ->
  valid_flags flags -> Z.testbit flags 0 = true ->
  map_to pt frame page flags (m, a) = Ret (Ok fl, (m', a')) ->
  translate pt m' page = Ret (Ok (frame, Z.lor flags HUGE_PAGE)).
Proof.
  intros Hi Hp Hf Hal Hfl Hpr E.
  destruct (map_to_2m_spec w root Hw m a frame page flags) as (r & m1 & a1 & E1 & _ & Hpost); [assumption..|].
  pose proof (eq_trans (eq_sym E) E1) as E2. injection E2 as <- <- <-.
  destruct Hpost as (_ & _ & _ & _ & Hnew & _ & _).
  apply translate_2m_lookup; [assumption..|]. rewrite Hnew by auto. now rewrite Hpr.
Qed.

(** A zeroed table is a well-formed address space with nothing mapped. *)
Theorem empty_table_correct m a f :
  fa_ok a -> valid_frame f -> root = frame_va w f -> ~ fa_free a f ->
  exists m', initialize_empty_at_address m root = Ret m' /\ pt_inv w root m' a /\
    (forall p, in_width 64 (page_address p) -> lookup4k w root m' p = None) /\
    (forall p, in_width 64 (page_address p) -> lookup2m w root m' p = None).
Proof.
  intros Ha Hf Hr Hnf. unfold initialize_empty_at_address. change PageTable_SIZE with 4096.
  pose proof (pm_aligned w f Hw Hf) as Hal. rewrite <- Hr in Hal. rewrite Hal. cbn [Z.eqb assert_true mbind outcome_bind].
  eexists. split; [reflexivity|].
  assert (Hz : forall i, idx_ok i -> load64 (write_bytes m root 0 4096) (root + 8 * i) = 0).
  { unfold idx_ok. intros i Hi. apply load64_write_zero; lia. }
  split; [eapply empty_inv; eauto|]. destruct (empty_lookup w root _ Hz) as (? & ? & _). auto.
Qed.
End Theorems.

(** ** A concrete page table

    The physical memory window at 0, the root table in the zeroed frame 0x1000,
    and the sixteen frames from 0x10000 for further tables. *)

Section Witnesses.
#[local] Existing Instances ref_bit_field ref_bitflags ref_bit_field_ok ref_bitflags_ok.

Definition ex_window : PhysicalOffset := mkPhysicalOffset 0.
Definition ex_mem : mem := fun _ => 0.
Definition ex_alloc : BumpFrameAllocator PhysicalMemoryRegion :=
  bump_new [PhysicalMemoryRegion_new 0x10000 0x10000 Free].
Definition ex_page : Page Size4KiB := mkPage Size4KiB 0x7f0000201000.
Definition ex_frame : PhysicalFrame Size4KiB := mkFrame Size4KiB 0x30000.

Lemma ex_window_ok : pm_ok ex_window.
Proof. split; [|split]; vm_compute; congruence. Qed.

Lemma ex_alloc_ok : bump_ok ex_alloc.
Proof.
  split; [|cbn [ex_alloc bump_new bump_next]; lia]. split; [|exact I]. intros _. split.
  - split; cbn; try lia; reflexivity.
  - intros r []%not_elem_of_nil.
Qed.

Lemma ex_inv : pt_inv ex_window 0x1000 ex_mem ex_alloc.
Proof.
  apply empty_inv with 0x1000; [reflexivity | apply ex_alloc_ok | split; [lia | reflexivity] | reflexivity |].
  cbn [fa_free Bump_FrameAllocatorSpec]. intros (r & ->%list_elem_of_singleton & _ & i & Hi & E & _)%elem_of_usable_addrs.
  cbn in E. lia.
Qed.

Lemma ex_empty : forall i, idx_ok i -> load64 ex_mem (0x1000 + 8 * i) = 0.
Proof. reflexivity. Qed.

Lemma map_to_refines_witness :
  exists r m' a', map_to (OffsetPageTable_new 0x1000 ex_window) ex_frame ex_page 3 (ex_mem, ex_alloc) = Ret (r, (m', a')) /\
    map_to_4k_post ex_window 0x1000 ex_mem ex_alloc ex_page ex_frame 3 r m' a'.
Proof.
  apply (map_to_refines ex_window 0x1000 ex_window_ok ex_mem ex_alloc ex_frame ex_page 3).
  - exact ex_inv.
  - cbn. unfold in_width. lia.
  - reflexivity.
  - split; cbn; [lia | reflexivity].
  - reflexivity.
Defined.

Lemma map_then_translate_witness :
  exists m' a', map_to (OffsetPageTable_new 0x1000 ex_window) ex_frame ex_page 3 (ex_mem, ex_alloc)
      = Ret (Ok (mkTlbFlusher ex_page), (m', a')) /\
    translate (OffsetPageTable_new 0x1000 ex_window) m' ex_page = Ret (Ok (ex_frame, 3)).
Proof.
  apply (map_then_translate ex_window 0x1000 ex_window_ok ex_mem ex_alloc ex_frame ex_page 3).
  - exact ex_inv.
  - cbn. unfold in_width. lia.
  - reflexivity.
  - split; cbn; [lia | reflexivity].
  - reflexivity.
  - reflexivity.
  - reflexivity.
  - vm_compute. discriminate.
Defined.

(** The table after [ex_page] was mapped. *)
Definition ex_mapped : mem * BumpFrameAllocator PhysicalMemoryRegion :=
  match map_to (OffsetPageTable_new 0x1000 ex_window) ex_frame ex_page 3 (ex_mem, ex_alloc) with
  | Ret (_, st) => st
  | Panic _ => (ex_mem, ex_alloc)
  end.

Lemma ex_mapped_ok :
  pt_inv ex_window 0x1000 (fst ex_mapped) (snd ex_mapped) /\
  not_huge ex_window 0x1000 (fst ex_mapped) (page_address ex_page) /\
  lookup4k ex_window 0x1000 (fst ex_mapped) ex_page = Some (ex_frame, 3).
Proof.
  assert (Hp : in_width 64 (page_address ex_page)) by (cbn; unfold in_width; lia).
  destruct (map_to_4k_spec ex_window 0x1000 ex_window_ok ex_mem ex_alloc ex_frame ex_page 3)
    as (r & m' & a' & E & Hnh & _ & Hpost); [exact ex_inv | exact Hp | reflexivity | split; cbn; [lia | reflexivity] | reflexivity |].
  unfold ex_mapped. change (map_to (OffsetPageTable_new 0x1000 ex_window)) with (map_to_4k (A := BumpFrameAllocator PhysicalMemoryRegion) (mkMappedPageTable ex_window 0x1000)).
  rewrite E. cbn [fst snd]. destruct r as [fl|[|]].
  - destruct Hpost as (Hi & _ & _ & _ & Hnew & _). split; [exact Hi|]. split; [now apply Hnh|].
    now rewrite Hnew.
  - destruct Hpost as [Hlt _]. vm_compute in Hlt. discriminate.
  - now destruct Hpost as (_ & _ & [] & _).
Qed.

Lemma translate_refines_witness :
  translate (OffsetPageTable_new 0x1000 ex_window) ex_mem ex_page = Ret (as_result (lookup4k ex_window 0x1000 ex_mem ex_page)).
Proof.
  apply (translate_refines ex_window 0x1000 ex_window_ok ex_mem ex_page); [cbn; unfold in_width; lia | reflexivity].
Defined.

#[local] Opaque ex_mapped.

Lemma unmap_refines_witness :
  exists r m', unmap (OffsetPageTable_new 0x1000 ex_window) ex_page (fst ex_mapped) = Ret (Ok r, m') /\
    pt_inv ex_window 0x1000 m' (snd ex_mapped) /\
    (forall p, in_width 64 (page_address p) ->
       lookup4k ex_window 0x1000 m' p =
         if vpn (page_address p) =? vpn (page_address ex_page) then None
         else lookup4k ex_window 0x1000 (fst ex_mapped) p) /\
    (forall p, in_width 64 (page_address p) ->
       lookup2m ex_window 0x1000 m' p = lookup2m ex_window 0x1000 (fst ex_mapped) p) /\
    footprint ex_window 0x1000 (fst ex_mapped) (snd ex_mapped) m' (snd ex_mapped).
Proof.
  destruct ex_mapped_ok as (Hi & Hh & Hl).
  assert (Hp : in_width 64 (page_address ex_page)) by (cbn; unfold in_width; lia).
  assert (Hn : lookup4k ex_window 0x1000 (fst ex_mapped) ex_page <> None) by (rewrite Hl; discriminate).
  exact (unmap_refines ex_window 0x1000 ex_window_ok (fst ex_mapped) (snd ex_mapped) ex_page Hi Hp Hh Hn).
Defined.

Lemma unmap_reports_frame_zero_witness :
  lookup4k ex_window 0x1000 (fst ex_mapped) ex_page = Some (ex_frame, 3) /\
  exists m', unmap (OffsetPageTable_new 0x1000 ex_window) ex_page (fst ex_mapped)
    = Ret (Ok (mkFrame Size4KiB 0, mkTlbFlusher ex_page), m').
Proof.
  destruct ex_mapped_ok as (Hi & Hh & Hl). split; [exact Hl|].
  assert (Hp : in_width 64 (page_address ex_page)) by (cbn; unfold in_width; lia).
  assert (Hn : lookup4k ex_window 0x1000 (fst ex_mapped) ex_page <> None) by (rewrite Hl; discriminate).
  exact (unmap_reports_frame_zero ex_window 0x1000 ex_window_ok (fst ex_mapped) ex_page Hp Hh Hn).
Defined.

Lemma map_huge_refines_witness :
  exists r m' a', map_to (OffsetPageTable_new 0x1000 ex_window) (mkFrame Size2MiB 0x400000)
      (mkPage Size2MiB 0x600000) 3 (ex_mem, ex_alloc) = Ret (r, (m', a')) /\
    map_to_2m_post ex_window 0x1000 ex_mem ex_alloc (mkPage Size2MiB 0x600000) (mkFrame Size2MiB 0x400000) 3 r m' a'.
Proof.
  apply (map_huge_refines ex_window 0x1000 ex_window_ok ex_mem ex_alloc (mkFrame Size2MiB 0x400000) (mkPage Size2MiB 0x600000) 3).
  - exact ex_inv.
  - cbn. unfold in_width. lia.
  - split; cbn; [lia | reflexivity].
  - reflexivity.
  - reflexivity.
Defined.

Lemma map_huge_then_translate_witness :
  exists m' a' fl, map_to (OffsetPageTable_new 0x1000 ex_window) (mkFrame Size2MiB 0x400000)
      (mkPage Size2MiB 0x600000) 3 (ex_mem, ex_alloc) = Ret (Ok fl, (m', a')) /\
    translate (OffsetPageTable_new 0x1000 ex_window) m' (mkPage Size2MiB 0x600000)
      = Ret (Ok (mkFrame Size2MiB 0x400000, 0x83)).
Proof.
  do 3 eexists. split; [reflexivity|].
  eapply (map_huge_then_translate ex_window 0x1000 ex_window_ok ex_mem ex_alloc (mkFrame Size2MiB 0x400000) (mkPage Size2MiB 0x600000) 3).
  - exact ex_inv.
  - cbn. unfold in_width. lia.
  - split; cbn; [lia | reflexivity].
  - reflexivity.
  - reflexivity.
  - reflexivity.
  - reflexivity.
Defined.

Lemma empty_table_correct_witness :
  exists m', initialize_empty_at_address (fun x => x) 0x1000 = Ret m' /\
    pt_inv ex_window 0x1000 m' ex_alloc /\
    (forall p, in_width 64 (page_address p) -> lookup4k ex_window 0x1000 m' p = None) /\
    (forall p, in_width 64 (page_address p) -> lookup2m ex_window 0x1000 m' p = None).
Proof.
  apply (empty_table_correct ex_window 0x1000 ex_window_ok (fun x => x) ex_alloc 0x1000).
  - exact ex_alloc_ok.
  - split; [lia | reflexivity].
  - reflexivity.
  - cbn [fa_free Bump_FrameAllocatorSpec]. intros (r & ->%list_elem_of_singleton & _ & i & Hi & E & _)%elem_of_usable_addrs.
    cbn in E. lia.
Defined.
End Witnesses.
