(* ===== verification/MapperClient.v ===== *)
(** What clients of the mapper share.

    [map_new_frame] is the step of the loops that back a range of pages with
    fresh frames ([init_heap] of the kernel, [allocate_and_map_stack] of stage
    4).  [reads] is memory as seen through the page table: the byte at a virtual
    address, in memory that the tables do not own.  The lemmas are proved
    against the contract [MapperSpec]. *)
From Stdlib Require Import ZArith Lia.
From stdpp Require Import base tactics numbers list sets.
From S2P Require Import Prelude Crates Memory Paging AddressSpace.
#[local] Open Scope Z_scope.

Section MapNewFrame.
Context `{MP : Mapper Size4KiB M} `{FA : FrameAllocator A}.

(** A frame is allocated and mapped, and both must succeed.  Flushing the TLB
    entry changes no memory. *)
Definition map_new_frame (pt : M) (flags : Z) (page : Page Size4KiB) (st : mem * A) : outcome (mem * A) :=
  let '(m, al) := st in
  '(f, al) ← allocate_frame al;
  frame ← unwrap f;
  '(r, st) ← map_to pt frame page flags (m, al);
  _ ← expect r;
  Ret st.
End MapNewFrame.

Section MapPages.
Context `{MS : MapperSpec M A}.
Implicit Types (pt : M) (m : mem) (a : A) (p : Page Size4KiB).

Abbreviation pvpn p := (vpn (page_address p)).

(** What is not owned is left alone, and stays not owned. *)
Definition keeps pt m a m' a' : Prop :=
  forall x, ~ ms_owned pt m a x -> m' x = m x /\ ~ ms_owned pt m' a' x.

Lemma keeps_refl pt m a : keeps pt m a m a.
Proof. intros x Hx. auto. Qed.

Lemma keeps_trans pt m1 a1 m2 a2 m3 a3 :
  keeps pt m1 a1 m2 a2 -> keeps pt m2 a2 m3 a3 -> keeps pt m1 a1 m3 a3.
Proof.
  intros H1' H2' x Hx. destruct (H1' x Hx) as [E1 Hx2]. destruct (H2' x Hx2) as [E2 Hx3].
  split; [congruence | assumption].
Qed.

(** A page that can be mapped. *)
Definition mappable pt m p : Prop :=
  in_width 64 (page_address p) /\ ms_plain pt m (page_address p) /\ ms_lookup pt m p = None.

(** A frame handed out: it was free and is not any more, and its bytes belong
    to the client. *)
Lemma new_frame_spec pt m a :
  ms_inv pt m a -> 1 <= fa_avail a ->
  exists f a', allocate_frame a = Ret (Some (mkFrame Size4KiB f), a') /\ valid_frame f /\
    fa_free a f /\ ~ fa_free a' f /\ ms_inv pt m a' /\ consumed 1 a a' /\ keeps pt m a m a' /\
    (forall x, ms_frame_va pt f <= x < ms_frame_va pt f + 4096 -> ms_owned pt m a x /\ ~ ms_owned pt m a' x).
Proof.
  intros Hi Hav. pose proof (ms_frames pt m a Hi) as Hok.
  destruct (fa_total a Hok) as ([[f]|] & a' & E & Hr); [|lia]. exists f, a'.
  destruct (fa_unique _ _ _ Hok E) as [Hfree Hnfree].
  destruct (ms_alloc pt m a _ a' Hi E) as (Hi' & Hown & Hbytes).
  split; [exact E|]. split; [now apply (fa_valid a)|]. split; [assumption|]. split; [assumption|].
  split; [assumption|]. split; [|split; [intros x Hx; auto | exact Hbytes]].
  split; [lia|]. intros g. eapply fa_shrinks; eauto.
Qed.

(** Mapping a mappable page. *)
Lemma map_to_mappable pt m a f flags p :
  ms_inv pt m a -> mappable pt m p -> valid_flags flags -> valid_frame f -> 3 <= fa_avail a ->
  exists r m' a', map_to pt (mkFrame Size4KiB f) p flags (m, a) = Ret (Ok r, (m', a')) /\
    ms_inv pt m' a' /\ consumed 3 a a' /\ keeps pt m a m' a' /\
    (forall va, in_width 64 va -> ms_plain pt m va -> ms_plain pt m' va) /\
    (forall q, in_width 64 (page_address q) ->
       ms_lookup pt m' q = if pvpn q =? pvpn p
                           then if Z.testbit flags 0 then Some (mkFrame Size4KiB f, flags) else None
                           else ms_lookup pt m q).
Proof.
  intros Hi (Hp & Hpl & Hn) Hfl Hf Hav.
  destruct (ms_map_to pt m a (mkFrame Size4KiB f) p flags) as (r & m' & a' & Em & Hpl' & Hk & Hpost);
    [assumption..|].
  destruct r as [fl|[|]]; [|lia|contradiction]. destruct Hpost as (Hi' & Hc & _ & Hlook).
  exists fl, m', a'. auto 10.
Qed.

(** One new frame: only its page changes. *)
Lemma map_new_frame_spec pt m a flags p :
  ms_inv pt m a -> mappable pt m p -> valid_flags flags -> 4 <= fa_avail a ->
  exists f m' a', map_new_frame pt flags p (m, a) = Ret (m', a') /\
    ms_inv pt m' a' /\ consumed 4 a a' /\ fa_free a f /\ ~ fa_free a' f /\ keeps pt m a m' a' /\
    (forall va, in_width 64 va -> ms_plain pt m va -> ms_plain pt m' va) /\
    (forall q, in_width 64 (page_address q) ->
       ms_lookup pt m' q = if pvpn q =? pvpn p
                           then if Z.testbit flags 0 then Some (mkFrame Size4KiB f, flags) else None
                           else ms_lookup pt m q).
Proof.
  intros Hi Hp Hfl Hav.
  destruct (new_frame_spec pt m a Hi) as (f & a1 & E & Hf & Hfree & Hnfree & Hi1 & [Hc1 Hc2] & Hk1 & _); [lia|].
  destruct (map_to_mappable pt m a1 f flags p) as (r & m' & a' & Em & Hi' & [Hc3 Hc4] & Hk2 & Hpl & Hlook);
    [assumption..|lia|].
  exists f, m', a'. unfold map_new_frame. rewrite E. cbn [mbind outcome_bind unwrap]. rewrite Em.
  split; [reflexivity|]. split; [assumption|]. split; [split; [lia | auto]|]. split; [assumption|].
  split; [auto|]. split; [eapply keeps_trans; eauto | auto].
Qed.

(** A run of pages: each gets a frame of its own, and nothing else changes. *)
Lemma map_new_frames_spec pt flags ps m a :
  ms_inv pt m a -> valid_flags flags -> Z.testbit flags 0 = true ->
  Forall (mappable pt m) ps -> NoDup ((fun p => pvpn p) <$> ps) ->
  4 * Z.of_nat (length ps) <= fa_avail a ->
  exists fs m' a', fold_outcome (map_new_frame pt flags) ps (m, a) = Ret (m', a') /\
    ms_inv pt m' a' /\ consumed (4 * Z.of_nat (length ps)) a a' /\ keeps pt m a m' a' /\
    NoDup fs /\ (forall f, f ∈ fs -> fa_free a f /\ ~ fa_free a' f) /\
    Forall2 (fun p f => ms_lookup pt m' p = Some (mkFrame Size4KiB f, flags)) ps fs /\
    (forall va, in_width 64 va -> ms_plain pt m va -> ms_plain pt m' va) /\
    (forall q, in_width 64 (page_address q) -> pvpn q ∉ ((fun p => pvpn p) <$> ps) ->
       ms_lookup pt m' q = ms_lookup pt m q).
Proof.
  intros Hi Hfl Hb. revert m a Hi. induction ps as [|p ps IH]; intros m a Hi Hps Hnd Hav.
  - exists [], m, a. split; [reflexivity|]. split; [assumption|]. split; [split; [cbn; lia | auto]|].
    split; [apply keeps_refl|]. split; [constructor|]. split; [intros f []%not_elem_of_nil|]. split; [constructor | auto].
  - apply Forall_cons in Hps as [Hp Hps]. rewrite fmap_cons in Hnd. apply NoDup_cons in Hnd as [Hni Hnd].
    cbn [length] in *.
    destruct (map_new_frame_spec pt m a flags p Hi Hp Hfl) as (f & m1 & a1 & E & Hi1 & [Hc1 Hc2] & Hf & Hnf & Hk & Hpl & Hlook);
      [lia|]. cbn [fold_outcome]. rewrite E. cbn [mbind outcome_bind].
    destruct (IH m1 a1 Hi1) as (fs & m' & a' & E' & Hi' & [Hc1' Hc2'] & Hk' & Hnd' & Hfs & Hlook' & Hpl' & Hother);
      [|assumption|lia|].
    { rewrite Forall_forall in *. intros q Hq.
      destruct (Hps q Hq) as (Hw & Hplq & Hnone). split; [assumption|]. split; [auto|].
      rewrite Hlook by assumption. destruct (Z.eqb_spec (pvpn q) (pvpn p)) as [Eq|]; [|assumption].
      destruct Hni. apply list_elem_of_fmap. exists q. auto. }
    exists (f :: fs), m', a'. split; [exact E'|]. split; [assumption|].
    split; [split; [lia | auto]|]. split; [eapply keeps_trans; eauto|]. split; [|split; [|split; [|split]]].
    + constructor; [|assumption]. intros Hin. now destruct (Hfs f Hin).
    + intros g [->|Hg]%elem_of_cons; [auto|]. destruct (Hfs g Hg). auto.
    + constructor; [|assumption]. destruct Hp as (Hw & _ & _). rewrite Hother by assumption.
      now rewrite Hlook, Z.eqb_refl, Hb.
    + auto.
    + intros q Hw Hq. rewrite fmap_cons, not_elem_of_cons in Hq. destruct Hq as [Hq1 Hq2].
      rewrite Hother, Hlook by assumption. now rewrite (proj2 (Z.eqb_neq _ _)).
Qed.

(** A run of pages and a guard page, which is given a frame but stays unmapped. *)
Lemma map_guarded_pages_spec pt flags ps g m a :
  ms_inv pt m a -> valid_flags flags -> Z.testbit flags 0 = true ->
  Forall (mappable pt m) (g :: ps) -> NoDup ((fun p => pvpn p) <$> g :: ps) ->
  4 * Z.of_nat (length ps) + 4 <= fa_avail a ->
  exists fs st1 m' a', fold_outcome (map_new_frame pt flags) ps (m, a) = Ret st1 /\
    map_new_frame pt NONE g st1 = Ret (m', a') /\
    ms_inv pt m' a' /\ keeps pt m a m' a' /\
    NoDup fs /\ (forall f, f ∈ fs -> fa_free a f /\ ~ fa_free a' f) /\
    Forall2 (fun p f => ms_lookup pt m' p = Some (mkFrame Size4KiB f, flags)) ps fs /\
    ms_lookup pt m' g = None /\
    (forall q, in_width 64 (page_address q) -> pvpn q ∉ ((fun p => pvpn p) <$> g :: ps) ->
       ms_lookup pt m' q = ms_lookup pt m q) /\
    consumed (4 * Z.of_nat (length ps) + 4) a a' /\
    (forall va, in_width 64 va -> ms_plain pt m va -> ms_plain pt m' va).
Proof.
  intros Hi Hfl Hb Hmap Hnd Hav. apply Forall_cons in Hmap as [(Hgw & Hgp & Hgn) Hmap].
  rewrite fmap_cons in *. apply NoDup_cons in Hnd as [Hgni Hnd].
  destruct (map_new_frames_spec pt flags ps m a Hi Hfl Hb Hmap Hnd)
    as (fs & m1 & a1 & E1 & Hi1 & [Hc1 Hc2] & Hk1 & Hndf & Hfs & Hlook & Hpl & Hother); [lia|].
  assert (Hg1 : ms_lookup pt m1 g = None) by (rewrite Hother; assumption).
  destruct (map_new_frame_spec pt m1 a1 NONE g Hi1)
    as (f0 & m2 & a2 & E2 & Hi2 & [Hd1 Hd2] & _ & _ & Hk2 & Hpl2 & Hlook2);
    [exact (conj Hgw (conj (Hpl _ Hgw Hgp) Hg1)) | reflexivity | lia|].
  exists fs, (m1, a1), m2, a2. split; [exact E1|]. split; [exact E2|]. split; [assumption|].
  split; [eapply keeps_trans; eauto|]. split; [assumption|].
  split; [intros f Hf; destruct (Hfs f Hf); auto|].
  split; [|split; [|split; [|split; [split; [lia | auto] | auto]]]].
  - rewrite Forall2_lookup in Hlook |- *. intros i. specialize (Hlook i).
    destruct (ps !! i) as [p|] eqn:Ep; inversion Hlook; subst; constructor.
    apply list_elem_of_lookup_2 in Ep. rewrite Forall_forall in Hmap.
    rewrite Hlook2 by now apply Hmap. rewrite (proj2 (Z.eqb_neq _ _)); [assumption|].
    intros E. apply Hgni. rewrite <- E. apply list_elem_of_fmap. eauto.
  - rewrite Hlook2, Z.eqb_refl by assumption. reflexivity.
  - intros q Hq [Hq1 Hq2]%not_elem_of_cons. rewrite Hlook2 by assumption.
    rewrite (proj2 (Z.eqb_neq _ _)) by assumption. now apply Hother.
Qed.
End MapPages.

(** ** Memory as seen through the page table *)

Lemma vpn_aligned x : x mod 4096 = 0 -> vpn x = (x / 4096) mod 2 ^ 36.
Proof. intros Hx. unfold vpn. Z.to_euclidean_division_equations; lia. Qed.

(** Pages less than [2 ^ 48] bytes apart have different numbers. *)
Lemma vpn_pages_inj vs j k :
  vs mod 4096 = 0 -> - 2 ^ 36 < j - k < 2 ^ 36 ->
  vpn (vs + j * 4096) = vpn (vs + k * 4096) -> j = k.
Proof.
  intros Hvs Hjk. rewrite !vpn_aligned, !Z_div_plus by (rewrite ?Z_mod_plus_full; lia).
  intros E. Z.to_euclidean_division_equations; lia.
Qed.

Definition page_of (va : VirtualAddress) : Page Size4KiB := mkPage Size4KiB (va - va mod 4096).

Lemma page_of_width va : in_width 64 va -> in_width 64 (page_address (page_of va)).
Proof. unfold in_width. cbn. pose proof (Z.mod_pos_bound va 4096). Z.to_euclidean_division_equations; lia. Qed.

Section VirtualMemory.
Context `{MS : MapperSpec M A} (pt : M).
Implicit Types (m : mem) (a : A).

(** The byte [b] is read at the virtual address [va], through a page with the
    flags [fl]; it is in memory the tables do not own. *)
Definition reads m a (va fl b : Z) : Prop :=
  exists f, ms_lookup pt m (page_of va) = Some (mkFrame Size4KiB f, fl) /\
    load8 m (f + va mod 4096) = b /\ ~ ms_owned pt m a (f + va mod 4096).

Lemma reads_keep m a m' a' va fl b :
  keeps pt m a m' a' -> ms_lookup pt m' (page_of va) = ms_lookup pt m (page_of va) ->
  reads m a va fl b -> reads m' a' va fl b.
Proof.
  intros Hk Hl (f & Ef & Eb & Ho). destruct (Hk _ Ho) as [Em Ho']. exists f.
  split; [congruence|]. split; [|assumption]. unfold load8 in *. congruence.
Qed.
End VirtualMemory.
