(* ===== verification/WindowMapper.v ===== *)
(** A page table in which part of the address space is set aside.

    Stage 4 fills the kernel's page table with 4 KiB pages and then maps all of
    physical memory with 2 MiB pages into a range that nothing uses.  [Reserving
    R] is the contract of the mapper under which 4 KiB pages are mapped outside
    the root entries in [R] only, so that these stay empty; every theorem on the
    clients of a mapper holds for it.  [map_window] then maps huge pages into
    the part set aside. *)
From Stdlib Require Import ZArith Lia.
From stdpp Require Import base tactics numbers list.
From S2P Require Import Prelude Crates Memory Paging AddressSpace.
#[local] Open Scope Z_scope.

Section Reserving.
Context `{BF : BitField} `{BFS : !BitFieldSpec BF} `{FL : Bitflags} `{FLS : !BitflagsSpec FL}.
Context `{FMS : PageTableFrameMappingSpec P} `{FAS : FrameAllocatorSpec A}.
Context (R : Z -> Prop).
Implicit Types (w : P) (root : Z) (m : mem) (a : A).

(** The root entries in [R] are unused. *)
Definition root_reserved w root m : Prop := forall i, idx_ok i -> R i -> entry_at w m root [] i = 0.

Lemma reserved_changed w root m m' path :
  changed_on w root path m m' -> (forall i rest, path = i :: rest -> ~ R i) ->
  root_reserved w root m -> root_reserved w root m'.
Proof.
  intros Hc Hp Hr i Hi HR. rewrite Hc; [now apply Hr | split; [constructor | cbn; lia] | assumption|].
  intros [rest ->]. exact (Hp i rest eq_refl HR).
Qed.

Lemma reserved_leaf w root m m' va :
  changed_on w root (leaf_path va) m m' -> ~ R (l4_index va) -> root_reserved w root m -> root_reserved w root m'.
Proof. intros Hc Hn. apply (reserved_changed w root m m' _ Hc). intros i rest [= <- _]. exact Hn. Qed.

(** Away from the tables under the root entries in [R] the entries are the same. *)
Definition kept_outside w root m m' : Prop :=
  forall q i, path_ok q -> idx_ok i -> (forall j, head (q ++ [i]) = Some j -> ~ R j) ->
    entry_at w m' root q i = entry_at w m root q i.

Lemma kept_outside_refl w root m : kept_outside w root m m.
Proof. intros q i _ _ _. reflexivity. Qed.

Lemma kept_outside_trans w root m1 m2 m3 :
  kept_outside w root m1 m2 -> kept_outside w root m2 m3 -> kept_outside w root m1 m3.
Proof. intros H1 H2 q i Hq Hi Hn. rewrite H2, H1; auto. Qed.

Lemma changed_kept w root m m' i path : changed_on w root (i :: path) m m' -> R i -> kept_outside w root m m'.
Proof.
  intros Hc HR q j Hq Hj Hn. apply Hc; [assumption..|]. intros [rest E].
  apply (Hn i); [|assumption]. destruct q as [|k q]; now injection E as <- _.
Qed.

Lemma kept_walk w root m m' q :
  kept_outside w root m m' -> path_ok q -> (forall j, head q = Some j -> ~ R j) ->
  walk w m' root 4 q = walk w m root 4 q.
Proof.
  intros Hk Hq Hn. destruct q as [|i q _] using rev_ind; [reflexivity|].
  pose proof (path_ok_init _ _ Hq). apply path_ok_snoc in Hq as (_ & Hi & _). now rewrite !walk_snoc, Hk.
Qed.

(** A reserved root entry that was kept is still unused. *)
Lemma kept_entry w root m m' i :
  kept_outside w root m m' -> idx_ok i -> ~ R i -> entry_at w m' root [] i = entry_at w m root [] i.
Proof. intros Hk Hi Hn. apply Hk; [split; [constructor | cbn; lia] | assumption | now intros j [= <-]]. Qed.

(** A table that appears under an entry in [R] is in a frame that was free. *)
Lemma new_root_table w root m a m' a' i t :
  pm_ok w -> (forall g, Decision (fa_free a g)) ->
  pt_inv w root m a -> pt_inv w root m' a' -> root_reserved w root m -> footprint w root m a m' a' ->
  kept_outside w root m m' -> idx_ok i -> R i -> walk w m' root 4 [i] = Some t ->
  exists g, valid_frame g /\ t = frame_va w g /\ fa_free a g.
Proof.
  intros Hw Hdec Hm Hm' Hr Hfoot Hk Hi HR Ht.
  assert (Hpi : path_ok [i]) by (split; [now apply Forall_singleton | cbn; lia]).
  destruct (inv_tables w root m' a' Hm' [i] t Hpi Ht) as (g & Hg & -> & _). exists g.
  split; [assumption|]. split; [reflexivity|]. destruct (Hdec g) as [|Hn]; [assumption|exfalso].
  apply (Hfoot (frame_va w g)).
  2: { left. exists [i], (frame_va w g). split; [assumption|]. split; [assumption | lia]. }
  intros [(q & t & Hq & Htq & Hx)|(f & Hf & Hx)].
  - destruct (inv_tables w root m a Hm q t Hq Htq) as (f & Hf & -> & _).
    assert (f = g) as -> by (apply (pm_overlap w f g (frame_va w g)); (assumption || lia)).
    assert (Hhead : forall j, head q = Some j -> ~ R j).
    { destruct q as [|j q]; intros k [= <-] HRj. pose proof (proj1 (proj1 (Forall_cons _ _ _) (proj1 Hq))) as Hj.
      enough (E : walk w m root 4 [j] = None) by (change (j :: q) with ([j] ++ q) in Htq; now rewrite walk_app, E in Htq).
      change [j] with ([] ++ [j]). now rewrite walk_snoc, (Hr j Hj HRj). }
    rewrite <- (kept_walk w root m m' q Hk Hq Hhead) in Htq.
    rewrite (inv_inj w root m' a' Hm' q [i] _ Hq Hpi Htq Ht) in Hhead. now apply (Hhead i).
  - assert (f = g) as -> by (apply (pm_overlap w f g (frame_va w g)); try (assumption || lia); exact (fa_valid a f (inv_alloc w root m a Hm) Hf)).
    contradiction.
Qed.

#[local] Obligation Tactic := idtac.

#[program] Definition Reserving : MapperSpec (OffsetPageTable P) A := {|
  ms_inv pt m a := let w := walker (inner pt) in let root := pml4t (inner pt) in
    pm_ok w /\ pt_inv w root m a /\ root_reserved w root m;
  ms_plain pt m va := not_huge (walker (inner pt)) (pml4t (inner pt)) m va /\ ~ R (l4_index va);
  ms_lookup pt m p := lookup4k (walker (inner pt)) (pml4t (inner pt)) m p;
  ms_owned pt m a x := owned (walker (inner pt)) (pml4t (inner pt)) m a x;
  ms_frame_va pt f := frame_va (walker (inner pt)) f;
|}.
Next Obligation. intros pt m a (_ & H' & _). apply H'. Qed.
Next Obligation.
  intros pt m a f a' (Hw & Hi & Hr) E. assert (Hi0 : ms_inv pt m a) by exact (conj Hw Hi).
  destruct (ms_alloc pt m a f a' Hi0 E) as ([_ Hi'] & Ho).
  split; [auto | exact Ho].
Qed.
Next Obligation.
  intros [[w root]] m a frame page flags (Hw & Hi & Hr) Hp [Hpl HR] Hf Hfl. cbn in *.
  destruct (map_to_4k_run w root Hw m a frame page flags Hi Hp Hpl Hf Hfl)
    as (r & m' & a' & E & (Hnh & Hfoot & Hpost) & Hc).
  exists r, m', a'. split; [exact E|]. split; [intros va Hva [? ?]; auto|]. split; [exact Hfoot|].
  destruct r as [fl|[|]]; [|apply Hpost..].
  destruct Hpost as (Hi' & Hco & _ & Hn & Hsame & Hother & _).
  split; [eauto using reserved_leaf|]. split; [assumption|]. split; [assumption|].
  intros p Hp'. destruct (Z.eqb_spec (vpn (page_address p)) (vpn (page_address page))); auto.
Qed.
Next Obligation.
  intros [[w root]] m a page (Hw & Hi & Hr) Hp [Hpl HR] Hl. cbn in *.
  destruct (unmap_4k_run w root Hw m a page Hi Hp Hpl Hl) as (r & m' & E & Hi' & L1 & L2 & _ & L4 & L5 & L6).
  exists r, m'. split; [exact E|]. split; [eauto using reserved_leaf|].
  split; [intros va Hva [? ?]; auto|]. split; [exact L5|].
  intros p Hp'. destruct (Z.eqb_spec (vpn (page_address p)) (vpn (page_address page))); auto.
Qed.
Next Obligation. intros pt m page f fl. exact (ms_valid (A := A) pt m page f fl). Qed.
Next Obligation.
  intros pt m a page (Hw & Hi & _) Hp [Hpl _]. assert (Hi0 : ms_inv pt m a) by exact (conj Hw Hi).
  exact (ms_translate pt m a page Hi0 Hp Hpl).
Qed.
Next Obligation.
  intros pt m m' a (Hw & Hi & Hr) Hs. assert (Hi0 : ms_inv pt m a) by exact (conj Hw Hi).
  destruct (ms_write pt m m' a Hi0 Hs) as ([_ Hi'] & Ho & Hp & Hl).
  split; [|split; [exact Ho|split; [intros va Hva [? ?]; split; [now apply Hp | assumption] | exact Hl]]].
  split; [assumption|]. split; [assumption|]. intros i Hii HR. rewrite <- (Hr i Hii HR).
  apply (same_tables_entry _ _ m m' a); [exact Hs | split; [constructor | cbn; lia] | assumption].
Qed.
End Reserving.

Lemma kept_outside_weaken `{FMS : PageTableFrameMappingSpec P} (R R' : Z -> Prop) (w : P) root m m' :
  (forall i, R' i -> R i) -> kept_outside R' w root m m' -> kept_outside R w root m m'.
Proof. intros HR Hk q i Hq Hi Hn. apply Hk; [assumption..|]. intros j Hj HR'. exact (Hn j Hj (HR j HR')). Qed.

(** ** Huge pages in unused entries *)

Section Window.
Context `{BF : BitField} `{BFS : !BitFieldSpec BF} `{FL : Bitflags} `{FLS : !BitflagsSpec FL}.
Context `{FMS : PageTableFrameMappingSpec P} `{FAS : FrameAllocatorSpec A}.
Context (w : P) (root : Z) (Hw : pm_ok w).
Implicit Types (m : mem) (a : A).

Abbreviation pt := (OffsetPageTable_new root w).
Abbreviation pvpn2m p := (vpn2m (page_address p)).

(** Nothing, neither a huge page nor a table, is behind the level-2 entry. *)
Definition dir_unused m va : Prop := Z.testbit (entry_at w m root (dir_path va) (l2_index va)) 0 = false.

Lemma reserved_unused R m va :
  in_width 64 va -> R (l4_index va) -> root_reserved R w root m -> dir_unused m va /\ not_huge w root m va.
Proof.
  intros Hva HR Hr. destruct (paths_ok _ Hva) as (_ & _ & _ & H4 & _).
  assert (E : forall r i, entry_at w m root ([l4_index va] ++ r) i = 0).
  { intros r i. apply entry_below_none. change [l4_index va] with ([] ++ [l4_index va]).
    rewrite walk_snoc, Hr by assumption. reflexivity. }
  unfold dir_unused, not_huge. pose proof (E [l3_index va] (l2_index va)) as E2. cbn [app] in E2. unfold dir_path.
  now rewrite E2.
Qed.

Lemma map_huge_unused m a (frame : PhysicalFrame Size2MiB) (page : Page Size2MiB) flags :
  pt_inv w root m a -> in_width 64 (page_address page) ->
  valid_frame (frame_address frame) -> frame_address frame mod SIZE Size2MiB = 0 ->
  valid_flags flags -> dir_unused m (page_address page) -> 2 <= fa_avail a ->
  exists r m' a', map_to pt frame page flags (m, a) = Ret (Ok r, (m', a')) /\
    pt_inv w root m' a' /\ consumed 2 a a' /\ footprint w root m a m' a' /\
    mapped_2m w root m m' page frame flags /\
    (forall va, in_width 64 va -> vpn2m va <> pvpn2m page -> dir_unused m va -> dir_unused m' va) /\
    changed_on w root (table_path (page_address page)) m m'.
Proof.
  intros Hi Hp Hf Hal Hfl Hun Hav.
  destruct (map_to_2m_run w root Hw m a frame page flags Hi Hp Hf Hal Hfl)
    as (r & m' & a' & E & (Hfoot & Hpost) & Hc & Herr).
  destruct r as [fl|[|]]; [|lia|unfold dir_unused in Hun; rewrite Herr in Hun; easy].
  destruct Hpost as (Hi' & Hco & _ & Hm). exists fl, m', a'. split; [exact E|].
  split; [assumption|]. split; [assumption|]. split; [assumption|]. split; [assumption|]. split; [|assumption].
  intros va Hva Hne Hu. destruct (paths_ok _ Hva) as (Hd & _ & _ & _ & _ & H2 & _).
  unfold dir_unused in *. rewrite Hc; [exact Hu | assumption..|]. intros Hpre.
  apply Hne, vpn2m_indices; [assumption..|].
  destruct Hpre as [[|x rest] E2]; cbn in E2; [|discriminate]. injection E2 as E4 E3 E2.
  unfold dir_path. split; congruence.
Qed.

(** A run of huge pages: [pg] gives the page of a frame. *)
Section Run.
Context (flags : Z) (Hfl : valid_flags flags) (Hpr : Z.testbit flags 0 = true).
Context (pg : PhysicalFrame Size2MiB -> Page Size2MiB).
Context (body : PhysicalFrame Size2MiB -> mem * A -> outcome (mem * A)).

Definition window_step (f : PhysicalFrame Size2MiB) : Prop :=
  forall st, body f st = ('(r, st) ← map_to pt f (pg f) flags st; _ ← expect r; Ret st).

Definition window_ready m (f : PhysicalFrame Size2MiB) : Prop :=
  valid_frame (frame_address f) /\ frame_address f mod SIZE Size2MiB = 0 /\
  in_width 64 (page_address (pg f)) /\ dir_unused m (page_address (pg f)).

Lemma map_window fs m a :
  pt_inv w root m a -> Forall window_step fs -> Forall (window_ready m) fs ->
  NoDup ((fun f => pvpn2m (pg f)) <$> fs) -> 2 * Z.of_nat (length fs) <= fa_avail a ->
  exists m' a', fold_outcome body fs (m, a) = Ret (m', a') /\
    pt_inv w root m' a' /\ consumed (2 * Z.of_nat (length fs)) a a' /\ footprint w root m a m' a' /\
    (forall f, f ∈ fs -> lookup2m w root m' (pg f) = Some (f, Z.lor flags HUGE_PAGE)) /\
    (forall p, in_width 64 (page_address p) -> pvpn2m p ∉ ((fun f => pvpn2m (pg f)) <$> fs) ->
       lookup2m w root m' p = lookup2m w root m p) /\
    (forall p, in_width 64 (page_address p) -> lookup4k w root m' p = lookup4k w root m p) /\
    forall R, Forall (fun f => R (l4_index (page_address (pg f)))) fs -> kept_outside R w root m m'.
Proof.
  revert m a. induction fs as [|f fs IH]; intros m a Hi Hst Hrd Hnd Hav.
  - exists m, a. split; [reflexivity|]. split; [assumption|]. split; [apply consumed_refl; cbn; lia|].
    split; [apply footprint_refl|]. split; [intros f []%not_elem_of_nil | auto using kept_outside_refl].
  - apply Forall_cons in Hst as [Hs Hst]. apply Forall_cons in Hrd as [(Hf & Hal & Hp & Hun) Hrd].
    rewrite fmap_cons in *. apply NoDup_cons in Hnd as [Hni Hnd]. cbn [length] in *.
    destruct (map_huge_unused m a f (pg f) flags) as (r & m1 & a1 & E & Hi1 & [Hc1 Hc2] & Hf1 & (_ & Hsame & Hother & H4) & Hu1 & Hch);
      [assumption.. | lia|].
    destruct (IH m1 a1 Hi1 Hst) as (m' & a' & E' & Hi' & [Hc1' Hc2'] & Hf' & Hin & Hout & H4' & Hk'); [|assumption|lia|].
    { rewrite Forall_forall in *. intros g Hg. destruct (Hrd g Hg) as (? & ? & Hpg & ?).
      split; [assumption|]. split; [assumption|]. split; [assumption|]. apply Hu1; [assumption | | assumption].
      intros Eg. apply Hni, list_elem_of_fmap. eauto. }
    exists m', a'. cbn [fold_outcome]. rewrite Hs, E. cbn [mbind outcome_bind expect].
    split; [exact E'|]. split; [assumption|]. split; [split; [lia | auto]|].
    split; [eapply footprint_trans; eauto|]. split; [|split; [|split]].
    + intros g [->|Hg]%elem_of_cons; [|auto]. rewrite Hout, Hsame by auto. now rewrite Hpr.
    + intros p Hp' [Hn1 Hn2]%not_elem_of_cons. rewrite Hout, Hother; auto.
    + intros p Hp'. rewrite H4', H4; auto.
    + intros R [HR HRs]%Forall_cons. eapply kept_outside_trans; [eapply changed_kept; [exact Hch | exact HR] | auto].
Qed.
End Run.
End Window.
