(* ===== verification/Buddy.v ===== *)
(** The kernel heap allocator: [kernel/src/allocator/buddy_allocator.rs].

    Free chunks keep their list node in their own first 16 bytes: a [Chunk] at
    address [p] is the word [next] at [p] (0 is [None]) and the word [size] at
    [p + 8] of the byte memory.  A [LinkedList] is its head; the allocator is the
    array of the [MAX_ORDER] heads, threaded together with the memory. *)
From Stdlib Require Import ZArith Lia.
From stdpp Require Import base tactics numbers list.
From S2P Require Import Prelude Memory.
#[local] Open Scope Z_scope.

Definition MAX_ORDER : Z := 20.

(** ** Bit counting on [u64] *)

Definition leading_zeros (w x : Z) : Z := if x =? 0 then w else w - 1 - Z.log2 x.
Definition trailing_zeros (w x : Z) : Z := if x =? 0 then w else Z.log2 (Z.land x (- x)).
(** [next_power_of_two]; the result may not fit. *)
Definition next_power_of_two (w x : Z) : outcome Z := checked w (2 ^ Z.log2_up x).

(** [1 << (u64::BITS - num.leading_zeros() - 1)] *)
Definition previous_power_of_two (num : Z) : outcome Z :=
  s ← usub 32 64 (leading_zeros 64 num); s ← usub 32 s 1; ushl 64 1 s.

(** ** Chunks *)

Definition ptr_of (o : option Z) : Z := match o with Some p => p | None => 0 end.

Definition chunk_next (m : mem) (p : Z) : option Z :=
  let v := load64 m p in if v =? 0 then None else Some v.
Definition chunk_size (m : mem) (p : Z) : Z := load64 m (p + 8).
Definition set_chunk_next (m : mem) (p : Z) (o : option Z) : mem := store64 m p (ptr_of o).
Definition set_chunk_size (m : mem) (p s : Z) : mem := store64 m (p + 8) s.

(** [Chunk::new_at_address] *)
Definition Chunk_new_at_address (m : mem) (address size : Z) : mem :=
  set_chunk_next (set_chunk_size m address size) address None.

Definition Chunk_reset (m : mem) (p : Z) : mem := set_chunk_size (set_chunk_next m p None) p 0.

(** [NonNull::new] *)
Definition NonNull_new (p : Z) : option Z := if p =? 0 then None else Some p.

(** ** [LinkedList] *)

Definition LinkedList : Set := option Z.

Definition list_push_front (m : mem) (head : LinkedList) (block : Z) : outcome (mem * LinkedList) :=
  let m := set_chunk_next m block head in
  h ← unwrap (NonNull_new block);
  Ret (m, Some h).

Definition list_pop_front (m : mem) (head : LinkedList) : option Z * (mem * LinkedList) :=
  match head with
  | Some block => (Some block, (set_chunk_next m block None, chunk_next m block))
  | None => (None, (m, None))
  end.

Definition list_is_empty (head : LinkedList) : bool := match head with None => true | _ => false end.

Definition list_front (head : LinkedList) : option Z := head.

(** The [while let] of [remove]; one unit of fuel per visited node. *)
Fixpoint list_remove_loop (fuel : nat) (m : mem) (head last_chunk cur_chunk : option Z) (start : Z) :
    outcome (option Z * (mem * LinkedList)) :=
  match fuel with
  | O => Panic FuelExhausted
  | S fuel =>
      match cur_chunk with
      | None => Ret (None, (m, head))
      | Some node =>
          if node =? start then
            match last_chunk with
            | Some last_node => Ret (Some node, (set_chunk_next m last_node (chunk_next m node), head))
            | None => Ret (Some node, (m, chunk_next m node))
            end
          else list_remove_loop fuel m head cur_chunk (chunk_next m node) start
      end
  end.

Definition list_remove (fuel : nat) (m : mem) (head : LinkedList) (start : Z) :
    outcome (option Z * (mem * LinkedList)) :=
  list_remove_loop fuel m head None (list_front head) start.

(** ** [BuddyAllocator] *)

Record BuddyAllocator := mkBuddy { bmem : mem; buddies : list LinkedList }.

Definition Buddy_new (m : mem) : BuddyAllocator := mkBuddy m (replicate (Z.to_nat MAX_ORDER) None).

(** [self.buddies[i].push_front(chunk)] *)
Definition buddies_push (b : BuddyAllocator) (i p : Z) : outcome BuddyAllocator :=
  head ← index (buddies b) i;
  '(m, head) ← list_push_front (bmem b) head p;
  Ret (mkBuddy m (<[Z.to_nat i := head]> (buddies b))).

(** [self.buddies[i].pop_front()] *)
Definition buddies_pop (b : BuddyAllocator) (i : Z) : outcome (option Z * BuddyAllocator) :=
  head ← index (buddies b) i;
  let '(r, (m, head)) := list_pop_front (bmem b) head in
  Ret (r, mkBuddy m (<[Z.to_nat i := head]> (buddies b))).

(** [self.buddies[i].remove(start)] *)
Definition buddies_remove (fuel : nat) (b : BuddyAllocator) (i start : Z) :
    outcome (option Z * BuddyAllocator) :=
  head ← index (buddies b) i;
  '(r, (m, head)) ← list_remove fuel (bmem b) head start;
  Ret (r, mkBuddy m (<[Z.to_nat i := head]> (buddies b))).

(** A fresh chunk at [p], pushed onto list [i]. *)
Definition push_new_chunk (b : BuddyAllocator) (i p size : Z) : outcome BuddyAllocator :=
  buddies_push (mkBuddy (Chunk_new_at_address (bmem b) p size) (buddies b)) i p.

(** *** Adding memory *)

(** The size of the chunk [add_region] cuts at [current_start]. *)
Definition region_chunk_size (current_start end_ : Z) : outcome Z :=
  lowbit ← (if 0 <? current_start
            then k ← uadd 64 (unot 64 current_start) 1; Ret (Z.land current_start k)
            else Ret 64);
  d ← usub 64 end_ current_start;
  p ← previous_power_of_two d;
  o ← usub 64 MAX_ORDER 1;
  s ← ushl 64 1 o;
  Ret (Z.min (Z.min lowbit p) s).

Fixpoint add_region_loop (fuel : nat) (b : BuddyAllocator) (current_start end_ : Z) :
    outcome BuddyAllocator :=
  match fuel with
  | O => Panic FuelExhausted
  | S fuel =>
      if current_start <? end_ then
        size ← region_chunk_size current_start end_;
        b ← push_new_chunk b (trailing_zeros 64 size) current_start size;
        current_start ← uadd 64 current_start size;
        add_region_loop fuel b current_start end_
      else Ret b
  end.

Definition add_region (fuel : nat) (b : BuddyAllocator) (start end_ : Z) : outcome BuddyAllocator :=
  _ ← assert_true (start <=? end_);
  add_region_loop fuel b start end_.

Definition buddy_init (fuel : nat) (b : BuddyAllocator) (start size : Z) : outcome BuddyAllocator :=
  e ← virt_add start size; add_region fuel b start e.

Fixpoint init_from_memory_map (fuel : nat) (b : BuddyAllocator) (memory_map : list PhysicalMemoryRegion) :
    outcome BuddyAllocator :=
  match memory_map with
  | [] => Ret b
  | region :: rest =>
      if negb (region_is_usable region) then init_from_memory_map fuel b rest
      else
        e ← region_end region; e ← usub 64 e 1;
        b ← add_region fuel b (region_start region) e;
        init_from_memory_map fuel b rest
  end.

(** *** Allocation *)

(** [core::alloc::Layout] *)
Record Layout := mkLayout { layout_size : Z; layout_align : Z }.

(** [size_of::<Chunk>()] *)
Definition min_size : Z := 16.

Definition align_layout_size (layout : Layout) : outcome Z :=
  p ← next_power_of_two 64 (layout_size layout);
  Ret (Z.max p (Z.max (layout_align layout) min_size)).

(** [for j in (class + 1..i + 1).rev()], [n] classes above [class]; [false] is
    the early [return None]. *)
Fixpoint alloc_split (n : nat) (b : BuddyAllocator) (class : Z) : outcome (bool * BuddyAllocator) :=
  match n with
  | O => Ret (true, b)
  | S n' =>
      let j := class + Z.of_nat n in
      '(c, b) ← buddies_pop b j;
      match c with
      | None => Ret (false, b)
      | Some chunk =>
          sz ← ushl 64 1 (j - 1);
          b ← push_new_chunk b (j - 1) chunk sz;
          addr ← virt_add chunk sz;
          b ← push_new_chunk b (j - 1) addr sz;
          alloc_split n' b class
      end
  end.

(** [for i in class..self.buddies.len()], [k] classes left. *)
Fixpoint alloc_search (k : nat) (b : BuddyAllocator) (i class : Z) : outcome (bool * BuddyAllocator) :=
  match k with
  | O => Ret (true, b)
  | S k =>
      head ← index (buddies b) i;
      if list_is_empty head then alloc_search k b (i + 1) class
      else alloc_split (Z.to_nat (i - class)) b class
  end.

Definition buddy_alloc (b : BuddyAllocator) (layout : Layout) : outcome (option Z * BuddyAllocator) :=
  size ← align_layout_size layout;
  let class := trailing_zeros 64 size in
  '(ok, b) ← alloc_search (Z.to_nat (Z.of_nat (length (buddies b)) - class)) b class class;
  if (ok : bool) then buddies_pop b class else Ret (None, b).

(** *** Deallocation *)

(** [while current_class < self.buddies.len()], [k] classes left. *)
Fixpoint dealloc_loop (k fuel : nat) (b : BuddyAllocator) (current_class : Z) (region : Region) :
    outcome BuddyAllocator :=
  match k with
  | O => Ret b
  | S k =>
      bit ← ushl 64 1 current_class;
      let buddy := region_set_start region (Z.lxor (region_start region) bit) in
      '(r, b) ← buddies_remove fuel b current_class (region_start buddy);
      match r with
      | Some _ =>
          let region := region_set_start region (Z.min (region_start region) (region_start buddy)) in
          size ← umul 64 (region_size region) 2;
          dealloc_loop k fuel b (current_class + 1) (region_set_size region size)
      | None => push_new_chunk b current_class (region_start region) (region_size region)
      end
  end.

Definition buddy_dealloc (fuel : nat) (b : BuddyAllocator) (chunk : Z) : outcome BuddyAllocator :=
  let size := chunk_size (bmem b) chunk in
  let class := trailing_zeros 64 size in
  dealloc_loop (Z.to_nat (Z.of_nat (length (buddies b)) - class)) fuel b class (Region_new chunk size).

(** *** [GlobalAlloc for Locked<BuddyAllocator>] *)

Definition global_alloc (b : BuddyAllocator) (layout : Layout) : outcome (Z * BuddyAllocator) :=
  '(r, b) ← buddy_alloc b layout;
  match r with
  | Some chunk => Ret (chunk, b)
  | None => Panic ExplicitPanic
  end.

Definition global_dealloc (fuel : nat) (b : BuddyAllocator) (ptr : Z) (layout : Layout) :
    outcome BuddyAllocator :=
  size ← align_layout_size layout;
  let b := mkBuddy (Chunk_new_at_address (bmem b) ptr size) (buddies b) in
  chunk ← unwrap (NonNull_new ptr);
  buddy_dealloc fuel b chunk.
