(* ===== verification/BuddyHeap.v ===== *)
(** Correctness of the buddy allocator.

    [rep b fl] relates the linked lists in memory to the abstract free lists
    [fl]; [wf fl] says that the free blocks are aligned to their size, at least
    as large as a list node and pairwise disjoint.  The operations are specified
    by what they do to the set of free bytes and to the memory outside it. *)
From Stdlib Require Import ZArith Lia.
From stdpp Require Import base tactics numbers list sets.
From S2P Require Import Prelude Memory Buddy.
#[local] Open Scope Z_scope.

(** ** Linked lists in memory *)

(** The nodes [l] lead from [h] to [t]. *)
Fixpoint lseg (m : mem) (h : option Z) (l : list Z) (t : option Z) : Prop :=
  match l with
  | [] => h = t
  | p :: l => h = Some p /\ 0 < p < 2 ^ 64 /\ lseg m (chunk_next m p) l t
  end.

Definition chain (m : mem) (h : LinkedList) (l : list Z) : Prop := lseg m h l None.

(** The nodes of a list do not overlap. *)
Definition nodes_apart (l : list Z) : Prop :=
  NoDup l /\ forall p q, p ∈ l -> q ∈ l -> p <> q -> ranges_disjoint p 16 q 16.

Lemma lseg_app m h l1 l2 t :
  lseg m h (l1 ++ l2) t <-> exists k, lseg m h l1 k /\ lseg m k l2 t.
Proof.
  revert h. induction l1 as [|p l1 IH]; intros h; cbn.
  - split; [eauto | intros (k & -> & ?); assumption].
  - rewrite IH. split.
    + intros (? & ? & k & ? & ?). eauto.
    + intros (k & (? & ? & ?) & ?). eauto.
Qed.

Lemma chunk_next_load m m' p : load64 m' p = load64 m p -> chunk_next m' p = chunk_next m p.
Proof. unfold chunk_next. now intros ->. Qed.

Lemma lseg_frame m m' h l t :
  (forall p, p ∈ l -> load64 m' p = load64 m p) -> lseg m h l t -> lseg m' h l t.
Proof.
  revert h. induction l as [|p l IH]; intros h Hl; cbn; [trivial|].
  intros (-> & ? & ?). repeat split; [lia..|].
  rewrite (chunk_next_load m m') by (apply Hl; constructor).
  apply IH; [|assumption]. intros q Hq. apply Hl. now constructor.
Qed.

Definition ptr_ok (o : option Z) : Prop := match o with Some p => 0 < p < 2 ^ 64 | None => True end.

Lemma lseg_ptr_ok m h l t : lseg m h l t -> ptr_ok t -> ptr_ok h.
Proof. destruct l; cbn; [now intros -> | intros (-> & ? & _) _; assumption]. Qed.

Lemma chunk_next_set m p o : ptr_ok o -> chunk_next (set_chunk_next m p o) p = o.
Proof.
  intros Ho. unfold chunk_next, set_chunk_next. rewrite load64_store64_same.
  - destruct o as [q|]; cbn in *; [|reflexivity]. now rewrite (proj2 (Z.eqb_neq q 0)) by lia.
  - destruct o; cbn in *; lia.
Qed.

Lemma chunk_next_set_other m p o q :
  ranges_disjoint p 16 q 16 -> chunk_next (set_chunk_next m p o) q = chunk_next m q.
Proof.
  intros Hd. apply chunk_next_load, load64_store64_other. unfold ranges_disjoint in *. lia.
Qed.

Lemma lseg_set_other m p o h l t :
  (forall q, q ∈ l -> ranges_disjoint p 16 q 16) ->
  lseg m h l t -> lseg (set_chunk_next m p o) h l t.
Proof.
  intros Hd. apply lseg_frame. intros q Hq. apply load64_store64_other.
  specialize (Hd q Hq). unfold ranges_disjoint in *. lia.
Qed.

Lemma nodes_apart_neq l p q :
  nodes_apart l -> p ∈ l -> q ∈ l -> p <> q -> ranges_disjoint p 16 q 16.
Proof. intros [_ H]. apply H. Qed.

Lemma nodes_apart_mid l1 p l2 q :
  nodes_apart (l1 ++ p :: l2) -> q ∈ l1 ++ l2 -> ranges_disjoint p 16 q 16.
Proof.
  intros [Hnd Hd] Hq. assert (q <> p).
  { intros ->. apply NoDup_app in Hnd as (_ & H1 & [H2 _]%NoDup_cons).
    apply elem_of_app in Hq as [Hq|Hq]; [apply (H1 p Hq); constructor | contradiction]. }
  apply Hd; [|rewrite elem_of_app, elem_of_cons; apply elem_of_app in Hq; tauto | congruence].
  apply elem_of_app. right. constructor.
Qed.

(** Unlinking the node after [a]. *)
Lemma chain_unlink m h l1 a p l2 :
  nodes_apart (l1 ++ a :: p :: l2) -> chain m h (l1 ++ a :: p :: l2) ->
  chain (set_chunk_next m a (chunk_next m p)) h (l1 ++ a :: l2).
Proof.
  intros Ha (k & H1 & -> & Hak & _ & Hpk & H2)%lseg_app.
  assert (Hd : forall q, q ∈ l1 ++ p :: l2 -> ranges_disjoint a 16 q 16)
    by (intros q; now apply nodes_apart_mid).
  apply lseg_app. exists (Some a). split.
  - apply lseg_set_other; [|assumption]. set_solver.
  - cbn. repeat split; [lia..|]. rewrite chunk_next_set by (eapply lseg_ptr_ok; [eassumption | exact I]).
    apply lseg_set_other; [|assumption]. set_solver.
Qed.

(** [remove] follows the list from [cur]; [l1] are the nodes already passed. *)
Lemma list_remove_loop_spec m h l1 l2 cur start fuel :
  nodes_apart (l1 ++ l2) -> chain m h (l1 ++ l2) -> chain m cur l2 -> start ∉ l1 ->
  (length l2 < fuel)%nat ->
  exists r m' h', list_remove_loop fuel m h (last l1) cur start = Ret (r, (m', h')) /\
    match r with
    | None => (start ∉ l2) /\ m' = m /\ h' = h
    | Some p => p = start /\ exists la lb, l1 ++ l2 = la ++ start :: lb /\ chain m' h' (la ++ lb) /\
        (m' = m \/ exists a o, a ∈ la /\ m' = set_chunk_next m a o)
    end.
Proof.
  revert l1 cur fuel. induction l2 as [|p l2 IH]; intros l1 cur fuel Hap Hch Hcur Hni Hf;
    (destruct fuel as [|fuel]; [cbn in Hf; lia|]); cbn [list_remove_loop].
  - cbn in Hcur. subst cur. do 3 eexists. split; [reflexivity|]. split; [set_solver | auto].
  - destruct Hcur as (-> & Hp & Hnext). destruct (Z.eqb_spec p start) as [->|Hne].
    + destruct l1 as [|a l1 _] using rev_ind.
      * cbn [last]. do 3 eexists. split; [reflexivity|]. split; [reflexivity|].
        exists [], l2. split; [reflexivity|]. auto.
      * rewrite last_snoc. do 3 eexists. split; [reflexivity|]. split; [reflexivity|].
        exists (l1 ++ [a]), l2. split; [reflexivity|]. split.
        -- rewrite <- app_assoc in *. now apply chain_unlink.
        -- right. exists a, (chunk_next m start). split; [set_solver | reflexivity].
    + assert (E : l1 ++ p :: l2 = (l1 ++ [p]) ++ l2) by now rewrite <- app_assoc.
      destruct (IH (l1 ++ [p]) (chunk_next m p) fuel) as (r & m' & h' & Hrun & Hpost).
      * now rewrite <- E.
      * now rewrite <- E.
      * assumption.
      * set_solver.
      * cbn in Hf. lia.
      * rewrite last_snoc in Hrun. exists r, m', h'. split; [exact Hrun|].
        destruct r; [now rewrite E|]. destruct Hpost as (? & -> & ->). split; [set_solver | auto].
Qed.

(** ** Abstract free lists *)

Definition block (fl : list (list Z)) (i : nat) (p : Z) : Prop :=
  exists l, fl !! i = Some l /\ p ∈ l.

(** The size of the blocks of class [i]. *)
Abbreviation bsize i := (2 ^ Z.of_nat i) (only parsing).

Record block_ok (i : nat) (p : Z) : Prop := {
  bo_class : (4 <= i)%nat;
  bo_pos : 0 < p;
  bo_aligned : p mod bsize i = 0;
  bo_limit : p + bsize i <= 2 ^ 64;
}.

Definition blocks_disjoint (i : nat) (p : Z) (j : nat) (q : Z) : Prop :=
  ranges_disjoint p (bsize i) q (bsize j).

Record wf (fl : list (list Z)) : Prop := {
  wf_length : length fl = Z.to_nat MAX_ORDER;
  wf_block i p : block fl i p -> block_ok i p;
  wf_nodup i l : fl !! i = Some l -> NoDup l;
  wf_disjoint i p j q : block fl i p -> block fl j q -> (i, p) <> (j, q) -> blocks_disjoint i p j q;
}.

(** A byte of a free block. *)
Definition free (fl : list (list Z)) (x : Z) : Prop :=
  exists i p, block fl i p /\ p <= x < p + bsize i.

(** The block of class [i] at [p] meets no free block. *)
Definition apart (fl : list (list Z)) (i : nat) (p : Z) : Prop :=
  forall j q, block fl j q -> blocks_disjoint i p j q.

Lemma bsize_pos i : 0 < bsize i.
Proof. apply Z.pow_pos_nonneg; lia. Qed.

Lemma bsize_ge_16 i : (4 <= i)%nat -> 16 <= bsize i.
Proof. intros Hi. change 16 with (2 ^ 4). apply Z.pow_le_mono_r; lia. Qed.

Lemma bsize_S i : bsize (S i) = 2 * bsize i.
Proof. rewrite Nat2Z.inj_succ, Z.pow_succ_r by lia. reflexivity. Qed.

Create HintDb heap.
#[export] Hint Resolve bsize_pos bsize_ge_16 bo_class bo_pos bo_aligned bo_limit wf_block : heap.

Lemma block_insert fl i l j q :
  (i < length fl)%nat ->
  block (<[i := l]> fl) j q <-> (j = i /\ q ∈ l) \/ (j <> i /\ block fl j q).
Proof.
  intros Hi. unfold block. destruct (decide (j = i)) as [->|Hne].
  - rewrite list_lookup_insert_eq by assumption. split; [|intros [[_ ?]|[]]; [eauto | congruence..]].
    intros (? & [= <-] & ?). auto.
  - rewrite list_lookup_insert_ne by congruence. split; [auto | intros [[? _]|[_ ?]]; [contradiction | auto]].
Qed.

Lemma block_at fl i l p : fl !! i = Some l -> p ∈ l -> block fl i p.
Proof. unfold block. eauto. Qed.

Lemma block_shrink fl i l l' j q :
  fl !! i = Some l -> (forall x, x ∈ l' -> x ∈ l) -> block (<[i := l']> fl) j q -> block fl j q.
Proof.
  intros Hl Hsub Hb. apply block_insert in Hb; [|eapply lookup_lt_Some; eassumption].
  destruct Hb as [[-> Hq]|[_ Hb]]; [|assumption]. eapply block_at; eauto.
Qed.

(** Taking blocks out of a list. *)
Lemma wf_shrink fl i l l' :
  wf fl -> fl !! i = Some l -> l' `sublist_of` l -> wf (<[i := l']> fl).
Proof.
  intros Hwf Hl Hsub.
  assert (Hb : forall j q, block (<[i := l']> fl) j q -> block fl j q).
  { intros j q. apply block_shrink with l; [assumption|]. intros x Hx. eapply elem_of_sublist; eauto. }
  split.
  - rewrite length_insert. apply Hwf.
  - intros j q Hq. apply Hwf; auto.
  - intros j k Hk. apply list_lookup_insert_Some in Hk as [(-> & <- & _)|[_ Hk]].
    + eapply sublist_NoDup; [|exact Hsub]. eapply wf_nodup; eauto.
    + eapply wf_nodup; eauto.
  - intros j q k r Hq Hr. apply Hwf; auto.
Qed.

(** Adding a block that meets no free block. *)
Lemma wf_add fl i l p :
  wf fl -> fl !! i = Some l -> block_ok i p -> apart fl i p -> wf (<[i := p :: l]> fl).
Proof.
  intros Hwf Hl Hp Hap. pose proof (lookup_lt_Some _ _ _ Hl) as Hi.
  assert (Hb : forall j q, block (<[i := p :: l]> fl) j q -> (j, q) = (i, p) \/ block fl j q).
  { intros j q Hb. apply block_insert in Hb as [[-> [->|Hq]%elem_of_cons]|[_ Hb]]; [auto| |auto|assumption].
    right. eapply block_at; eauto. }
  split.
  - rewrite length_insert. apply Hwf.
  - intros j q [[= -> ->]|Hq]%Hb; [assumption | now apply Hwf].
  - intros j k Hk. apply list_lookup_insert_Some in Hk as [(-> & <- & _)|[_ Hk]].
    + constructor; [|eapply wf_nodup; eauto]. intros Hin.
      pose proof (Hap j p (block_at _ _ _ _ Hl Hin)) as Hd. pose proof (bsize_pos j).
      unfold blocks_disjoint, ranges_disjoint in Hd. lia.
    + eapply wf_nodup; eauto.
  - intros j q k r [[= -> ->]|Hq]%Hb [[= -> ->]|Hr]%Hb Hne; [congruence | now apply Hap | |now apply Hwf].
    specialize (Hap j q Hq). unfold blocks_disjoint, ranges_disjoint in *. lia.
Qed.

(** A block taken out of its list meets none of the remaining ones. *)
Lemma apart_removed fl i l1 p l2 :
  wf fl -> fl !! i = Some (l1 ++ p :: l2) -> apart (<[i := l1 ++ l2]> fl) i p.
Proof.
  intros Hwf Hl j q Hq. pose proof (lookup_lt_Some _ _ _ Hl) as Hi.
  apply (wf_disjoint fl Hwf).
  - eapply block_at; [eassumption|]. set_solver.
  - eapply block_shrink; [exact Hl| |exact Hq]. set_solver.
  - intros [= E1 E2]. subst j q. pose proof (wf_nodup fl Hwf i _ Hl) as Hnd.
    apply block_insert in Hq as [[_ Hq]|[? _]]; [|contradiction|assumption].
    apply NoDup_app in Hnd as (_ & H1 & [H2 _]%NoDup_cons).
    apply elem_of_app in Hq as [Hq|Hq]; [apply (H1 p Hq); constructor | contradiction].
Qed.

(** *** Free bytes *)

Lemma free_add fl i l p x :
  fl !! i = Some l ->
  free (<[i := p :: l]> fl) x <-> free fl x \/ p <= x < p + bsize i.
Proof.
  intros Hl. pose proof (lookup_lt_Some _ _ _ Hl) as Hi. unfold free. split.
  - intros (j & q & Hb & Hx). apply block_insert in Hb as [[-> [->|Hq]%elem_of_cons]|[_ Hb]];
      [now right|left..|assumption]; eauto using block_at.
  - intros [(j & q & Hb & Hx)|Hx].
    + exists j, q. split; [|assumption]. apply block_insert; [assumption|].
      destruct (decide (j = i)) as [->|]; [left|right; auto].
      destruct Hb as (l' & Hl' & Hq). split; [reflexivity|]. constructor. congruence.
    + exists i, p. split; [|assumption]. apply block_insert; [assumption|]. left. split; [reflexivity | constructor].
Qed.

Lemma free_remove fl i l1 p l2 x :
  wf fl -> fl !! i = Some (l1 ++ p :: l2) ->
  free fl x <-> free (<[i := l1 ++ l2]> fl) x \/ p <= x < p + bsize i.
Proof.
  intros Hwf Hl. pose proof (lookup_lt_Some _ _ _ Hl) as Hi. unfold free. split.
  - intros (j & q & Hb & Hx). destruct (decide ((j, q) = (i, p))) as [[= -> ->]|Hne]; [now right|].
    left. exists j, q. split; [|assumption]. apply block_insert; [assumption|].
    destruct (decide (j = i)) as [->|]; [left|right; auto]. split; [reflexivity|].
    destruct Hb as (l' & Hl' & Hq). rewrite Hl in Hl'. injection Hl' as <-.
    apply elem_of_app. apply elem_of_app in Hq as [?|[->|?]%elem_of_cons]; [auto | congruence | auto].
  - intros [(j & q & Hb & Hx)|Hx].
    + exists j, q. split; [|assumption]. eapply block_shrink; [exact Hl| |exact Hb]. set_solver.
    + exists i, p. split; [|assumption]. eapply block_at; [exact Hl|]. set_solver.
Qed.

Lemma apart_not_free fl i p x : apart fl i p -> p <= x < p + bsize i -> ~ free fl x.
Proof.
  intros Hap Hx (j & q & Hb & Hq). specialize (Hap j q Hb).
  unfold blocks_disjoint, ranges_disjoint in Hap. lia.
Qed.

(** ** Representation *)

Definition rep (b : BuddyAllocator) (fl : list (list Z)) : Prop :=
  Forall2 (chain (bmem b)) (buddies b) fl.

(** [m'] differs from [m] only where [P] holds. *)
Definition writes_only (P : Z -> Prop) (m m' : mem) : Prop := forall x, ~ P x -> m' x = m x.

Lemma writes_only_refl P m : writes_only P m m.
Proof. easy. Qed.

Lemma writes_only_trans P m1 m2 m3 :
  writes_only P m1 m2 -> writes_only P m2 m3 -> writes_only P m1 m3.
Proof. intros H1 H2 x Hx. rewrite H2, H1; auto. Qed.

Lemma writes_only_weaken (P Q : Z -> Prop) m m' :
  (forall x, P x -> Q x) -> writes_only P m m' -> writes_only Q m m'.
Proof. intros HPQ H x Hx. apply H. auto. Qed.

#[export] Hint Resolve writes_only_refl writes_only_trans : heap.

Lemma set_chunk_next_writes m p o : writes_only (fun x => p <= x < p + 16) m (set_chunk_next m p o).
Proof. intros x Hx. apply store_le_outside. cbn. lia. Qed.

Lemma new_chunk_writes m p size :
  writes_only (fun x => p <= x < p + 16) m (Chunk_new_at_address m p size).
Proof.
  intros x Hx. unfold Chunk_new_at_address. rewrite set_chunk_next_writes by exact Hx.
  apply store_le_outside. cbn. lia.
Qed.

(** A reset node has no successor and no size; nothing else is written. *)
Lemma reset_chunk m p :
  chunk_next (Chunk_reset m p) p = None /\ chunk_size (Chunk_reset m p) p = 0 /\
  writes_only (fun x => p <= x < p + 16) m (Chunk_reset m p).
Proof.
  unfold chunk_next, chunk_size, Chunk_reset, set_chunk_size. split; [|split].
  - rewrite load64_store64_other by (unfold ranges_disjoint; lia). unfold set_chunk_next. now rewrite load64_store64_same.
  - now apply load64_store64_same.
  - intros x Hx. unfold store64. rewrite store_le_outside by (cbn; lia). now apply set_chunk_next_writes.
Qed.

(** A node outside the written range keeps its link. *)
Lemma writes_only_load m m' p n q :
  writes_only (fun x => p <= x < p + n) m m' -> ranges_disjoint p n q 16 -> load64 m' q = load64 m q.
Proof.
  intros Hw Hd. apply load64_agree. intros x Hx. apply Hw. unfold ranges_disjoint in Hd. lia.
Qed.

Lemma rep_lookup b fl i l :
  rep b fl -> fl !! i = Some l -> exists h, buddies b !! i = Some h /\ chain (bmem b) h l.
Proof. intros Hr Hl. eapply Forall2_lookup_r; eauto. Qed.

Lemma rep_length b fl : rep b fl -> length (buddies b) = length fl.
Proof. apply Forall2_length. Qed.

Lemma rep_index b fl i l :
  rep b fl -> fl !! i = Some l ->
  exists h, index (buddies b) (Z.of_nat i) = Ret h /\ chain (bmem b) h l.
Proof.
  intros Hr Hl. destruct (rep_lookup b fl i l Hr Hl) as (h & Hh & Hc). exists h.
  unfold index. rewrite (proj2 (Z.leb_le 0 _)) by lia. now rewrite Nat2Z.id, Hh.
Qed.

(** Replacing one list, with the links of the others kept. *)
Lemma rep_update b fl i l' h' m' :
  rep b fl -> chain m' h' l' ->
  (forall j q, j <> i -> block fl j q -> load64 m' q = load64 (bmem b) q) ->
  rep (mkBuddy m' (<[Z.to_nat (Z.of_nat i) := h']> (buddies b))) (<[i := l']> fl).
Proof.
  intros Hr Hc Hother. rewrite Nat2Z.id. unfold rep. cbn.
  apply Forall2_same_length_lookup_2; [rewrite !length_insert; now apply rep_length|].
  intros j h l Hh Hl.
  apply list_lookup_insert_Some in Hl as [(<- & -> & ?)|[Hne Hl]];
    apply list_lookup_insert_Some in Hh as [(? & -> & ?)|[? Hh]]; try congruence.
  destruct (rep_lookup b fl j l Hr Hl) as (h1 & Hh1 & Hc1). rewrite Hh in Hh1. injection Hh1 as <-.
  eapply lseg_frame; [|exact Hc1]. intros p Hp. apply (Hother j); [congruence|]. eapply block_at; eauto.
Qed.

Lemma rep_frame b fl m' :
  rep b fl -> (forall j q, block fl j q -> load64 m' q = load64 (bmem b) q) ->
  rep (mkBuddy m' (buddies b)) fl.
Proof.
  intros Hr Hother. apply Forall2_same_length_lookup_2; [exact (rep_length b fl Hr)|].
  cbn. intros j h l Hh Hl. destruct (rep_lookup b fl j l Hr Hl) as (h1 & Hh1 & Hc1).
  rewrite Hh in Hh1. injection Hh1 as <-.
  eapply lseg_frame; [|exact Hc1]. intros p Hp. apply (Hother j). eapply block_at; eauto.
Qed.

(** The representation only depends on the free bytes. *)
Lemma rep_writes_only b fl (P : Z -> Prop) m' :
  wf fl -> rep b fl -> (forall x, P x -> ~ free fl x) -> writes_only P (bmem b) m' ->
  rep (mkBuddy m' (buddies b)) fl.
Proof.
  intros Hwf Hr HP Hw. apply rep_frame; [assumption|]. intros j q Hq. apply load64_agree.
  intros x Hx. apply Hw. intros Hpx. apply (HP x Hpx).
  exists j, q. split; [assumption|]. pose proof (bsize_ge_16 j (bo_class _ _ (wf_block _ Hwf _ _ Hq))). lia.
Qed.

Lemma node_disjoint i p j q :
  blocks_disjoint i p j q -> (4 <= i)%nat -> (4 <= j)%nat -> ranges_disjoint p 16 q 16.
Proof.
  intros Hd Hi%bsize_ge_16 Hj%bsize_ge_16. unfold blocks_disjoint, ranges_disjoint in *. lia.
Qed.

Lemma apart_node fl i p j q :
  wf fl -> apart fl i p -> (4 <= i)%nat -> block fl j q -> ranges_disjoint p 16 q 16.
Proof. intros Hwf Hap Hi Hq. eapply node_disjoint; eauto with heap. Qed.

Lemma wf_nodes_apart fl i l : wf fl -> fl !! i = Some l -> nodes_apart l.
Proof.
  intros Hwf Hl. split; [eapply wf_nodup; eauto|]. intros p q Hp Hq Hne.
  pose proof (block_at _ _ _ _ Hl Hp) as Bp. pose proof (block_at _ _ _ _ Hl Hq) as Bq.
  eapply node_disjoint; [apply (wf_disjoint fl Hwf i p i q); auto; congruence|..]; eapply wf_block; eauto.
Qed.

(** Pushing a new chunk. *)
Lemma push_new_chunk_spec b fl i l p size :
  rep b fl -> wf fl -> fl !! i = Some l -> block_ok i p -> apart fl i p ->
  exists b', push_new_chunk b (Z.of_nat i) p size = Ret b' /\
    rep b' (<[i := p :: l]> fl) /\ wf (<[i := p :: l]> fl) /\
    writes_only (fun x => p <= x < p + 16) (bmem b) (bmem b').
Proof.
  intros Hr Hwf Hl Hp Hap. destruct (rep_index b fl i l Hr Hl) as (h & Hidx & Hc).
  unfold push_new_chunk, buddies_push. cbn [buddies bmem]. rewrite Hidx. cbn [mbind outcome_bind].
  unfold list_push_front, NonNull_new. pose proof (bo_pos _ _ Hp). pose proof (bo_limit _ _ Hp).
  pose proof (bsize_pos i). pose proof (bo_class _ _ Hp) as H4.
  rewrite (proj2 (Z.eqb_neq p 0)) by lia. cbn [unwrap mbind outcome_bind].
  set (m1 := Chunk_new_at_address (bmem b) p size).
  assert (Hw : writes_only (fun x => p <= x < p + 16) (bmem b) (set_chunk_next m1 p h)).
  { eapply writes_only_trans; [apply new_chunk_writes | apply set_chunk_next_writes]. }
  assert (Hkeep : forall j q, block fl j q -> load64 (set_chunk_next m1 p h) q = load64 (bmem b) q).
  { intros j q Hq. apply (writes_only_load _ _ p 16); [exact Hw|]. eapply apart_node; eauto. }
  eexists. split; [reflexivity|]. split; [|split; [now apply wf_add | exact Hw]].
  apply (rep_update b); [assumption| |eauto].
  cbn. repeat split; [lia..|].
  rewrite chunk_next_set by (eapply lseg_ptr_ok; [exact Hc | exact I]).
  eapply lseg_frame; [|exact Hc]. intros q Hq. apply (Hkeep i). eapply block_at; eauto.
Qed.

(** Popping from a list. *)
Lemma buddies_pop_cons b fl i p l :
  rep b fl -> wf fl -> fl !! i = Some (p :: l) ->
  exists b', buddies_pop b (Z.of_nat i) = Ret (Some p, b') /\ rep b' (<[i := l]> fl) /\
    writes_only (fun x => p <= x < p + 16) (bmem b) (bmem b').
Proof.
  intros Hr Hwf Hl. destruct (rep_index b fl i _ Hr Hl) as (h & Hidx & -> & Hp & Hc).
  unfold buddies_pop. rewrite Hidx. cbn [mbind outcome_bind list_pop_front].
  pose proof (apart_removed fl i [] p l Hwf Hl) as Hap.
  pose proof (wf_block _ Hwf i p (block_at _ _ _ _ Hl ltac:(constructor))) as Hok.
  eexists. split; [reflexivity|]. split; [|apply set_chunk_next_writes].
  apply (rep_update b); [assumption|..].
  - apply lseg_set_other; [|exact Hc]. intros q Hq.
    apply (nodes_apart_mid [] p l); [|assumption]. eapply wf_nodes_apart; eauto.
  - intros j q Hne Hq. apply (writes_only_load _ _ p 16); [apply set_chunk_next_writes|].
    eapply node_disjoint; [apply (Hap j q)|..].
    + apply block_insert; [eapply lookup_lt_Some; eauto | auto].
    + apply Hok.
    + eapply wf_block; eauto.
Qed.

Lemma buddies_pop_nil b fl i :
  rep b fl -> fl !! i = Some [] ->
  exists b', buddies_pop b (Z.of_nat i) = Ret (None, b') /\ rep b' fl /\ bmem b' = bmem b.
Proof.
  intros Hr Hl. destruct (rep_index b fl i _ Hr Hl) as (h & Hidx & Hc). cbn in Hc. subst h.
  unfold buddies_pop. rewrite Hidx. cbn [mbind outcome_bind list_pop_front].
  eexists. split; [reflexivity|]. split; [|reflexivity].
  rewrite <- (list_insert_id fl i []) by assumption. now apply (rep_update b).
Qed.

(** Removing from a list: the block is unlinked, or was not there. *)
Lemma buddies_remove_spec fuel b fl i l start :
  rep b fl -> wf fl -> fl !! i = Some l -> (length l < fuel)%nat ->
  exists r b', buddies_remove fuel b (Z.of_nat i) start = Ret (r, b') /\
    writes_only (free fl) (bmem b) (bmem b') /\
    match r with
    | None => (start ∉ l) /\ rep b' fl
    | Some p => p = start /\ exists l1 l2, l = l1 ++ start :: l2 /\ rep b' (<[i := l1 ++ l2]> fl)
    end.
Proof.
  intros Hr Hwf Hl Hf. destruct (rep_index b fl i _ Hr Hl) as (h & Hidx & Hc).
  unfold buddies_remove, list_remove, list_front. rewrite Hidx. cbn [mbind outcome_bind].
  destruct (list_remove_loop_spec (bmem b) h [] l h start fuel) as (r & m' & h' & Hrun & Hpost);
    [eapply wf_nodes_apart; eauto | assumption.. | apply not_elem_of_nil | assumption|].
  cbn [last] in Hrun. rewrite Hrun. cbn [mbind outcome_bind]. do 2 eexists. split; [reflexivity|].
  destruct r as [p|].
  - destruct Hpost as (-> & la & lb & E & Hc' & Hm'). cbn [app] in E. subst l.
    assert (Hw : writes_only (free fl) (bmem b) m' /\
      forall j q, j <> i -> block fl j q -> load64 m' q = load64 (bmem b) q).
    { destruct Hm' as [->|(a & o & Ha & ->)]; [split; auto with heap|].
      assert (Ba : block fl i a) by (eapply block_at; [exact Hl | set_solver]).
      pose proof (wf_block _ Hwf _ _ Ba) as Oka. pose proof (bsize_ge_16 i (bo_class _ _ Oka)).
      split.
      - eapply writes_only_weaken; [|apply set_chunk_next_writes].
        cbn beta. intros x Hx. exists i, a. split; [assumption | lia].
      - intros j q Hne Hq. eapply writes_only_load; [apply set_chunk_next_writes|].
        eapply node_disjoint; [apply (wf_disjoint fl Hwf i a j q); auto; congruence|..];
          eauto with heap. }
    destruct Hw as [Hw1 Hw2]. split; [exact Hw1|]. split; [reflexivity|].
    exists la, lb. split; [reflexivity|]. now apply (rep_update b).
  - destruct Hpost as (Hni & -> & ->). split; [auto with heap|]. split; [assumption|].
    rewrite <- (list_insert_id fl i l) by assumption. now apply (rep_update b).
Qed.

(** ** The allocator on lists of free blocks

    What the operations compute when the lists in memory are taken for what they
    represent; no memory is involved. *)

(** Splitting from class [c + n] down to [c]. *)
Fixpoint split_lists (n : nat) (fl : list (list Z)) (c : nat) : list (list Z) :=
  match n with
  | O => fl
  | S n' =>
      match fl !! (c + n)%nat, fl !! (c + n')%nat with
      | Some (p :: l), Some l' => split_lists n' (<[(c + n')%nat := p + bsize (c + n') :: p :: l']> (<[(c + n)%nat := l]> fl)) c
      | _, _ => fl
      end
  end.

(** The first class from [i] on that has a block. *)
Fixpoint search_lists (k : nat) (fl : list (list Z)) (i c : nat) : list (list Z) :=
  match k with
  | O => fl
  | S k => match fl !! i with Some [] => search_lists k fl (S i) c | _ => split_lists (i - c) fl c end
  end.

Definition alloc_lists (fl : list (list Z)) (c : nat) : option Z * list (list Z) :=
  let fl1 := search_lists (Z.to_nat MAX_ORDER - c) fl c c in
  match fl1 !! c with Some (q :: l) => (Some q, <[c := l]> fl1) | _ => (None, fl1) end.

(** The block [p] of class [i] goes back, merged with its buddy as long as that is free. *)
Fixpoint dealloc_lists (k : nat) (fl : list (list Z)) (i : nat) (p : Z) : list (list Z) :=
  match k with
  | O => fl
  | S k =>
      match fl !! i with
      | Some l =>
          let q := Z.lxor p (bsize i) in
          if decide (q ∈ l) then dealloc_lists k (<[i := filter (fun x => x <> q) l]> fl) (S i) (Z.min p q)
          else <[i := p :: l]> fl
      | None => fl
      end
  end.

Lemma filter_one (l1 l2 : list Z) q : NoDup (l1 ++ q :: l2) -> filter (fun x => x <> q) (l1 ++ q :: l2) = l1 ++ l2.
Proof.
  intros (Hn & Hq & Hn')%NoDup_app. apply NoDup_cons in Hn' as [Hq2 _].
  assert (Hid : forall l : list Z, q ∉ l -> filter (fun x => x <> q) l = l).
  { induction l as [|x l IH]; [reflexivity|]. intros [Hx Hl]%not_elem_of_cons. rewrite filter_cons_True by congruence. now rewrite IH. }
  rewrite filter_app, filter_cons_False by auto. rewrite !Hid by (auto; intros H; apply (Hq q H); constructor). reflexivity.
Qed.

(** ** Splitting and allocation *)

(** The two halves of a block. *)
Lemma split_block i p :
  block_ok (S i) p -> (4 <= i)%nat ->
  block_ok i p /\ block_ok i (p + bsize i).
Proof.
  intros [_ Hpos Hal Hlim] Hi. rewrite bsize_S in *. pose proof (bsize_pos i).
  assert (Hal' : p mod bsize i = 0).
  { apply (pow2_mod_le p (Z.of_nat i) (Z.of_nat (S i))); [lia|]. now rewrite bsize_S. }
  split; split; (assumption || lia || idtac).
  rewrite Z.add_mod, Z.mod_same, Hal' by lia. reflexivity.
Qed.

(** What an operation that only rearranges free memory guarantees. *)
Definition rearranged (b : BuddyAllocator) fl (b' : BuddyAllocator) fl' : Prop :=
  rep b' fl' /\ wf fl' /\ (forall x, free fl' x <-> free fl x) /\
  writes_only (free fl) (bmem b) (bmem b').

Lemma rearranged_refl b fl : rep b fl -> wf fl -> rearranged b fl b fl.
Proof. intros. split; [assumption|]. split; [assumption|]. split; [easy | auto with heap]. Qed.

Lemma rearranged_trans b1 fl1 b2 fl2 b3 fl3 :
  rearranged b1 fl1 b2 fl2 -> rearranged b2 fl2 b3 fl3 -> rearranged b1 fl1 b3 fl3.
Proof.
  intros (_ & _ & F1 & W1) (R2 & W2 & F2 & Wr2). split; [assumption|]. split; [assumption|]. split.
  - intros x. now rewrite F2.
  - eapply writes_only_trans; [exact W1|]. eapply writes_only_weaken; [|exact Wr2].
    intros x. apply F1.
Qed.

Lemma ushl_one i : 0 <= i < 64 -> ushl 64 1 i = Ret (2 ^ i).
Proof.
  intros Hi. unfold ushl. replace ((0 <=? i) && (i <? 64)) with true by lia.
  rewrite Z.shiftl_1_l, Z.mod_small; [reflexivity|].
  split; [apply Z.pow_nonneg; lia | apply Z.pow_lt_mono_r; lia].
Qed.

(** One step of the splitting loop. *)
Lemma split_step b fl i p l l' :
  rep b fl -> wf fl -> fl !! S i = Some (p :: l) -> fl !! i = Some l' -> (4 <= i)%nat ->
  exists b1 b2 b3,
    buddies_pop b (Z.of_nat (S i)) = Ret (Some p, b1) /\
    push_new_chunk b1 (Z.of_nat i) p (bsize i) = Ret b2 /\
    push_new_chunk b2 (Z.of_nat i) (p + bsize i) (bsize i) = Ret b3 /\
    rearranged b fl b3 (<[i := p + bsize i :: p :: l']> (<[S i := l]> fl)).
Proof.
  intros Hr Hwf Hl Hl' Hi.
  pose proof (wf_block _ Hwf _ p (block_at _ _ _ _ Hl ltac:(constructor))) as Hp.
  destruct (split_block i p Hp Hi) as [Hp1 Hp2].
  pose proof (bsize_ge_16 i Hi) as H16. pose proof (bsize_S i) as HS.
  destruct (buddies_pop_cons b fl (S i) p l Hr Hwf Hl) as (b1 & E1 & R1 & W1).
  pose proof (wf_shrink fl (S i) _ l Hwf Hl ltac:(now apply sublist_cons)) as Wf1.
  pose proof (apart_removed fl (S i) [] p l Hwf Hl) as Hap. cbn [app] in Hap.
  set (fl1 := <[S i := l]> fl) in *.
  assert (L1 : fl1 !! i = Some l') by (unfold fl1; rewrite list_lookup_insert_ne; [assumption | lia]).
  destruct (push_new_chunk_spec b1 fl1 i l' p (bsize i)) as (b2 & E2 & R2 & Wf2 & W2); try assumption.
  { intros j q Hq. specialize (Hap j q Hq). unfold blocks_disjoint, ranges_disjoint in *. lia. }
  set (fl2 := <[i := p :: l']> fl1) in *.
  pose proof (lookup_lt_Some _ _ _ L1) as Hlt.
  assert (L2 : fl2 !! i = Some (p :: l')) by (unfold fl2; now apply list_lookup_insert_eq).
  destruct (push_new_chunk_spec b2 fl2 i (p :: l') (p + bsize i) (bsize i)) as (b3 & E3 & R3 & Wf3 & W3);
    try assumption.
  { intros j q Hq. assert (HH : (j, q) = (i, p) \/ block fl1 j q).
    { apply block_insert in Hq as [[-> [->|Hq]%elem_of_cons]|[_ Hq]]; [auto| |auto|assumption].
      right. eapply block_at; eauto. }
    destruct HH as [[= -> ->]|Hq1].
    - unfold blocks_disjoint, ranges_disjoint. lia.
    - specialize (Hap j q Hq1). unfold blocks_disjoint, ranges_disjoint in *. lia. }
  assert (Efl : <[i := p + bsize i :: p :: l']> fl2 = <[i := p + bsize i :: p :: l']> fl1).
  { unfold fl2. now rewrite list_insert_insert_eq. }
  rewrite Efl in *.
  exists b1, b2, b3. split; [exact E1|]. split; [exact E2|]. split; [exact E3|].
  assert (Hfree : forall x, p <= x < p + bsize (S i) -> free fl x).
  { intros x Hx. exists (S i), p. split; [|assumption]. eapply block_at; [exact Hl | constructor]. }
  split; [assumption|]. split; [assumption|]. split.
  - intros x. rewrite <- Efl, (free_add fl2 i _ _ x L2).
    unfold fl2. rewrite (free_add fl1 i _ _ x L1).
    rewrite (free_remove fl (S i) [] p l x Hwf Hl). cbn [app]. fold fl1. split; intuition lia.
  - eapply writes_only_trans; [|eapply writes_only_trans];
      (eapply writes_only_weaken; [|eassumption]); cbn; intros x Hx; apply Hfree; lia.
Qed.

Lemma lookup_list fl i : wf fl -> (i < Z.to_nat MAX_ORDER)%nat -> exists l, fl !! i = Some l.
Proof. intros Hwf Hi. apply lookup_lt_is_Some. now rewrite (wf_length _ Hwf). Qed.

(** Splitting from class [c + n] down to [c]: class [c] ends up with a block. *)
Lemma alloc_split_spec n b fl c p l :
  rep b fl -> wf fl -> (4 <= c)%nat -> (c + n < Z.to_nat MAX_ORDER)%nat ->
  fl !! (c + n)%nat = Some (p :: l) ->
  exists b' q l', alloc_split n b (Z.of_nat c) = Ret (true, b') /\
    rearranged b fl b' (split_lists n fl c) /\ split_lists n fl c !! c = Some (q :: l').
Proof.
  revert b fl p l. induction n as [|n IH]; intros b fl p l Hr Hwf Hc Hn Hl; cbn [alloc_split split_lists].
  - rewrite Nat.add_0_r in Hl. exists b, p, l. auto using rearranged_refl.
  - replace (Z.of_nat c + Z.of_nat (S n)) with (Z.of_nat (S (c + n))) by lia.
    rewrite Nat.add_succ_r in Hl, Hn.
    destruct (lookup_list fl (c + n)%nat Hwf) as [l0 Hl0]; [lia|].
    destruct (split_step b fl (c + n) p l l0) as (b1 & b2 & b3 & -> & E2 & E3 & Hre); [assumption..|lia|].
    cbn [mbind outcome_bind]. replace (Z.of_nat (S (c + n)) - 1) with (Z.of_nat (c + n)) by lia.
    rewrite ushl_one by (change (Z.to_nat MAX_ORDER) with 20%nat in Hn; lia).
    cbn [mbind outcome_bind]. rewrite E2. cbn [mbind outcome_bind].
    assert (Hp : block_ok (S (c + n)) p) by (eapply wf_block; [eassumption | eapply block_at; [exact Hl | constructor]]).
    destruct (split_block (c + n) p Hp ltac:(lia)) as [_ [_ Hpos _ Hlim]].
    unfold virt_add, uadd. pose proof (bsize_pos (c + n)).
    rewrite checked_ok by lia. cbn [mbind outcome_bind]. rewrite E3. cbn [mbind outcome_bind].
    pose proof Hre as (R3 & Wf3 & _ & _).
    destruct (IH b3 _ (p + bsize (c + n)) (p :: l0) R3 Wf3) as (b' & q & l' & E & Hre' & Hq);
      [assumption | lia | |].
    { apply list_lookup_insert_eq. rewrite length_insert, (wf_length _ Hwf). lia. }
    rewrite Nat.add_succ_r, Hl, Hl0.
    exists b', q, l'. split; [exact E|]. split; [|exact Hq].
    eapply rearranged_trans; eassumption.
Qed.

(** The search for the first non-empty class from [i] on, [k] classes left. *)
Lemma alloc_search_spec k b fl i c :
  rep b fl -> wf fl -> (4 <= c <= i)%nat -> (i + k = Z.to_nat MAX_ORDER)%nat ->
  (forall j, (c <= j < i)%nat -> fl !! j = Some []) ->
  exists b', alloc_search k b (Z.of_nat i) (Z.of_nat c) = Ret (true, b') /\
    rearranged b fl b' (search_lists k fl i c) /\
    ((exists q l, search_lists k fl i c !! c = Some (q :: l)) \/
     (search_lists k fl i c = fl /\ forall j, (c <= j < Z.to_nat MAX_ORDER)%nat -> fl !! j = Some [])).
Proof.
  revert i. induction k as [|k IH]; intros i Hr Hwf Hci Hik Hempty; cbn [alloc_search search_lists].
  - exists b. split; [reflexivity|]. split; [now apply rearranged_refl|].
    right. split; [reflexivity|]. intros j Hj. apply Hempty. lia.
  - destruct (lookup_list fl i Hwf) as [l Hl]; [lia|].
    destruct (rep_index b fl i l Hr Hl) as (h & -> & Hch). cbn [mbind outcome_bind].
    destruct l as [|p l].
    + cbn in Hch. subst h. cbn [list_is_empty].
      replace (Z.of_nat i + 1) with (Z.of_nat (S i)) by lia. rewrite Hl. apply IH; [assumption..|lia|lia|].
      intros j Hj. destruct (decide (j = i)) as [->|]; [assumption|]. apply Hempty. lia.
    + destruct Hch as (-> & _). cbn [list_is_empty].
      replace (Z.to_nat (Z.of_nat i - Z.of_nat c)) with (i - c)%nat by lia.
      rewrite Hl. destruct (alloc_split_spec (i - c) b fl c p l Hr Hwf) as (b' & q & l' & E & Hre & Hq);
        [lia..| |].
      { now replace (c + (i - c))%nat with i by lia. }
      exists b'. eauto 10.
Qed.

(** A layout Rust can build. *)
Definition layout_ok (layout : Layout) : Prop :=
  0 <= layout_size layout < 2 ^ 63 /\ exists k, 0 <= k < 63 /\ layout_align layout = 2 ^ k.

(** The size class of a layout. *)
Definition layout_class (layout : Layout) : nat :=
  Z.to_nat (Z.max (Z.log2_up (layout_size layout)) (Z.max (Z.log2 (layout_align layout)) 4)).

Lemma max_pow2 a b : 0 <= a -> 0 <= b -> Z.max (2 ^ a) (2 ^ b) = 2 ^ Z.max a b.
Proof.
  intros Ha Hb. destruct (Z.le_ge_cases a b).
  - rewrite !Z.max_r; [reflexivity | assumption|]. apply Z.pow_le_mono_r; lia.
  - rewrite !Z.max_l; [reflexivity | assumption|]. apply Z.pow_le_mono_r; lia.
Qed.

Lemma trailing_zeros_pow2 k : 0 <= k < 64 -> trailing_zeros 64 (2 ^ k) = k.
Proof.
  intros Hk. unfold trailing_zeros. pose proof (Z.pow_pos_nonneg 2 k).
  rewrite (proj2 (Z.eqb_neq _ 0)) by lia.
  replace (Z.land (2 ^ k) (- 2 ^ k)) with (2 ^ k); [apply Z.log2_pow2; lia|].
  apply Z.bits_inj'. intros n Hn. rewrite Z.land_spec, Z.pow2_bits_eqb by lia.
  destruct (Z.eqb_spec k n) as [->|]; [|reflexivity]. cbn [andb].
  rewrite Z.bits_opp by lia. replace (Z.pred (2 ^ n)) with (Z.ones n) by (rewrite Z.ones_equiv; lia).
  now rewrite Z.ones_spec_high by lia.
Qed.

(** The allocator rounds a layout up to the size of its class. *)
Lemma align_layout_size_spec layout :
  layout_ok layout ->
  align_layout_size layout = Ret (bsize (layout_class layout)) /\
  (4 <= layout_class layout < 64)%nat /\
  layout_size layout <= bsize (layout_class layout) /\
  bsize (layout_class layout) mod layout_align layout = 0.
Proof.
  intros [Hs (k & Hk & Ha)]. unfold align_layout_size, next_power_of_two, layout_class.
  rewrite Ha, Z.log2_pow2 by lia. pose proof (Z.log2_up_nonneg (layout_size layout)) as Hlu.
  assert (Hlu63 : Z.log2_up (layout_size layout) <= 63).
  { rewrite <- (Z.log2_up_pow2 63) by lia. apply Z.log2_up_le_mono. lia. }
  rewrite Z2Nat.id by lia.
  assert (2 ^ Z.log2_up (layout_size layout) <= 2 ^ 63) by (apply Z.pow_le_mono_r; lia).
  rewrite checked_ok by (split; [apply Z.pow_nonneg|]; lia). cbn [mbind outcome_bind].
  unfold min_size. change 16 with (2 ^ 4). rewrite !max_pow2 by lia.
  split; [reflexivity|]. split; [lia|]. split.
  - apply Z.le_trans with (2 ^ Z.log2_up (layout_size layout)).
    + destruct (Z.eq_dec (layout_size layout) 0) as [->|]; [cbn; lia|].
      apply Z.log2_up_le_pow2; lia.
    + apply Z.pow_le_mono_r; lia.
  - apply pow2_mod_le with (Z.max (Z.log2_up (layout_size layout)) (Z.max k 4)); [lia|].
    apply Z.mod_same. apply Z.pow_nonzero; lia.
Qed.

(** What [alloc] guarantees: a block of the class of the layout leaves the free
    memory, or every list that could serve the request is empty. *)
Definition alloc_post (b : BuddyAllocator) fl c (r : option Z) (b' : BuddyAllocator) fl' : Prop :=
  rep b' fl' /\ wf fl' /\ writes_only (free fl) (bmem b) (bmem b') /\
  match r with
  | Some p => block_ok c p /\ apart fl' c p /\
      forall x, free fl x <-> free fl' x \/ p <= x < p + bsize c
  | None => fl' = fl /\ forall j, (c <= j < Z.to_nat MAX_ORDER)%nat -> fl !! j = Some []
  end.

Lemma buddy_alloc_post b fl layout :
  rep b fl -> wf fl -> layout_ok layout -> (layout_class layout < Z.to_nat MAX_ORDER)%nat ->
  exists r b' fl', buddy_alloc b layout = Ret (r, b') /\ alloc_lists fl (layout_class layout) = (r, fl') /\
    alloc_post b fl (layout_class layout) r b' fl'.
Proof.
  intros Hr Hwf Hlay Hc. destruct (align_layout_size_spec layout Hlay) as (E & H4 & _ & _).
  unfold buddy_alloc. rewrite E. cbn [mbind outcome_bind]. clear E. set (c := layout_class layout) in *.
  rewrite trailing_zeros_pow2 by lia. rewrite (rep_length b fl Hr), (wf_length fl Hwf).
  replace (Z.to_nat (Z.of_nat (Z.to_nat MAX_ORDER) - Z.of_nat c)) with (Z.to_nat MAX_ORDER - c)%nat by lia.
  destruct (alloc_search_spec (Z.to_nat MAX_ORDER - c) b fl c c Hr Hwf) as (b1 & -> & Hre & Hcase);
    [lia.. | intros j Hj; lia|].
  unfold alloc_lists. set (fl1 := search_lists _ _ _ _) in *.
  cbn [mbind outcome_bind]. destruct Hre as (R1 & Wf1 & F1 & W1).
  destruct Hcase as [(q & l & Hq)|[Efl Hnone]]; [|rewrite Efl in *].
  - destruct (buddies_pop_cons b1 fl1 c q l R1 Wf1 Hq) as (b' & -> & R' & W').
    pose proof (wf_block _ Wf1 c q (block_at _ _ _ _ Hq ltac:(constructor))) as Hok.
    exists (Some q), b', (<[c := l]> fl1). split; [reflexivity|]. split; [now rewrite Hq|].
    split; [assumption|]. split; [eapply wf_shrink; eauto; now apply sublist_cons|]. split; [|split; [assumption|split]].
    + eapply writes_only_trans; [exact W1|]. eapply writes_only_weaken; [|exact W'].
      cbn beta. intros x Hx. apply F1. exists c, q.
      split; [eapply block_at; [exact Hq | constructor]|]. pose proof (bsize_ge_16 c). lia.
    + exact (apart_removed fl1 c [] q l Wf1 Hq).
    + intros x. rewrite <- F1. exact (free_remove fl1 c [] q l x Wf1 Hq).
  - destruct (buddies_pop_nil b1 fl c R1) as (b' & -> & R' & E'); [apply Hnone; lia|].
    exists None, b', fl. split; [reflexivity|]. split; [now rewrite Hnone by lia|]. split; [assumption|]. split; [assumption|].
    split; [now rewrite E' | auto].
Qed.

(** ** Deallocation *)

Lemma lxor_1_even q : Z.lxor q 1 = if Z.odd q then q - 1 else q + 1.
Proof.
  rewrite (Z.div_mod q 2) at 1 by lia. rewrite Zmod_odd.
  pose proof (Z.div_mod q 2 ltac:(lia)) as Hq. rewrite Zmod_odd in Hq.
  assert (E : forall c, 0 <= c <= 1 -> Z.lxor (2 * (q / 2) + c) 1 = 2 * (q / 2) + Z.lxor c 1).
  { intros c Hc. rewrite (Z.mul_comm 2), <- (Z.shiftl_mul_pow2 _ 1) by lia.
    assert (Hlow : forall d, 0 <= d <= 1 -> Z.shiftl (q / 2) 1 + d = Z.lxor (Z.shiftl (q / 2) 1) d).
    { intros d Hd. rewrite Z.add_nocarry_lxor; [reflexivity|].
      apply Z.bits_inj'. intros n Hn. rewrite Z.land_spec, Z.bits_0.
      destruct (Z.eq_dec n 0) as [->|]; [now rewrite Z.shiftl_spec_low by lia|].
      rewrite (testbit_high d n 1) by lia. apply andb_false_r. }
    rewrite Hlow by assumption. rewrite Z.lxor_assoc. symmetry. apply Hlow.
    assert (c = 0 \/ c = 1) as [->| ->] by lia; split; discriminate. }
  destruct (Z.odd q); rewrite E by lia;
    [change (Z.lxor 1 1) with 0 | change (Z.lxor 0 1) with 1]; lia.
Qed.

(** The buddy of a block is its other half one class up. *)
Lemma buddy_address i p :
  0 <= p -> p mod bsize i = 0 ->
  (p mod bsize (S i) = 0 /\ Z.lxor p (bsize i) = p + bsize i) \/
  (p mod bsize (S i) = bsize i /\ Z.lxor p (bsize i) = p - bsize i).
Proof.
  intros Hp Hal. pose proof (bsize_pos i) as Hpos.
  pose proof (Z.div_mod p (bsize i) ltac:(lia)) as Hdm. rewrite Hal, Z.add_0_r in Hdm.
  set (q := p / bsize i) in *.
  assert (E : Z.lxor p (bsize i) = Z.lxor q 1 * bsize i).
  { rewrite Hdm, (Z.mul_comm _ q). rewrite <- !Z.shiftl_mul_pow2, Z.shiftl_lxor, Z.shiftl_1_l by lia. reflexivity. }
  rewrite E, lxor_1_even, bsize_S. rewrite Hdm at 1 3. rewrite (Z.mul_comm 2), Z.mul_mod_distr_l, Zmod_odd by lia.
  destruct (Z.odd q); [right|left]; split; lia.
Qed.

(** No aligned block of the class above the largest lies within [P]. *)
Definition below_limit (P : Z -> Prop) : Prop :=
  forall q, q mod 2 ^ MAX_ORDER = 0 -> ~ (forall x, q <= x < q + 2 ^ MAX_ORDER -> P x).

Lemma below_limit_iff (P Q : Z -> Prop) : (forall x, P x <-> Q x) -> below_limit P -> below_limit Q.
Proof. intros H HP q Hq Hall. apply (HP q Hq). intros x Hx. now apply H, Hall. Qed.

(** A block merged with its free buddy. *)
Lemma merge_block fl i p l1 l2 :
  wf fl -> block_ok i p -> apart fl i p -> fl !! i = Some (l1 ++ Z.lxor p (bsize i) :: l2) ->
  let q := Z.lxor p (bsize i) in
  block_ok (S i) (Z.min p q) /\ apart (<[i := l1 ++ l2]> fl) (S i) (Z.min p q) /\
  (forall x, (Z.min p q <= x < Z.min p q + bsize (S i)) <->
     (p <= x < p + bsize i \/ q <= x < q + bsize i)).
Proof.
  intros Hwf Hp Hap Hl q. assert (Bq : block fl i q) by (eapply block_at; [exact Hl | set_solver]).
  pose proof (wf_block _ Hwf _ _ Bq) as Hq. pose proof (apart_removed fl i l1 q l2 Hwf Hl) as Hapq.
  assert (Happ : apart (<[i := l1 ++ l2]> fl) i p).
  { intros j r Hr. apply Hap. eapply block_shrink; [exact Hl| |exact Hr]. set_solver. }
  pose proof (bsize_S i) as HS. pose proof (bsize_pos i) as Hpos.
  destruct Hp as [Hi Hp0 Hal Hlim]. destruct Hq as [_ Hq0 _ Hqlim].
  destruct (buddy_address i p) as [[Hm E]|[Hm E]]; [lia | assumption |..]; fold q in E.
  - rewrite Z.min_l by lia. split; [split; lia|]. split; [|lia].
    intros j r Hr. specialize (Hapq j r Hr). specialize (Happ j r Hr).
    unfold blocks_disjoint, ranges_disjoint in *. pose proof (bsize_pos j). lia.
  - rewrite Z.min_r by lia. split; [split; [lia.. | |lia]|].
    + rewrite E, Zminus_mod, Hm, (Z.mod_small (bsize i)), Z.sub_diag by lia. apply Zmod_0_l.
    + split; [|lia]. intros j r Hr. specialize (Hapq j r Hr). specialize (Happ j r Hr).
      unfold blocks_disjoint, ranges_disjoint in *. pose proof (bsize_pos j). lia.
Qed.

Definition dealloc_post (b : BuddyAllocator) fl i p (b' : BuddyAllocator) fl' : Prop :=
  rep b' fl' /\ wf fl' /\ (forall x, free fl' x <-> free fl x \/ p <= x < p + bsize i) /\
  writes_only (fun x => free fl x \/ p <= x < p + bsize i) (bmem b) (bmem b').

Lemma dealloc_loop_spec k fuel b fl i p :
  rep b fl -> wf fl -> block_ok i p -> apart fl i p -> (i + k = Z.to_nat MAX_ORDER)%nat ->
  (forall j l, fl !! j = Some l -> (length l < fuel)%nat) ->
  below_limit (fun x => free fl x \/ p <= x < p + bsize i) ->
  exists b', dealloc_loop k fuel b (Z.of_nat i) (Region_new p (bsize i)) = Ret b' /\
    dealloc_post b fl i p b' (dealloc_lists k fl i p).
Proof.
  revert b fl i p. induction k as [|k IH]; intros b fl i p Hr Hwf Hp Hap Hik Hfuel Hlim.
  - exfalso. rewrite Nat.add_0_r in Hik. subst i. rewrite Z2Nat.id in * by (unfold MAX_ORDER; lia).
    apply (Hlim p); [apply Hp|]. auto.
  - cbn [dealloc_lists dealloc_loop Region_new region_start region_set_start Region_MemoryRegion r_start r_size
         region_size region_set_size].
    change (Z.to_nat MAX_ORDER) with 20%nat in Hik.
    rewrite ushl_one by lia. cbn [mbind outcome_bind].
    destruct (lookup_list fl i Hwf) as [l Hl]; [change (Z.to_nat MAX_ORDER) with 20%nat; lia|].
    destruct (buddies_remove_spec fuel b fl i l (Z.lxor p (bsize i)) Hr Hwf Hl) as (r & b1 & -> & W1 & Hpost);
      [eauto|]. cbn [mbind outcome_bind]. destruct r as [q|].
    + destruct Hpost as (-> & l1 & l2 & -> & R1). rewrite Hl. cbv zeta. rewrite decide_True by set_solver.
      rewrite filter_one by (eapply wf_nodup; eauto).
      destruct (merge_block fl i p l1 l2 Hwf Hp Hap Hl) as (Hp' & Hap' & Hrange).
      assert (2 ^ Z.of_nat i <= 2 ^ 19) by (apply Z.pow_le_mono_r; lia). pose proof (bsize_pos i).
      unfold umul. rewrite checked_ok by lia. cbn [mbind outcome_bind].
      replace (2 ^ Z.of_nat i * 2) with (bsize (S i)) by (rewrite bsize_S; lia).
      replace (Z.of_nat i + 1) with (Z.of_nat (S i)) by lia.
      set (p' := Z.min p (Z.lxor p (bsize i))) in *. set (fl1 := <[i := l1 ++ l2]> fl) in *.
      assert (Hset : forall x, free fl1 x \/ p' <= x < p' + bsize (S i) <-> free fl x \/ p <= x < p + bsize i).
      { intros x. rewrite Hrange, (free_remove fl i l1 _ l2 x Hwf Hl). fold fl1. tauto. }
      destruct (IH b1 fl1 (S i) p' R1) as (b' & E & R' & Wf' & F' & W'); try assumption.
      * eapply wf_shrink; [exact Hwf | exact Hl|]. apply sublist_app; [reflexivity | now apply sublist_cons].
      * change (Z.to_nat MAX_ORDER) with 20%nat. lia.
      * intros j l Hj. apply list_lookup_insert_Some in Hj as [(-> & <- & _)|[_ Hj]]; [|eauto].
        specialize (Hfuel _ _ Hl). rewrite length_app in *. cbn in Hfuel. lia.
      * eapply below_limit_iff; [|exact Hlim]. intros x. symmetry. apply Hset.
      * exists b'. split; [exact E|]. split; [assumption|]. split; [assumption|]. split.
        -- intros x. now rewrite F'.
        -- eapply writes_only_trans; (eapply writes_only_weaken; [|eassumption]); cbn beta; intros x Hx.
           ++ now left.
           ++ now apply Hset.
    + destruct Hpost as [Hni R1]. rewrite Hl. cbv zeta. rewrite decide_False by exact Hni.
      destruct (push_new_chunk_spec b1 fl i l p (bsize i) R1 Hwf Hl Hp Hap) as (b' & E & R' & Wf' & W').
      exists b'. split; [exact E|]. split; [assumption|]. split; [assumption|]. split.
      * intros x. apply free_add. assumption.
      * pose proof (bsize_ge_16 i (bo_class _ _ Hp)).
        eapply writes_only_trans; (eapply writes_only_weaken; [|eassumption]); cbn beta; intros x Hx;
          [now left | right; lia].
Qed.

(** [GlobalAlloc::dealloc] of a block that is not free. *)
Lemma global_dealloc_post fuel b fl layout p :
  rep b fl -> wf fl -> layout_ok layout -> (layout_class layout < Z.to_nat MAX_ORDER)%nat ->
  block_ok (layout_class layout) p -> apart fl (layout_class layout) p ->
  (forall j l, fl !! j = Some l -> (length l < fuel)%nat) ->
  below_limit (fun x => free fl x \/ p <= x < p + bsize (layout_class layout)) ->
  exists b', global_dealloc fuel b p layout = Ret b' /\
    dealloc_post b fl (layout_class layout) p b'
      (dealloc_lists (Z.to_nat MAX_ORDER - layout_class layout) fl (layout_class layout) p).
Proof.
  intros Hr Hwf Hlay Hc Hp Hap Hfuel Hlim.
  destruct (align_layout_size_spec layout Hlay) as (E & H4 & _ & _).
  unfold global_dealloc. rewrite E. cbn [mbind outcome_bind]. clear E.
  set (c := layout_class layout) in *. unfold NonNull_new. pose proof (bo_pos _ _ Hp).
  pose proof (bsize_ge_16 c (bo_class _ _ Hp)) as H16.
  rewrite (proj2 (Z.eqb_neq p 0)) by lia. cbn [unwrap mbind outcome_bind].
  unfold buddy_dealloc. cbn [bmem buddies].
  assert (2 ^ Z.of_nat c < 2 ^ 64) by (apply Z.pow_lt_mono_r; lia).
  assert (Esz : chunk_size (Chunk_new_at_address (bmem b) p (bsize c)) p = bsize c).
  { unfold chunk_size, Chunk_new_at_address, set_chunk_next, set_chunk_size.
    rewrite load64_store64_other by (unfold ranges_disjoint; lia). apply load64_store64_same. lia. }
  rewrite Esz, trailing_zeros_pow2, (rep_length b fl Hr), (wf_length fl Hwf) by lia.
  set (b0 := mkBuddy _ _).
  assert (Hw0 : writes_only (fun x => p <= x < p + bsize c) (bmem b) (bmem b0)).
  { eapply writes_only_weaken; [|apply new_chunk_writes]. cbn beta. lia. }
  destruct (dealloc_loop_spec (Z.to_nat MAX_ORDER - c) fuel b0 fl c p) as (b' & E & R' & Wf' & F' & W');
    try assumption; [|lia|].
  { eapply rep_writes_only; [exact Hwf | exact Hr | |exact Hw0]. intros x Hx. now apply (apart_not_free fl c p). }
  replace (Z.to_nat (Z.of_nat (Z.to_nat MAX_ORDER) - Z.of_nat c)) with (Z.to_nat MAX_ORDER - c)%nat by lia.
  exists b'. split; [exact E|]. split; [assumption|]. split; [assumption|]. split; [assumption|].
  eapply writes_only_trans; [|exact W']. eapply writes_only_weaken; [|exact Hw0]. auto.
Qed.
