(* ===== verification/ChunkPool.v ===== *)
(** The two lists of [kernel/src/allocator/buddy_allocator.rs] and their trait
    [LinkedListTrait].

    [LinkedList] links chunks that lie anywhere; [LinkedListWithStorage] brings 512
    chunks of its own.  What the trait promises is a class, and what a client gets
    from it is proved against the class. *)
From Stdlib Require Import ZArith Lia.
From stdpp Require Import base tactics numbers list.
From S2P Require Import Prelude Buddy BuddyHeap.
#[local] Open Scope Z_scope.

(** ** The trait *)

Class LinkedListTrait (L : Type) := {
  lt_pop_front : mem -> L -> option Z * (mem * L);
  lt_remove : nat -> mem -> L -> Z -> outcome (option Z * (mem * L));
  lt_front : L -> option Z;
  lt_is_empty : L -> bool;
}.

(** A list holds nodes; the front one comes first, and only the nodes' own bytes are
    written. *)
Class LinkedListSpec (L : Type) `{LinkedListTrait L} := {
  holds : mem -> L -> list Z -> Prop;
  lt_front_spec m l xs : holds m l xs -> lt_front l = head xs;
  lt_is_empty_spec m l xs : holds m l xs -> lt_is_empty l = match xs with [] => true | _ => false end;
  lt_pop_front_spec m l xs : holds m l xs -> exists m' l', lt_pop_front m l = (head xs, (m', l')) /\ holds m' l' (tail xs) /\
    forall x, (forall p, p ∈ xs -> ~ (p <= x < p + 16)) -> m' x = m x;
}.

#[global] Instance LinkedList_trait : LinkedListTrait LinkedList := {
  lt_pop_front := list_pop_front;
  lt_remove := list_remove;
  lt_front := list_front;
  lt_is_empty := list_is_empty;
}.

(** ** [LinkedListWithStorage] *)

Definition LIST_SIZE : Z := 512.

(** The address of the array of nodes, and the head. *)
Record LinkedListWithStorage := mkStorage { nodes : Z; storage_head : option Z }.

Definition node_address (base i : Z) : Z := base + 16 * i.

(** One round of the loop in [new]. *)
Definition storage_link (node_ptr : Z) (st : mem * option Z) : outcome (mem * option Z) :=
  let '(m, head) := st in
  let m := set_chunk_next m node_ptr head in
  h ← unwrap (NonNull_new node_ptr);
  Ret (m, Some h).

(** [new], which builds the list in a local variable at [base]. *)
Definition storage_new (base : Z) (m : mem) : outcome (mem * LinkedListWithStorage) :=
  '(m, head) ← fold_outcome storage_link (node_address base <$> seqZ 0 LIST_SIZE) (m, None);
  Ret (m, mkStorage base head).

(** Returning the list by value moves the nodes to [dst]; pointers to them stay what
    they were. *)
Definition storage_move (dst : Z) (m : mem) (l : LinkedListWithStorage) : mem * LinkedListWithStorage :=
  (fun x => if (dst <=? x) && (x <? dst + 16 * LIST_SIZE) then m (nodes l + (x - dst)) else m x, mkStorage dst (storage_head l)).

Definition storage_push_front (m : mem) (l : LinkedListWithStorage) (block : Z) : outcome (mem * LinkedListWithStorage) :=
  let m := set_chunk_next m block (storage_head l) in
  h ← unwrap (NonNull_new block);
  Ret (m, mkStorage (nodes l) (Some h)).

Definition storage_pop_front (m : mem) (l : LinkedListWithStorage) : option Z * (mem * LinkedListWithStorage) :=
  match storage_head l with
  | Some block => (Some block, (set_chunk_next m block None, mkStorage (nodes l) (chunk_next m block)))
  | None => (None, (m, mkStorage (nodes l) None))
  end.

#[global] Instance Storage_trait : LinkedListTrait LinkedListWithStorage := {
  lt_pop_front := storage_pop_front;
  lt_remove _ m l _ := Ret (None, (m, l));
  lt_front := storage_head;
  lt_is_empty l := match storage_head l with None => true | Some _ => false end;
}.

(** ** Both keep the promise *)

(** Taking the first node off a chain. *)
Lemma chain_pop m p h xs :
  chain m h (p :: xs) -> nodes_apart (p :: xs) ->
  chain (set_chunk_next m p None) (chunk_next m p) xs /\ nodes_apart xs /\
  forall x, ~ (p <= x < p + 16) -> set_chunk_next m p None x = m x.
Proof.
  intros (-> & Hp & Hc) [Hnd Hap]. apply NoDup_cons in Hnd as [Hnotin Hnd]. split; [|split].
  - apply (lseg_frame m); [|exact Hc]. intros q Hq. unfold set_chunk_next. apply load64_store64_other.
    assert (Hne : p <> q) by (intros ->; now apply Hnotin).
    specialize (Hap p q ltac:(left) ltac:(now right) Hne). unfold ranges_disjoint in *. lia.
  - split; [exact Hnd|]. intros q r Hq Hr. apply Hap; now right.
  - intros x Hx. unfold set_chunk_next. apply store_le_outside. lia.
Qed.

#[global] Instance LinkedList_spec : LinkedListSpec LinkedList.
Proof.
  refine {| holds m l xs := chain m l xs /\ nodes_apart xs |}.
  - intros m l [|p xs] [Hc _]; [exact Hc | apply Hc].
  - intros m l [|p xs] [Hc _]; [cbn in Hc; now subst l | destruct Hc as [-> _]; reflexivity].
  - intros m l [|p xs] [Hc Ha].
    + cbn in Hc. subst l. exists m, None. split; [reflexivity|]. split; [now split | auto].
    + destruct (chain_pop m p l xs Hc Ha) as (H1 & H2 & H3). destruct Hc as [-> _].
      do 2 eexists. split; [reflexivity|]. split; [now split|]. intros x Hx. apply H3, Hx. left.
Defined.

#[global] Instance Storage_spec : LinkedListSpec LinkedListWithStorage.
Proof.
  refine {| holds m l xs := chain m (storage_head l) xs /\ nodes_apart xs |}.
  - intros m l [|p xs] [Hc _]; [exact Hc | apply Hc].
  - intros m [n h] [|p xs] [Hc _]; cbn in *; [now subst h | destruct Hc as [-> _]; reflexivity].
  - intros m [n h] [|p xs] [Hc Ha]; cbn [storage_head] in Hc.
    + cbn in Hc. subst h. exists m, (mkStorage n None). split; [reflexivity|]. split; [now split | auto].
    + destruct (chain_pop m p h xs Hc Ha) as (H1 & H2 & H3). destruct Hc as [-> _].
      do 2 eexists. split; [reflexivity|]. split; [now split|]. intros x Hx. apply H3, Hx. left.
Defined.

(** ** A client of the trait *)

Section Client.
Context `{LLS : LinkedListSpec L}.

(** Takes nodes off until the list is empty, at most [n]. *)
Fixpoint drain (n : nat) (m : mem) (l : L) : list Z * (mem * L) :=
  match n with
  | O => ([], (m, l))
  | S n =>
      match lt_pop_front m l with
      | (Some p, (m, l)) => let '(ps, st) := drain n m l in (p :: ps, st)
      | (None, st) => ([], st)
      end
  end.

(** It gets every node once, in order, and writes nothing but nodes. *)
Theorem drain_correct n m l xs :
  holds m l xs -> (length xs <= n)%nat ->
  exists m' l', drain n m l = (xs, (m', l')) /\ lt_is_empty l' = true /\
    forall x, (forall p, p ∈ xs -> ~ (p <= x < p + 16)) -> m' x = m x.
Proof.
  intros Hl Hn. cut (exists m' l', drain n m l = (xs, (m', l')) /\ holds m' l' [] /\
    forall x, (forall p, p ∈ xs -> ~ (p <= x < p + 16)) -> m' x = m x).
  { intros (m' & l' & E & He & F). exists m', l'. split; [exact E|]. split; [exact (lt_is_empty_spec m' l' [] He) | exact F]. }
  revert m l xs Hl Hn. induction n as [|n IH]; intros m l xs Hl Hn.
  - destruct xs; [|cbn in Hn; lia]. exists m, l. auto.
  - cbn [drain]. destruct (lt_pop_front_spec m l xs Hl) as (m1 & l1 & -> & Hl1 & F1). destruct xs as [|p xs]; cbn [head tail] in *.
    + exists m1, l1. auto.
    + destruct (IH m1 l1 xs Hl1 ltac:(cbn in Hn; lia)) as (m2 & l2 & -> & He & F2). exists m2, l2. split; [reflexivity|]. split; [exact He|].
      intros x Hx. rewrite F2, F1; [reflexivity | exact Hx |]. intros q Hq. apply Hx. now right.
Qed.
End Client.

(** ** The list with storage *)

Section Storage.
Context (base : Z) (Hbase : 0 < base) (Hend : base + 16 * LIST_SIZE <= 2 ^ 64).

Definition storage_nodes (n : Z) : list Z := node_address base <$> seqZ 0 n.

Lemma storage_nodes_elem n p : p ∈ storage_nodes n <-> exists i, p = base + 16 * i /\ 0 <= i < n.
Proof.
  unfold storage_nodes. rewrite list_elem_of_fmap. setoid_rewrite elem_of_seqZ. split; intros (i & -> & Hi); exists i; (split; [reflexivity | lia]).
Qed.

Lemma storage_nodes_apart n : nodes_apart (reverse (storage_nodes n)).
Proof.
  split.
  - rewrite reverse_Permutation. apply NoDup_fmap_2; [intros i j; unfold node_address; lia | apply NoDup_seqZ].
  - intros p q Hp Hq Hne. rewrite !elem_of_reverse, !storage_nodes_elem in *. destruct Hp as (i & -> & _), Hq as (j & -> & _).
    unfold ranges_disjoint. lia.
Qed.

(** After [n] rounds the first [n] nodes are linked, the last one in front. *)
Lemma storage_rounds n m :
  (n <= Z.to_nat LIST_SIZE)%nat ->
  exists m' h, fold_outcome storage_link (storage_nodes (Z.of_nat n)) (m, None) = Ret (m', h) /\
    chain m' h (reverse (storage_nodes (Z.of_nat n))) /\
    forall x, ~ (base <= x < base + 16 * Z.of_nat n) -> m' x = m x.
Proof.
  induction n as [|n IH]; intros Hn; [exists m, None; split; [reflexivity | split; [reflexivity | auto]]|].
  destruct IH as (m1 & h1 & E & Hc & F); [lia|].
  assert (Es : storage_nodes (Z.of_nat (S n)) = storage_nodes (Z.of_nat n) ++ [base + 16 * Z.of_nat n]).
  { unfold storage_nodes. rewrite seqZ_S, fmap_app. reflexivity. }
  assert (Hw : 0 < base + 16 * Z.of_nat n < 2 ^ 64) by (unfold LIST_SIZE in *; lia).
  rewrite Es, fold_outcome_app, E. cbn [mbind outcome_bind fold_outcome]. unfold storage_link, NonNull_new.
  rewrite (proj2 (Z.eqb_neq _ 0)) by lia. cbn [unwrap mbind outcome_bind]. do 2 eexists. split; [reflexivity|]. split.
  - rewrite reverse_snoc. cbn [chain lseg]. split; [reflexivity|]. split; [exact Hw|].
    rewrite chunk_next_set by (eapply lseg_ptr_ok; [exact Hc | exact I]). apply lseg_set_other; [|exact Hc].
    intros q Hq. rewrite elem_of_reverse, storage_nodes_elem in Hq. destruct Hq as (i & -> & Hi). unfold ranges_disjoint. lia.
  - intros x Hx. unfold set_chunk_next, store64. rewrite store_le_outside by lia. apply F. lia.
Qed.

Lemma storage_new_spec m :
  exists m' l, storage_new base m = Ret (m', l) /\ nodes l = base /\ holds m' l (reverse (storage_nodes LIST_SIZE)) /\
    forall x, ~ (base <= x < base + 16 * LIST_SIZE) -> m' x = m x.
Proof.
  destruct (storage_rounds (Z.to_nat LIST_SIZE) m) as (m' & h & E & Hc & F); [lia|].
  rewrite Z2Nat.id in * by (unfold LIST_SIZE; lia). unfold storage_new. fold (storage_nodes LIST_SIZE). rewrite E. cbn [mbind outcome_bind].
  exists m', (mkStorage base h). split; [reflexivity|]. split; [reflexivity|]. split; [|exact F].
  split; [exact Hc | apply storage_nodes_apart].
Qed.

(** A list that is not moved serves each of its 512 nodes once, the last one first. *)
Theorem storage_serves m :
  exists m1 l m2 l', storage_new base m = Ret (m1, l) /\
    drain 512 m1 l = (reverse (storage_nodes LIST_SIZE), (m2, l')) /\ lt_is_empty l' = true.
Proof.
  destruct (storage_new_spec m) as (m1 & l & E & _ & Hl & _).
  destruct (drain_correct 512 m1 l _ Hl) as (m2 & l' & Ed & He & _); [rewrite length_reverse; reflexivity|].
  exists m1, l, m2, l'. auto.
Qed.

(** But [new] returns the list by value: wherever it is moved to, its front node is
    still in the memory it came from, which is no longer part of it. *)
Theorem storage_new_dangles m dst :
  ranges_disjoint base (16 * LIST_SIZE) dst (16 * LIST_SIZE) ->
  exists m1 l, storage_new base m = Ret (m1, l) /\
    let '(m2, l2) := storage_move dst m1 l in
    nodes l2 = dst /\ exists p, lt_front l2 = Some p /\ base <= p < base + 16 * LIST_SIZE /\ ~ (dst <= p < dst + 16 * LIST_SIZE).
Proof.
  intros Hd. destruct (storage_new_spec m) as (m1 & l & E & _ & Hl & _). exists m1, l. split; [exact E|].
  cbn [storage_move]. split; [reflexivity|]. exists (base + 16 * 511).
  pose proof (lt_front_spec m1 l _ Hl) as Hf. cbn [lt_front Storage_trait storage_head] in *. split.
  - rewrite Hf. unfold storage_nodes, LIST_SIZE. change 512 with (Z.of_nat (S 511)). rewrite seqZ_S, fmap_app. cbn [fmap list_fmap].
    rewrite reverse_snoc. reflexivity.
  - unfold ranges_disjoint, LIST_SIZE in *. lia.
Qed.
End Storage.

Lemma storage_serves_witness :
  exists m1 l m2 l', storage_new 0x8000 (fun _ => 0) = Ret (m1, l) /\
    drain 512 m1 l = (reverse (storage_nodes 0x8000 LIST_SIZE), (m2, l')) /\ lt_is_empty l' = true.
Proof. apply (storage_serves 0x8000); unfold LIST_SIZE; lia. Defined.
