(* ===== verification/KernelHeap.v ===== *)
(** The kernel heap: adding memory to the buddy allocator, the life of the heap
    under its clients, and [kernel/src/allocator.rs].

    A heap state is the allocator together with the live allocations.  The step
    relation has the client's moves: [GlobalAlloc::alloc], [GlobalAlloc::dealloc]
    of a live allocation and writes into live allocations.  [heap_inv] says that
    free blocks and live allocations partition the heap; it holds initially and
    every step preserves it. *)
From Stdlib Require Import ZArith Lia.
From stdpp Require Import base tactics numbers list sets relations.
From S2P Require Import Prelude Memory Buddy BuddyHeap.
#[local] Open Scope Z_scope.

(** ** [add_region] *)

(** A positive number is an odd multiple of a power of two. *)
Lemma odd_part x : 0 < x -> exists k t, 0 <= k /\ x = 2 ^ (k + 1) * t + 2 ^ k.
Proof.
  intros Hx. assert (H0 : 0 <= x) by lia. revert Hx. pattern x. apply Zlt_0_ind; [|exact H0].
  clear x H0. intros x IH _ Hx. pose proof (Z.div_mod x 2 ltac:(lia)) as Hd. rewrite Zmod_odd in Hd.
  destruct (Z.odd x).
  - exists 0, (x / 2). split; [lia|]. change (2 ^ (0 + 1)) with 2. change (2 ^ 0) with 1. lia.
  - destruct (IH (x / 2)) as (k & t & Hk & E); [lia | lia|].
    exists (k + 1), t. split; [lia|]. rewrite (Z.pow_add_r 2 (k + 1) 1), (Z.pow_add_r 2 k 1) in * by lia.
    change (2 ^ 1) with 2 in *. lia.
Qed.

Lemma testbit_shifted j t r n :
  0 <= j -> 0 <= r < 2 ^ j -> j <= n -> Z.testbit (2 ^ j * t + r) n = Z.testbit t (n - j).
Proof.
  intros Hj Hr Hn. replace n with ((n - j) + j) at 1 by lia.
  rewrite <- Z.div_pow2_bits by lia. f_equal.
  rewrite (Z.mul_comm (2 ^ j)), Z.div_add_l, Z.div_small by lia. lia.
Qed.

Lemma testbit_low_part j t r n :
  0 <= r < 2 ^ j -> n < j -> Z.testbit (2 ^ j * t + r) n = Z.testbit r n.
Proof.
  intros Hr Hn. rewrite <- (Z.mod_pow2_bits_low (2 ^ j * t + r) j) by lia.
  now rewrite Z.add_comm, (Z.mul_comm (2 ^ j)), Z.mod_add, Z.mod_small by lia.
Qed.

(** [x & (!x + 1)] is the lowest set bit of [x]. *)
Lemma lowest_bit k t :
  0 <= k -> let x := 2 ^ (k + 1) * t + 2 ^ k in
  0 < x < 2 ^ 64 -> Z.land x (unot 64 x + 1) = 2 ^ k.
Proof.
  intros Hk x Hx. assert (Hpk : 0 < 2 ^ k) by (apply Z.pow_pos_nonneg; lia).
  assert (E1 : 2 ^ (k + 1) = 2 * 2 ^ k) by (rewrite Z.pow_add_r by lia; lia).
  replace (unot 64 x + 1) with (2 ^ 64 * 1 + - x) by (unfold unot; lia).
  apply Z.bits_inj'. intros n Hn. rewrite Z.land_spec, Z.pow2_bits_eqb by lia.
  destruct (Z.ltb_spec n 64) as [Hn64|Hn64].
  - replace (Z.testbit (2 ^ 64 * 1 + - x) n) with (negb (Z.testbit (x - 1) n)).
    2:{ rewrite <- (Z.mod_pow2_bits_low (2 ^ 64 * 1 + - x) 64), (Z.add_comm (2 ^ 64 * 1)), Z.mul_comm,
          Z.mod_add, Z.mod_pow2_bits_low, Z.bits_opp by lia. reflexivity. }
    replace (x - 1) with (2 ^ (k + 1) * t + (2 ^ k - 1)) by lia. unfold x.
    destruct (Z.ltb_spec k n) as [Hkn|Hkn].
    + rewrite !testbit_shifted by lia. rewrite (proj2 (Z.eqb_neq k n)) by lia. apply andb_negb_r.
    + rewrite !testbit_low_part by lia. rewrite Z.pow2_bits_eqb by lia. destruct (Z.eqb_spec k n) as [->|]; [|reflexivity].
      replace (2 ^ n - 1) with (Z.ones n) by (rewrite Z.ones_equiv; lia).
      now rewrite Z.ones_spec_high by lia.
  - assert (Ht : 0 <= t) by (unfold x in Hx; nia).
    assert (2 ^ k <= x) by (unfold x; nia).
    assert (k < 64) by (apply (Z.pow_lt_mono_r_iff 2); lia).
    rewrite (testbit_high x n 64), (proj2 (Z.eqb_neq k n)) by lia. reflexivity.
Qed.

Lemma previous_power_of_two_spec d : 0 < d < 2 ^ 64 -> previous_power_of_two d = Ret (2 ^ Z.log2 d).
Proof.
  intros Hd. unfold previous_power_of_two, leading_zeros.
  rewrite (proj2 (Z.eqb_neq d 0)) by lia. pose proof (Z.log2_nonneg d).
  assert (Z.log2 d < 64) by (apply Z.log2_lt_pow2; lia).
  run_checked. replace (64 - (64 - 1 - Z.log2 d) - 1) with (Z.log2 d) by lia. apply ushl_one. lia.
Qed.

(** The chunk [add_region] cuts off: the largest power of two that the address
    is a multiple of, that fits and that the lists can hold. *)
Lemma region_chunk_size_spec cs e :
  0 < cs -> cs < e < 2 ^ 64 -> cs mod 16 = 0 -> e mod 16 = 0 ->
  exists c, region_chunk_size cs e = Ret (bsize c) /\ (4 <= c < Z.to_nat MAX_ORDER)%nat /\
    cs mod bsize c = 0 /\ cs + bsize c <= e.
Proof.
  intros Hcs He Hm Hme. destruct (odd_part cs Hcs) as (k & t & Hk & Ek).
  assert (E1 : 2 ^ (k + 1) = 2 * 2 ^ k) by (rewrite Z.pow_add_r by lia; lia).
  assert (Hk4 : 4 <= k).
  { destruct (Z.ltb_spec k 4) as [Hlt|]; [|assumption]. exfalso.
    assert (0 < 2 ^ k) by (apply Z.pow_pos_nonneg; lia).
    pose proof (pow2_mod_le cs (k + 1) 4 ltac:(lia) Hm) as H0.
    rewrite Ek, Z.add_comm, (Z.mul_comm (2 ^ (k + 1))), Z.mod_add, Z.mod_small in H0 by lia. lia. }
  assert (Hd16 : 16 <= e - cs).
  { pose proof (Z.div_mod e 16). pose proof (Z.div_mod cs 16). lia. }
  assert (Hlog4 : 4 <= Z.log2 (e - cs)) by (apply Z.log2_le_pow2; lia).
  assert (Hlog : 2 ^ Z.log2 (e - cs) <= e - cs) by (apply Z.log2_spec; lia).
  exists (Z.to_nat (Z.min (Z.min k (Z.log2 (e - cs))) 19)). rewrite Z2Nat.id by lia.
  unfold region_chunk_size. rewrite (proj2 (Z.ltb_lt 0 cs)) by lia.
  unfold uadd. rewrite checked_ok by (unfold unot; lia). cbn [mbind outcome_bind].
  pose proof (lowest_bit k t Hk) as Hlow. cbn zeta in Hlow. rewrite <- Ek in Hlow. rewrite Hlow by lia.
  unfold usub. rewrite (checked_ok 64 (e - cs)) by lia. cbn [mbind outcome_bind].
  rewrite previous_power_of_two_spec by lia. cbn [mbind outcome_bind MAX_ORDER].
  rewrite checked_ok by (unfold MAX_ORDER; lia). cbn [mbind outcome_bind].
  rewrite ushl_one by (unfold MAX_ORDER; lia). cbn [mbind outcome_bind].
  change (MAX_ORDER - 1) with 19.
  assert (Hmin : forall a b, 0 <= a -> 0 <= b -> Z.min (2 ^ a) (2 ^ b) = 2 ^ Z.min a b).
  { intros a b Ha Hb. destruct (Z.le_ge_cases a b).
    - rewrite !Z.min_l; [reflexivity | assumption|]. apply Z.pow_le_mono_r; lia.
    - rewrite !Z.min_r; [reflexivity | assumption|]. apply Z.pow_le_mono_r; lia. }
  rewrite !Hmin by lia. split; [reflexivity|]. change (Z.to_nat MAX_ORDER) with 20%nat. split; [lia|].
  split.
  - apply pow2_mod_le with k; [lia|]. rewrite Ek, E1.
    replace (2 * 2 ^ k * t + 2 ^ k) with ((2 * t + 1) * 2 ^ k) by lia.
    apply Z.mod_mul. apply Z.pow_nonzero; lia.
  - assert (2 ^ Z.min (Z.min k (Z.log2 (e - cs))) 19 <= 2 ^ Z.log2 (e - cs))
      by (apply Z.pow_le_mono_r; lia). lia.
Qed.

Lemma add_region_loop_spec fuel b fl cs e :
  rep b fl -> wf fl -> 0 < cs <= e -> e < 2 ^ 64 -> cs mod 16 = 0 -> e mod 16 = 0 ->
  (forall x, cs <= x < e -> ~ free fl x) -> (e - cs) / 16 < Z.of_nat fuel ->
  exists b' fl', add_region_loop fuel b cs e = Ret b' /\ rep b' fl' /\ wf fl' /\
    (forall x, free fl' x <-> free fl x \/ cs <= x < e) /\
    writes_only (fun x => cs <= x < e) (bmem b) (bmem b').
Proof.
  revert b fl cs. induction fuel as [|fuel IH]; intros b fl cs Hr Hwf Hcs He Hm Hme Hnf Hf.
  { pose proof (Z.div_pos (e - cs) 16). lia. }
  cbn [add_region_loop]. destruct (Z.ltb_spec cs e) as [Hlt|Hge].
  2:{ exists b, fl. split; [reflexivity|]. split; [assumption|]. split; [assumption|].
      split; [|auto with heap]. intros x. assert (~ (cs <= x < e)) by lia. tauto. }
  destruct (region_chunk_size_spec cs e) as (c & -> & Hc & Hal & Hfit); [lia | lia | assumption..|].
  cbn [mbind outcome_bind]. change (Z.to_nat MAX_ORDER) with 20%nat in Hc.
  rewrite trailing_zeros_pow2 by lia.
  destruct (lookup_list fl c Hwf) as [l Hl]; [change (Z.to_nat MAX_ORDER) with 20%nat; lia|].
  pose proof (bsize_ge_16 c ltac:(lia)) as H16.
  destruct (push_new_chunk_spec b fl c l cs (bsize c)) as (b1 & -> & R1 & Wf1 & W1); try assumption.
  { split; [lia.. | assumption | lia]. }
  { intros j q Hq. unfold blocks_disjoint, ranges_disjoint.
    destruct (Z.ltb_spec q (cs + bsize c)); [|lia].
    destruct (Z.ltb_spec cs (q + bsize j)); [|lia]. exfalso.
    pose proof (bsize_pos j). apply (Hnf (Z.max cs q)); [lia|]. exists j, q. split; [assumption | lia]. }
  cbn [mbind outcome_bind]. unfold uadd. rewrite checked_ok by lia. cbn [mbind outcome_bind].
  assert (Hc16 : bsize c mod 16 = 0).
  { change 16 with (2 ^ 4). apply pow2_mod_le with (Z.of_nat c); [lia|]. apply Z.mod_same. lia. }
  destruct (IH b1 (<[c := cs :: l]> fl) (cs + bsize c) R1 Wf1) as (b' & fl' & E & R' & Wf' & F' & W').
  - lia.
  - assumption.
  - now rewrite Z.add_mod, Hm, Hc16 by lia.
  - assumption.
  - intros x Hx Hfr. apply (free_add fl c l cs x Hl) in Hfr as [Hfr|Hfr]; [|lia]. apply (Hnf x); [lia | assumption].
  - apply Z.lt_le_trans with ((e - cs) / 16); [|lia].
    assert ((e - (cs + bsize c)) / 16 + 1 <= (e - cs) / 16); [|lia].
    rewrite <- Z.div_add by lia. apply Z.div_le_mono; lia.
  - exists b', fl'. split; [exact E|]. split; [assumption|]. split; [assumption|]. split.
    + intros x. rewrite F', (free_add fl c l cs x Hl). split; intuition lia.
    + eapply writes_only_trans; (eapply writes_only_weaken; [|eassumption]); cbn beta; intros; lia.
Qed.

Lemma rep_new m : rep (Buddy_new m) (replicate (Z.to_nat MAX_ORDER) []).
Proof. cbn. repeat constructor. Qed.

Lemma no_block_new i p : ~ block (replicate (Z.to_nat MAX_ORDER) []) i p.
Proof. intros (l & [-> _]%lookup_replicate & Hp). now apply not_elem_of_nil in Hp. Qed.

Lemma wf_new : wf (replicate (Z.to_nat MAX_ORDER) []).
Proof.
  split.
  - apply length_replicate.
  - intros i p []%no_block_new.
  - intros i l [-> _]%lookup_replicate. constructor.
  - intros i p j q []%no_block_new.
Qed.

(** ** The life of a heap *)

Record heap_state := mkHeap { hs_alloc : BuddyAllocator; hs_live : list (Z * Layout) }.

(** The bytes of an allocation, as the allocator counts them. *)
Definition in_alloc (a : Z * Layout) (x : Z) : Prop :=
  fst a <= x < fst a + bsize (layout_class (snd a)).

Section Life.
(** The heap is [start, start + size); [fuel] bounds the list traversals. *)
Context (start size : Z) (fuel : nat).

Definition in_heap (x : Z) : Prop := start <= x < start + size.

(** The client's moves. *)
Inductive heap_step : heap_state -> heap_state -> Prop :=
  | step_alloc b b' live layout p :
      layout_ok layout -> (layout_class layout < Z.to_nat MAX_ORDER)%nat ->
      global_alloc b layout = Ret (p, b') ->
      heap_step (mkHeap b live) (mkHeap b' ((p, layout) :: live))
  | step_dealloc b b' live1 live2 p layout :
      global_dealloc fuel b p layout = Ret b' ->
      heap_step (mkHeap b (live1 ++ (p, layout) :: live2)) (mkHeap b' (live1 ++ live2))
  | step_write b m' live p layout :
      (p, layout) ∈ live -> writes_only (in_alloc (p, layout)) (bmem b) m' ->
      heap_step (mkHeap b live) (mkHeap (mkBuddy m' (buddies b)) live).

(** A live allocation: a block of the class of its layout, outside the free lists. *)
Record live_ok (fl : list (list Z)) (a : Z * Layout) : Prop := {
  lo_layout : layout_ok (snd a);
  lo_class : (layout_class (snd a) < Z.to_nat MAX_ORDER)%nat;
  lo_block : block_ok (layout_class (snd a)) (fst a);
  lo_apart : apart fl (layout_class (snd a)) (fst a);
}.

Definition allocs_disjoint (a a' : Z * Layout) : Prop :=
  blocks_disjoint (layout_class (snd a)) (fst a) (layout_class (snd a')) (fst a').

Record heap_inv_at (fl : list (list Z)) (st : heap_state) : Prop := {
  hi_rep : rep (hs_alloc st) fl;
  hi_wf : wf fl;
  hi_live a : a ∈ hs_live st -> live_ok fl a;
  hi_disjoint : ForallOrdPairs allocs_disjoint (hs_live st);
  hi_cover x : in_heap x <-> free fl x \/ exists a, a ∈ hs_live st /\ in_alloc a x;
}.

Definition heap_inv (st : heap_state) : Prop := exists fl, heap_inv_at fl st.

(** What the heap's placement must provide. *)
Record heap_ok : Prop := {
  ho_start : 0 < start;
  ho_size : 0 <= size;
  ho_end : start + size < 2 ^ 64;
  ho_start16 : start mod 16 = 0;
  ho_size16 : size mod 16 = 0;
  ho_fuel : size / 16 < Z.of_nat fuel;
  ho_limit : below_limit in_heap;
}.

Lemma ForallOrdPairs_app_inv {A} (R : A -> A -> Prop) l1 a l2 :
  (forall x y, R x y -> R y x) -> ForallOrdPairs R (l1 ++ a :: l2) ->
  ForallOrdPairs R (l1 ++ l2) /\ forall y, y ∈ l1 ++ l2 -> R a y.
Proof.
  intros Hsym. induction l1 as [|x l1 IH]; cbn; intros H; inversion_clear H as [|? ? Hx Hr].
  - split; [assumption|]. now apply Forall_forall.
  - destruct (IH Hr) as [H1 H2]. rewrite Forall_app, Forall_cons in Hx. destruct Hx as (Hx1 & Hxa & Hx2).
    split; [constructor; [now apply Forall_app | assumption]|].
    intros y [->|Hy]%elem_of_cons; auto.
Qed.

Lemma allocs_disjoint_sym a a' : allocs_disjoint a a' -> allocs_disjoint a' a.
Proof. unfold allocs_disjoint, blocks_disjoint, ranges_disjoint. tauto. Qed.

Lemma allocs_disjoint_spec a a' x : allocs_disjoint a a' -> in_alloc a x -> in_alloc a' x -> False.
Proof. unfold allocs_disjoint, blocks_disjoint, ranges_disjoint, in_alloc. lia. Qed.

Lemma free_lists_short fl st j l :
  heap_ok -> heap_inv_at fl st -> fl !! j = Some l -> (length l < fuel)%nat.
Proof.
  intros Hh Hi Hl. pose proof (hi_wf _ _ Hi) as Hwf.
  assert (Hb : forall p, p ∈ l -> p mod 16 = 0 /\ start <= p < start + size).
  { intros p Hp. pose proof (block_at _ _ _ _ Hl Hp) as B. pose proof (wf_block _ Hwf _ _ B) as [Hc _ Hal _].
    split; [change 16 with (2 ^ 4); apply pow2_mod_le with (Z.of_nat j); [lia | assumption]|].
    apply (hi_cover _ _ Hi). left. exists j, p. split; [assumption|]. pose proof (bsize_pos j). lia. }
  pose proof (seqZ_bound (start / 16) (start / 16 + size / 16) ((fun p => p / 16) <$> l)) as Hbound.
  rewrite length_fmap in Hbound. pose proof (ho_fuel Hh). pose proof (ho_size Hh).
  pose proof (Z.div_pos size 16). cut (Z.of_nat (length l) <= Z.max 0 (start / 16 + size / 16 - start / 16)); [lia|].
  apply Hbound.
  - apply NoDup_fmap_2_strong; [|eapply wf_nodup; eauto]. intros p q Hp Hq E.
    destruct (Hb p Hp), (Hb q Hq). pose proof (Z.div_mod p 16). pose proof (Z.div_mod q 16). lia.
  - intros y (p & -> & Hp)%list_elem_of_fmap. destruct (Hb p Hp) as [Hp16 Hpr].
    pose proof (Z.div_mod p 16). pose proof (Z.div_mod start 16). pose proof (Z.div_mod size 16).
    pose proof (ho_start16 Hh). pose proof (ho_size16 Hh). lia.
Qed.

Lemma heap_init m : heap_ok ->
  exists b, buddy_init fuel (Buddy_new m) start size = Ret b /\ heap_inv (mkHeap b []) /\
    writes_only in_heap m (bmem b).
Proof.
  intros Hh. pose proof (ho_start Hh). pose proof (ho_size Hh). pose proof (ho_end Hh).
  pose proof (ho_start16 Hh) as S16. pose proof (ho_size16 Hh) as Z16. pose proof (ho_fuel Hh) as Hf.
  unfold buddy_init, virt_add, uadd. rewrite checked_ok by lia. cbn [mbind outcome_bind].
  unfold add_region. rewrite (proj2 (Z.leb_le _ _)) by lia. cbn [assert_true mbind outcome_bind].
  destruct (add_region_loop_spec fuel (Buddy_new m) _ start (start + size) (rep_new m) wf_new)
    as (b & fl & E & R & Wf & F & W); try assumption; try lia.
  - now rewrite Z.add_mod, S16, Z16 by lia.
  - intros x _ (j & p & []%no_block_new & _).
  - now replace (start + size - start) with size by lia.
  - exists b. split; [exact E|]. split; [|exact W]. exists fl. split; cbn; try assumption.
    + intros a []%not_elem_of_nil.
    + constructor.
    + intros x. rewrite F. split; [auto|].
      intros [[(j & p & []%no_block_new & _)|?]|(a & []%not_elem_of_nil & _)]. assumption.
Qed.

Lemma live_ok_frame fl fl' a :
  (forall x, free fl' x -> ~ in_alloc a x) -> live_ok fl a -> live_ok fl' a.
Proof.
  intros Hf [H1 H2 H3 H4]. split; [assumption..|]. intros j q Hq.
  unfold blocks_disjoint, ranges_disjoint. unfold in_alloc in Hf.
  destruct (Z.ltb_spec q (fst a + bsize (layout_class (snd a)))); [|lia].
  destruct (Z.ltb_spec (fst a) (q + bsize j)); [|lia]. exfalso.
  pose proof (bsize_pos j). pose proof (bsize_pos (layout_class (snd a))).
  apply (Hf (Z.max (fst a) q)); [exists j, q; split; [assumption | lia] | lia].
Qed.

(** Allocation from a heap in order, as the lists of free blocks say: a new live
    allocation, or no block that is large enough. *)
Lemma heap_alloc_lists fl b live layout :
  heap_inv_at fl (mkHeap b live) -> layout_ok layout ->
  (layout_class layout < Z.to_nat MAX_ORDER)%nat ->
  (exists p b' fl', global_alloc b layout = Ret (p, b') /\
     alloc_lists fl (layout_class layout) = (Some p, fl') /\
     heap_inv_at fl' (mkHeap b' ((p, layout) :: live)) /\
     writes_only (free fl) (bmem b) (bmem b') /\
     (forall x, in_alloc (p, layout) x -> free fl x)) \/
  (global_alloc b layout = Panic ExplicitPanic /\ (alloc_lists fl (layout_class layout)).1 = None /\
     forall i p, block fl i p -> (i < layout_class layout)%nat).
Proof.
  intros [Hr Hwf Hl Hd Hc] Hlay Hcl. cbn in *. unfold global_alloc.
  destruct (buddy_alloc_post b fl layout Hr Hwf Hlay Hcl) as (r & b' & fl' & -> & Elists & R' & Wf' & W' & Hpost).
  cbn [mbind outcome_bind]. destruct r as [p|]; [left|right].
  - destruct Hpost as (Hp & Hap & F'). exists p, b', fl'. split; [reflexivity|]. split; [exact Elists|].
    assert (Hin : forall x, in_alloc (p, layout) x -> free fl x) by (intros x Hx; apply F'; now right).
    split; [|auto]. split; cbn; try assumption.
    + intros a [->|Ha]%elem_of_cons; [now split|]. apply (live_ok_frame fl); [|auto].
      intros x Hx Hax. apply (apart_not_free _ _ _ x (lo_apart _ _ (Hl a Ha)) Hax). apply F'. auto.
    + constructor; [|assumption]. apply Forall_forall. intros a Ha.
      pose proof (lo_apart _ _ (Hl a Ha)) as Haf. unfold allocs_disjoint, blocks_disjoint, ranges_disjoint.
      cbn [fst snd]. destruct (Z.ltb_spec (fst a) (p + bsize (layout_class layout))); [|lia].
      destruct (Z.ltb_spec p (fst a + bsize (layout_class (snd a)))); [|lia]. exfalso.
      pose proof (bsize_pos (layout_class layout)). pose proof (bsize_pos (layout_class (snd a))).
      apply (apart_not_free _ _ _ (Z.max (fst a) p) Haf); [lia|]. apply Hin. unfold in_alloc. cbn. lia.
    + intros x. rewrite Hc, F'. setoid_rewrite elem_of_cons. split.
      * intros [[?|?]|(a & ? & ?)]; [auto | right; exists (p, layout); auto | right; eauto].
      * intros [?|(a & [->|?] & ?)]; [auto | left; right; assumption | eauto].
  - destruct Hpost as [-> Hnone]. split; [reflexivity|]. split; [now rewrite Elists|]. intros i p (l & Hi & Hp).
    apply Nat.nle_gt. intros Hle. pose proof (lookup_lt_Some _ _ _ Hi) as Hlt.
    rewrite (wf_length _ Hwf) in Hlt. rewrite Hnone in Hi by lia. injection Hi as <-.
    now apply not_elem_of_nil in Hp.
Qed.

Lemma heap_alloc fl b live layout :
  heap_inv_at fl (mkHeap b live) -> layout_ok layout ->
  (layout_class layout < Z.to_nat MAX_ORDER)%nat ->
  (exists p b' fl', global_alloc b layout = Ret (p, b') /\
     heap_inv_at fl' (mkHeap b' ((p, layout) :: live)) /\
     writes_only (free fl) (bmem b) (bmem b') /\
     (forall x, in_alloc (p, layout) x -> free fl x)) \/
  (global_alloc b layout = Panic ExplicitPanic /\
     forall i p, block fl i p -> (i < layout_class layout)%nat).
Proof.
  intros Hi Hlay Hc. destruct (heap_alloc_lists fl b live layout Hi Hlay Hc) as [(p & b' & fl' & H1 & _ & H2)|(H1 & _ & H2)]; eauto 10.
Qed.

(** The lists after a block was freed. *)
Definition freed_lists (fl : list (list Z)) (p : Z) (layout : Layout) : list (list Z) :=
  dealloc_lists (Z.to_nat MAX_ORDER - layout_class layout) fl (layout_class layout) p.

(** Freeing a live allocation always succeeds and returns its bytes. *)
Lemma heap_dealloc_lists fl b live1 live2 p layout :
  heap_ok -> heap_inv_at fl (mkHeap b (live1 ++ (p, layout) :: live2)) ->
  exists b', global_dealloc fuel b p layout = Ret b' /\
    heap_inv_at (freed_lists fl p layout) (mkHeap b' (live1 ++ live2)) /\
    writes_only (fun x => free fl x \/ in_alloc (p, layout) x) (bmem b) (bmem b') /\
    (forall x, free (freed_lists fl p layout) x <-> free fl x \/ in_alloc (p, layout) x).
Proof.
  intros Hh Hi. pose proof Hi as [Hr Hwf Hl Hd Hc]. cbn in *.
  destruct (Hl (p, layout)) as [Hlay Hcl Hp Hap]; [set_solver|]. cbn in *.
  destruct (ForallOrdPairs_app_inv allocs_disjoint _ _ _ allocs_disjoint_sym Hd) as [Hd' Hdp].
  destruct (global_dealloc_post fuel b fl layout p) as (b' & E & R' & Wf' & F' & W'); try assumption.
  { intros j l Hj. eapply free_lists_short; eauto. }
  { intros q Hq Hall. apply (ho_limit Hh q Hq). intros x Hx. apply Hc.
    destruct (Hall x Hx); [now left|right]. exists (p, layout). split; [set_solver | assumption]. }
  fold (freed_lists fl p layout) in *. set (fl' := freed_lists fl p layout) in *.
  exists b'. split; [exact E|]. split; [|split; assumption]. split; cbn [hs_alloc hs_live]; try assumption.
  - intros a Ha. apply (live_ok_frame fl); [|apply Hl; set_solver]. intros x [Hx|Hx]%F' Hax.
    + refine (apart_not_free _ _ _ x (lo_apart fl a _) Hax Hx). apply Hl. set_solver.
    + exact (allocs_disjoint_spec _ _ x (Hdp a Ha) Hx Hax).
  - intros x. rewrite Hc, F'. split.
    + intros [?|(a & Ha & Hx)]; [auto|]. rewrite elem_of_app, elem_of_cons in Ha.
      destruct Ha as [?|[->|?]]; [|auto|]; right; exists a; (split; [set_solver | assumption]).
    + intros [[?|Hx]|(a & Ha & Hx)]; [auto|right; exists (p, layout)|right; exists a];
        (split; [set_solver | assumption]).
Qed.

Lemma heap_dealloc fl b live1 live2 p layout :
  heap_ok -> heap_inv_at fl (mkHeap b (live1 ++ (p, layout) :: live2)) ->
  exists b' fl', global_dealloc fuel b p layout = Ret b' /\
    heap_inv_at fl' (mkHeap b' (live1 ++ live2)) /\
    writes_only (fun x => free fl x \/ in_alloc (p, layout) x) (bmem b) (bmem b') /\
    (forall x, free fl' x <-> free fl x \/ in_alloc (p, layout) x).
Proof. intros Hh Hi. destruct (heap_dealloc_lists fl b live1 live2 p layout Hh Hi) as (b' & H'). eauto. Qed.

Lemma heap_write fl b live m' a :
  heap_inv_at fl (mkHeap b live) -> a ∈ live -> writes_only (in_alloc a) (bmem b) m' ->
  heap_inv_at fl (mkHeap (mkBuddy m' (buddies b)) live).
Proof.
  intros [Hr Hwf Hl Hd Hc] Ha Hw. split; cbn in *; try assumption.
  eapply rep_writes_only; [exact Hwf | exact Hr | |exact Hw]. intros x Hx.
  exact (apart_not_free _ _ _ x (lo_apart _ _ (Hl a Ha)) Hx).
Qed.

Lemma heap_step_inv st st' : heap_ok -> heap_inv st -> heap_step st st' -> heap_inv st'.
Proof.
  intros Hh [fl Hi] Hs. inversion Hs as [b b' live layout p Hlay Hcl E | b b' l1 l2 p layout E | b m' live p layout Hin Hw]; subst.
  - destruct (heap_alloc fl b live layout Hi Hlay Hcl) as [(p' & b1 & fl' & E' & Hi' & _)|[E' _]];
      rewrite E in E'; [injection E' as -> ->; now exists fl' | discriminate].
  - destruct (heap_dealloc fl b l1 l2 p layout Hh Hi) as (b1 & fl' & E' & Hi' & _).
    rewrite E in E'. injection E' as ->. now exists fl'.
  - exists fl. eapply heap_write; eauto.
Qed.

Lemma heap_reachable_inv st st' : heap_ok -> heap_inv st -> rtc heap_step st st' -> heap_inv st'.
Proof. intros Hh Hi Hs. induction Hs; eauto using heap_step_inv. Qed.
End Life.

(** ** Theorems *)

Section Theorems.
Context (start size : Z) (fuel : nat) (Hh : heap_ok start size fuel).
Implicit Types (st : heap_state) (b : BuddyAllocator).

Lemma live_bounds st a :
  heap_inv start size st -> a ∈ hs_live st ->
  fst a mod layout_align (snd a) = 0 /\ start <= fst a /\
  fst a + bsize (layout_class (snd a)) <= start + size /\
  layout_size (snd a) <= bsize (layout_class (snd a)).
Proof.
  intros [fl Hi] Ha. destruct (hi_live _ _ _ _ Hi a Ha) as [Hlay _ Hp _].
  destruct (align_layout_size_spec _ Hlay) as (_ & _ & Hsz & Hal).
  pose proof (bsize_pos (layout_class (snd a))) as Hpos.
  assert (Hin : forall x, in_alloc a x -> in_heap start size x).
  { intros x Hx. apply (hi_cover _ _ _ _ Hi). right. eauto. }
  unfold in_alloc, in_heap in Hin.
  pose proof (Hin (fst a)). pose proof (Hin (fst a + bsize (layout_class (snd a)) - 1)).
  split; [|lia]. destruct Hlay as [_ (k & Hk & E)]. rewrite E in *.
  pose proof (bo_aligned _ _ Hp) as Hm. apply Z.mod_divide in Hm as [z ->]; [|lia].
  now rewrite Z.mul_mod, Hal, Z.mul_0_r, Zmod_0_l by (apply Z.pow_nonzero; lia).
Qed.

(** A request beyond the largest class. *)
Lemma oversized_alloc b fl layout :
  rep b fl -> wf fl -> layout_ok layout -> (Z.to_nat MAX_ORDER <= layout_class layout)%nat ->
  global_alloc b layout = Panic IndexOutOfBounds.
Proof.
  intros Hr Hwf Hlay Hc. destruct (align_layout_size_spec layout Hlay) as (E & H4 & _ & _).
  unfold global_alloc, buddy_alloc. rewrite E. cbn [mbind outcome_bind].
  rewrite trailing_zeros_pow2, (rep_length b fl Hr), (wf_length fl Hwf) by lia.
  replace (Z.to_nat (Z.of_nat (Z.to_nat MAX_ORDER) - Z.of_nat (layout_class layout))) with 0%nat by lia.
  cbn [alloc_search mbind outcome_bind]. unfold buddies_pop, index.
  rewrite (proj2 (Z.leb_le 0 _)) by lia. rewrite Nat2Z.id, (lookup_ge_None_2 (buddies b)); [reflexivity|].
  rewrite (rep_length b fl Hr), (wf_length fl Hwf). exact Hc.
Qed.

Lemma ForallOrdPairs_lookup {A} (R : A -> A -> Prop) (l : list A) i j x y :
  ForallOrdPairs R l -> l !! i = Some x -> l !! j = Some y -> (i < j)%nat -> R x y.
Proof.
  intros Hl. revert i j. induction Hl as [|a l Ha _ IH]; intros [|i] [|j] Hx Hy Hij;
    cbn in Hx, Hy; try (lia || discriminate).
  - injection Hx as <-. rewrite Forall_forall in Ha. apply Ha. eapply list_elem_of_lookup_2; eauto.
  - apply (IH i j); auto; lia.
Qed.

(** C1: whatever its clients do, the heap hands out memory safely: from a
    freshly initialised heap, every allocation live in a reachable state is
    aligned as its layout asks, lies inside the heap, and overlaps no other
    live allocation. *)
Theorem heap_safety m b st :
  buddy_init fuel (Buddy_new m) start size = Ret b ->
  rtc (heap_step fuel) (mkHeap b []) st ->
  (forall a, a ∈ hs_live st ->
     fst a mod layout_align (snd a) = 0 /\
     start <= fst a /\ fst a + layout_size (snd a) <= start + size) /\
  (forall i j a a', hs_live st !! i = Some a -> hs_live st !! j = Some a' -> i <> j ->
     ranges_disjoint (fst a) (layout_size (snd a)) (fst a') (layout_size (snd a'))).
Proof.
  intros E Hs. destruct (heap_init start size fuel m Hh) as (b' & E' & Hi & _).
  rewrite E in E'. injection E' as <-.
  pose proof (heap_reachable_inv _ _ _ _ _ Hh Hi Hs) as Hst. split.
  - intros a Ha. destruct (live_bounds st a Hst Ha) as (? & ? & ? & ?). repeat split; [assumption|lia..].
  - intros i j a a' Ha Ha' Hij. pose proof Hst as [fl Hfl].
    assert (Hd : allocs_disjoint a a').
    { destruct (Nat.lt_ge_cases i j).
      - eapply ForallOrdPairs_lookup; [apply (hi_disjoint _ _ _ _ Hfl)|..]; eauto.
      - apply allocs_disjoint_sym. eapply ForallOrdPairs_lookup; [apply (hi_disjoint _ _ _ _ Hfl)|..]; eauto; lia. }
    destruct (live_bounds st a Hst) as (_ & _ & _ & ?); [eapply list_elem_of_lookup_2; eauto|].
    destruct (live_bounds st a' Hst) as (_ & _ & _ & ?); [eapply list_elem_of_lookup_2; eauto|].
    unfold allocs_disjoint, blocks_disjoint, ranges_disjoint in *. lia.
Qed.

(** Initialising the heap returns, writes only inside the heap and
    establishes the heap invariant with no allocation live. *)
Theorem heap_init_correct m :
  exists b, buddy_init fuel (Buddy_new m) start size = Ret b /\
    heap_inv start size (mkHeap b []) /\ writes_only (in_heap start size) m (bmem b).
Proof. now apply heap_init. Qed.

(** C19: an allocation from a heap in order: up to 512 KiB, with an alignment below 1 MiB,
    it yields a new live allocation, keeps the heap in order and leaves the bytes of the
    others alone, or it reports that memory ran out, and then no free block is as large
    as the request; a larger request indexes past the lists. *)
Theorem heap_alloc_correct b live layout :
  heap_inv start size (mkHeap b live) -> layout_ok layout ->
  if bool_decide (layout_class layout < Z.to_nat MAX_ORDER)%nat then
    (exists p b', global_alloc b layout = Ret (p, b') /\
       heap_inv start size (mkHeap b' ((p, layout) :: live)) /\
       forall a x, a ∈ live -> in_alloc a x -> bmem b' x = bmem b x) \/
    (global_alloc b layout = Panic ExplicitPanic /\
       exists fl, rep b fl /\ wf fl /\ forall i p, block fl i p -> (i < layout_class layout)%nat)
  else global_alloc b layout = Panic IndexOutOfBounds.
Proof.
  intros [fl Hi] Hlay. case_bool_decide as Hc; [|apply (oversized_alloc b fl layout); [apply Hi | apply Hi | exact Hlay | lia]].
  destruct (heap_alloc start size fl b live layout Hi Hlay Hc)
    as [(p & b' & fl' & E & Hi' & W & _)|[E Hnone]]; [left|right].
  - exists p, b'. split; [exact E|]. split; [now exists fl'|]. intros a x Ha Hx. apply W.
    exact (apart_not_free _ _ _ x (lo_apart _ _ (hi_live _ _ _ _ Hi a Ha)) Hx).
  - split; [exact E|]. exists fl. split; [apply Hi|]. split; [apply Hi | exact Hnone].
Qed.

(** C18: freeing a live allocation always returns: its bytes become free again,
    the heap invariant is kept, and the other allocations keep their bytes. *)
Theorem heap_dealloc_correct b live1 live2 p layout :
  heap_inv start size (mkHeap b (live1 ++ (p, layout) :: live2)) ->
  exists b', global_dealloc fuel b p layout = Ret b' /\
    heap_inv start size (mkHeap b' (live1 ++ live2)) /\
    forall a x, a ∈ live1 ++ live2 -> in_alloc a x -> bmem b' x = bmem b x.
Proof.
  intros [fl Hi].
  destruct (heap_dealloc start size fuel fl b live1 live2 p layout Hh Hi) as (b' & fl' & E & Hi' & W & F').
  exists b'. split; [exact E|]. split; [now exists fl'|]. intros a x Ha Hx. apply W. intros Hbad.
  apply (apart_not_free _ _ _ x (lo_apart _ _ (hi_live _ _ _ _ Hi' a Ha)) Hx). now apply F'.
Qed.

(** C20: no memory leaks: when everything has been freed again, every byte of the
    heap is in a free block. *)
Theorem heap_no_leak m b st :
  buddy_init fuel (Buddy_new m) start size = Ret b ->
  rtc (heap_step fuel) (mkHeap b []) st -> hs_live st = [] ->
  exists fl, rep (hs_alloc st) fl /\ wf fl /\ forall x, free fl x <-> in_heap start size x.
Proof.
  intros E Hs Hl. destruct (heap_init start size fuel m Hh) as (b' & E' & Hi & _).
  rewrite E in E'. injection E' as <-.
  destruct (heap_reachable_inv _ _ _ _ _ Hh Hi Hs) as [fl Hfl].
  exists fl. split; [apply Hfl|]. split; [apply Hfl|]. intros x.
  rewrite (hi_cover _ _ _ _ Hfl x), Hl. split; [auto|].
  now intros [?|(a & []%not_elem_of_nil & _)].
Qed.
End Theorems.

Lemma small_heap_below_limit start size : size < 2 ^ MAX_ORDER -> below_limit (in_heap start size).
Proof.
  intros Hs q _ Hall. unfold in_heap in Hall. pose proof (Hall q). pose proof (Hall (q + 2 ^ MAX_ORDER - 1)).
  unfold MAX_ORDER in *. lia.
Qed.

(** C37: a request for more than 512 KiB, or with an alignment of 1 MiB or more, makes
    the allocator index past its lists instead of reporting that it ran out of memory. *)
Theorem oversized_alloc_panics b fl layout :
  rep b fl -> wf fl -> layout_ok layout -> (Z.to_nat MAX_ORDER <= layout_class layout)%nat ->
  global_alloc b layout = Panic IndexOutOfBounds.
Proof. exact (oversized_alloc b fl layout). Qed.

Lemma split_unique {A} (l1 l2 k1 k2 : list A) x :
  NoDup (l1 ++ x :: l2) -> l1 ++ x :: l2 = k1 ++ x :: k2 -> l1 = k1 /\ l2 = k2.
Proof.
  revert k1. induction l1 as [|a l1 IH]; intros [|c k1]; cbn; intros Hnd E.
  - now injection E.
  - injection E as <- ->. apply NoDup_cons in Hnd as [[] _]. set_solver.
  - injection E as -> <-. apply NoDup_cons in Hnd as [[] _]. set_solver.
  - injection E as <- E. apply NoDup_cons in Hnd as [_ Hnd]. destruct (IH k1 Hnd E). now subst.
Qed.

(** Freeing a block of the largest class (512 KiB) whose buddy is free loses
    both: the buddy is taken out of its list, the merged block has no list to go
    to, and the loop ends without giving it back. *)
Theorem top_buddies_lost fuel b fl p l1 l2 layout :
  rep b fl -> wf fl -> layout_ok layout -> layout_class layout = 19%nat ->
  block_ok 19 p -> apart fl 19 p -> (length (l1 ++ l2) + 1 < fuel)%nat ->
  fl !! 19%nat = Some (l1 ++ Z.lxor p (2 ^ 19) :: l2) ->
  exists b', global_dealloc fuel b p layout = Ret b' /\ rep b' (<[19%nat := l1 ++ l2]> fl) /\
    ~ free (<[19%nat := l1 ++ l2]> fl) p /\ ~ free (<[19%nat := l1 ++ l2]> fl) (Z.lxor p (2 ^ 19)).
Proof.
  intros Hr Hwf Hlay Hc Hp Hap Hfuel Hl.
  destruct (align_layout_size_spec layout Hlay) as (E & _ & _ & _). rewrite Hc in E.
  unfold global_dealloc. rewrite E. cbn [mbind outcome_bind]. unfold NonNull_new.
  pose proof (bo_pos _ _ Hp). rewrite (proj2 (Z.eqb_neq p 0)) by lia. cbn [unwrap mbind outcome_bind].
  unfold buddy_dealloc. cbn [bmem buddies].
  set (b0 := mkBuddy (Chunk_new_at_address (bmem b) p (bsize 19)) (buddies b)).
  assert (Esz : chunk_size (bmem b0) p = bsize 19).
  { unfold chunk_size, b0, Chunk_new_at_address, set_chunk_next, set_chunk_size. cbn [bmem].
    rewrite load64_store64_other by (unfold ranges_disjoint; lia). apply load64_store64_same. cbn. lia. }
  assert (R0 : rep b0 fl).
  { eapply (rep_writes_only b fl (fun x => p <= x < p + 16)); [exact Hwf | exact Hr | |apply new_chunk_writes].
    intros x Hx. apply (apart_not_free fl 19 p); [assumption | cbn; lia]. }
  change (Chunk_new_at_address (bmem b) p (bsize 19)) with (bmem b0).
  rewrite Esz, trailing_zeros_pow2, (rep_length b fl Hr), (wf_length fl Hwf) by (cbn; lia).
  change (Z.to_nat (Z.of_nat (Z.to_nat MAX_ORDER) - Z.of_nat 19)) with 1%nat.
  cbn [dealloc_loop Region_new region_start region_set_start Region_MemoryRegion r_start r_size
       region_size region_set_size].
  rewrite ushl_one by (cbn; lia). cbn [mbind outcome_bind].
  destruct (buddies_remove_spec fuel b0 fl 19 _ (Z.lxor p (bsize 19)) R0 Hwf Hl) as (r & b1 & -> & _ & Hpost).
  { rewrite !length_app in *. cbn in *. lia. }
  cbn [mbind outcome_bind]. destruct r as [q|]; [|destruct Hpost as [[] _]; set_solver].
  destruct Hpost as (-> & la & lb & Elist & R1).
  unfold umul. rewrite checked_ok by (cbn; lia). cbn [mbind outcome_bind].
  exists b1. split; [reflexivity|].
  assert (la = l1 /\ lb = l2) as [-> ->].
  { destruct (split_unique l1 l2 la lb _ (wf_nodup _ Hwf _ _ Hl) Elist); auto. }
  split; [exact R1|]. split.
  - intros (j & q & Hq & Hx). apply (apart_not_free fl 19 p p); [assumption | cbn; lia|].
    exists j, q. split; [|assumption]. eapply block_shrink; [exact Hl| |exact Hq]. set_solver.
  - apply (apart_not_free _ 19 (Z.lxor p (2 ^ 19))); [|cbn; lia].
    exact (apart_removed fl 19 l1 _ l2 Hwf Hl).
Qed.

(** ** A concrete heap

    One kibibyte at 0x10000, with an allocation of 24 bytes. *)

Lemma ex_heap_ok : heap_ok 0x10000 1024 65.
Proof. split; try reflexivity; try lia. now apply small_heap_below_limit. Qed.

Definition ex_heap : BuddyAllocator :=
  match buddy_init 65 (Buddy_new (fun _ => 0)) 0x10000 1024 with
  | Ret b => b
  | Panic _ => Buddy_new (fun _ => 0)
  end.
Definition ex_layout : Layout := mkLayout 24 8.
Definition ex_heap_allocated : BuddyAllocator :=
  match global_alloc ex_heap ex_layout with Ret (_, b) => b | Panic _ => ex_heap end.

Lemma ex_heap_init :
  buddy_init 65 (Buddy_new (fun _ => 0)) 0x10000 1024 = Ret ex_heap /\
  heap_inv 0x10000 1024 (mkHeap ex_heap []).
Proof.
  unfold ex_heap. destruct (heap_init 0x10000 1024 65 (fun _ => 0) ex_heap_ok) as (b & -> & Hi & _). auto.
Qed.

Lemma ex_layout_ok : layout_ok ex_layout.
Proof. split; [cbn; lia|]. exists 3. split; [lia | reflexivity]. Qed.

Lemma ex_layout_class : layout_class ex_layout = 5%nat.
Proof. reflexivity. Qed.

Lemma ex_heap_alloc : global_alloc ex_heap ex_layout = Ret (0x103e0, ex_heap_allocated).
Proof.
  assert (E : match global_alloc ex_heap ex_layout with Ret (p, _) => p | Panic _ => 0 end = 0x103e0)
    by (vm_compute; reflexivity).
  unfold ex_heap_allocated. destruct (global_alloc ex_heap ex_layout) as [[p b]|]; [now rewrite E | discriminate].
Qed.

Lemma ex_heap_step :
  rtc (heap_step 65) (mkHeap ex_heap []) (mkHeap ex_heap_allocated [(0x103e0, ex_layout)]).
Proof.
  apply rtc_once, step_alloc; [exact ex_layout_ok | rewrite ex_layout_class; apply Nat.ltb_lt; reflexivity | exact ex_heap_alloc].
Qed.

Lemma heap_safety_witness :
  (forall a, a ∈ [(0x103e0, ex_layout)] ->
     fst a mod layout_align (snd a) = 0 /\ 0x10000 <= fst a /\ fst a + layout_size (snd a) <= 0x10000 + 1024) /\
  (forall i j a a', [(0x103e0, ex_layout)] !! i = Some a -> [(0x103e0, ex_layout)] !! j = Some a' -> i <> j ->
     ranges_disjoint (fst a) (layout_size (snd a)) (fst a') (layout_size (snd a'))).
Proof.
  exact (heap_safety 0x10000 1024 65 ex_heap_ok (fun _ => 0) ex_heap (mkHeap ex_heap_allocated [(0x103e0, ex_layout)])
    (proj1 ex_heap_init) ex_heap_step).
Defined.

Lemma heap_init_correct_witness :
  exists b, buddy_init 65 (Buddy_new (fun _ => 0)) 0x10000 1024 = Ret b /\
    heap_inv 0x10000 1024 (mkHeap b []) /\ writes_only (in_heap 0x10000 1024) (fun _ => 0) (bmem b).
Proof. exact (heap_init_correct 0x10000 1024 65 ex_heap_ok (fun _ => 0)). Defined.

Definition ex_large_layout : Layout := mkLayout 0x80001 8.

Lemma heap_alloc_correct_witness :
  ((exists p b', global_alloc ex_heap ex_layout = Ret (p, b') /\
     heap_inv 0x10000 1024 (mkHeap b' [(p, ex_layout)]) /\
     forall a x, a ∈ [] -> in_alloc a x -> bmem b' x = bmem ex_heap x) \/
   (global_alloc ex_heap ex_layout = Panic ExplicitPanic /\
     exists fl, rep ex_heap fl /\ wf fl /\ forall i p, block fl i p -> (i < layout_class ex_layout)%nat)) /\
  global_alloc ex_heap ex_large_layout = Panic IndexOutOfBounds.
Proof.
  split.
  - apply (heap_alloc_correct 0x10000 1024 ex_heap [] ex_layout (proj2 ex_heap_init) ex_layout_ok).
  - apply (heap_alloc_correct 0x10000 1024 ex_heap [] ex_large_layout (proj2 ex_heap_init)).
    split; [cbn; lia|]. exists 3. split; [lia | reflexivity].
Defined.

Lemma ex_allocated_inv : heap_inv 0x10000 1024 (mkHeap ex_heap_allocated ([] ++ (0x103e0, ex_layout) :: [])).
Proof. exact (heap_reachable_inv _ _ _ _ _ ex_heap_ok (proj2 ex_heap_init) ex_heap_step). Qed.

Lemma heap_dealloc_correct_witness :
  exists b', global_dealloc 65 ex_heap_allocated 0x103e0 ex_layout = Ret b' /\
    heap_inv 0x10000 1024 (mkHeap b' ([] ++ [])) /\
    forall a x, a ∈ ([] : list (Z * Layout)) ++ [] -> in_alloc a x -> bmem b' x = bmem ex_heap_allocated x.
Proof.
  exact (heap_dealloc_correct 0x10000 1024 65 ex_heap_ok ex_heap_allocated [] [] 0x103e0 ex_layout ex_allocated_inv).
Defined.

Lemma heap_no_leak_witness :
  exists fl, rep ex_heap fl /\ wf fl /\ forall x, free fl x <-> in_heap 0x10000 1024 x.
Proof.
  exact (heap_no_leak 0x10000 1024 65 ex_heap_ok (fun _ => 0) ex_heap (mkHeap ex_heap [])
    (proj1 ex_heap_init) (rtc_refl _ _) eq_refl).
Defined.

Lemma oversized_alloc_panics_witness :
  global_alloc (Buddy_new (fun _ => 0)) (mkLayout 0x100000 8) = Panic IndexOutOfBounds.
Proof.
  apply (oversized_alloc_panics _ _ _ (rep_new (fun _ => 0)) wf_new).
  - split; [cbn; lia|]. exists 3. split; [lia | reflexivity].
  - apply Nat.leb_le. reflexivity.
Defined.

(** Two buddies of 512 KiB, the second of them free. *)
Definition ex_top : BuddyAllocator :=
  mkBuddy (fun _ => 0) (replicate 19 None ++ [Some 0x180000]).
Definition ex_top_lists : list (list Z) := replicate 19 [] ++ [[0x180000]].

Lemma ex_top_block i p : block ex_top_lists i p -> i = 19%nat /\ p = 0x180000.
Proof.
  intros (l & Hl & Hp). unfold ex_top_lists in Hl. apply lookup_app_Some in Hl as [Hl|[Hi Hl]].
  - apply lookup_replicate in Hl as [-> _]. now apply not_elem_of_nil in Hp.
  - rewrite length_replicate in Hi, Hl. apply list_lookup_singleton_Some in Hl as [? <-].
    apply list_elem_of_singleton in Hp. split; [lia | assumption].
Qed.

Lemma ex_top_rep : rep ex_top ex_top_lists.
Proof. unfold rep. cbn. repeat constructor. Qed.

Lemma ex_top_wf : wf ex_top_lists.
Proof.
  split.
  - reflexivity.
  - intros i p [-> ->]%ex_top_block. split; [lia | lia | reflexivity | cbn; lia].
  - intros i l Hl. unfold ex_top_lists in Hl. apply lookup_app_Some in Hl as [Hl|[_ Hl]].
    + apply lookup_replicate in Hl as [-> _]. constructor.
    + apply list_lookup_singleton_Some in Hl as [_ <-]. apply NoDup_singleton.
  - intros i p j q [-> ->]%ex_top_block [-> ->]%ex_top_block. congruence.
Qed.

Lemma top_buddies_lost_witness :
  exists b', global_dealloc 2 ex_top 0x100000 (mkLayout 0x80000 8) = Ret b' /\
    rep b' (<[19%nat := []]> ex_top_lists) /\
    ~ free (<[19%nat := []]> ex_top_lists) 0x100000 /\
    ~ free (<[19%nat := []]> ex_top_lists) (Z.lxor 0x100000 (2 ^ 19)).
Proof.
  apply (top_buddies_lost 2 ex_top ex_top_lists 0x100000 [] [] (mkLayout 0x80000 8) ex_top_rep ex_top_wf).
  - split; [cbn; lia|]. exists 3. split; [lia | reflexivity].
  - reflexivity.
  - split; [lia | lia | reflexivity | cbn; lia].
  - intros j q [-> ->]%ex_top_block. left. cbn. lia.
  - cbn. lia.
  - reflexivity.
Defined.
