(* ===== verification/VecHeap.v ===== *)
(** Values on the heap: what the kernel uses of [Box] and [Vec].

    Both belong to the language's library; they are clients of the global
    allocator of [Buddy].  The theorems say that a vector keeps its elements while
    it grows through reallocations, whatever else lives on the heap, as long as
    the lists of free blocks have room. *)
From Stdlib Require Import ZArith Lia.
From stdpp Require Import base tactics numbers list.
From S2P Require Import Prelude Memory Buddy BuddyHeap KernelHeap.
#[local] Open Scope Z_scope.

(** ** [Box] and [Vec] over the global allocator *)

(** The [realloc] a [GlobalAlloc] has by default. *)
Definition global_realloc (fuel : nat) (b : BuddyAllocator) (ptr : Z) (layout : Layout) (new_size : Z) :
    outcome (Z * BuddyAllocator) :=
  '(new_ptr, b) ← global_alloc b (mkLayout new_size (layout_align layout));
  let n := Z.min (layout_size layout) new_size in
  let b := mkBuddy (copy_bytes (bmem b) ptr new_ptr n) (buddies b) in
  b ← global_dealloc fuel b ptr layout;
  Ret (new_ptr, b).

(** [Vec<u64>]; no memory is allocated while the capacity is 0. *)
Record Vec64 := mkVec64 { vec_ptr : Z; vec_cap : Z; vec_len : Z }.

Definition vec_new : Vec64 := mkVec64 8 0 0.
Definition vec_layout (cap : Z) : Layout := mkLayout (8 * cap) 8.

(** The capacity doubles, and is four at least. *)
Definition vec_grow (fuel : nat) (v : Vec64) (b : BuddyAllocator) : outcome (Vec64 * BuddyAllocator) :=
  required ← uadd 64 (vec_cap v) 1;
  let cap := Z.max 4 (Z.max (2 * vec_cap v) required) in
  size ← checked 63 (8 * cap);
  '(ptr, b) ← (if vec_cap v =? 0 then global_alloc b (vec_layout cap)
               else global_realloc fuel b (vec_ptr v) (vec_layout (vec_cap v)) size);
  Ret (mkVec64 ptr cap (vec_len v), b).

Definition vec_push (fuel : nat) (v : Vec64) (x : Z) (b : BuddyAllocator) : outcome (Vec64 * BuddyAllocator) :=
  '(v, b) ← (if vec_len v =? vec_cap v then vec_grow fuel v b else Ret (v, b));
  Ret (mkVec64 (vec_ptr v) (vec_cap v) (vec_len v + 1),
       mkBuddy (store64 (bmem b) (vec_ptr v + 8 * vec_len v) x) (buddies b)).

Definition vec_drop (fuel : nat) (v : Vec64) (b : BuddyAllocator) : outcome BuddyAllocator :=
  if vec_cap v =? 0 then Ret b else global_dealloc fuel b (vec_ptr v) (vec_layout (vec_cap v)).

(** [iter().sum::<u64>()] *)
Definition vec_sum (v : Vec64) (m : mem) : outcome Z :=
  fold_outcome (fun i s => uadd 64 s (load64 m (vec_ptr v + 8 * i))) (seqZ 0 (vec_len v)) 0.

(** [Box::new] of an [i32] *)
Definition i32_layout : Layout := mkLayout 4 4.
Definition box_i32 (x : Z) (b : BuddyAllocator) : outcome (Z * BuddyAllocator) :=
  '(p, b) ← global_alloc b i32_layout;
  Ret (p, mkBuddy (store_le (bmem b) p 4 x) (buddies b)).


(** ** The vector while it grows, on the lists of free blocks *)

Definition grown_cap (v : Vec64) : Z := Z.max 4 (Z.max (2 * vec_cap v) (vec_cap v + 1)).

Definition grow_lists (fl : list (list Z)) (v : Vec64) : option (list (list Z) * Vec64) :=
  match alloc_lists fl (layout_class (vec_layout (grown_cap v))) with
  | (Some p, fl) =>
      Some (if vec_cap v =? 0 then fl else freed_lists fl (vec_ptr v) (vec_layout (vec_cap v)),
            mkVec64 p (grown_cap v) (vec_len v))
  | (None, _) => None
  end.

Definition push_lists (st : list (list Z) * Vec64) : option (list (list Z) * Vec64) :=
  '(fl, v) ← (if vec_len st.2 =? vec_cap st.2 then grow_lists st.1 st.2 else Some st);
  Some (fl, mkVec64 (vec_ptr v) (vec_cap v) (vec_len v + 1)).

Fixpoint pushes_lists (n : nat) (st : list (list Z) * Vec64) : option (list (list Z) * Vec64) :=
  match n with O => Some st | S n => st ← push_lists st; pushes_lists n st end.

(** ** Theorems *)

Lemma vec_layout_ok cap : 0 <= cap <= 2 ^ 16 -> layout_ok (vec_layout cap).
Proof. intros Hc. split; [cbn; lia|]. exists 3. cbn. lia. Qed.

Lemma vec_layout_class cap : 0 <= cap <= 2 ^ 16 -> (layout_class (vec_layout cap) < Z.to_nat MAX_ORDER)%nat.
Proof.
  intros Hc. unfold layout_class. cbn [vec_layout layout_size layout_align]. change (Z.log2 8) with 3. change (Z.to_nat MAX_ORDER) with 20%nat.
  assert (Z.log2_up (8 * cap) <= Z.log2_up (2 ^ 19)) by (apply Z.log2_up_le_mono; lia). change (Z.log2_up (2 ^ 19)) with 19 in *. lia.
Qed.

(** The block of a layout has room for its size. *)
Lemma layout_block_size layout : layout_ok layout -> layout_size layout <= 2 ^ Z.of_nat (layout_class layout).
Proof.
  intros [Hs _]. unfold layout_class. rewrite Z2Nat.id by lia. apply Z.le_trans with (2 ^ Z.log2_up (layout_size layout)).
  - destruct (Z.leb_spec (layout_size layout) 1); [|apply Z.log2_up_spec; lia]. rewrite Z.log2_up_eqn0 by lia. cbn. lia.
  - apply Z.pow_le_mono_r; lia.
Qed.

Lemma load64_copy m src dst n k :
  0 <= k -> k + 8 <= n -> load64 (copy_bytes m src dst n) (dst + k) = load64 m (src + k).
Proof.
  intros H0 Hn. unfold load64. cut (forall j c, 0 <= c -> c + Z.of_nat j <= n ->
    load_le (copy_bytes m src dst n) (dst + c) j = load_le m (src + c) j); [intros H; apply H; lia|].
  induction j as [|j IH]; intros c Hc Hl; [reflexivity|]. cbn [load_le]. rewrite <- !Z.add_assoc, IH by lia. f_equal.
  unfold load8, copy_bytes. rewrite (proj2 (Z.leb_le _ _)), (proj2 (Z.ltb_lt _ _)) by lia. cbn [andb]. f_equal. f_equal. lia.
Qed.

Section Vectors.
Context (start size : Z) (fuel : nat) (Hh : heap_ok start size fuel).

(** The vector [v] holds [xs], next to the other live allocations. *)
Record vec_at (fl : list (list Z)) (b : BuddyAllocator) (v : Vec64) (xs : list Z) (live : list (Z * Layout)) : Prop := {
  va_len : vec_len v = Z.of_nat (length xs);
  va_cap : vec_len v <= vec_cap v <= 2 ^ 16;
  va_heap : heap_inv_at start size fl
    (mkHeap b (if vec_cap v =? 0 then live else (vec_ptr v, vec_layout (vec_cap v)) :: live));
  va_elems i x : xs !! i = Some x -> load64 (bmem b) (vec_ptr v + 8 * Z.of_nat i) = x;
}.

Lemma vec_new_at fl b live : heap_inv_at start size fl (mkHeap b live) -> vec_at fl b vec_new [] live.
Proof. intros Hi. split; [reflexivity | cbn; lia | exact Hi | intros i x; now rewrite lookup_nil]. Qed.

(** An element lies in the vector's block. *)
Lemma elem_in_block p cap i x :
  0 <= i < cap -> cap <= 2 ^ 16 -> p + 8 * i <= x < p + 8 * i + 8 -> in_alloc (p, vec_layout cap) x.
Proof.
  intros Hi Hc Hx. unfold in_alloc. cbn [fst snd]. pose proof (layout_block_size _ (vec_layout_ok cap ltac:(lia))) as Hs.
  cbn [vec_layout layout_size] in Hs. change (mkLayout (8 * cap) 8) with (vec_layout cap) in Hs. lia.
Qed.

Lemma realloc_spec fl b p cap cap' q fl' live :
  heap_inv_at start size fl (mkHeap b ((p, vec_layout cap) :: live)) -> 0 <= cap <= cap' -> cap' <= 2 ^ 16 ->
  alloc_lists fl (layout_class (vec_layout cap')) = (Some q, fl') ->
  exists b', global_realloc fuel b p (vec_layout cap) (8 * cap') = Ret (q, b') /\
    heap_inv_at start size (freed_lists fl' p (vec_layout cap)) (mkHeap b' ((q, vec_layout cap') :: live)) /\
    forall i, 0 <= i < cap -> load64 (bmem b') (q + 8 * i) = load64 (bmem b) (p + 8 * i).
Proof.
  intros Hi Hc Hc' El. unfold global_realloc. change (mkLayout (8 * cap') (layout_align (vec_layout cap))) with (vec_layout cap').
  destruct (heap_alloc_lists start size fl b _ (vec_layout cap') Hi (vec_layout_ok cap' ltac:(lia)) (vec_layout_class cap' ltac:(lia)))
    as [(q' & b1 & fl1 & -> & El1 & Hi1 & Hw1 & Hin)|(_ & Hnone & _)]; [|now rewrite El in Hnone].
  rewrite El in El1. injection El1 as <- <-. cbn [mbind outcome_bind].
  set (n := Z.min _ _). assert (En : n = 8 * cap) by (unfold n; cbn [vec_layout layout_size]; lia). rewrite En. clear n En.
  set (b2 := mkBuddy (copy_bytes (bmem b1) p q (8 * cap)) (buddies b1)).
  assert (Hi2 : heap_inv_at start size fl' (mkHeap b2 ([(q, vec_layout cap')] ++ (p, vec_layout cap) :: live))).
  { apply (heap_write start size fl' b1 _ _ (q, vec_layout cap') Hi1); [constructor|]. intros x Hx. unfold copy_bytes.
    destruct (Z.leb_spec q x), (Z.ltb_spec x (q + 8 * cap)); cbn [andb]; try reflexivity. exfalso. apply Hx.
    apply (elem_in_block q cap' ((x - q) / 8)); [|lia|]; Z.to_euclidean_division_equations; lia. }
  destruct (heap_dealloc_lists start size fuel fl' b2 _ _ p (vec_layout cap) Hh Hi2) as (b3 & -> & Hi3 & Hw3 & _).
  cbn [mbind outcome_bind]. exists b3. split; [reflexivity|]. split; [exact Hi3|]. intros i Hi0.
  assert (Hq : forall x, q + 8 * i <= x < q + 8 * i + 8 -> in_alloc (q, vec_layout cap') x) by (intros x; apply elem_in_block; lia).
  assert (Hp : forall x, p + 8 * i <= x < p + 8 * i + 8 -> in_alloc (p, vec_layout cap) x) by (intros x; apply elem_in_block; lia).
  rewrite (load64_agree (bmem b3) (bmem b2)).
  - unfold b2. cbn [bmem]. rewrite load64_copy by lia. apply load64_agree. intros x Hx. apply Hw1. intros Hf.
    assert (Hl : (p, vec_layout cap) ∈ (p, vec_layout cap) :: live) by constructor.
    exact (apart_not_free _ _ _ x (lo_apart _ _ (hi_live _ _ _ _ Hi _ Hl)) (Hp x Hx) Hf).
  - intros x Hx. apply Hw3. intros [Hf|Hin'].
    + assert (Hl : (q, vec_layout cap') ∈ [(q, vec_layout cap')] ++ (p, vec_layout cap) :: live) by constructor.
      exact (apart_not_free _ _ _ x (lo_apart _ _ (hi_live _ _ _ _ Hi2 _ Hl)) (Hq x Hx) Hf).
    + pose proof (hi_disjoint _ _ _ _ Hi2) as Hd. inversion_clear Hd as [|? ? Hd1 _]. apply Forall_cons in Hd1 as [Hd1 _].
      exact (allocs_disjoint_spec _ _ x Hd1 (Hq x Hx) Hin').
Qed.

Lemma vec_grow_spec fl b v xs live fl' v' :
  vec_at fl b v xs live -> grown_cap v <= 2 ^ 16 -> grow_lists fl v = Some (fl', v') ->
  exists b', vec_grow fuel v b = Ret (v', b') /\ vec_at fl' b' v' xs live /\ vec_len v' < vec_cap v'.
Proof.
  intros [El Ec Hi He] Hg. unfold grow_lists. destruct (alloc_lists fl _) as [[q|] fl1] eqn:Ea; [|discriminate].
  intros [= <- <-]. unfold vec_grow, uadd. assert (Hlen : 0 <= vec_len v) by lia.
  rewrite checked_ok by lia. cbn [mbind outcome_bind]. change (Z.max 4 _) with (grown_cap v).
  assert (Hcap : vec_cap v < grown_cap v) by (unfold grown_cap; lia).
  rewrite checked_ok by lia. cbn [mbind outcome_bind]. destruct (Z.eqb_spec (vec_cap v) 0) as [E0|E0].
  - destruct (heap_alloc_lists start size fl b live (vec_layout (grown_cap v)) Hi (vec_layout_ok (grown_cap v) ltac:(lia)) (vec_layout_class (grown_cap v) ltac:(lia)))
      as [(q' & b1 & fl2 & -> & El1 & Hi1 & _)|(_ & Hnone & _)]; [|now rewrite Ea in Hnone].
    rewrite Ea in El1. injection El1 as <- <-. cbn [mbind outcome_bind]. exists b1. split; [reflexivity|].
    split; [|cbn; lia]. split; cbn [vec_len vec_cap vec_ptr]; [exact El | lia | |].
    + rewrite (proj2 (Z.eqb_neq _ _)) by lia. exact Hi1.
    + intros i x Hx. apply lookup_lt_Some in Hx. lia.
  - destruct (realloc_spec fl b (vec_ptr v) (vec_cap v) (grown_cap v) q fl1 live Hi) as (b1 & -> & Hi1 & Hload); [lia | lia | exact Ea|].
    cbn [mbind outcome_bind]. exists b1. split; [reflexivity|].
    split; [|cbn; lia]. split; cbn [vec_len vec_cap vec_ptr]; [exact El | lia | |].
    + rewrite (proj2 (Z.eqb_neq (grown_cap v) 0)) by lia. exact Hi1.
    + intros i x Hx. pose proof (lookup_lt_Some _ _ _ Hx). rewrite Hload by lia. now apply He.
Qed.

(** Appending: the element arrives and the others stay. *)
Lemma vec_push_spec fl b v xs live x fl' v' :
  vec_at fl b v xs live -> in_width 64 x -> vec_len v < 2 ^ 15 -> push_lists (fl, v) = Some (fl', v') ->
  exists b', vec_push fuel v x b = Ret (v', b') /\ vec_at fl' b' v' (xs ++ [x]) live.
Proof.
  intros Hv Hx Hlt. unfold push_lists, vec_push. cbn [fst snd].
  assert (Hroom : forall fl2 v2, (if vec_len v =? vec_cap v then grow_lists fl v else Some (fl, v)) = Some (fl2, v2) ->
    exists b2, (if vec_len v =? vec_cap v then vec_grow fuel v b else Ret (v, b)) = Ret (v2, b2) /\
      vec_at fl2 b2 v2 xs live /\ vec_len v2 < vec_cap v2).
  { intros fl2 v2. destruct (Z.eqb_spec (vec_len v) (vec_cap v)) as [E|E].
    - apply vec_grow_spec; [exact Hv|]. unfold grown_cap. lia.
    - intros [= <- <-]. exists b. pose proof (va_cap _ _ _ _ _ Hv). split; [reflexivity|]. split; [exact Hv | lia]. }
  destruct (if vec_len v =? vec_cap v then grow_lists fl v else Some (fl, v)) as [[fl2 v2]|]; [|discriminate].
  destruct (Hroom fl2 v2 eq_refl) as (b2 & -> & [El Ec Hi He] & Hlen). cbn [mbind option_bind outcome_bind]. intros [= <- <-].
  exists (mkBuddy (store64 (bmem b2) (vec_ptr v2 + 8 * vec_len v2) x) (buddies b2)). split; [reflexivity|].
  rewrite (proj2 (Z.eqb_neq (vec_cap v2) 0)) in Hi by lia. split; cbn [vec_len vec_cap vec_ptr bmem].
  - rewrite length_app. cbn [length]. lia.
  - lia.
  - rewrite (proj2 (Z.eqb_neq (vec_cap v2) 0)) by lia.
    apply (heap_write start size fl2 b2 _ _ (vec_ptr v2, vec_layout (vec_cap v2)) Hi); [constructor|].
    intros y Hy. apply store_le_outside. change (Z.of_nat 8) with 8.
    destruct (Z.ltb_spec y (vec_ptr v2 + 8 * vec_len v2)); [lia|]. destruct (Z.leb_spec (vec_ptr v2 + 8 * vec_len v2 + 8) y); [lia|].
    exfalso. apply Hy. apply (elem_in_block _ _ (vec_len v2)); lia.
  - intros i y Hy. destruct (decide (i < length xs)%nat) as [Hi'|Hi'].
    + rewrite lookup_app_l in Hy by exact Hi'. rewrite load64_store64_other by (unfold ranges_disjoint; lia). now apply He.
    + pose proof (lookup_lt_Some _ _ _ Hy) as Hl. rewrite length_app in Hl. cbn [length] in Hl.
      rewrite lookup_app_r in Hy by lia. replace (i - length xs)%nat with 0%nat in Hy by lia. injection Hy as <-.
      replace (Z.of_nat i) with (vec_len v2) by lia. apply load64_store64_same. exact Hx.
Qed.

(** [for x in ys { vec.push(x) }] *)
Lemma vec_pushes_spec ys fl b v xs live fl' v' :
  vec_at fl b v xs live -> Forall (in_width 64) ys -> vec_len v + Z.of_nat (length ys) <= 2 ^ 15 ->
  pushes_lists (length ys) (fl, v) = Some (fl', v') ->
  exists b', fold_outcome (fun x '(v, b) => vec_push fuel v x b) ys (v, b) = Ret (v', b') /\ vec_at fl' b' v' (xs ++ ys) live.
Proof.
  intros Hv Hys. revert fl b v xs Hv. induction Hys as [|y ys Hy _ IH]; intros fl b v xs Hv Hlen; cbn [length pushes_lists fold_outcome].
  - intros [= <- <-]. exists b. rewrite app_nil_r. auto.
  - cbn [length] in Hlen. destruct (push_lists (fl, v)) as [[fl1 v1]|] eqn:E; [|discriminate]. cbn [mbind option_bind]. intros Er.
    destruct (vec_push_spec fl b v xs live y fl1 v1 Hv Hy) as (b1 & -> & Hv1); [lia | exact E |]. cbn [mbind outcome_bind].
    assert (vec_len v1 = vec_len v + 1).
    { pose proof (va_len _ _ _ _ _ Hv). pose proof (va_len _ _ _ _ _ Hv1) as E1. rewrite length_app in E1. cbn [length] in E1. lia. }
    destruct (IH fl1 b1 v1 (xs ++ [y]) Hv1) as (b' & E' & Hv'); [lia | exact Er |]. exists b'. rewrite <- app_assoc in Hv'. auto.
Qed.

Definition sum_of (xs : list Z) : Z := foldr Z.add 0 xs.

Lemma sum_of_app xs ys : sum_of (xs ++ ys) = sum_of xs + sum_of ys.
Proof. unfold sum_of. induction xs as [|x xs IH]; cbn; lia. Qed.

Lemma sum_of_nonneg xs : Forall (in_width 64) xs -> 0 <= sum_of xs.
Proof. unfold sum_of. induction 1 as [|x xs [H _] _ IH]; cbn; lia. Qed.

(** The sum of the elements, when it fits. *)
Lemma vec_sum_spec fl b v xs live :
  vec_at fl b v xs live -> Forall (in_width 64) xs -> sum_of xs < 2 ^ 64 -> vec_sum v (bmem b) = Ret (sum_of xs).
Proof.
  intros [El _ _ He] Hxs Hs. unfold vec_sum. rewrite El. clear El.
  induction xs as [|x xs IH] using rev_ind; [reflexivity|].
  rewrite sum_of_app in *. cbn [sum_of foldr] in *. apply Forall_app in Hxs as [Hxs [Hx _]%Forall_cons]. unfold in_width in Hx.
  pose proof (sum_of_nonneg xs Hxs). rewrite length_app. cbn [length]. rewrite Nat2Z.inj_add, seqZ_app, fold_outcome_app by lia.
  rewrite IH; [|intros i y Hy; apply He; now apply lookup_app_l_Some | assumption | lia]. cbn [mbind outcome_bind].
  change (seqZ (0 + Z.of_nat (length xs)) (Z.of_nat 1)) with [0 + Z.of_nat (length xs)]. cbn [fold_outcome]. rewrite (Z.add_0_l (Z.of_nat (length xs))).
  rewrite (He (length xs) x).
  - unfold uadd. rewrite checked_ok by lia. cbn [mbind outcome_bind]. f_equal. lia.
  - rewrite lookup_app_r by lia. now rewrite Nat.sub_diag.
Qed.

(** Dropping the vector. *)
Lemma vec_drop_spec fl b v xs live :
  vec_at fl b v xs live -> vec_cap v <> 0 ->
  exists b', vec_drop fuel v b = Ret b' /\
    heap_inv_at start size (freed_lists fl (vec_ptr v) (vec_layout (vec_cap v))) (mkHeap b' live).
Proof.
  intros [_ _ Hi _] Hc. unfold vec_drop. rewrite (proj2 (Z.eqb_neq _ _) Hc) in *.
  destruct (heap_dealloc_lists start size fuel fl b [] live _ _ Hh Hi) as (b' & E & Hi' & _). eauto.
Qed.

(** A box for an [i32], which stays what it is while other memory is allocated. *)
Lemma i32_layout_ok : layout_ok i32_layout.
Proof. split; [cbn; lia|]. exists 2. cbn. lia. Qed.

Lemma box_i32_spec fl b live x p fl' :
  heap_inv_at start size fl (mkHeap b live) -> in_width 32 x -> alloc_lists fl 4 = (Some p, fl') ->
  exists b', box_i32 x b = Ret (p, b') /\ heap_inv_at start size fl' (mkHeap b' ((p, i32_layout) :: live)) /\
    load_le (bmem b') p 4 = x /\ (forall q, (q, i32_layout) ∈ live -> load_le (bmem b') q 4 = load_le (bmem b) q 4).
Proof.
  intros Hi Hx El. unfold box_i32.
  destruct (heap_alloc_lists start size fl b live i32_layout Hi i32_layout_ok) as [(p' & b1 & fl1 & -> & El1 & Hi1 & Hw & Hin)|(_ & Hn & _)];
    [apply Nat.ltb_lt; reflexivity | | change (layout_class i32_layout) with 4%nat in Hn; now rewrite El in Hn].
  change (layout_class i32_layout) with 4%nat in El1. rewrite El in El1. injection El1 as <- <-. cbn [mbind outcome_bind].
  assert (Hblk : forall q y, q <= y < q + 4 -> in_alloc (q, i32_layout) y).
  { intros q y Hy. unfold in_alloc. cbn [fst snd]. change (2 ^ Z.of_nat (layout_class i32_layout)) with 16. lia. }
  eexists. split; [reflexivity|]. split; [|split].
  - apply (heap_write start size fl' b1 _ _ (p, i32_layout) Hi1); [constructor|]. intros y Hy. apply store_le_outside.
    change (Z.of_nat 4) with 4. destruct (Z.ltb_spec y p); [lia|]. destruct (Z.leb_spec (p + 4) y); [lia|].
    exfalso. apply Hy, Hblk. lia.
  - apply load_store_same. exact Hx.
  - intros q Hq. cbn [bmem]. apply load_le_agree. intros y Hy. change (Z.of_nat 4) with 4 in Hy.
    pose proof (apart_not_free _ _ _ y (lo_apart _ _ (hi_live _ _ _ _ Hi _ Hq)) (Hblk q y Hy)) as Hnf.
    rewrite store_le_outside; [now apply Hw|]. change (Z.of_nat 4) with 4.
    destruct (Z.ltb_spec y p); [lia|]. destruct (Z.leb_spec (p + 4) y); [lia|]. exfalso. apply Hnf, Hin, Hblk. lia.
Qed.
End Vectors.
