(* ===== verification/HeapSetup.v ===== *)
(** Setting up the kernel heap: [init_heap] of [kernel/src/allocator.rs].

    [init_heap] is a client of the mapper, the frame allocator and the buddy
    allocator; its theorem is proved against their contracts.  The page tables
    and the heap are separate memories: the tables are reached through the
    window onto physical memory, the heap through the new mappings. *)
From Stdlib Require Import ZArith Lia.
From stdpp Require Import base tactics numbers list sets.
From S2P Require Import Prelude Crates Memory Paging BumpAlloc AddressSpace MapperClient Buddy BuddyHeap KernelHeap.
#[local] Open Scope Z_scope.

Definition HEAP_START : VirtualAddress := 0x444444440000.
Definition HEAP_SIZE : Z := 100 * 1024.

Section InitHeap.
Context `{FL : Bitflags} `{MP : Mapper Size4KiB M} `{FA : FrameAllocator A}.

Definition heap_flags : Z := flags_union (flags_union PRESENT WRITABLE) NO_EXECUTE.

Definition init_heap (fuel : nat) (pt : M) (st : mem * A) (allocator : BuddyAllocator) :
    outcome ((mem * A) * BuddyAllocator) :=
  start_page ← page_containing_address Size4KiB HEAP_START;
  e ← virt_add HEAP_START HEAP_SIZE;
  l ← virt_sub e 1;
  end_page ← page_containing_address Size4KiB l;
  st ← for_loop fuel (map_new_frame pt heap_flags) (page_range_inclusive start_page end_page) st;
  e ← virt_add HEAP_START HEAP_SIZE;
  guard_page ← page_containing_address Size4KiB e;
  st ← map_new_frame pt NONE guard_page st;
  allocator ← buddy_init fuel allocator HEAP_START HEAP_SIZE;
  Ret (st, allocator).
End InitHeap.


(** ** [init_heap] *)

Lemma kernel_heap_ok fuel : HEAP_SIZE / 16 < Z.of_nat fuel -> heap_ok HEAP_START HEAP_SIZE fuel.
Proof.
  intros Hf. split; [reflexivity | unfold HEAP_SIZE; lia | unfold HEAP_START, HEAP_SIZE; lia
    | reflexivity | reflexivity | assumption |].
  apply small_heap_below_limit. reflexivity.
Qed.

(** The 25 pages of the heap, and the guard page behind them. *)
Definition heap_pages : list (Page Size4KiB) := pages_from Size4KiB HEAP_START 25.
Definition guard_page : Page Size4KiB := mkPage Size4KiB (HEAP_START + HEAP_SIZE).

(** The addresses [init_heap] computes. *)
Lemma heap_pages_computed :
  page_containing_address Size4KiB HEAP_START = Ret (mkPage Size4KiB HEAP_START) /\
  virt_add HEAP_START HEAP_SIZE = Ret (HEAP_START + HEAP_SIZE) /\
  virt_sub (HEAP_START + HEAP_SIZE) 1 = Ret (HEAP_START + HEAP_SIZE - 1) /\
  page_containing_address Size4KiB (HEAP_START + HEAP_SIZE - 1)
    = Ret (mkPage Size4KiB (HEAP_START + (25 - 1) * SIZE Size4KiB)) /\
  page_containing_address Size4KiB (HEAP_START + HEAP_SIZE) = Ret guard_page.
Proof. refine (conj _ (conj _ (conj _ (conj _ _)))); vm_compute; reflexivity. Qed.

Lemma heap_pages_vpns :
  ((fun p => vpn (page_address p)) <$> heap_pages) = seqZ (HEAP_START / 4096) 25.
Proof. reflexivity. Qed.

Lemma heap_pages_length : length heap_pages = 25%nat.
Proof. reflexivity. Qed.

Lemma guard_page_vpn : vpn (page_address guard_page) = HEAP_START / 4096 + 25.
Proof. vm_compute. reflexivity. Qed.

Lemma heap_pages_yielded :
  yields (page_range_inclusive (mkPage Size4KiB HEAP_START)
            (mkPage Size4KiB (HEAP_START + (25 - 1) * SIZE Size4KiB))) heap_pages.
Proof. apply page_range_yields; unfold HEAP_START; cbn [SIZE]; lia. Qed.

Lemma heap_page_width p : p ∈ heap_pages -> in_width 64 (page_address p).
Proof.
  intros (i & -> & Hi%elem_of_seqZ)%list_elem_of_fmap. cbn [page_address SIZE].
  unfold in_width, HEAP_START. lia.
Qed.

(** [init_heap] with its addresses computed. *)
Lemma init_heap_steps `{FL : Bitflags} `{MP : Mapper Size4KiB M} `{FA : FrameAllocator A} fuel (pt : M) (st : mem * A) b :
  init_heap fuel pt st b =
    (st ← for_loop fuel (map_new_frame pt heap_flags)
            (page_range_inclusive (mkPage Size4KiB HEAP_START) (mkPage Size4KiB (HEAP_START + (25 - 1) * SIZE Size4KiB))) st;
     st ← map_new_frame pt NONE guard_page st;
     b ← buddy_init fuel b HEAP_START HEAP_SIZE;
     Ret (st, b)).
Proof.
  destruct heap_pages_computed as (Es & Ea & El & Ee & Eg). unfold init_heap.
  etransitivity; [exact (bind_eq _ _ _ Es)|]. etransitivity; [exact (bind_eq _ _ _ Ea)|].
  etransitivity; [exact (bind_eq _ _ _ El)|]. etransitivity; [exact (bind_eq _ _ _ Ee)|].
  apply bind_ext. intros st1. etransitivity; [exact (bind_eq _ _ _ Ea)|]. exact (bind_eq _ _ _ Eg).
Qed.

Section InitHeapTheorem.
Context `{FL : Bitflags} `{FLS : !BitflagsSpec FL} `{MS : MapperSpec M A}.
Implicit Types (pt : M) (m : mem) (a : A) (p : Page Size4KiB).

Lemma heap_flags_eq : heap_flags = 2 ^ 63 + 3.
Proof. unfold heap_flags. now rewrite !flags_union_spec. Qed.

(** The run of [init_heap], from the runs of its parts. *)
Lemma init_heap_run fuel pt st st1 st2 b b' :
  HEAP_SIZE / 16 < Z.of_nat fuel ->
  fold_outcome (map_new_frame pt heap_flags) heap_pages st = Ret st1 ->
  map_new_frame pt NONE guard_page st1 = Ret st2 ->
  buddy_init fuel b HEAP_START HEAP_SIZE = Ret b' ->
  init_heap fuel pt st b = Ret (st2, b').
Proof.
  intros Hfuel E1 E2 E3. rewrite init_heap_steps, (for_loop_yields _ _ heap_pages); [ | apply heap_pages_yielded|].
  - rewrite E1, bind_Ret, E2, bind_Ret, E3, bind_Ret. reflexivity.
  - rewrite heap_pages_length. apply Nat2Z.inj_lt. change (HEAP_SIZE / 16) with 6400 in Hfuel. lia.
Qed.

Lemma init_heap_spec fuel pt m a hm :
  ms_inv pt m a -> HEAP_SIZE / 16 < Z.of_nat fuel -> 104 <= fa_avail a ->
  Forall (mappable pt m) (heap_pages ++ [guard_page]) ->
  exists fs m' a' b', init_heap fuel pt (m, a) (Buddy_new hm) = Ret ((m', a'), b') /\
    buddy_init fuel (Buddy_new hm) HEAP_START HEAP_SIZE = Ret b' /\
    ms_inv pt m' a' /\ heap_inv HEAP_START HEAP_SIZE (mkHeap b' []) /\
    NoDup fs /\ (forall f, f ∈ fs -> fa_free a f /\ ~ fa_free a' f) /\
    Forall2 (fun p f => ms_lookup pt m' p
               = Some (mkFrame Size4KiB f, flags_union (flags_union PRESENT WRITABLE) NO_EXECUTE))
      heap_pages fs /\
    ms_lookup pt m' guard_page = None /\
    (forall q, in_width 64 (page_address q) ->
       vpn (page_address q) ∉ seqZ (HEAP_START / 4096) 26 -> ms_lookup pt m' q = ms_lookup pt m q).
Proof.
  intros Hi Hfuel Hav Hall.
  assert (Hperm : heap_pages ++ [guard_page] ≡ₚ guard_page :: heap_pages) by (symmetry; apply Permutation_cons_append).
  assert (Hvpns : ((fun p => vpn (page_address p)) <$> guard_page :: heap_pages) ≡ₚ seqZ (HEAP_START / 4096) 26).
  { rewrite fmap_cons, heap_pages_vpns, guard_page_vpn, Permutation_cons_append. reflexivity. }
  destruct (map_guarded_pages_spec pt heap_flags heap_pages guard_page m a Hi)
    as (fs & st1 & m' & a' & E1 & E2 & Hi' & _ & Hnd & Hfs & Hlook & Hg & Hother & _ & _).
  { now rewrite heap_flags_eq. }
  { now rewrite heap_flags_eq. }
  { now rewrite <- Hperm. }
  { rewrite Hvpns. apply NoDup_seqZ. }
  { rewrite heap_pages_length. lia. }
  destruct (heap_init HEAP_START HEAP_SIZE fuel hm (kernel_heap_ok fuel Hfuel)) as (b' & E3 & Hb & _).
  exists fs, m', a', b'. split; [eapply init_heap_run; eassumption|]. split; [exact E3|].
  split; [assumption|]. split; [assumption|]. split; [assumption|]. split; [assumption|].
  split; [assumption|]. split; [assumption|].
  intros q Hq Hni. apply Hother; [assumption|]. now rewrite Hvpns.
Qed.

(** C17: with enough frames left and the heap's address range unmapped,
    [init_heap] succeeds: every page of the heap is mapped writable and not
    executable, each to a frame of its own that was free before; the guard page
    behind the heap stays unmapped; no other page changes; and the allocator
    starts out with the whole heap free. *)
Theorem init_heap_correct fuel pt m a hm :
  ms_inv pt m a -> HEAP_SIZE / 16 < Z.of_nat fuel -> 104 <= fa_avail a ->
  Forall (mappable pt m) (heap_pages ++ [guard_page]) ->
  exists fs m' a' b', init_heap fuel pt (m, a) (Buddy_new hm) = Ret ((m', a'), b') /\
    ms_inv pt m' a' /\ heap_inv HEAP_START HEAP_SIZE (mkHeap b' []) /\
    NoDup fs /\ (forall f, f ∈ fs -> fa_free a f /\ ~ fa_free a' f) /\
    Forall2 (fun p f => ms_lookup pt m' p
               = Some (mkFrame Size4KiB f, flags_union (flags_union PRESENT WRITABLE) NO_EXECUTE))
      heap_pages fs /\
    ms_lookup pt m' guard_page = None /\
    (forall q, in_width 64 (page_address q) ->
       vpn (page_address q) ∉ seqZ (HEAP_START / 4096) 26 -> ms_lookup pt m' q = ms_lookup pt m q).
Proof.
  intros Hi Hfuel Hav Hall. destruct (init_heap_spec fuel pt m a hm Hi Hfuel Hav Hall) as (fs & m' & a' & b' & E & _ & Hpost).
  exists fs, m', a', b'. exact (conj E Hpost).
Qed.
End InitHeapTheorem.

(** ** A concrete setup: an empty page table and 256 free frames *)

Section InitHeapWitness.
#[local] Existing Instances ref_bit_field ref_bitflags ref_bit_field_ok ref_bitflags_ok.

Definition ex_frames : BumpFrameAllocator PhysicalMemoryRegion :=
  bump_new [PhysicalMemoryRegion_new 0x10000 0x100000 Free].
Definition ex_table : OffsetPageTable PhysicalOffset :=
  OffsetPageTable_new 0x1000 (mkPhysicalOffset 0).
Definition ex_tables : mem := fun _ => 0.

Lemma ex_table_inv : ms_inv ex_table ex_tables ex_frames.
Proof.
  split; [split; [|split]; vm_compute; congruence|].
  apply empty_inv with 0x1000; [reflexivity | | split; [lia | reflexivity] | reflexivity |].
  - split; [|cbn [ex_frames bump_new bump_next]; lia]. split; [|exact I]. intros _. split.
    + split; cbn; try lia; reflexivity.
    + intros r []%not_elem_of_nil.
  - cbn [fa_free Bump_FrameAllocatorSpec].
    intros (r & ->%list_elem_of_singleton & _ & i & Hi & E & _)%elem_of_usable_addrs. cbn in E. lia.
Qed.

Lemma ex_pages_mappable : Forall (mappable ex_table ex_tables) (heap_pages ++ [guard_page]).
Proof.
  apply Forall_forall. intros p Hp.
  assert (Hw : in_width 64 (page_address p)).
  { apply elem_of_app in Hp as [Hp|Hp]; [now apply heap_page_width|].
    apply list_elem_of_singleton in Hp as ->. unfold in_width, guard_page, HEAP_START, HEAP_SIZE. cbn [page_address]. lia. }
  destruct (empty_lookup (mkPhysicalOffset 0) 0x1000 ex_tables) as (H1 & _ & H2); [reflexivity|].
  split; [exact Hw|]. split; [exact (H2 _ Hw) | exact (H1 p Hw)].
Qed.

Lemma init_heap_correct_witness :
  exists fs m' a' b', init_heap (Z.to_nat 6401) ex_table (ex_tables, ex_frames) (Buddy_new (fun _ => 0)) = Ret ((m', a'), b') /\
    ms_inv ex_table m' a' /\ heap_inv HEAP_START HEAP_SIZE (mkHeap b' []) /\
    NoDup fs /\ (forall f, f ∈ fs -> fa_free ex_frames f /\ ~ fa_free a' f) /\
    Forall2 (fun p f => ms_lookup ex_table m' p
               = Some (mkFrame Size4KiB f, flags_union (flags_union PRESENT WRITABLE) NO_EXECUTE))
      heap_pages fs /\
    ms_lookup ex_table m' guard_page = None /\
    (forall q, in_width 64 (page_address q) ->
       vpn (page_address q) ∉ seqZ (HEAP_START / 4096) 26 -> ms_lookup ex_table m' q = ms_lookup ex_table ex_tables q).
Proof.
  apply (init_heap_correct (Z.to_nat 6401) ex_table ex_tables ex_frames (fun _ => 0) ex_table_inv).
  - rewrite Z2Nat.id by lia. reflexivity.
  - vm_compute. discriminate.
  - exact ex_pages_mappable.
Defined.
End InitHeapWitness.
