(* ===== verification/FrameSupply.v ===== *)
(** Allocators that hand out the same frames.

    The kernel's frame allocator runs through all regions of the memory map it was
    given; what is mapped early comes from the first ones.  An allocator [follows]
    another one if it hands out the same frame wherever that one hands out one;
    code that succeeds with the first does the same with the second.  A bump
    allocator follows the one over a prefix of its regions, so that only the frames of
    the prefix have to be free. *)
From Stdlib Require Import ZArith Lia.
From stdpp Require Import base tactics numbers list.
From S2P Require Import Prelude Crates Memory Paging BumpAlloc AddressSpace MapperClient Buddy BuddyHeap KernelHeap HeapSetup.
#[local] Open Scope Z_scope.

Section Follow.
Context `{BF : BitField} `{FL : Bitflags} `{PM : PageTableFrameMapping P}.
Context `{FA1 : FrameAllocator A1} `{FA2 : FrameAllocator A2} (R : A1 -> A2 -> Prop).
Implicit Types (m : mem).

(** [a2] hands out what [a1] hands out. *)
Definition follows : Prop := forall a1 a2 f a1', R a1 a2 -> allocate_frame a1 = Ret (Some f, a1') ->
  exists a2', allocate_frame a2 = Ret (Some f, a2') /\ R a1' a2'.
Context (HR : follows).

(** A successful run, repeated with the other allocator. *)
Definition run_follows {X} (ok : X -> Prop) (o1 : outcome (X * (mem * A1))) (o2 : outcome (X * (mem * A2))) : Prop :=
  forall x m a1, ok x -> o1 = Ret (x, (m, a1)) -> exists a2, o2 = Ret (x, (m, a2)) /\ R a1 a2.
Definition state_follows (o1 : outcome (mem * A1)) (o2 : outcome (mem * A2)) : Prop :=
  forall m a1, o1 = Ret (m, a1) -> exists a2, o2 = Ret (m, a2) /\ R a1 a2.

Lemma get_or_allocate_follows w ea flags m a1 a2 :
  R a1 a2 -> run_follows is_Some (get_or_allocate_pagetable w ea flags (m, a1)) (get_or_allocate_pagetable w ea flags (m, a2)).
Proof.
  intros Ha o m' a1' Ho E. unfold get_or_allocate_pagetable in *. destruct (pte_is_unused _).
  - destruct (allocate_frame a1) as [[[f|] a]|] eqn:Ef; [| |discriminate]; cbn [mbind outcome_bind] in E.
    + destruct (HR _ _ _ _ Ha Ef) as (b & -> & Hb). cbn [mbind outcome_bind] in *.
      destruct (frame_to_virtual w f) as [va|]; [|discriminate]. cbn [mbind outcome_bind] in *.
      destruct (initialize_empty_at_address _ va) as [m1|]; [|discriminate]. cbn [mbind outcome_bind] in *.
      injection E as <- <- <-. eauto.
    + injection E as <- _ _. now destruct Ho.
  - destruct (pte_physical_frame _) as [fr|]; [|discriminate]. cbn [mbind outcome_bind] in *.
    destruct (frame_to_virtual w fr) as [va|]; [|discriminate]. cbn [mbind outcome_bind] in *.
    injection E as <- <- <-. eauto.
Qed.

(** The walk down one level and what comes after it. *)
Lemma level_follows {X} w ea flags m a1 a2 (k1 : Z -> mem * A1 -> outcome (Result X MappingError * (mem * A1))) k2 :
  R a1 a2 -> (forall t m a1 a2, R a1 a2 -> run_follows (fun r => exists x, r = Ok x) (k1 t (m, a1)) (k2 t (m, a2))) ->
  run_follows (fun r => exists x, r = Ok x)
    ('(o, st) ← get_or_allocate_pagetable w ea flags (m, a1);
     match o with None => Ret (Err FrameAllocationFailed, st) | Some t => k1 t st end)
    ('(o, st) ← get_or_allocate_pagetable w ea flags (m, a2);
     match o with None => Ret (Err FrameAllocationFailed, st) | Some t => k2 t st end).
Proof.
  intros Ha Hk r m' a1' Hr E.
  destruct (get_or_allocate_pagetable w ea flags (m, a1)) as [[o [m1 b1]]|] eqn:Eg; [|discriminate].
  cbn [mbind outcome_bind] in E. destruct o as [t|]; [|injection E as <- _ _; now destruct Hr].
  destruct (get_or_allocate_follows w ea flags m a1 a2 Ha (Some t) m1 b1 ltac:(eauto) Eg) as (b2 & -> & Hb). cbn [mbind outcome_bind].
  exact (Hk t m1 b1 b2 Hb r m' a1' Hr E).
Qed.

Lemma map_to_4k_follows (pt : MappedPageTable P) frame page flags m a1 a2 :
  R a1 a2 -> run_follows (fun r => exists x, r = Ok x) (map_to_4k pt frame page flags (m, a1)) (map_to_4k pt frame page flags (m, a2)).
Proof.
  intros Ha. unfold map_to_4k.
  destruct (entry_addr _ (l4_index _)) as [e4|]; [|now intros]. cbn [mbind outcome_bind].
  apply (level_follows _ _ _ _ _ _ _ _ Ha). clear m a1 a2 Ha. intros t3 m a1 a2 Ha.
  destruct (entry_addr t3 _) as [e3|]; [|now intros]. cbn [mbind outcome_bind].
  apply (level_follows _ _ _ _ _ _ _ _ Ha). clear m a1 a2 Ha. intros t2 m a1 a2 Ha.
  destruct (entry_addr t2 _) as [e2|]; [|now intros]. cbn [mbind outcome_bind].
  apply (level_follows _ _ _ _ _ _ _ _ Ha). clear m a1 a2 Ha. intros t1 m a1 a2 Ha.
  destruct (entry_addr t1 _) as [e1|]; [|now intros]. cbn [mbind outcome_bind].
  intros r m' a1' Hr. destruct (pte_is_present _); intros [= <- <- <-]; eauto.
Qed.

Lemma map_new_frame_follows (pt : OffsetPageTable P) flags page m a1 a2 :
  R a1 a2 -> state_follows (map_new_frame pt flags page (m, a1)) (map_new_frame pt flags page (m, a2)).
Proof.
  intros Ha m' a1' E. unfold map_new_frame in *.
  destruct (allocate_frame a1) as [[[f|] b1]|] eqn:Ef; [| |discriminate]; cbn [mbind outcome_bind unwrap] in E; [|discriminate].
  destruct (HR _ _ _ _ Ha Ef) as (b2 & -> & Hb). cbn [mbind outcome_bind unwrap].
  destruct (map_to pt f page flags (m, b1)) as [[[x|e] [m1 c1]]|] eqn:Em; [| |discriminate]; cbn [mbind outcome_bind expect] in E; [|discriminate].
  injection E as <- <-.
  destruct (map_to_4k_follows (inner pt) f page flags m b1 b2 Hb (Ok x) m1 c1 (ex_intro _ x eq_refl) Em) as (c2 & E2 & Hc).
  change (map_to_4k (inner pt) f page flags (m, b2)) with (map_to pt f page flags (m, b2)) in E2. rewrite E2. eauto.
Qed.

Lemma for_loop_follows {I X} `{Iterator I X} fuel (b1 : X -> mem * A1 -> outcome (mem * A1)) b2 it m a1 a2 :
  (forall x m a1 a2, R a1 a2 -> state_follows (b1 x (m, a1)) (b2 x (m, a2))) ->
  R a1 a2 -> state_follows (for_loop fuel b1 it (m, a1)) (for_loop fuel b2 it (m, a2)).
Proof.
  intros Hb. revert it m a1 a2. induction fuel as [|fuel IH]; intros it m a1 a2 Ha m' a1' E; [discriminate|]. cbn [for_loop] in *.
  destruct (next it) as [[[x|] it']|]; [| |discriminate]; cbn [mbind outcome_bind] in *.
  - destruct (b1 x (m, a1)) as [[m1 c1]|] eqn:E1; [|discriminate]. cbn [mbind outcome_bind] in E.
    destruct (Hb x m a1 a2 Ha m1 c1 E1) as (c2 & -> & Hc). cbn [mbind outcome_bind]. exact (IH it' m1 c1 c2 Hc m' a1' E).
  - injection E as <- <-. eauto.
Qed.

(** Setting up the heap with the other allocator leaves the same memory and heap. *)
Lemma init_heap_follows fuel (pt : OffsetPageTable P) m a1 a2 b m' a1' b' :
  R a1 a2 -> init_heap fuel pt (m, a1) b = Ret ((m', a1'), b') ->
  exists a2', init_heap fuel pt (m, a2) b = Ret ((m', a2'), b') /\ R a1' a2'.
Proof.
  intros Ha E. rewrite init_heap_steps in E. rewrite init_heap_steps. revert E. set (range := page_range_inclusive _ _). intros E.
  destruct (for_loop fuel (map_new_frame pt heap_flags) range (m, a1)) as [[m1 c1]|] eqn:E1; [|discriminate]. cbn [mbind outcome_bind] in E.
  destruct (for_loop_follows fuel _ _ range m a1 a2 (map_new_frame_follows pt heap_flags) Ha m1 c1 E1) as (c2 & -> & Hc). rewrite bind_Ret.
  destruct (map_new_frame pt NONE guard_page (m1, c1)) as [[m2 d1]|] eqn:E2; [|discriminate]. cbn [mbind outcome_bind] in E.
  destruct (map_new_frame_follows pt NONE guard_page m1 c1 c2 Hc m2 d1 E2) as (d2 & -> & Hd). rewrite bind_Ret.
  destruct (buddy_init fuel b HEAP_START HEAP_SIZE) as [c|]; [|discriminate]. cbn [mbind outcome_bind] in E |- *. injection E as <- <- <-. eauto.
Qed.
End Follow.

(** ** A bump allocator over the first regions *)

Section Prefix.
Context `{MR : MemoryRegion D}.
Implicit Types (map used rest : list D) (b : BumpFrameAllocator D).

Lemma map_ok_prefix used rest : map_ok (used ++ rest) -> map_ok used.
Proof.
  induction used as [|r used IH]; cbn [app map_ok]; [easy|]. intros [Hr Hok]. split; [|now apply IH].
  intros Hu. destruct (Hr Hu) as [Hro Hd]. split; [exact Hro|]. intros r' Hr'. apply Hd, elem_of_app. now left.
Qed.

Lemma usable_addrs_app used rest : usable_addrs (used ++ rest) = usable_addrs used ++ usable_addrs rest.
Proof. induction used as [|r used IH]; [reflexivity|]. cbn [app usable_addrs]. now rewrite IH, app_assoc. Qed.

(** [b] goes on behind the regions [used] of [b0]. *)
Record extends used rest (b0 b : BumpFrameAllocator D) : Prop := {
  ex_first : memory_map b0 = used;
  ex_all : memory_map b = used ++ rest;
  ex_next : bump_next b = bump_next b0;
  ex_ok : map_ok (used ++ rest);
}.

Lemma extends_follows used rest : follows (extends used rest).
Proof.
  intros b0 b f b0' [E0 E1 En Hok] E. change (bump_allocate_frame b0 = Ret (Some f, b0')) in E.
  change (exists b', bump_allocate_frame b = Ret (Some f, b') /\ extends used rest b0' b').
  pose proof (map_ok_prefix _ _ Hok) as Hok0. unfold bump_allocate_frame, usable_frames in *. rewrite E0 in E. rewrite E1.
  rewrite (iter_nth_yields _ _ _ (usable_frames_yields _ Hok0)), bind_Ret in E.
  rewrite (iter_nth_yields _ _ _ (usable_frames_yields _ Hok)), bind_Ret, En.
  destruct (uadd 64 (bump_next b0) 1) as [n|]; [|discriminate]. rewrite bind_Ret in *. injection E as E <-.
  exists (mkBump (used ++ rest) n). split; [|now split].
  rewrite usable_addrs_app, fmap_app, (lookup_app_l_Some _ _ _ _ E). reflexivity.
Qed.

Lemma extends_new used rest : map_ok (used ++ rest) -> extends used rest (bump_new used) (bump_new (used ++ rest)).
Proof. now split. Qed.

Lemma extends_shorter used rest b0 b : extends used rest b0 b -> b0 = mkBump used (bump_next b).
Proof. intros [E0 _ En _]. destruct b0. cbn in *. congruence. Qed.

(** What the shorter allocator may still hand out, the other one may too. *)
Lemma extends_free used rest b0 b f : extends used rest b0 b -> f ∈ bump_left b0 -> f ∈ bump_left b.
Proof.
  intros [E0 E1 En _] Hf. unfold bump_left in *. rewrite E0 in Hf. rewrite E1, En, usable_addrs_app.
  destruct (decide (Z.to_nat (bump_next b0) <= length (usable_addrs used))%nat).
  - rewrite drop_app_le by assumption. apply elem_of_app. now left.
  - rewrite drop_ge in Hf by lia. now apply not_elem_of_nil in Hf.
Qed.

(** What the shorter one has handed out, the other one has. *)
Lemma extends_taken used rest b0 b f : extends used rest b0 b -> bump_ok b0 ->
  f ∈ usable_addrs used -> f ∉ bump_left b0 -> f ∉ bump_left b.
Proof.
  intros [E0 E1 En Hok] [_ Hn] Hin Hnf Hf. unfold bump_left in *. rewrite E0 in *. rewrite E1, En, usable_addrs_app, drop_app_le in Hf by lia.
  apply elem_of_app in Hf as [Hf|Hf]; [contradiction|]. pose proof (NoDup_usable_addrs _ Hok) as Hnd.
  rewrite usable_addrs_app in Hnd. apply NoDup_app in Hnd as (_ & Hd & _). exact (Hd f Hin Hf).
Qed.
End Prefix.
