(* ===== verification/BootInfo.v ===== *)
(** What the boot stages hand to each other: [bootloader/x86_64/bios/common]
    and [bootloader/api].

    The memory map of the BIOS ([E820MemoryRegion]), the information passed to
    stage 4 and to the kernel, the partition table of the boot sector and real
    mode pointers. *)
From Stdlib Require Import ZArith Lia.
From stdpp Require Import base tactics numbers list.
From S2P Require Import Prelude Memory.
#[local] Open Scope Z_scope.

(** ** [api] *)

Inductive PixelFormat :=
  | Rgb
  | Bgr
  | Unknown (red_position green_position blue_position : Z).

Record FramebufferInfo := mkFramebufferInfo {
  fb_region : PhysicalMemoryRegion;
  fb_width : Z;
  fb_height : Z;
  bytes_per_pixel : Z;
  stride : Z;
  pixel_format : PixelFormat;
}.

(** [PhysicalMemoryRegions]: a pointer to the regions and their number. *)
Record PhysicalMemoryRegions := mkPhysicalMemoryRegions { regions_ptr : Z; regions_len : Z }.

Record BootInfo := mkBootInfo {
  boot_kernel : PhysicalMemoryRegion;
  boot_framebuffer : FramebufferInfo;
  memory_regions : PhysicalMemoryRegions;
  physical_memory_offset : Z;
}.

(** ** [common] *)

Record BiosInfo := mkBiosInfo {
  stage4 : PhysicalMemoryRegion;
  bios_kernel : PhysicalMemoryRegion;
  bios_framebuffer : FramebufferInfo;
  last_physical_address : Z;
  memory_map_address : Z;
  memory_map_size : Z;
}.

Inductive E820MemoryRegionType :=
  | E820_None
  | E820_Normal
  | E820_Reserved
  | E820_AcpiReclaimable
  | E820_AcpiNvs
  | E820_Unusable.

#[global] Instance E820MemoryRegionType_eq_dec : EqDecision E820MemoryRegionType.
Proof. solve_decision. Defined.

(** [Into<PhysicalMemoryRegionType>] *)
Definition e820_type_into (t : E820MemoryRegionType) : PhysicalMemoryRegionType :=
  match t with E820_Normal => Free | _ => Reserved end.

Record E820MemoryRegion := mkE820 {
  e820_start : Z;
  e820_size : Z;
  e820_typ : E820MemoryRegionType;
  acpi_extended_attributes : Z;
}.

Definition E820MemoryRegion_empty : E820MemoryRegion := mkE820 0 0 E820_Unusable 0.

(** [Into<PhysicalMemoryRegion>] *)
Definition e820_into (r : E820MemoryRegion) : PhysicalMemoryRegion :=
  PhysicalMemoryRegion_new (e820_start r) (e820_size r) (e820_type_into (e820_typ r)).

#[global] Instance E820_MemoryRegion : MemoryRegion E820MemoryRegion := {
  region_start r := e820_start r;
  region_end r := uadd 64 (e820_start r) (e820_size r);
  region_size r := e820_size r;
  region_contains r address :=
    if e820_start r <=? address then
      e ← uadd 64 (e820_start r) (e820_size r); Ret (address <=? e)
    else Ret false;
  region_is_usable r := bool_decide (e820_typ r = E820_Normal);
  region_set_start r start :=
    mkE820 start (e820_size r) (e820_typ r) (acpi_extended_attributes r);
  region_set_size r size :=
    mkE820 (e820_start r) size (e820_typ r) (acpi_extended_attributes r);
}.

(** The conversion keeps what the frame allocator looks at. *)
Lemma e820_into_usable r : region_is_usable (e820_into r) = region_is_usable r.
Proof. destruct r as [? ? [] ?]; reflexivity. Qed.

(** ** The partition table of the boot sector *)

Record PartitionTableEntry := mkPartitionTableEntry {
  bootable : bool;
  partition_type : Z;
  logical_block_address : Z;
  sector_count : Z;
}.

Definition PARTITION_TABLE_ENTRY_COUNT : Z := 0x4.
Definition PARTITION_TABLE_ENTRY_SIZE : Z := 0x10.

Definition partition_u32 (buffer : list Z) (at_ : nat) : outcome Z :=
  let s := take 4 (drop at_ buffer) in
  if (length s =? 4)%nat then Ret (from_le_bytes s) else Panic UnwrapNone.

Definition get_partition_table_entry (partition_table : list Z) (idx : Z) :
    outcome PartitionTableEntry :=
  off ← umul 32 idx 16;
  buffer ← unwrap (if off <=? Z.of_nat (length partition_table)
                   then Some (drop (Z.to_nat off) partition_table) else None);
  bootable_raw ← unwrap (buffer !! 0%nat);
  partition_type ← unwrap (buffer !! 4%nat);
  lba ← partition_u32 buffer 8;
  len ← partition_u32 buffer 12;
  Ret (mkPartitionTableEntry (bootable_raw =? 0x80) partition_type lba len).

(** ** Real mode pointers *)

Definition realmode_segment (p : Z) : Z := ucast 16 (Z.shiftr p 16).
Definition realmode_offset (p : Z) : Z := ucast 16 p.
