(* ===== verification/Ports.v ===== *)
(** Port input and output: [x86_64/src/port.rs], [kernel/src/qemu.rs].

    The devices behind the ports are outside the program: a class of worlds
    with the two instructions.  The contracts of the devices are stated with
    the drivers that rely on them. *)
From Stdlib Require Import ZArith Lia.
From stdpp Require Import base tactics numbers list.
From S2P Require Import Prelude.
#[local] Open Scope Z_scope.

(** The operand of [in] and [out]: [al], [ax] or [eax]. *)
Inductive operand := u8 | u16 | u32.

(** The instructions [in] and [out]. *)
Class IoPorts (W : Type) := {
  port_in : operand -> Z -> W -> Z * W;
  port_out : operand -> Z -> Z -> W -> W;
}.

(** The type parameter of [Port<T>] is the operand. *)
Record Port (T : operand) := Port_new { address : Z }.
Arguments Port_new {T} _.
Arguments address {T} _.

Section Port.
Context `{IO : IoPorts W}.

(** [ReadPort::read_from_register] and [WritePort::write_to_register]. *)
Definition read_from_register (T : operand) (port : Z) (w : W) : Z * W := port_in T port w.
Definition write_to_register (T : operand) (port val : Z) (w : W) : W := port_out T port val w.

Definition Port_read {T} (p : Port T) (w : W) : Z * W := read_from_register T (address p) w.
Definition Port_write {T} (p : Port T) (val : Z) (w : W) : W := write_to_register T (address p) val w.

Definition Port_eq {T} (p q : Port T) : bool := address p =? address q.

Definition io_wait (w : W) : W := port_out u8 0x80 0 w.

(** ** Leaving the emulator *)

Inductive QemuExitCode := Success | Failed.

Definition exit_code_bits (c : QemuExitCode) : Z := match c with Success => 0x10 | Failed => 0x11 end.

(** The emulator stops at the write; a machine without it panics. *)
Definition qemu_exit (exit_code : QemuExitCode) (w : W) : W * outcome unit :=
  let port : Port u32 := Port_new 0xf4 in
  (Port_write port (exit_code_bits exit_code) w, Panic ExplicitPanic).
End Port.
