(* ===== verification/SpinLock.v ===== *)
(** The spin lock: [x86_64/src/mutex.rs].

    A [Mutex] is its value and its flag.  [lock] loops over an atomic
    compare-and-exchange; dropping the guard stores [false].  Several contexts
    (processors, or a handler that interrupts other code) use one lock: the
    atomic actions are the steps of a transition system. *)
From Stdlib Require Import ZArith Lia.
From stdpp Require Import base tactics numbers list relations.
From S2P Require Import Prelude.

Section Mutex.
Context {T : Type}.

Record Mutex := mkMutex { inner : T; lock_status : bool }.

Definition Mutex_new (val : T) : Mutex := mkMutex val false.

(** [AtomicBool::compare_exchange] *)
Definition compare_exchange (m : Mutex) (current new : bool) : Result bool bool * Mutex :=
  if bool_decide (lock_status m = current) then (Ok (lock_status m), mkMutex (inner m) new)
  else (Err (lock_status m), m).

(** One iteration of the loop in [lock]: whether it breaks. *)
Definition lock_iteration (m : Mutex) : bool * Mutex :=
  match compare_exchange m false true with
  | (Ok _, m) => (true, m)
  | (Err _, m) => (false, m)
  end.

(** [lock] when no other context runs in between. *)
Fixpoint lock (fuel : nat) (m : Mutex) : outcome Mutex :=
  match fuel with
  | O => Panic FuelExhausted
  | S fuel =>
      let '(done, m) := lock_iteration m in
      if done then Ret m else lock fuel m
  end.

Lemma lock_iteration_spec m :
  lock_iteration m = if lock_status m then (false, m) else (true, mkMutex (inner m) true).
Proof. unfold lock_iteration, compare_exchange. now destruct (lock_status m) eqn:E. Qed.

(** A free lock is taken at once, a taken one never. *)
Lemma lock_spec fuel m :
  lock (S fuel) m = if lock_status m then Panic FuelExhausted else Ret (mkMutex (inner m) true).
Proof.
  induction fuel as [|fuel IH]; cbn [lock]; rewrite lock_iteration_spec; destruct (lock_status m) eqn:E; try reflexivity.
  cbn [lock] in IH. rewrite lock_iteration_spec, E in IH. now rewrite lock_iteration_spec, E.
Qed.

(** [DerefMut] through the guard, and [Drop]. *)
Definition guard_write (f : T -> T) (m : Mutex) : Mutex := mkMutex (f (inner m)) (lock_status m).
Definition guard_drop (m : Mutex) : Mutex := mkMutex (inner m) false.

(** ** Contexts that share the lock *)

Inductive context := Outside | Spinning | Holding.

#[global] Instance context_eq_dec : EqDecision context.
Proof. solve_decision. Defined.

Record lock_state := mkLockState { the_mutex : Mutex; contexts : list context }.

(** The step of context [i]. *)
Inductive lock_step (i : nat) : lock_state -> lock_state -> Prop :=
  | step_call m cs :
      cs !! i = Some Outside -> lock_step i (mkLockState m cs) (mkLockState m (<[i := Spinning]> cs))
  | step_iteration m cs b m' :
      cs !! i = Some Spinning -> lock_iteration m = (b, m') ->
      lock_step i (mkLockState m cs) (mkLockState m' (if b then <[i := Holding]> cs else cs))
  | step_write m cs f :
      cs !! i = Some Holding -> lock_step i (mkLockState m cs) (mkLockState (guard_write f m) cs)
  | step_drop m cs :
      cs !! i = Some Holding -> lock_step i (mkLockState m cs) (mkLockState (guard_drop m) (<[i := Outside]> cs)).

Definition any_step (st st' : lock_state) : Prop := exists i, lock_step i st st'.

(** The lock is taken exactly while one context holds it. *)
Record lock_inv (st : lock_state) : Prop := {
  li_one i j : contexts st !! i = Some Holding -> contexts st !! j = Some Holding -> i = j;
  li_flag : lock_status (the_mutex st) = true <-> exists i, contexts st !! i = Some Holding;
}.

(** After a context changed to something other than [Holding]. *)
Lemma holding_insert (cs : list context) (i : nat) (c : context) (j : nat) :
  <[i := c]> cs !! j = Some Holding -> (j = i /\ c = Holding) \/ (j <> i /\ cs !! j = Some Holding).
Proof.
  destruct (decide (i = j)) as [->|Hne].
  - intros H. left. apply list_lookup_insert_Some in H as [(_ & -> & _)|[? _]]; [auto | congruence].
  - rewrite list_lookup_insert_ne by assumption. auto.
Qed.

Lemma holding_elsewhere (cs : list context) (i : nat) (c : context) (j : nat) :
  j <> i -> cs !! j = Some Holding -> <[i := c]> cs !! j = Some Holding.
Proof. intros. now rewrite list_lookup_insert_ne by congruence. Qed.

Lemma lock_step_inv i st st' : lock_step i st st' -> lock_inv st -> lock_inv st'.
Proof.
  intros Hs [H1 H2]. destruct Hs as [m cs Hi | m cs b m' Hi Ei | m cs f Hi | m cs Hi]; cbn [the_mutex contexts] in *.
  - split; cbn [the_mutex contexts].
    + intros j k [[_ ?]|[_ Hj]]%holding_insert [[_ ?]|[_ Hk]]%holding_insert; [discriminate..|]. eauto.
    + rewrite H2. split; intros [j Hj]; exists j.
      * apply holding_elsewhere; [congruence | assumption].
      * apply holding_insert in Hj as [[_ ?]|[_ Hj]]; [discriminate | assumption].
  - unfold lock_iteration, compare_exchange in Ei. case_bool_decide as Hl; injection Ei as <- <-;
      [|split; [exact H1 | exact H2]].
    assert (Hno : forall j, cs !! j <> Some Holding) by (intros j Hj; assert (lock_status m = true) by (apply H2; eauto); congruence).
    split; cbn [the_mutex contexts lock_status].
    + intros j k [[-> _]|[_ Hj]]%holding_insert [[-> _]|[_ Hk]]%holding_insert; [reflexivity|..];
        [now apply Hno in Hk | now apply Hno in Hj..].
    + split; [|reflexivity]. intros _. exists i. apply list_lookup_insert_eq. eapply lookup_lt_Some; eauto.
  - split; [exact H1 | exact H2].
  - split; cbn [the_mutex contexts guard_drop lock_status].
    + intros j k [[_ ?]|[_ Hj]]%holding_insert [[_ ?]|[_ Hk]]%holding_insert; [discriminate..|]. eauto.
    + split; [discriminate|]. intros [j [[_ ?]|[Hne Hj]]%holding_insert]; [discriminate|]. now destruct (Hne (H1 j i Hj Hi)).
Qed.

(** Nobody has the lock in the beginning. *)
Definition fresh (val : T) (n : nat) : lock_state := mkLockState (Mutex_new val) (replicate n Outside).

Lemma fresh_inv val n : lock_inv (fresh val n).
Proof.
  split; cbn [fresh the_mutex contexts Mutex_new lock_status].
  - intros i j Hi _. apply lookup_replicate in Hi as [? _]. discriminate.
  - split; [discriminate|]. intros [i Hi]. apply lookup_replicate in Hi as [? _]. discriminate.
Qed.

Lemma reachable_inv val n st : rtc any_step (fresh val n) st -> lock_inv st.
Proof.
  intros Hr. generalize (fresh_inv val n). induction Hr as [|x y z [i Hs] _ IH]; [auto|].
  intros Hx. eapply IH, lock_step_inv; eauto.
Qed.

(** C14: the lock excludes: in every reachable state at most one context holds it,
    and while a context holds it no step of another one changes the value it
    protects or takes the lock away. *)
Theorem mutual_exclusion val n st i :
  rtc any_step (fresh val n) st -> contexts st !! i = Some Holding ->
  (forall j, contexts st !! j = Some Holding -> j = i) /\
  (forall j st', j <> i -> lock_step j st st' ->
     inner (the_mutex st') = inner (the_mutex st) /\ contexts st' !! i = Some Holding /\
     lock_status (the_mutex st') = true).
Proof.
  intros Hr Hi. pose proof (reachable_inv _ _ _ Hr) as [H1 H2].
  assert (Hl : lock_status (the_mutex st) = true) by (apply H2; eauto). split; [eauto|].
  intros j st' Hne Hs. destruct Hs as [m cs Hj | m cs b m' Hj Ej | m cs f Hj | m cs Hj]; cbn [the_mutex contexts] in *.
  - rewrite list_lookup_insert_ne by assumption. auto.
  - unfold lock_iteration, compare_exchange in Ej. rewrite Hl in Ej. injection Ej as <- <-. auto.
  - now destruct (Hne (H1 j i Hj Hi)).
  - now destruct (Hne (H1 j i Hj Hi)).
Qed.

(** C31: the lock does not get stuck: in every reachable state in which a context
    spins, either the lock is free and the next iteration of that context takes
    it, or another context holds the lock, and as soon as it drops its guard the
    next iteration takes it. *)
Theorem lock_handover val n st i :
  rtc any_step (fresh val n) st -> contexts st !! i = Some Spinning ->
  (exists st', lock_step i st st' /\ contexts st' !! i = Some Holding) \/
  (exists j st' st'', j <> i /\ contexts st !! j = Some Holding /\ lock_step j st st' /\
     lock_step i st' st'' /\ contexts st'' !! i = Some Holding /\
     inner (the_mutex st'') = inner (the_mutex st)).
Proof.
  intros Hr Hi. pose proof (reachable_inv _ _ _ Hr) as [H1 H2]. destruct st as [m cs]. cbn [the_mutex contexts] in *.
  assert (Hlen : (i < length cs)%nat) by (eapply lookup_lt_Some; eauto).
  destruct (lock_status m) eqn:Hl.
  - right. destruct (proj1 H2 eq_refl) as [j Hj]. assert (Hne : j <> i) by congruence.
    exists j. do 2 eexists. split; [exact Hne|]. split; [exact Hj|]. split; [now apply step_drop|].
    split; [|split].
    + apply (step_iteration i (guard_drop m) (<[j := Outside]> cs) true (mkMutex (inner m) true)); [|reflexivity].
      now rewrite list_lookup_insert_ne.
    + cbn. apply list_lookup_insert_eq. rewrite length_insert. exact Hlen.
    + reflexivity.
  - left. eexists. split.
    + apply (step_iteration i m cs true (mkMutex (inner m) true) Hi).
      unfold lock_iteration, compare_exchange. now rewrite Hl.
    + cbn. now apply list_lookup_insert_eq.
Qed.

(** C39: a handler that interrupts the holder of a lock and asks for the same lock
    waits forever: the holder cannot run before the handler returns, and no
    number of steps of the handler alone gets it the lock.  The timer handler
    prints, and so does the code it interrupts. *)
Theorem interrupt_deadlock val n st holder handler st' :
  rtc any_step (fresh val n) st -> contexts st !! holder = Some Holding ->
  contexts st !! handler = Some Spinning -> rtc (lock_step handler) st st' ->
  contexts st' !! handler = Some Spinning.
Proof.
  intros Hr Hh Hs Hrun. pose proof (reachable_inv _ _ _ Hr) as Hinv.
  induction Hrun as [st | st st1 st' Hstep _ IH]; [assumption|].
  assert (Hl : lock_status (the_mutex st) = true) by (apply (li_flag _ Hinv); eauto).
  pose proof (lock_step_inv _ _ _ Hstep Hinv) as Hinv1.
  assert (st1 = st) as ->.
  { destruct Hstep as [m cs Hj | m cs b m' Hj Ej | m cs f Hj | m cs Hj]; cbn [the_mutex contexts] in *; try congruence.
    unfold lock_iteration, compare_exchange in Ej. rewrite Hl in Ej. now injection Ej as <- <-. }
  apply IH; [|assumption..]. exact Hr.
Qed.
End Mutex.

(** Two contexts: the first takes the lock, the second spins. *)
Definition contended : lock_state := mkLockState (mkMutex 7%nat true) [Holding; Spinning].

Lemma contended_reachable : rtc any_step (fresh 7%nat 2) contended.
Proof.
  eapply rtc_l; [exists 0%nat; now apply step_call|].
  eapply rtc_l; [exists 0%nat; eapply step_iteration; reflexivity|].
  eapply rtc_l; [exists 1%nat; now apply step_call|].
  apply rtc_refl.
Qed.

Lemma mutual_exclusion_witness :
  (forall j, contexts contended !! j = Some Holding -> j = 0%nat) /\
  (forall j st', j <> 0%nat -> lock_step j contended st' ->
     inner (the_mutex st') = 7%nat /\ contexts st' !! 0%nat = Some Holding /\ lock_status (the_mutex st') = true).
Proof. exact (mutual_exclusion 7%nat 2 contended 0%nat contended_reachable eq_refl). Defined.

Lemma lock_handover_witness :
  (exists st', lock_step 1 contended st' /\ contexts st' !! 1%nat = Some Holding) \/
  (exists j st' st'', j <> 1%nat /\ contexts contended !! j = Some Holding /\ lock_step j contended st' /\
     lock_step 1 st' st'' /\ contexts st'' !! 1%nat = Some Holding /\
     inner (the_mutex st'') = inner (the_mutex contended)).
Proof. exact (lock_handover 7%nat 2 contended 1%nat contended_reachable eq_refl). Defined.

(** The second one tries twice in vain. *)
Lemma contended_spin : rtc (lock_step 1) contended contended.
Proof.
  apply (rtc_l _ _ contended); [|apply (rtc_l _ _ contended); [|apply rtc_refl]];
    exact (step_iteration 1 (mkMutex 7%nat true) [Holding; Spinning] false _ eq_refl eq_refl).
Qed.

Lemma interrupt_deadlock_witness : contexts contended !! 1%nat = Some Spinning.
Proof.
  exact (interrupt_deadlock 7%nat 2 contended 0%nat 1%nat contended contended_reachable eq_refl eq_refl contended_spin).
Defined.
