(* ===== verification/Fmt.v ===== *)
(** Formatted text: what the sources use of [core::fmt].

    A character is its code point, a text a list of characters.  The radix
    formatting of unsigned integers produces the digits from the last one on, as
    the library does; reading the digits back gives the number, so that what is
    printed determines what was printed. *)
From Stdlib Require Import ZArith Lia Ascii String.
From stdpp Require Import base tactics numbers list.
From S2P Require Import Prelude.
#[local] Open Scope Z_scope.

(** ** Text *)

Definition char_code (a : ascii) : Z := Z.of_N (N_of_ascii a).
Definition text (s : string) : list Z := char_code <$> list_ascii_of_string s.
Arguments text s%_string.
Definition newline : list Z := [10].

(** ** Unsigned integers *)

(** Digits of [LowerHex] and of the decimal [Display]. *)
Definition digit_char (d : Z) : Z := if d <? 10 then 48 + d else 87 + d.

(** The digits of [n] in front of [acc]; at least one. *)
Fixpoint digits_loop (fuel : nat) (base n : Z) (acc : list Z) : list Z :=
  match fuel with
  | O => acc
  | S fuel =>
      let acc := digit_char (n mod base) :: acc in
      if n <? base then acc else digits_loop fuel base (n / base) acc
  end.

(** 64 digits are enough for a [u64] in any base. *)
Definition digits (base n : Z) : list Z := digits_loop 64 base n [].

(** [{}] *)
Definition fmt_dec (n : Z) : list Z := digits 10 n.
(** [{:x}] *)
Definition fmt_hex (n : Z) : list Z := digits 16 n.
(** [{:#x}] *)
Definition fmt_hex_alt (n : Z) : list Z := text "0x" ++ fmt_hex n.
(** [{:#0wx}]: the zeroes go between the prefix and the digits, and the width
    counts the prefix. *)
Definition fmt_hex_padded (w : nat) (n : Z) : list Z :=
  text "0x" ++ replicate (w - 2 - length (fmt_hex n)) 48 ++ fmt_hex n.
(** [{}] of a [bool] *)
Definition fmt_bool (b : bool) : list Z := if b then text "true" else text "false".

(** ** Reading digits back *)

Definition char_digit (base c : Z) : option Z :=
  let d := if c <? 58 then c - 48 else c - 87 in
  if (48 <=? c) && ((c <? 58) || (97 <=? c)) && (d <? base) then Some d else None.

(** The value of the digits in front, and the rest. *)
Fixpoint read_digits (base acc : Z) (l : list Z) : Z * list Z :=
  match l with
  | c :: l' =>
      match char_digit base c with
      | Some d => read_digits base (acc * base + d) l'
      | None => (acc, l)
      end
  | [] => (acc, [])
  end.

(** No digit in front. *)
Definition no_digit (base : Z) (l : list Z) : Prop :=
  match l with c :: _ => char_digit base c = None | [] => True end.

(** The literal [s] in front. *)
Fixpoint strip (s l : list Z) : option (list Z) :=
  match s, l with
  | [], _ => Some l
  | c :: s, d :: l => if c =? d then strip s l else None
  | _ :: _, [] => None
  end.

Lemma strip_app s l : strip s (s ++ l) = Some l.
Proof. induction s as [|c s IH]; [reflexivity|]. cbn [strip app]. now rewrite Z.eqb_refl. Qed.

Section Digits.
Context (base : Z) (Hbase : 2 <= base <= 16).

Lemma char_digit_char d : 0 <= d < base -> char_digit base (digit_char d) = Some d.
Proof.
  intros Hd. unfold digit_char. destruct (Z.ltb_spec d 10) as [H|H]; unfold char_digit.
  - rewrite (proj2 (Z.ltb_lt _ 58)) by lia. rewrite (proj2 (Z.leb_le 48 _)) by lia. cbn [andb orb].
    rewrite (proj2 (Z.ltb_lt _ base)) by lia. f_equal. lia.
  - rewrite (proj2 (Z.ltb_ge _ 58)) by lia. rewrite (proj2 (Z.leb_le 48 _)), (proj2 (Z.leb_le 97 _)) by lia. cbn [andb orb].
    rewrite (proj2 (Z.ltb_lt _ base)) by lia. f_equal. lia.
Qed.

(** The number of digits is bounded by any power above the number. *)
Lemma read_digits_loop fuel n acc k :
  0 <= n < base ^ Z.of_nat fuel -> (0 < fuel)%nat ->
  exists ds, digits_loop fuel base n acc = ds ++ acc /\ ds <> [] /\
    read_digits base k (ds ++ acc) = read_digits base (k * base ^ Z.of_nat (length ds) + n) acc.
Proof.
  revert n acc. induction fuel as [|fuel IH]; intros n acc Hn Hf; [lia|]. cbn [digits_loop].
  destruct (Z.ltb_spec n base) as [Hlt|Hge].
  - rewrite Z.mod_small by lia. exists [digit_char n]. split; [reflexivity|]. split; [discriminate|].
    cbn [app read_digits]. rewrite char_digit_char by lia. cbn [length]. now rewrite Z.pow_1_r.
  - assert (Hn' : 0 <= n / base < base ^ Z.of_nat fuel).
    { split; [apply Z.div_pos; lia|]. apply Z.div_lt_upper_bound; [lia|]. now rewrite <- Z.pow_succ_r, <- Nat2Z.inj_succ by lia. }
    destruct fuel as [|fuel]; [rewrite Z.pow_0_r in Hn'; assert (0 < n / base) by (apply Z.div_str_pos; lia); lia|].
    destruct (IH (n / base) (digit_char (n mod base) :: acc) Hn' ltac:(lia)) as (ds & -> & Hne & Hr).
    pose proof (Z.mod_pos_bound n base ltac:(lia)).
    exists (ds ++ [digit_char (n mod base)]). rewrite <- app_assoc. split; [reflexivity|].
    split; [now destruct ds|]. cbn [app]. rewrite Hr. cbn [read_digits]. rewrite char_digit_char by lia.
    rewrite length_app, Nat2Z.inj_add. cbn [length]. rewrite Z.pow_add_r, Z.pow_1_r by lia. f_equal.
    rewrite (Z.div_mod n base) at 3 by lia. ring.
Qed.

Lemma read_digits_stop k l : no_digit base l -> read_digits base k l = (k, l).
Proof. destruct l as [|c l]; [reflexivity|]. cbn. now intros ->. Qed.

(** What was formatted is read back, up to the next character that is no digit. *)
Lemma read_digits_digits n l : in_width 64 n -> no_digit base l -> read_digits base 0 (digits base n ++ l) = (n, l).
Proof.
  intros Hn Hl. assert (Hb : 0 <= n < base ^ Z.of_nat 64).
  { unfold in_width in Hn. assert (2 ^ 64 <= base ^ 64) by (apply Z.pow_le_mono_l; lia). change (Z.of_nat 64) with 64. lia. }
  assert (E : digits base n ++ l = digits_loop 64 base n l).
  { unfold digits. destruct (read_digits_loop 64 n [] 0 Hb ltac:(lia)) as (ds & _ & _ & _). clear. generalize 64%nat. intros fuel.
    change l with ([] ++ l) at 2. generalize (@nil Z) as acc. revert n. induction fuel as [|fuel IH]; intros n acc; [reflexivity|]. cbn [digits_loop].
    destruct (n <? base); [reflexivity|]. rewrite IH. reflexivity. }
  rewrite E. destruct (read_digits_loop 64 n l 0 Hb ltac:(lia)) as (ds & -> & _ & ->). rewrite Z.mul_0_l, Z.add_0_l.
  now apply read_digits_stop.
Qed.

Lemma digits_not_empty n : digits base n <> [].
Proof.
  unfold digits. cut (forall fuel acc, acc <> [] \/ fuel <> 0%nat -> digits_loop fuel base n acc <> []); [intros H; now apply H; right|].
  intros fuel. revert n. induction fuel as [|fuel IH]; intros n acc H; cbn [digits_loop]; [now destruct H|].
  destruct (n <? base); [discriminate|]. apply IH. now left.
Qed.
End Digits.

(** Leading zeroes do not matter. *)
Lemma read_digits_zeroes k l : read_digits 16 0 (replicate k 48 ++ l) = read_digits 16 0 l.
Proof. induction k as [|k IH]; [reflexivity|]. cbn [replicate app read_digits]. exact IH. Qed.

Lemma read_hex_padded w n l :
  in_width 64 n -> no_digit 16 l ->
  exists rest, strip (text "0x") (fmt_hex_padded w n ++ l) = Some rest /\ read_digits 16 0 rest = (n, l).
Proof.
  intros Hn Hl. unfold fmt_hex_padded. rewrite <- !app_assoc, strip_app. eexists. split; [reflexivity|].
  rewrite read_digits_zeroes. apply read_digits_digits; [lia | assumption..].
Qed.

(** ** Printable text *)

Definition printable (l : list Z) : Prop := Forall (fun c => 0 <= c <= 0x7f) l.

Lemma printable_dec l : forallb (fun c => (0 <=? c) && (c <=? 0x7f)) l = true -> printable l.
Proof. intros Hl. rewrite List.forallb_forall in Hl. apply Forall_forall. intros c Hc%list_elem_of_In%Hl. lia. Qed.

(** The characters of a number. *)
Lemma digits_shape base n c : 2 <= base <= 16 -> c ∈ digits base n -> 48 <= c <= 57 \/ 97 <= c <= 102.
Proof.
  intros Hb. cut (Forall (fun c => 48 <= c <= 57 \/ 97 <= c <= 102) (digits base n)); [intros H; exact (proj1 (Forall_forall _ _) H c)|].
  unfold digits. generalize (Forall_nil_2 (fun c => 48 <= c <= 57 \/ 97 <= c <= 102)). generalize (@nil Z) as acc.
  generalize 64%nat as fuel. intros fuel. revert n. induction fuel as [|fuel IH]; intros n acc Ha; [exact Ha|]. cbn [digits_loop].
  assert (Hc : Forall (fun c => 48 <= c <= 57 \/ 97 <= c <= 102) (digit_char (n mod base) :: acc)).
  { constructor; [|exact Ha]. pose proof (Z.mod_pos_bound n base ltac:(lia)). unfold digit_char.
    destruct (Z.ltb_spec (n mod base) 10); lia. }
  destruct (n <? base); [exact Hc | now apply IH].
Qed.

Lemma digits_printable base n : 2 <= base <= 16 -> printable (digits base n).
Proof. intros Hb. apply Forall_forall. intros c Hc. pose proof (digits_shape base n c Hb Hc). lia. Qed.

Lemma hex_padded_printable w n : printable (fmt_hex_padded w n).
Proof.
  unfold fmt_hex_padded. apply Forall_app. split; [apply printable_dec; reflexivity|]. apply Forall_app.
  split; [apply Forall_replicate; lia | apply digits_printable; lia].
Qed.
