(* ===== verification/Serial.v ===== *)
(** The serial line and printing over it: [x86_64/src/uart.rs],
    [x86_64/src/print.rs].

    The driver polls the line status before every byte.  The contract of the
    16550 is a class: the transmitter becomes empty after finitely many polls,
    and a byte written to an empty transmitter is sent. *)
From Stdlib Require Import ZArith Lia.
From stdpp Require Import base tactics numbers list sets.
From S2P Require Import Prelude Crates Ports SpinLock Fmt.
#[local] Open Scope Z_scope.

Definition DATA_READY : Z := 1 ≪ 0.
Definition TRANSMITTER_HOLDING_REGISTER_EMPTY : Z := 1 ≪ 5.
(** All eight bits are declared. *)
Definition LineStatusFlags_all : Z := 0xff.

Record SerialPort := mkSerialPort {
  sp_data : Port u8;
  int_en : Port u8;
  fifo_ctrl : Port u8;
  line_ctrl : Port u8;
  modem_ctrl : Port u8;
  line_stat : Port u8;
  mode_stat : Port u8;
}.

Definition SerialPort_new (base : Z) : outcome SerialPort :=
  p1 ← uadd 16 base 1; p2 ← uadd 16 base 2; p3 ← uadd 16 base 3;
  p4 ← uadd 16 base 4; p5 ← uadd 16 base 5; p6 ← uadd 16 base 6;
  Ret (mkSerialPort (Port_new base) (Port_new p1) (Port_new p2) (Port_new p3) (Port_new p4) (Port_new p5) (Port_new p6)).

Section Uart.
Context `{FL : Bitflags} `{IO : IoPorts W}.

Definition serial_init (s : SerialPort) (w : W) : W :=
  let w := Port_write (int_en s) 0x0 w in
  let w := Port_write (line_ctrl s) 0x80 w in
  let w := Port_write (sp_data s) 0x3 w in
  let w := Port_write (int_en s) 0x0 w in
  let w := Port_write (line_ctrl s) 0x3 w in
  let w := Port_write (fifo_ctrl s) 0xC7 w in
  let w := Port_write (modem_ctrl s) 0x0B w in
  Port_write (int_en s) 0x01 w.

Definition line_status_flags (s : SerialPort) (w : W) : Z * W :=
  let '(v, w) := Port_read (line_stat s) w in
  (flags_from_bits_truncate LineStatusFlags_all v, w).

(** [wait_for!] the flag. *)
Fixpoint wait_for (fuel : nat) (s : SerialPort) (flag : Z) (w : W) : outcome W :=
  match fuel with
  | O => Panic FuelExhausted
  | S fuel =>
      let '(flags, w) := line_status_flags s w in
      if flags_contains flags flag then Ret w else wait_for fuel s flag w
  end.

Definition send (fuel : nat) (s : SerialPort) (data : Z) (w : W) : outcome W :=
  w ← wait_for fuel s TRANSMITTER_HOLDING_REGISTER_EMPTY w;
  Ret (Port_write (sp_data s) data w).

Definition recv (fuel : nat) (s : SerialPort) (w : W) : outcome (Z * W) :=
  w ← wait_for fuel s DATA_READY w;
  Ret (Port_read (sp_data s) w).

(** Characters are their code points. *)
Definition is_ascii (c : Z) : bool := c <=? 0x7f.

Fixpoint write_str (fuel : nat) (s : SerialPort) (str : list Z) (w : W) : outcome W :=
  match str with
  | [] => Ret w
  | c :: str =>
      w ← send fuel s (if is_ascii c then ucast 8 c else 46) w;
      write_str fuel s str w
  end.

(** [SERIAL] at its first use. *)
Definition SERIAL (w : W) : outcome (@Mutex SerialPort * W) :=
  serial_port ← SerialPort_new 0x3F8;
  Ret (Mutex_new serial_port, serial_init serial_port w).

(** [write_fmt] writes the pieces of the formatted text. *)
Fixpoint write_fmt (fuel : nat) (s : SerialPort) (args : list (list Z)) (w : W) : outcome W :=
  match args with
  | [] => Ret w
  | piece :: args => w ← write_str fuel s piece w; write_fmt fuel s args w
  end.

Definition print (fuel : nat) (args : list (list Z)) (st : @Mutex SerialPort * W) : outcome (@Mutex SerialPort * W) :=
  let '(serial, w) := st in
  serial ← lock fuel serial;
  w ← write_fmt fuel (SpinLock.inner serial) args w;
  Ret (guard_drop serial, w).

(** The lazy static of a program, uninitialised before its first use, and the devices. *)
Record console := mkConsole { c_serial : option (@Mutex SerialPort); c_world : W }.

Definition console_print (fuel : nat) (args : list (list Z)) (c : console) : outcome console :=
  '(serial, w) ← match c_serial c with Some serial => Ret (serial, c_world c) | None => SERIAL (c_world c) end;
  '(serial, w) ← print fuel args (serial, w);
  Ret (mkConsole (Some serial) w).

(** [println!] *)
Definition println (fuel : nat) (args : list (list Z)) (c : console) : outcome console :=
  console_print fuel (args ++ [newline]) c.
End Uart.
Arguments console W : clear implicits.

(** ** The device *)

(** A 16550 at [base]: [polls] is the number of status reads until the
    transmitter is empty, [sent] what went out on the line, [dlab] whether the
    data port is the divisor latch. *)
Class UartWorld (W : Type) `{IO : IoPorts W} (base : Z) := {
  polls : W -> nat;
  sent : W -> list Z;
  dlab : W -> bool;
  polls_bound : nat;
  uw_bound w : (polls w <= polls_bound)%nat;
  uw_status w : let '(v, w') := port_in u8 (base + 5) w in
    in_width 8 v /\ Z.testbit v 5 = bool_decide (polls w = 0%nat) /\
    polls w' = pred (polls w) /\ sent w' = sent w /\ dlab w' = dlab w;
  uw_send w v : dlab w = false -> polls w = 0%nat ->
    sent (port_out u8 base v w) = sent w ++ [v] /\ dlab (port_out u8 base v w) = false;
  uw_divisor w v : dlab w = true ->
    sent (port_out u8 base v w) = sent w /\ dlab (port_out u8 base v w) = true;
  uw_line_ctrl w v :
    sent (port_out u8 (base + 3) v w) = sent w /\ dlab (port_out u8 (base + 3) v w) = Z.testbit v 7;
  uw_control w v i : i ∈ [1; 2; 4] ->
    sent (port_out u8 (base + i) v w) = sent w /\ dlab (port_out u8 (base + i) v w) = dlab w;
}.

Section UartTheorems.
Context `{FL : Bitflags} `{FLS : !BitflagsSpec FL} `{UW : UartWorld W 0x3F8}.

Definition com1 : SerialPort :=
  mkSerialPort (Port_new 0x3F8) (Port_new 0x3F9) (Port_new 0x3FA) (Port_new 0x3FB) (Port_new 0x3FC) (Port_new 0x3FD)
    (Port_new 0x3FE).

(** The byte a character is sent as. *)
Definition char_byte (c : Z) : Z := if is_ascii c then ucast 8 c else 46.

(** Printable characters are sent as they are. *)
Lemma sent_printable l : printable l -> char_byte <$> l = l.
Proof.
  induction 1 as [|c l Hc _ IH]; [reflexivity|]. rewrite fmap_cons, IH. f_equal.
  unfold char_byte, is_ascii. rewrite (proj2 (Z.leb_le _ _)) by lia. unfold ucast. apply Z.mod_small. lia.
Qed.

Lemma wait_for_spec fuel w :
  (polls w < fuel)%nat ->
  exists w', wait_for fuel com1 TRANSMITTER_HOLDING_REGISTER_EMPTY w = Ret w' /\
    polls w' = 0%nat /\ sent w' = sent w /\ dlab w' = dlab w.
Proof.
  revert w. induction fuel as [|fuel IH]; intros w Hf; [lia|]. cbn [wait_for].
  unfold line_status_flags, Port_read, read_from_register, com1. cbn [line_stat address].
  pose proof (uw_status w) as Hs. change (0x3F8 + 5) with 0x3FD in Hs.
  destruct (port_in u8 0x3FD w) as [v w1]. destruct Hs as (Hv & Hb & Hp & Hsent & Hd).
  rewrite flags_from_bits_truncate_spec.
  assert (Hc : flags_contains (Z.land v LineStatusFlags_all) TRANSMITTER_HOLDING_REGISTER_EMPTY = bool_decide (polls w = 0%nat)).
  { rewrite <- Hb. change LineStatusFlags_all with (Z.ones 8). rewrite Z.land_ones, Z.mod_small by (exact Hv || lia).
    change TRANSMITTER_HOLDING_REGISTER_EMPTY with (2 ^ 5). apply eq_true_iff_eq. rewrite flags_contains_spec.
    split; intros H.
    - apply (f_equal (fun z => Z.testbit z 5)) in H. rewrite Z.land_spec, Z.pow2_bits_true in H by lia.
      now rewrite andb_true_r in H.
    - apply Z.bits_inj'. intros i Hi. rewrite Z.land_spec, Z.pow2_bits_eqb by lia.
      destruct (Z.eqb_spec 5 i) as [<-|]; [now rewrite H | now rewrite andb_false_r]. }
  rewrite Hc. case_bool_decide as H0.
  - exists w1. split; [reflexivity|]. split; [now rewrite Hp, H0|]. auto.
  - destruct (IH w1) as (w' & E & H1 & H2 & H3); [lia|]. exists w'. split; [exact E|]. split; [exact H1|].
    now rewrite H2, H3.
Qed.

Lemma send_spec fuel w v :
  (polls_bound < fuel)%nat -> dlab w = false ->
  exists w', send fuel com1 v w = Ret w' /\ sent w' = sent w ++ [v] /\ dlab w' = false.
Proof.
  intros Hf Hd. unfold send. pose proof (uw_bound w).
  destruct (wait_for_spec fuel w) as (w1 & -> & Hp & Hs & Hd1); [lia|]. cbn [mbind outcome_bind].
  eexists. split; [reflexivity|]. unfold Port_write, write_to_register, com1. cbn [sp_data address].
  destruct (uw_send w1 v) as [-> ->]; [congruence|exact Hp|]. now rewrite Hs.
Qed.

Lemma write_str_spec fuel str w :
  (polls_bound < fuel)%nat -> dlab w = false ->
  exists w', write_str fuel com1 str w = Ret w' /\ sent w' = sent w ++ (char_byte <$> str) /\ dlab w' = false.
Proof.
  intros Hf. revert w. induction str as [|c str IH]; intros w Hd; cbn [write_str].
  - exists w. rewrite app_nil_r. auto.
  - destruct (send_spec fuel w (char_byte c) Hf Hd) as (w1 & E & Hs & Hd1). unfold char_byte in E at 1. rewrite E.
    cbn [mbind outcome_bind]. destruct (IH w1 Hd1) as (w' & -> & Hs' & Hd'). exists w'.
    rewrite Hs', Hs, <- app_assoc. auto.
Qed.

Lemma write_fmt_spec fuel args w :
  (polls_bound < fuel)%nat -> dlab w = false ->
  exists w', write_fmt fuel com1 args w = Ret w' /\ sent w' = sent w ++ (char_byte <$> concat args) /\ dlab w' = false.
Proof.
  intros Hf. revert w. induction args as [|a args IH]; intros w Hd; cbn [write_fmt concat].
  - exists w. rewrite app_nil_r. auto.
  - destruct (write_str_spec fuel a w Hf Hd) as (w1 & -> & Hs & Hd1). cbn [mbind outcome_bind].
    destruct (IH w1 Hd1) as (w' & -> & Hs' & Hd'). exists w'. rewrite Hs', Hs, fmap_app, app_assoc. auto.
Qed.

(** The state of the line while it is set up: nothing is sent. *)
Definition quiet (bytes : list Z) (d : bool) (w : W) : Prop := sent w = bytes /\ dlab w = d.

Lemma quiet_control i v bytes d w : i ∈ [1; 2; 4] -> quiet bytes d w -> quiet bytes d (port_out u8 (0x3F8 + i) v w).
Proof. intros Hi [<- <-]. now apply uw_control. Qed.
Lemma quiet_line_ctrl v bytes d w : quiet bytes d w -> quiet bytes (Z.testbit v 7) (port_out u8 (0x3F8 + 3) v w).
Proof. intros [<- _]. apply uw_line_ctrl. Qed.
Lemma quiet_divisor v bytes w : quiet bytes true w -> quiet bytes true (port_out u8 0x3F8 v w).
Proof. intros [<- Hd]. now apply uw_divisor. Qed.

Lemma SERIAL_spec w :
  exists w', SERIAL w = Ret (Mutex_new com1, w') /\ sent w' = sent w /\ dlab w' = false.
Proof.
  eexists. split; [reflexivity|]. unfold serial_init, Port_write, write_to_register.
  cbn [int_en line_ctrl sp_data fifo_ctrl modem_ctrl address]. match goal with |- sent ?x = _ /\ _ => change (quiet (sent w) false x) end.
  apply (quiet_control 1); [set_solver|]. apply (quiet_control 4); [set_solver|]. apply (quiet_control 2); [set_solver|].
  apply (quiet_line_ctrl 3 _ true). apply (quiet_control 1); [set_solver|]. apply quiet_divisor.
  apply (quiet_line_ctrl 0x80 _ (dlab w)). apply (quiet_control 1); [set_solver|]. split; reflexivity.
Qed.

(** What does not depend on the ports of the serial line. *)
Definition uart_blind {X} (f : W -> X) : Prop :=
  forall p v w, 0x3F8 <= p <= 0x3FE -> f (port_out u8 p v w) = f w /\ f (port_in u8 p w).2 = f w.

Section Blind.
Context {X : Type} (f : W -> X) (Hf : uart_blind f).

Lemma wait_for_blind fuel flag w w' : wait_for fuel com1 flag w = Ret w' -> f w' = f w.
Proof.
  revert w. induction fuel as [|fuel IH]; intros w; [discriminate|]. cbn [wait_for].
  unfold line_status_flags, Port_read, read_from_register, com1. cbn [line_stat address].
  destruct (Hf 0x3FD 0 w) as [_ Hi]; [lia|]. destruct (port_in u8 0x3FD w) as [v w1]. cbn [snd] in Hi.
  destruct (flags_contains _ _); [intros [= <-]; exact Hi | intros E; rewrite <- Hi; now apply IH].
Qed.

Lemma write_str_blind fuel str w w' : write_str fuel com1 str w = Ret w' -> f w' = f w.
Proof.
  revert w. induction str as [|c str IH]; intros w; cbn [write_str]; [now intros [= <-]|]. unfold send.
  destruct (wait_for fuel com1 _ w) as [w1|] eqn:E; [|discriminate]. cbn [mbind outcome_bind]. intros E'. apply IH in E'.
  rewrite E'. unfold Port_write, write_to_register, com1. cbn [sp_data address].
  rewrite (proj1 (Hf 0x3F8 _ w1 ltac:(lia))). eapply wait_for_blind; eauto.
Qed.

Lemma write_fmt_blind fuel args w w' : write_fmt fuel com1 args w = Ret w' -> f w' = f w.
Proof.
  revert w. induction args as [|a args IH]; intros w; cbn [write_fmt]; [now intros [= <-]|].
  destruct (write_str fuel com1 a w) as [w1|] eqn:E; [|discriminate]. cbn [mbind outcome_bind]. intros E'. apply IH in E'.
  rewrite E'. eapply write_str_blind; eauto.
Qed.

Lemma serial_init_blind w : f (serial_init com1 w) = f w.
Proof.
  unfold serial_init, Port_write, write_to_register, com1.
  cbn [int_en line_ctrl sp_data fifo_ctrl modem_ctrl address].
  now rewrite !(fun p v w H => proj1 (Hf p v w H)) by lia.
Qed.
End Blind.

(** A console whose lock is free. *)
Definition console_ok (c : console W) : Prop :=
  match c_serial c with Some s => s = Mutex_new com1 /\ dlab (c_world c) = false | None => True end.

(** [args] went out on the line, and nothing else changed. *)
Definition printed (args : list (list Z)) (c c' : console W) : Prop :=
  console_ok c' /\ sent (c_world c') = sent (c_world c) ++ (char_byte <$> concat args) /\
  forall X (f : W -> X), uart_blind f -> f (c_world c') = f (c_world c).

Lemma printed_trans args args' c c1 c2 : printed args c c1 -> printed args' c1 c2 -> printed (args ++ args') c c2.
Proof.
  intros (_ & E1 & F1) (H2 & E2 & F2). split; [exact H2|]. split.
  - rewrite E2, E1, concat_app, fmap_app, app_assoc. reflexivity.
  - intros X f Hf. now rewrite F2, F1.
Qed.

Lemma printed_nil c : console_ok c -> printed [] c c.
Proof. intros H. split; [exact H|]. split; [now rewrite app_nil_r | reflexivity]. Qed.

Lemma console_print_spec fuel args c :
  (polls_bound < fuel)%nat -> console_ok c -> exists c', console_print fuel args c = Ret c' /\ printed args c c'.
Proof.
  intros Hf Hc. unfold console_print.
  assert (exists w, (match c_serial c with Some serial => Ret (serial, c_world c) | None => SERIAL (c_world c) end)
      = Ret (Mutex_new com1, w) /\ sent w = sent (c_world c) /\ dlab w = false /\
      forall X (f : W -> X), uart_blind f -> f w = f (c_world c)) as (w & -> & Hs & Hd & Hb).
  { unfold console_ok in Hc. destruct (c_serial c) as [s|].
    - destruct Hc as [-> Hd]. eauto.
    - destruct (SERIAL_spec (c_world c)) as (w & E & Hs & Hd). exists w. repeat (split; [assumption|]).
      intros X f Hx. injection E as <-. now apply serial_init_blind. }
  cbn [mbind outcome_bind]. unfold print. destruct fuel as [|fuel]; [lia|]. rewrite lock_spec.
  cbn [Mutex_new lock_status mbind outcome_bind SpinLock.inner].
  destruct (write_fmt_spec (S fuel) args w Hf Hd) as (w' & E & Hs' & Hd'). rewrite E. cbn [mbind outcome_bind].
  eexists. split; [reflexivity|]. split; [now split|]. cbn [c_world]. split; [now rewrite Hs', Hs|].
  intros X f Hx. rewrite <- Hb by exact Hx. eapply write_fmt_blind; eauto.
Qed.

Lemma println_spec fuel args c :
  (polls_bound < fuel)%nat -> console_ok c ->
  exists c', println fuel args c = Ret c' /\ printed (args ++ [newline]) c c'.
Proof. apply console_print_spec. Qed.

(** C30: printing gets through: from the moment the serial line is set up, [print]
    with the lock free returns after finitely many polls per character (the
    transmitter's bound), has sent exactly the bytes of the text in order, a dot
    for every character that is not ASCII, and leaves the lock free.  With the
    lock taken it does not return. *)
Theorem print_transmits fuel args w0 :
  (polls_bound < fuel)%nat ->
  exists serial w, SERIAL w0 = Ret (serial, w) /\
    (exists w', print fuel args (serial, w) = Ret (serial, w') /\
       sent w' = sent w0 ++ (char_byte <$> concat args) /\ dlab w' = false) /\
    (forall fuel', print (S fuel') args (mkMutex (SpinLock.inner serial) true, w) = Panic FuelExhausted).
Proof.
  intros Hf. destruct (SERIAL_spec w0) as (w & E & Hs & Hd). exists (Mutex_new com1), w. split; [exact E|]. split.
  - unfold print. destruct fuel as [|fuel]; [lia|]. rewrite lock_spec. cbn [Mutex_new lock_status mbind outcome_bind].
    cbn [SpinLock.inner Mutex_new]. destruct (write_fmt_spec (S fuel) args w Hf Hd) as (w' & -> & Hs' & Hd'). exists w'.
    split; [reflexivity|]. now rewrite Hs', Hs.
  - intros fuel'. unfold print. now rewrite lock_spec.
Qed.
End UartTheorems.

(** ** A line that is busy for three polls after every byte *)

Record line := mkLine { line_busy : nat; line_sent : list Z; line_dlab : bool }.

#[local] Instance line_ports : IoPorts line := {
  port_in _ p l :=
    if p =? 0x3FD then
      let busy := Nat.min 3 (line_busy l) in
      (if bool_decide (busy = 0%nat) then 0x60 else 0x40, mkLine (pred busy) (line_sent l) (line_dlab l))
    else (0, l);
  port_out _ p v l :=
    if p =? 0x3F8 then if line_dlab l then l else mkLine 3 (line_sent l ++ [v]) false
    else if p =? 0x3FB then mkLine (line_busy l) (line_sent l) (Z.testbit v 7) else l;
}.

#[local] Program Instance line_uart : UartWorld line 0x3F8 := {
  polls l := Nat.min 3 (line_busy l); sent := line_sent; dlab := line_dlab; polls_bound := 3;
}.
Next Obligation. intros w. cbn beta. lia. Qed.
Next Obligation.
  intros l. cbn [port_in line_ports Z.eqb Pos.eqb Z.add Pos.add]. change (0x3F8 + 5 =? 0x3FD) with true. cbn beta iota zeta.
  case_bool_decide as E; cbn [line_busy line_sent line_dlab];
    (split; [unfold in_width; lia|]); (split; [reflexivity|]); (split; [lia|]); auto.
Qed.
Next Obligation. intros l v Hd Hp. cbn in *. now rewrite Hd. Qed.
Next Obligation. intros l v Hd. cbn in *. now rewrite Hd. Qed.
Next Obligation. intros l v. split; reflexivity. Qed.
Next Obligation. intros l v i Hi. repeat (apply elem_of_cons in Hi as [->|Hi]; [split; reflexivity|]). now apply not_elem_of_nil in Hi. Qed.

#[local] Existing Instances ref_bitflags ref_bitflags_ok.

Lemma print_transmits_witness :
  exists serial w, SERIAL (mkLine 2 [] true) = Ret (serial, w) /\
    (exists w', print 4 [[72; 105]; [228; 10]] (serial, w) = Ret (serial, w') /\
       sent w' = [72; 105; 46; 10] /\ dlab w' = false) /\
    (forall fuel', print (S fuel') [[72; 105]; [228; 10]] (mkMutex (SpinLock.inner serial) true, w) = Panic FuelExhausted).
Proof.
  change [72; 105; 46; 10] with (sent (mkLine 2 [] true) ++ (char_byte <$> concat [[72; 105]; [228; 10]])).
  apply (print_transmits 4 [[72; 105]; [228; 10]] (mkLine 2 [] true)). cbn. lia.
Defined.
