(* ===== verification/KernelLoader.v ===== *)
(** Loading the kernel: [stage4/src/elf.rs].

    Stage 2 has read the kernel's ELF file into physical memory; the loader maps
    its segments at [virtual_base], provides zeroed memory for what the file
    does not contain, and applies the relocations.  It is a client of the
    mapper, the translator and the frame allocator.  Stage 4 runs with physical
    memory mapped one to one, so that the bytes of a frame are at its address.

    The [elfloader] crate parses the file and calls the loader back; its part is
    a class with the calls it documents. *)
From Stdlib Require Import ZArith Lia.
From stdpp Require Import base tactics numbers list strings.
From S2P Require Import Prelude Crates Memory Paging AddressSpace BootInfo Ports SpinLock Fmt Serial.
#[local] Open Scope Z_scope.

(** ** The [elfloader] crate *)

Inductive RelocationTypes := R_AMD64_RELATIVE | R_AMD64_other (n : Z).
Inductive RelocationType := reloc_x86 (n : Z) | reloc_x86_64 (typ : RelocationTypes).

Record RelocationEntry := mkRelocationEntry {
  rtype : RelocationType;
  reloc_offset : Z;
  addend : option Z;
}.

(** What the loader asks of a program header. *)
Record ProgramHeader := mkProgramHeader {
  ph_offset : Z;
  virtual_addr : Z;
  file_size : Z;
  mem_size : Z;
  is_execute : bool;
  is_write : bool;
}.

(** The methods of the trait [ElfLoader], for a loader with the state [St]. *)
Record ElfLoader (St E : Type) := mkElfLoader {
  el_allocate : list ProgramHeader -> St -> outcome (Result unit E * St);
  el_relocate : RelocationEntry -> St -> outcome (Result unit E * St);
  el_load : Z -> Z -> list Z -> St -> outcome (Result unit E * St);
  el_tls : Z -> Z -> Z -> Z -> St -> outcome (Result unit E * St);
}.
Arguments el_allocate {St E} _.
Arguments el_relocate {St E} _.
Arguments el_load {St E} _.
Arguments el_tls {St E} _.

Class ElfBinary (B E : Type) := {
  (** [ElfBinary::new(bytes)] *)
  elf_new : list Z -> Result B E;
  (** [binary.load(loader)] *)
  elf_load : forall St, ElfLoader St E -> B -> St -> outcome (Result unit E * St);
  (** [binary.entry_point()] *)
  elf_entry_point : B -> Z;
}.

(** ** [KernelLoader]

    [virtual_base] and [info] are the fields of the source's struct; the page
    table is [pt], and the state is the memory and the frame allocator, with the
    console for what prints.  How the flags of a header are shown is up to the crate
    that declares them. *)

Definition COPIED : Z := BIT_9.

Section KernelLoader.
Context `{FL : Bitflags} `{MP : Mapper Size4KiB M} `{TR : Translator Size4KiB M} `{FA : FrameAllocator A}.
Context `{IO : IoPorts W}.
Context (fuel : nat) (virtual_base : Z) (info : BiosInfo) (pt : M) (display_flags : ProgramHeader -> list Z).
Implicit Types (st : mem * A) (con : console W).

(** The state of the loader. *)
Abbreviation loader_state := ((mem * A) * console W)%type.

(** One page of [handle_relative_relocation]; the loop carries the memory and
    [bytes_written]. *)
Definition relocate_page (virtual_address : VirtualAddress) (value_bytes : list Z)
    (page : Page Size4KiB) (s : mem * Z) : outcome (mem * Z) :=
  let '(m, bytes_written) := s in
  let len := Z.of_nat (length value_bytes) in
  r ← translate pt m page;
  '(frame, _) ← expect r;
  offset ← (if page_address page <? virtual_address
            then virt_sub virtual_address (page_address page) else Ret 0);
  value_end ← virt_add virtual_address len;
  page_end ← page_end page;
  bytes_to_write ← (if page_end <? value_end then virt_sub page_end virtual_address
                    else usub 64 len bytes_written);
  slice_end ← uadd 64 bytes_written bytes_to_write;
  write_slice ← slice value_bytes bytes_written slice_end;
  address ← uadd 64 (frame_address frame) offset;
  Ret (write_list m address write_slice, slice_end).

Definition handle_relative_relocation (entry : RelocationEntry) (m : mem) : outcome mem :=
  a ← unwrap (addend entry);
  value ← uadd 64 virtual_base a;
  let value_bytes := to_le_bytes 8 value in
  virtual_address ← uadd 64 virtual_base (reloc_offset entry);
  start_page ← page_containing_address Size4KiB virtual_address;
  e ← virt_add virtual_address (Z.of_nat (length value_bytes));
  end_page ← page_containing_address Size4KiB e;
  '(m, _) ← for_loop fuel (relocate_page virtual_address value_bytes)
              (page_range_inclusive start_page end_page) (m, 0);
  Ret m.

Definition make_mutable (page : Page Size4KiB) st : outcome (PhysicalFrame Size4KiB * (mem * A)) :=
  let '(m, al) := st in
  r ← translate pt m page;
  '(frame, flags) ← expect r;
  if flags_contains flags COPIED then Ret (frame, (m, al))
  else
    '(f, al) ← allocate_frame al;
    new_frame ← unwrap f;
    let new_flags := flags_union flags COPIED in
    let m := copy_bytes m (frame_start frame) (frame_start new_frame) (SIZE Size4KiB) in
    '(r, m) ← unmap pt page m;
    _ ← expect r;
    '(r, st) ← map_to pt new_frame page new_flags (m, al);
    _ ← expect r;
    Ret (new_frame, st).

(** The flags of a segment's pages. *)
Definition segment_flags (header : ProgramHeader) : Z :=
  let flags := PRESENT in
  let flags := if negb (is_execute header) then flags_union flags NO_EXECUTE else flags in
  if is_write header then flags_union flags WRITABLE else flags.

(** The body of the loop over the frames of a segment. *)
Definition map_segment_frame (start_frame : PhysicalFrame Size4KiB) (start_page : Page Size4KiB)
    (flags : Z) (frame : PhysicalFrame Size4KiB) st : outcome (mem * A) :=
  frame_offset ← frame_diff frame start_frame;
  page ← page_add start_page frame_offset;
  '(r, st) ← map_to pt frame page flags st;
  _ ← expect r;
  Ret st.

(** The body of the loop over the pages of the .bss part. *)
Definition map_bss_page (flags : Z) (page : Page Size4KiB) st : outcome (mem * A) :=
  let '(m, al) := st in
  '(f, al) ← allocate_frame al;
  frame ← unwrap f;
  let m := write_bytes m (frame_start frame) 0 (frame_size frame) in
  '(r, st) ← map_to pt frame page flags (m, al);
  _ ← expect r;
  Ret st.

(** The last frame with bytes of the file: what follows them is zeroed. *)
Definition zero_partial_frame (header : ProgramHeader) (virtual_start_address zero_start : Z) st :
    outcome (mem * A) :=
  let data_bytes_before_zero := Z.land zero_start (SIZE Size4KiB - 1) in
  if negb (data_bytes_before_zero =? 0) then
    e ← virt_add virtual_start_address (file_size header);
    l ← virt_sub e 1;
    last_page ← page_containing_address Size4KiB l;
    '(last_frame, (m, al)) ← make_mutable last_page st;
    Ret (write_bytes m (frame_start last_frame + data_bytes_before_zero) 0
           (SIZE Size4KiB - data_bytes_before_zero), al)
  else Ret st.

(** The handling of the .bss part of a segment. *)
Definition allocate_bss (header : ProgramHeader) (virtual_start_address flags : Z) st con : outcome loader_state :=
  zero_start ← virt_add virtual_start_address (file_size header);
  zero_end ← virt_add virtual_start_address (mem_size header);
  let data_bytes_before_zero := Z.land zero_start (SIZE Size4KiB - 1) in
  con ← println fuel [text "Data bytes before zero: bytes_before_zero:"; fmt_dec data_bytes_before_zero;
                      text " header_mem_size:"; fmt_dec (mem_size header);
                      text " header_file_size:"; fmt_dec (file_size header)] con;
  st ← zero_partial_frame header virtual_start_address zero_start st;
  s ← virt_align_up zero_start (SIZE Size4KiB);
  start_page ← page_containing_address Size4KiB s;
  l ← virt_sub zero_end 1;
  end_page ← page_containing_address Size4KiB l;
  st ← for_loop fuel (map_bss_page flags) (page_range_inclusive start_page end_page) st;
  Ret (st, con).

(** The body of the loop over the loadable headers. *)
Definition allocate_segment (header : ProgramHeader) (s : loader_state) : outcome loader_state :=
  let '(st, con) := s in
  a ← uadd 64 (virtual_addr header) virtual_base;
  con ← println fuel [text "Kernel elf: allocate segment at "; fmt_hex_alt a; text ", size = "; fmt_hex_alt (mem_size header);
                      text ", flags = "; display_flags header] con;
  physical_start_address ← uadd 64 (pmr_start (bios_kernel info)) (ph_offset header);
  start_frame ← frame_containing_address Size4KiB physical_start_address;
  e ← phys_add physical_start_address (file_size header);
  l ← phys_sub e 1;
  end_frame ← frame_containing_address Size4KiB l;
  virtual_start_address ← uadd 64 virtual_base (virtual_addr header);
  start_page ← page_containing_address Size4KiB virtual_start_address;
  let flags := segment_flags header in
  st ← for_loop fuel (map_segment_frame start_frame start_page flags)
         (frame_range_inclusive start_frame end_frame) st;
  if file_size header <? mem_size header
  then allocate_bss header virtual_start_address flags st con
  else Ret (st, con).

Definition allocate {E} (load_headers : list ProgramHeader) (s : loader_state) : outcome (Result unit E * loader_state) :=
  s ← fold_outcome allocate_segment load_headers s;
  Ret (Ok tt, s).

Definition relocate {E} (entry : RelocationEntry) (s : loader_state) : outcome (Result unit E * loader_state) :=
  match rtype entry with
  | reloc_x86_64 R_AMD64_RELATIVE =>
      let '((m, al), con) := s in
      m ← handle_relative_relocation entry m;
      Ret (Ok tt, ((m, al), con))
  | reloc_x86_64 _ => Panic ExplicitPanic
  | reloc_x86 _ => Panic ExplicitPanic
  end.

Definition load {E} (_flags _base : Z) (_region : list Z) (s : loader_state) : outcome (Result unit E * loader_state) :=
  Ret (Ok tt, s).

Definition tls {E} (tdata_start _tdata_length total_size _align : Z) (s : loader_state) :
    outcome (Result unit E * loader_state) :=
  let '(st, con) := s in
  tls_end ← uadd 64 tdata_start total_size;
  con ← println fuel [text "Initial TLS region is at = "; fmt_hex_alt tdata_start; text " -- "; fmt_hex_alt tls_end] con;
  Ret (Ok tt, (st, con)).

Definition KernelLoader {E} : ElfLoader loader_state E := mkElfLoader _ _ allocate relocate load tls.

Definition load_kernel `{EB : ElfBinary B E} (s : loader_state) : outcome (VirtualAddress * loader_state) :=
  let '((m, _), _) := s in
  let kernel := read_list m (pmr_start (bios_kernel info)) (Z.to_nat (pmr_size (bios_kernel info))) in
  kernel_elf ← expect (elf_new kernel);
  '(r, s) ← elf_load _ KernelLoader kernel_elf s;
  _ ← expect r;
  e ← uadd 64 virtual_base (elf_entry_point kernel_elf);
  Ret (e, s).
End KernelLoader.
