(* ===== verification/KernelImage.v ===== *)
(** The kernel loader is correct: the theorems on [stage4/src/elf.rs].

    After [allocate], every segment of the kernel reads, through the page table,
    as its part of the file followed by zeroes; a relocation writes its value
    and nothing else. *)
From Stdlib Require Import ZArith Lia.
From stdpp Require Import base tactics numbers list strings.
From S2P Require Import Prelude Crates Memory Paging AddressSpace MapperClient BootInfo.
From S2P Require Import Ports SpinLock Fmt Serial KernelLoader.
#[local] Open Scope Z_scope.

(** ** What the loader does to memory, apart from its messages *)

Section Effects.
Context `{FL : Bitflags} `{MP : Mapper Size4KiB M} `{TR : Translator Size4KiB M} `{FA : FrameAllocator A}.
Context (fuel : nat) (virtual_base : Z) (info : BiosInfo) (pt : M) (display_flags : ProgramHeader -> list Z).
Implicit Types (st : mem * A) (h : ProgramHeader).

Definition bss_effect h (virtual_start_address flags : Z) st : outcome (mem * A) :=
  zero_start ← virt_add virtual_start_address (file_size h);
  zero_end ← virt_add virtual_start_address (mem_size h);
  st ← zero_partial_frame pt h virtual_start_address zero_start st;
  s ← virt_align_up zero_start (SIZE Size4KiB);
  start_page ← page_containing_address Size4KiB s;
  l ← virt_sub zero_end 1;
  end_page ← page_containing_address Size4KiB l;
  for_loop fuel (map_bss_page pt flags) (page_range_inclusive start_page end_page) st.

Definition segment_effect h st : outcome (mem * A) :=
  _ ← uadd 64 (virtual_addr h) virtual_base;
  physical_start_address ← uadd 64 (pmr_start (bios_kernel info)) (ph_offset h);
  start_frame ← frame_containing_address Size4KiB physical_start_address;
  e ← phys_add physical_start_address (file_size h);
  l ← phys_sub e 1;
  end_frame ← frame_containing_address Size4KiB l;
  virtual_start_address ← uadd 64 virtual_base (virtual_addr h);
  start_page ← page_containing_address Size4KiB virtual_start_address;
  let flags := segment_flags h in
  st ← for_loop fuel (map_segment_frame pt start_frame start_page flags)
         (frame_range_inclusive start_frame end_frame) st;
  if file_size h <? mem_size h then bss_effect h virtual_start_address flags st else Ret st.

(** What is printed about a segment. *)
Definition bss_log h : list (list Z) :=
  [text "Data bytes before zero: bytes_before_zero:";
   fmt_dec (Z.land (virtual_base + virtual_addr h + file_size h) (SIZE Size4KiB - 1));
   text " header_mem_size:"; fmt_dec (mem_size h); text " header_file_size:"; fmt_dec (file_size h); newline].
Definition segment_log h : list (list Z) :=
  [text "Kernel elf: allocate segment at "; fmt_hex_alt (virtual_addr h + virtual_base); text ", size = "; fmt_hex_alt (mem_size h);
   text ", flags = "; display_flags h; newline] ++ if file_size h <? mem_size h then bss_log h else [].

Context `{UW : UartWorld W 0x3F8} `{FLS : !BitflagsSpec FL} (Hpoll : (polls_bound < fuel)%nat).
Implicit Types (con : console W).

Lemma uadd_ret w x y z : uadd w x y = Ret z -> z = x + y.
Proof. unfold uadd, checked. destruct (fits w (x + y)); [now intros [= <-] | discriminate]. Qed.

Lemma allocate_bss_says h v flags st st' con :
  console_ok con -> v = virtual_base + virtual_addr h -> bss_effect h v flags st = Ret st' ->
  exists con', allocate_bss fuel pt h v flags st con = Ret (st', con') /\ printed (bss_log h) con con'.
Proof.
  intros Hc -> E. unfold bss_effect in E. unfold allocate_bss.
  destruct (virt_add _ (file_size h)) as [zs|] eqn:Es; [|discriminate]. cbn [mbind outcome_bind] in *.
  destruct (virt_add _ (mem_size h)) as [ze|]; [|discriminate]. cbn [mbind outcome_bind] in *.
  apply uadd_ret in Es as ->.
  edestruct (println_spec fuel) as (con' & -> & Hp); [exact Hpoll | exact Hc|]. rewrite bind_Ret. exists con'. split; [|exact Hp].
  destruct (zero_partial_frame _ _ _ _ _) as [st1|]; [|discriminate]. cbn [mbind outcome_bind] in *.
  destruct (virt_align_up _ _); [|discriminate]. cbn [mbind outcome_bind] in *.
  destruct (page_containing_address _ _); [|discriminate]. cbn [mbind outcome_bind] in *.
  destruct (virt_sub _ _); [|discriminate]. cbn [mbind outcome_bind] in *.
  destruct (page_containing_address _ _); [|discriminate]. cbn [mbind outcome_bind] in *.
  rewrite E. reflexivity.
Qed.

Lemma allocate_segment_says h st st' con :
  console_ok con -> segment_effect h st = Ret st' ->
  exists con', allocate_segment fuel virtual_base info pt display_flags h (st, con) = Ret (st', con') /\
    printed (segment_log h) con con'.
Proof.
  intros Hc E. unfold segment_effect in E. unfold allocate_segment.
  destruct (uadd 64 (virtual_addr h) virtual_base) as [va|] eqn:Ea; [|discriminate]. cbn [mbind outcome_bind] in *.
  apply uadd_ret in Ea as ->.
  edestruct (println_spec fuel) as (con1 & -> & Hp); [exact Hpoll | exact Hc|]. rewrite bind_Ret.
  destruct (uadd 64 (pmr_start _) _) as [?|]; [|discriminate]. cbn [mbind outcome_bind] in *.
  destruct (frame_containing_address _ _); [|discriminate]. cbn [mbind outcome_bind] in *.
  destruct (phys_add _ _); [|discriminate]. cbn [mbind outcome_bind] in *.
  destruct (phys_sub _ _); [|discriminate]. cbn [mbind outcome_bind] in *.
  destruct (frame_containing_address _ _); [|discriminate]. cbn [mbind outcome_bind] in *.
  destruct (uadd 64 virtual_base _) as [v|] eqn:Ev; [|discriminate]. cbn [mbind outcome_bind] in *.
  destruct (page_containing_address _ _); [|discriminate]. cbn [mbind outcome_bind] in *.
  destruct (for_loop _ _ _ _) as [st1|]; [|discriminate]. cbn [mbind outcome_bind] in *.
  unfold segment_log. destruct (file_size h <? mem_size h).
  - destruct (allocate_bss_says h v (segment_flags h) st1 st' con1) as (con2 & -> & Hp2); [apply Hp | exact (uadd_ret 64 _ _ _ Ev) | exact E|].
    exists con2. split; [reflexivity|]. exact (printed_trans _ _ _ _ _ Hp Hp2).
  - injection E as ->. exists con1. split; [reflexivity|]. rewrite app_nil_r. exact Hp.
Qed.

Lemma allocate_says {E} hs st st' con :
  console_ok con -> fold_outcome segment_effect hs st = Ret st' ->
  exists con', allocate (E := E) fuel virtual_base info pt display_flags hs (st, con) = Ret (Ok tt, (st', con')) /\
    printed (hs ≫= segment_log) con con'.
Proof.
  intros Hc E1. unfold allocate.
  enough (exists con', fold_outcome (allocate_segment fuel virtual_base info pt display_flags) hs (st, con) = Ret (st', con') /\
    printed (hs ≫= segment_log) con con') as (con' & -> & Hp) by (exists con'; auto).
  revert st con Hc E1. induction hs as [|h hs IH]; intros st con Hc E1.
  - injection E1 as ->. exists con. split; [reflexivity | now apply printed_nil].
  - cbn [fold_outcome] in *. destruct (segment_effect h st) as [st1|] eqn:Eh; [|discriminate]. cbn [mbind outcome_bind] in E1.
    destruct (allocate_segment_says h st st1 con Hc Eh) as (con1 & -> & Hp1). cbn [mbind outcome_bind].
    destruct (IH st1 con1) as (con' & -> & Hp'); [apply Hp1 | exact E1|]. exists con'. split; [reflexivity|].
    exact (printed_trans _ _ _ _ _ Hp1 Hp').
Qed.
End Effects.

Section Segments.
Context `{FL : Bitflags} `{FLS : !BitflagsSpec FL} `{MS : MapperSpec M A} (pt : M).
Implicit Types (m : mem) (a : A) (va : Z).

(** The pages of a segment, numbered from the one at [vs]. *)
Section Pages.
Context (vs : Z) (Hvs : vs mod 4096 = 0) (Hvs0 : 0 <= vs).

Definition nth_page (j : Z) : Page Size4KiB := mkPage Size4KiB (vs + j * 4096).

(** From [m] to [m'] at most [k] frames were used and only pages from [lo] to
    [hi] changed. *)
Record extends m a m' a' (k lo hi : Z) : Prop := {
  ex_inv : ms_inv pt m' a';
  ex_consumed : consumed k a a';
  ex_keeps : keeps pt m a m' a';
  ex_plain va : in_width 64 va -> ms_plain pt m va -> ms_plain pt m' va;
  ex_other q : in_width 64 (page_address q) ->
    (forall j, lo <= j < hi -> vpn (page_address q) <> vpn (vs + j * 4096)) ->
    ms_lookup pt m' q = ms_lookup pt m q;
}.

Lemma extends_trans m1 a1 m2 a2 m3 a3 k1 k2 k lo1 hi1 lo2 hi2 lo hi :
  extends m1 a1 m2 a2 k1 lo1 hi1 -> extends m2 a2 m3 a3 k2 lo2 hi2 -> k1 + k2 <= k ->
  lo <= lo1 -> hi1 <= hi -> lo <= lo2 -> hi2 <= hi -> extends m1 a1 m3 a3 k lo hi.
Proof.
  intros [I1 C1 K1 P1 O1] [I2 C2 K2 P2 O2] Hk H1' H2' H3' H4'. split; auto.
  - destruct (consumed_trans _ _ _ _ _ C1 C2). split; [lia | auto].
  - eapply keeps_trans; eauto.
  - intros q Hq Hne. rewrite O2, O1; auto; intros j Hj; apply Hne; lia.
Qed.

Lemma extends_none m a k lo hi : ms_inv pt m a -> 0 <= k -> extends m a m a k lo hi.
Proof. intros Hi Hk. split; auto using keeps_refl, consumed_refl. Qed.

(** Pages outside the range keep their mapping, and what they read. *)
Lemma extends_lookup m a m' a' k lo hi j :
  extends m a m' a' k lo hi -> in_width 64 (vs + j * 4096) -> ~ (lo <= j < hi) ->
  - 2 ^ 36 < j - lo < 2 ^ 36 -> - 2 ^ 36 < j - hi < 2 ^ 36 ->
  ms_lookup pt m' (nth_page j) = ms_lookup pt m (nth_page j).
Proof.
  intros He Hw Hn H1' H2'. apply (ex_other _ _ _ _ _ _ _ He); [exact Hw|].
  intros i Hi E. cbn [page_address nth_page] in E. apply vpn_pages_inj in E; [lia | assumption | lia].
Qed.

Lemma extends_mappable m a m' a' k lo hi j :
  extends m a m' a' k lo hi -> ~ (lo <= j < hi) ->
  - 2 ^ 36 < j - lo < 2 ^ 36 -> - 2 ^ 36 < j - hi < 2 ^ 36 ->
  mappable pt m (nth_page j) -> mappable pt m' (nth_page j).
Proof.
  intros He Hn H1' H2' (Hw & Hp & Hl). split; [assumption|].
  split; [now apply (ex_plain _ _ _ _ _ _ _ He)|].
  now rewrite (extends_lookup m a m' a' k lo hi j) by assumption.
Qed.

(** The page [j] is mapped with [flags] to a frame of the client that holds the
    bytes [g]. *)
Definition page_bytes m a j flags (g : Z -> Z) : Prop :=
  exists f, ms_lookup pt m (nth_page j) = Some (mkFrame Size4KiB f, flags) /\
    forall o, 0 <= o < 4096 -> m (f + o) = g o /\ ~ ms_owned pt m a (f + o).

Lemma page_bytes_keep m a m' a' j flags g :
  keeps pt m a m' a' -> ms_lookup pt m' (nth_page j) = ms_lookup pt m (nth_page j) ->
  page_bytes m a j flags g -> page_bytes m' a' j flags g.
Proof.
  intros Hk Hl (f & E & Hb). exists f. split; [congruence|]. intros o Ho.
  destruct (Hb o Ho) as [Eo Hn]. destruct (Hk _ Hn) as [-> ?]. auto.
Qed.

Lemma page_bytes_extends m a m' a' k lo hi j flags g :
  extends m a m' a' k lo hi -> in_width 64 (vs + j * 4096) -> ~ (lo <= j < hi) ->
  - 2 ^ 36 < j - lo < 2 ^ 36 -> - 2 ^ 36 < j - hi < 2 ^ 36 ->
  page_bytes m a j flags g -> page_bytes m' a' j flags g.
Proof.
  intros He Hw Hn H1' H2'. apply page_bytes_keep; [apply He|]. eapply extends_lookup; eauto.
Qed.

(** Mapping the page [j]. *)
Lemma map_page_extends m a j f flags :
  ms_inv pt m a -> mappable pt m (nth_page j) -> valid_frame f -> valid_flags flags ->
  Z.testbit flags 0 = true -> 3 <= fa_avail a ->
  exists r m' a', map_to pt (mkFrame Size4KiB f) (nth_page j) flags (m, a) = Ret (Ok r, (m', a')) /\
    extends m a m' a' 3 j (j + 1) /\
    ms_lookup pt m' (nth_page j) = Some (mkFrame Size4KiB f, flags).
Proof.
  intros Hi Hm Hf Hfl Hp Hav.
  destruct (map_to_mappable pt m a f flags (nth_page j)) as (r & m' & a' & E & Hi' & Hc & Hk & Hpl & Hlook);
    [assumption..|].
  exists r, m', a'. split; [exact E|]. split.
  - split; [assumption..|]. intros q Hq Hne. rewrite Hlook by assumption.
    rewrite (proj2 (Z.eqb_neq _ _)); [reflexivity|]. apply Hne. lia.
  - rewrite Hlook, Z.eqb_refl, Hp by apply Hm. reflexivity.
Qed.

(** The loop over the frames of a segment. *)
Lemma map_segment_frames_spec sf flags n :
  0 <= n -> sf mod 4096 = 0 -> valid_flags flags -> Z.testbit flags 0 = true -> forall i m a,
  0 <= i -> i + n < 2 ^ 36 -> 0 <= sf -> sf + (i + n) * 4096 <= 2 ^ 48 -> vs + (i + n) * 4096 <= 2 ^ 64 ->
  ms_inv pt m a -> 3 * n <= fa_avail a ->
  (forall j, i <= j < i + n -> mappable pt m (nth_page j)) ->
  (forall x, sf <= x < sf + (i + n) * 4096 -> ~ ms_owned pt m a x) ->
  exists m' a', fold_outcome (map_segment_frame pt (mkFrame Size4KiB sf) (nth_page 0) flags)
      (frames_from Size4KiB (sf + i * 4096) n) (m, a) = Ret (m', a') /\
    extends m a m' a' (3 * n) i (i + n) /\
    forall j, i <= j < i + n -> page_bytes m' a' j flags (fun o => m (sf + j * 4096 + o)).
Proof.
  intros Hn Hsf Hfl Hb. pattern n. apply natlike_ind; [| |exact Hn].
  - intros i m a Hi _ _ _ _ Hinv _ _ _. exists m, a. split; [reflexivity|].
    split; [now apply extends_none | lia].
  - clear n Hn. intros n Hn IH i m a Hi Hin Hsf0 Hsf' Hvs' Hinv Hav Hmap Hdata.
    rewrite frames_from_cons by lia. cbn [fold_outcome].
    replace (Z.succ n - 1) with n by lia. replace (sf + i * 4096 + SIZE Size4KiB) with (sf + (i + 1) * 4096) by (cbn [SIZE]; lia).
    assert (Hal : (sf + i * 4096) mod 4096 = 0) by (rewrite Z_mod_plus_full; lia).
    destruct (map_page_extends m a i (sf + i * 4096) flags) as (r & m1 & a1 & E & He & Hl);
      [assumption | apply Hmap; lia | split; lia | assumption..| lia|].
    assert (Hbody : map_segment_frame pt (mkFrame Size4KiB sf) (nth_page 0) flags
              (mkFrame Size4KiB (sf + i * 4096)) (m, a) = Ret (m1, a1)).
    { unfold map_segment_frame, frame_diff, page_add, umul, virt_add. cbn [frame_address page_address nth_page SIZE].
      unfold usub, uadd. rewrite checked_ok by lia. cbn [mbind outcome_bind udiv Z.eqb].
      replace (sf + i * 4096 - sf) with (i * 4096) by lia. change 0x1000 with 4096. rewrite Z.div_mul by lia.
      cbn [mbind outcome_bind]. rewrite !checked_ok by lia. cbn [mbind outcome_bind].
      rewrite checked_ok by lia. cbn [mbind outcome_bind].
      rewrite page_containing_eq by (unfold in_width; lia). cbn [mbind outcome_bind SIZE].
      replace (vs + 0 * 4096 + i * 4096 - (vs + 0 * 4096 + i * 4096) mod 4096) with (vs + i * 4096)
        by (rewrite Z.mul_0_l, Z.add_0_r, Z_mod_plus_full; lia).
      unfold nth_page in E. rewrite E. reflexivity. }
    rewrite Hbody. cbn [mbind outcome_bind].
    assert (Hkept : forall x, sf <= x < sf + (i + Z.succ n) * 4096 -> m1 x = m x /\ ~ ms_owned pt m1 a1 x).
    { intros x Hx. apply He, Hdata. assumption. }
    destruct (IH (i + 1) m1 a1) as (m' & a' & E' & He' & Hl'); [lia..|apply He| | | |].
    { destruct (ex_consumed _ _ _ _ _ _ _ He). lia. }
    { intros j Hj. eapply extends_mappable; [exact He | lia..|]. apply Hmap. lia. }
    { intros x Hx. apply Hkept. lia. }
    exists m', a'. split; [exact E'|]. split.
    + eapply extends_trans; [exact He | exact He' | lia..].
    + intros j Hj. destruct (Z.eq_dec j i) as [->|Hne].
      * eapply page_bytes_extends; [exact He' | unfold in_width; lia | lia..|].
        exists (sf + i * 4096). split; [exact Hl|]. intros o Ho. apply Hkept. lia.
      * destruct (Hl' j) as (f & Ef & Hf); [lia|]. exists f. split; [exact Ef|]. intros o Ho.
        destruct (Hf o Ho) as [-> ?]. split; [apply Hkept; lia | assumption].
Qed.

(** *** Fresh frames *)

Context (Hid : forall f, valid_frame f -> ms_frame_va pt f = f).

(** A new frame, filled by the loader. *)
Lemma new_frame_filled m a :
  ms_inv pt m a -> 1 <= fa_avail a ->
  exists f a', allocate_frame a = Ret (Some (mkFrame Size4KiB f), a') /\ valid_frame f /\
    forall m1 lo, (forall x, ~ (f <= x < f + 4096) -> m1 x = m x) ->
      extends m a m1 a' 1 lo lo /\
      forall x, f <= x < f + 4096 -> ms_owned pt m a x /\ ~ ms_owned pt m1 a' x.
Proof.
  intros Hi Hav.
  destruct (new_frame_spec pt m a Hi Hav) as (f & a' & E & Hf & _ & _ & Hi' & Hc & Hk & Hb).
  rewrite (Hid f Hf) in Hb. exists f, a'. split; [exact E|]. split; [assumption|]. intros m1 lo Hm1.
  destruct (ms_write pt m m1 a' Hi') as (Hi1 & Ho1 & Hp1 & Hl1).
  { intros x Hx. apply Hm1. intros Hxf. now destruct (Hb x Hxf). }
  split; [|intros x Hx; rewrite Ho1; destruct (Hb x Hx); auto].
  split; [assumption..| | assumption |intros q Hq _; auto].
  intros x Hx. rewrite Ho1. split; [|now apply Hk].
  apply Hm1. intros Hxf. now destruct (Hb x Hxf).
Qed.

Lemma valid_flags_copied flags : valid_flags flags -> valid_flags (Z.lor flags COPIED).
Proof. intros Hfl. unfold valid_flags in *. now rewrite Z.land_lor_distr_l, Hfl. Qed.

(** [make_mutable] moves a page to a copy of its frame. *)
Lemma make_mutable_spec m a j flags g :
  ms_inv pt m a -> in_width 64 (vs + j * 4096) -> ms_plain pt m (vs + j * 4096) ->
  page_bytes m a j flags g ->
  valid_flags flags -> Z.testbit flags 0 = true -> Z.land flags COPIED = 0 -> 4 <= fa_avail a ->
  exists nf m' a', make_mutable pt (nth_page j) (m, a) = Ret (mkFrame Size4KiB nf, (m', a')) /\
    extends m a m' a' 4 j (j + 1) /\
    ms_lookup pt m' (nth_page j) = Some (mkFrame Size4KiB nf, Z.lor flags COPIED) /\
    forall o, 0 <= o < 4096 ->
      m' (nf + o) = g o /\ ms_owned pt m a (nf + o) /\ ~ ms_owned pt m' a' (nf + o).
Proof.
  intros Hi Hw Hpl (f & Hl & Hdata) Hfl Hb Hnc Hav. unfold make_mutable.
  rewrite (ms_translate pt m a (nth_page j)) by assumption. rewrite Hl. cbn [as_result mbind outcome_bind expect].
  destruct (flags_contains flags COPIED) eqn:Ec; [apply flags_contains_spec in Ec; rewrite Hnc in Ec; discriminate|].
  destruct (new_frame_filled m a Hi) as (nf & a1 & -> & Hnf & Hfill); [lia|].
  cbn [mbind outcome_bind unwrap frame_start frame_address]. rewrite flags_union_spec.
  set (m1 := copy_bytes m f nf (SIZE Size4KiB)).
  destruct (Hfill m1 j) as [He1 Hn1].
  { intros x Hx. unfold m1, copy_bytes. cbn [SIZE].
    replace ((nf <=? x) && (x <? nf + 0x1000)) with false by lia. reflexivity. }
  assert (Hl1 : ms_lookup pt m1 (nth_page j) = Some (mkFrame Size4KiB f, flags)).
  { rewrite (ex_other _ _ _ _ _ _ _ He1); [exact Hl | exact Hw | lia]. }
  destruct (ms_unmap pt m1 a1 (nth_page j)) as (r & m2 & -> & Hi2 & Hp2 & Hk2 & Hl2);
    [apply He1 | exact Hw | now apply He1 | now rewrite Hl1 |]. cbn [mbind outcome_bind expect].
  assert (He2 : extends m1 a1 m2 a1 0 j (j + 1)).
  { split; [assumption | apply consumed_refl; lia | assumption..|]. intros q Hq Hne.
    rewrite Hl2 by assumption. rewrite (proj2 (Z.eqb_neq _ _)); [reflexivity|]. apply Hne. lia. }
  pose proof (ex_consumed _ _ _ _ _ _ _ He1) as [Hc1 _].
  destruct (map_page_extends m2 a1 j nf (Z.lor flags COPIED)) as (r' & m3 & a3 & -> & He3 & Hl3);
    [assumption | | assumption | now apply valid_flags_copied | now rewrite Z.lor_spec, Hb | lia |].
  { split; [exact Hw|]. split; [apply Hp2; [assumption | now apply He1]|]. now rewrite Hl2, Z.eqb_refl. }
  cbn [mbind outcome_bind expect]. exists nf, m3, a3. split; [reflexivity|].
  assert (He23 : extends m1 a1 m3 a3 3 j (j + 1)) by (eapply extends_trans; eauto; lia).
  split; [|split; [exact Hl3|]].
  - eapply extends_trans; [exact He1 | exact He23 | lia..].
  - intros o Ho. destruct (ex_keeps _ _ _ _ _ _ _ He23 (nf + o)) as [-> Hown]; [apply Hn1; lia|].
    split; [|split; [apply Hn1; lia | exact Hown]]. unfold m1, copy_bytes. cbn [SIZE].
    replace ((nf <=? nf + o) && (nf + o <? nf + 0x1000)) with true by lia.
    replace (f + (nf + o - nf)) with (f + o) by lia. now apply Hdata.
Qed.

(** The loader may go on writing to a frame it was given. *)
Lemma extends_write m a m1 a1 m2 k lo hi f :
  extends m a m1 a1 k lo hi ->
  (forall o, 0 <= o < 4096 -> ms_owned pt m a (f + o) /\ ~ ms_owned pt m1 a1 (f + o)) ->
  (forall x, ~ (f <= x < f + 4096) -> m2 x = m1 x) ->
  extends m a m2 a1 k lo hi /\ (forall x, ms_owned pt m2 a1 x <-> ms_owned pt m1 a1 x) /\
  forall q, in_width 64 (page_address q) -> ms_lookup pt m2 q = ms_lookup pt m1 q.
Proof.
  intros [I C K P O] Hf Hm2.
  assert (Hr : forall x, f <= x < f + 4096 -> ms_owned pt m a x /\ ~ ms_owned pt m1 a1 x).
  { intros x Hx. replace x with (f + (x - f)) by lia. apply Hf. lia. }
  destruct (ms_write pt m1 m2 a1 I) as (I2 & O2 & P2 & L2).
  { intros x Hx. apply Hm2. intros Hxf. now destruct (Hr x Hxf). }
  split; [|auto]. split; auto.
  - intros x Hx. rewrite O2. destruct (K x Hx) as [<- ?]. split; [|assumption].
    apply Hm2. intros Hxf. now destruct (Hr x Hxf).
  - intros q Hq Hne. rewrite L2; auto.
Qed.

(** The partly used last page of a segment: a copy, zeroed from [r] on. *)
Lemma zero_tail_spec m a j flags g r :
  ms_inv pt m a -> in_width 64 (vs + j * 4096) -> ms_plain pt m (vs + j * 4096) ->
  page_bytes m a j flags g ->
  valid_flags flags -> Z.testbit flags 0 = true -> Z.land flags COPIED = 0 -> 4 <= fa_avail a ->
  0 <= r < 4096 ->
  exists nf m1 a1, make_mutable pt (nth_page j) (m, a) = Ret (mkFrame Size4KiB nf, (m1, a1)) /\
    extends m a (write_bytes m1 (nf + r) 0 (4096 - r)) a1 4 j (j + 1) /\
    page_bytes (write_bytes m1 (nf + r) 0 (4096 - r)) a1 j (Z.lor flags COPIED)
      (fun o => if o <? r then g o else 0).
Proof.
  intros Hi Hw Hpl Hg Hfl Hb Hnc Hav Hr.
  destruct (make_mutable_spec m a j flags g) as (nf & m1 & a1 & E & He & Hl & Hbytes); [assumption..|].
  exists nf, m1, a1. split; [exact E|].
  destruct (extends_write m a m1 a1 (write_bytes m1 (nf + r) 0 (4096 - r)) 4 j (j + 1) nf He) as (He' & Ho & Hl').
  - intros o Ho. apply Hbytes. assumption.
  - intros x Hx. apply write_bytes_outside. lia.
  - split; [exact He'|]. exists nf. rewrite Hl' by exact Hw. split; [exact Hl|].
    intros o Ho'. destruct (Hbytes o Ho') as (Eo & _ & Hno). rewrite Ho. split; [|exact Hno].
    unfold write_bytes. destruct (Z.ltb_spec o r).
    + replace (nf + r <=? nf + o) with false by lia. exact Eo.
    + replace ((nf + r <=? nf + o) && (nf + o <? nf + r + (4096 - r))) with true by lia. reflexivity.
Qed.

(** The loop over the pages of the .bss part. *)
Lemma map_bss_pages_spec flags n :
  0 <= n -> valid_flags flags -> Z.testbit flags 0 = true -> forall i m a,
  0 <= i -> i + n < 2 ^ 36 -> vs + (i + n) * 4096 <= 2 ^ 64 ->
  ms_inv pt m a -> 4 * n <= fa_avail a ->
  (forall j, i <= j < i + n -> mappable pt m (nth_page j)) ->
  exists m' a', fold_outcome (map_bss_page pt flags) (pages_from Size4KiB (vs + i * 4096) n) (m, a)
      = Ret (m', a') /\
    extends m a m' a' (4 * n) i (i + n) /\
    forall j, i <= j < i + n -> page_bytes m' a' j flags (fun _ => 0).
Proof.
  intros Hn Hfl Hb. pattern n. apply natlike_ind; [| |exact Hn].
  - intros i m a Hi _ _ Hinv _ _. exists m, a. split; [reflexivity|].
    split; [now apply extends_none | lia].
  - clear n Hn. intros n Hn IH i m a Hi Hin Hvs' Hinv Hav Hmap.
    rewrite pages_from_cons by lia. cbn [fold_outcome].
    replace (Z.succ n - 1) with n by lia.
    replace (vs + i * 4096 + SIZE Size4KiB) with (vs + (i + 1) * 4096) by (cbn [SIZE]; lia).
    destruct (new_frame_filled m a Hinv) as (f & a1 & Ef & Hf & Hfill); [lia|].
    set (m1 := write_bytes m f 0 4096). destruct (Hfill m1 i) as [He1 Hn1].
    { intros x Hx. apply write_bytes_outside. lia. }
    pose proof (ex_consumed _ _ _ _ _ _ _ He1) as [Hc1 _].
    destruct (map_page_extends m1 a1 i f flags) as (r & m2 & a2 & E & He2 & Hl);
      [apply He1 | | assumption..| lia |].
    { eapply extends_mappable; [exact He1 | lia..|]. apply Hmap. lia. }
    pose proof (ex_consumed _ _ _ _ _ _ _ He2) as [Hc2 _].
    assert (Hbody : map_bss_page pt flags (mkPage Size4KiB (vs + i * 4096)) (m, a) = Ret (m2, a2)).
    { unfold map_bss_page. rewrite Ef. cbn [mbind outcome_bind unwrap frame_start frame_address frame_size SIZE].
      unfold nth_page in E. fold m1. change 0x1000 with 4096. fold m1. rewrite E. reflexivity. }
    rewrite Hbody. cbn [mbind outcome_bind].
    assert (He12 : extends m a m2 a2 4 i (i + 1)) by (eapply extends_trans; [exact He1 | exact He2 | lia..]).
    destruct (IH (i + 1) m2 a2) as (m' & a' & E' & He' & Hl'); [lia..|apply He2| lia | |].
    { intros j Hj. eapply extends_mappable; [exact He12 | lia..|]. apply Hmap. lia. }
    exists m', a'. split; [exact E'|]. split; [eapply extends_trans; [exact He12 | exact He' | lia..]|].
    intros j Hj. destruct (Z.eq_dec j i) as [->|Hne]; [|apply Hl'; lia].
    eapply page_bytes_extends; [exact He' | unfold in_width; lia | lia..|].
    exists f. split; [exact Hl|]. intros o Ho.
    destruct (ex_keeps _ _ _ _ _ _ _ He2 (f + o)) as [-> ?]; [apply Hn1; lia|]. split; [|assumption].
    unfold m1, write_bytes. replace ((f <=? f + o) && (f + o <? f + 4096)) with true by lia. reflexivity.
Qed.
End Pages.

(** ** Segments *)

Context (Hid : forall f, valid_frame f -> ms_frame_va pt f = f).
Context (fuel : nat) (virtual_base : Z) (info : BiosInfo).
Implicit Types (h : ProgramHeader).

(** Where a segment starts, in virtual memory and in the file's memory. *)
Definition seg_start h : Z := virtual_base + virtual_addr h.
Definition seg_image h : Z := pmr_start (bios_kernel info) + ph_offset h.
Definition seg_base h : Z := seg_start h - seg_start h mod 4096.
(** The number of pages a segment takes up, and of those with bytes of the file. *)
Definition seg_pages h : Z := (seg_start h mod 4096 + mem_size h + 4095) / 4096.
Definition seg_file_pages h : Z := (seg_start h mod 4096 + file_size h + 4095) / 4096.

Abbreviation seg_page h := (nth_page (seg_base h)).

(** A segment that can be loaded: it fits the address spaces, it lies in its page
    as in the file, its pages are unmapped, and its part of the file is memory
    that the tables do not own. *)
Record segment_ok h m a : Prop := {
  so_file : 0 < file_size h <= mem_size h;
  so_virt : 0 <= virtual_base /\ 0 <= virtual_addr h /\ seg_start h + mem_size h + 4096 < 2 ^ 64;
  so_size : mem_size h + 8192 < 2 ^ 48;
  so_phys : 0 <= pmr_start (bios_kernel info) /\ 0 <= ph_offset h /\
    seg_image h + file_size h + 4096 <= 2 ^ 48;
  so_congruent : seg_image h mod 4096 = seg_start h mod 4096;
  so_data x : seg_image h - seg_image h mod 4096 <= x
      < seg_image h - seg_image h mod 4096 + seg_file_pages h * 4096 -> ~ ms_owned pt m a x;
  so_pages j : 0 <= j < seg_pages h -> mappable pt m (seg_page h j);
}.

Lemma seg_pages_bounds h :
  0 < file_size h <= mem_size h -> mem_size h + 8192 < 2 ^ 48 ->
  0 < seg_file_pages h <= seg_pages h /\ seg_pages h < 2 ^ 36 /\
  (seg_file_pages h - 1) * 4096 < seg_start h mod 4096 + file_size h <= seg_file_pages h * 4096 /\
  (seg_pages h - 1) * 4096 < seg_start h mod 4096 + mem_size h <= seg_pages h * 4096.
Proof.
  intros Hf Hs. unfold seg_file_pages, seg_pages. pose proof (Z.mod_pos_bound (seg_start h) 4096).
  Z.to_euclidean_division_equations; lia.
Qed.

Lemma seg_base_aligned h : seg_base h mod 4096 = 0.
Proof. unfold seg_base. apply sub_mod_aligned. lia. Qed.

Lemma seg_base_bound h : 0 <= seg_start h -> 0 <= seg_base h /\ seg_base h = seg_start h - seg_start h mod 4096.
Proof. intros Hs. pose proof (Z.mod_le (seg_start h) 4096). unfold seg_base. lia. Qed.

Lemma segment_flags_ok h :
  valid_flags (segment_flags h) /\ Z.testbit (segment_flags h) 0 = true /\
  Z.land (segment_flags h) COPIED = 0.
Proof.
  unfold segment_flags. rewrite !flags_union_spec.
  destruct (is_execute h), (is_write h); split; [reflexivity | split; reflexivity | reflexivity
    | split; reflexivity | reflexivity | split; reflexivity | reflexivity | split; reflexivity].
Qed.

Lemma page_bytes_ext vs m a j flags g g' :
  (forall o, 0 <= o < 4096 -> g o = g' o) -> page_bytes vs m a j flags g -> page_bytes vs m a j flags g'.
Proof.
  intros Hg (f & Hl & Hb). exists f. split; [assumption|]. intros o Ho. rewrite <- Hg by assumption. auto.
Qed.

(** The page that contains an address of the segment. *)
Lemma seg_page_containing h i :
  0 <= seg_start h -> 0 <= i -> seg_start h + i < 2 ^ 64 ->
  page_containing_address Size4KiB (seg_start h + i) = Ret (seg_page h ((seg_start h mod 4096 + i) / 4096)).
Proof.
  intros H0' Hi Hlt. rewrite page_containing_eq by (unfold in_width; lia). cbn [SIZE]. unfold nth_page, seg_base.
  do 2 f_equal. change 0x1000 with 4096. Z.to_euclidean_division_equations; lia.
Qed.

(** What the last page with bytes of the file holds in the end, and its flags. *)
Definition tail_start h : Z := seg_start h mod 4096 + file_size h - (seg_file_pages h - 1) * 4096.
Definition tail_flags h : Z :=
  if (file_size h <? mem_size h) && negb (tail_start h =? 4096)
  then Z.lor (segment_flags h) COPIED else segment_flags h.

(** The first step of the .bss part: the tail of the last page is zeroed. *)
Lemma bss_tail_spec h m a g :
  0 < file_size h < mem_size h -> mem_size h + 8192 < 2 ^ 48 ->
  0 <= seg_start h -> seg_start h + mem_size h + 4096 < 2 ^ 64 ->
  ms_inv pt m a -> 4 <= fa_avail a ->
  ms_plain pt m (page_address (seg_page h (seg_file_pages h - 1))) ->
  page_bytes (seg_base h) m a (seg_file_pages h - 1) (segment_flags h) g ->
  exists m' a', zero_partial_frame pt h (seg_start h) (seg_start h + file_size h) (m, a) = Ret (m', a') /\
    extends (seg_base h) m a m' a' 4 (seg_file_pages h - 1) (seg_file_pages h) /\
    page_bytes (seg_base h) m' a' (seg_file_pages h - 1) (tail_flags h)
      (fun o => if o <? tail_start h then g o else 0).
Proof.
  intros Hf Hs H0' Hlt Hi Hav Hpl Hg.
  destruct (seg_pages_bounds h) as (Hb1 & Hb2 & Hb3 & _); [lia..|].
  pose proof (Z.mod_pos_bound (seg_start h) 4096 ltac:(lia)) as Hoff.
  destruct (segment_flags_ok h) as (Hfl & Hbit & Hnc).
  unfold zero_partial_frame. cbn [SIZE]. change (0x1000 - 1) with (2 ^ 12 - 1). rewrite land_ones_mod by lia. change (2 ^ 12) with 4096.
  assert (Er : (seg_start h + file_size h) mod 4096 = tail_start h mod 4096).
  { unfold tail_start. Z.to_euclidean_division_equations; lia. }
  assert (Ht : 0 < tail_start h <= 4096) by (unfold tail_start; lia). rewrite Er.
  assert (Hj : (seg_start h mod 4096 + (file_size h - 1)) / 4096 = seg_file_pages h - 1).
  { symmetry. apply Z.div_unique with (seg_start h mod 4096 + (file_size h - 1) - (seg_file_pages h - 1) * 4096); lia. }
  unfold tail_flags. replace (file_size h <? mem_size h) with true by lia. cbn [andb].
  destruct (Z.eqb_spec (tail_start h) 4096) as [E|E].
  - rewrite E. change (4096 mod 4096) with 0. cbn [Z.eqb negb]. exists m, a. split; [reflexivity|].
    split; [apply extends_none; [assumption|lia]|].
    eapply page_bytes_ext; [|exact Hg]. intros o Ho. replace (o <? 4096) with true by lia. reflexivity.
  - rewrite (Z.mod_small (tail_start h)) by lia. replace (tail_start h =? 0) with false by lia. cbn [negb].
    destruct (zero_tail_spec (seg_base h) Hid m a (seg_file_pages h - 1) (segment_flags h) g (tail_start h))
      as (nf & m1 & a1 & Em & He & Hp); [assumption | | assumption..| lia |].
    { pose proof (seg_base_bound h). unfold in_width. lia. }
    exists (write_bytes m1 (nf + tail_start h) 0 (4096 - tail_start h)), a1.
    split; [|split; [|exact Hp]]; [|replace (seg_file_pages h) with (seg_file_pages h - 1 + 1) at 2 by lia; exact He].
    unfold virt_add, uadd. rewrite checked_ok by lia. cbn [mbind outcome_bind]. unfold virt_sub.
    replace (1 <=? seg_start h + file_size h) with true by lia. cbn [mbind outcome_bind unwrap].
    replace (seg_start h + file_size h - 1) with (seg_start h + (file_size h - 1)) by lia.
    rewrite seg_page_containing, Hj by lia. cbn [mbind outcome_bind]. rewrite Em. reflexivity.
Qed.

(** The .bss part: the tail of the last page and the pages behind it. *)
Lemma bss_effect_spec h m a g :
  0 < file_size h < mem_size h -> mem_size h + 8192 < 2 ^ 48 ->
  0 <= seg_start h -> seg_start h + mem_size h + 4096 < 2 ^ 64 ->
  ms_inv pt m a -> 4 + 4 * (seg_pages h - seg_file_pages h) <= fa_avail a ->
  seg_pages h < Z.of_nat fuel ->
  ms_plain pt m (page_address (seg_page h (seg_file_pages h - 1))) ->
  page_bytes (seg_base h) m a (seg_file_pages h - 1) (segment_flags h) g ->
  (forall j, seg_file_pages h <= j < seg_pages h -> mappable pt m (seg_page h j)) ->
  exists m' a', bss_effect fuel pt h (seg_start h) (segment_flags h) (m, a) = Ret (m', a') /\
    extends (seg_base h) m a m' a' (4 + 4 * (seg_pages h - seg_file_pages h)) (seg_file_pages h - 1) (seg_pages h) /\
    page_bytes (seg_base h) m' a' (seg_file_pages h - 1) (tail_flags h)
      (fun o => if o <? tail_start h then g o else 0) /\
    forall j, seg_file_pages h <= j < seg_pages h ->
      page_bytes (seg_base h) m' a' j (segment_flags h) (fun _ => 0).
Proof.
  intros Hf Hs H0' Hlt Hi Hav Hfuel Hpl Hg Hmap.
  destruct (seg_pages_bounds h) as (Hb1 & Hb2 & Hb3 & Hb4); [lia..|].
  pose proof (seg_base_bound h H0') as [Hbase Ebase]. pose proof (seg_base_aligned h) as Hal.
  pose proof (Z.mod_pos_bound (seg_start h) 4096 ltac:(lia)) as Hoff.
  destruct (segment_flags_ok h) as (Hfl & Hbit & _).
  destruct (bss_tail_spec h m a g) as (m1 & a1 & E1 & He1 & Hp1); [lia | lia | lia | lia | assumption | lia | assumption | assumption |].
  pose proof (ex_consumed _ _ _ _ _ _ _ _ He1) as [Hc1 _].
  destruct (map_bss_pages_spec (seg_base h) Hal Hbase Hid (segment_flags h) (seg_pages h - seg_file_pages h)
              ltac:(lia) Hfl Hbit (seg_file_pages h) m1 a1) as (m' & a' & E2 & He2 & Hp2);
    [lia..|apply He1|lia| |].
  { intros j Hj. eapply extends_mappable; [exact Hal | exact He1 | lia..|]. apply Hmap. lia. }
  replace (seg_file_pages h + (seg_pages h - seg_file_pages h)) with (seg_pages h) in * by lia.
  exists m', a'. split; [|split; [|split; [|exact Hp2]]].
  - assert (Hup : virt_align_up (seg_start h + file_size h) (SIZE Size4KiB)
                  = Ret (seg_base h + seg_file_pages h * 4096)).
    { change (SIZE Size4KiB) with (2 ^ 12). rewrite align_up_pow2 by lia. change (2 ^ 12) with 4096.
      f_equal. rewrite Ebase. Z.to_euclidean_division_equations; lia. }
    unfold bss_effect, virt_add at 1 2, uadd. rewrite checked_ok by lia. cbn [mbind outcome_bind].
    rewrite checked_ok by lia. cbn [mbind outcome_bind]. rewrite E1. cbn [mbind outcome_bind].
    rewrite Hup. cbn [mbind outcome_bind].
    rewrite page_containing_eq by (unfold in_width; lia). cbn [mbind outcome_bind SIZE]. change 0x1000 with 4096.
    replace ((seg_base h + seg_file_pages h * 4096) mod 4096) with 0 by (rewrite Z_mod_plus_full; lia).
    rewrite Z.sub_0_r. unfold virt_sub. replace (1 <=? seg_start h + mem_size h) with true by lia.
    cbn [mbind outcome_bind unwrap].
    replace (seg_start h + mem_size h - 1) with (seg_start h + (mem_size h - 1)) by lia.
    rewrite seg_page_containing by lia. cbn [mbind outcome_bind].
    replace ((seg_start h mod 4096 + (mem_size h - 1)) / 4096) with (seg_pages h - 1)
      by (apply Z.div_unique with (seg_start h mod 4096 + (mem_size h - 1) - (seg_pages h - 1) * 4096); lia).
    unfold nth_page.
    replace (seg_base h + (seg_pages h - 1) * 4096)
      with (seg_base h + seg_file_pages h * 4096 + (seg_pages h - seg_file_pages h - 1) * SIZE Size4KiB)
      by (cbn [SIZE]; lia).
    rewrite (for_loop_yields _ _ (pages_from Size4KiB (seg_base h + seg_file_pages h * 4096) (seg_pages h - seg_file_pages h)));
      [exact E2 | apply page_range_yields; cbn [SIZE]; lia|].
    unfold pages_from. rewrite length_fmap, length_seqZ. lia.
  - eapply extends_trans; [exact He1 | exact He2 | lia..].
  - eapply page_bytes_extends; [exact Hal | exact He2 | unfold in_width; lia | lia.. | exact Hp1].
Qed.

(** The segment [h] as it should be: the bytes of the file (as in [m0]), then
    zeroes, with the flags the header asks for. *)
Definition segment_loaded h (m0 : mem) m a : Prop :=
  forall i, 0 <= i < mem_size h ->
    exists fl, (fl = segment_flags h \/ fl = Z.lor (segment_flags h) COPIED) /\
      reads pt m a (seg_start h + i) fl (if i <? file_size h then load8 m0 (seg_image h + i) else 0).

Lemma page_bytes_reads h m a j fl g i :
  0 <= i -> j * 4096 <= seg_start h mod 4096 + i < (j + 1) * 4096 ->
  page_bytes (seg_base h) m a j fl g ->
  reads pt m a (seg_start h + i) fl (g (seg_start h mod 4096 + i - j * 4096) mod 256).
Proof.
  intros Hi Hj (f & Hl & Hb). exists f.
  assert (Em : (seg_start h + i) mod 4096 = seg_start h mod 4096 + i - j * 4096).
  { symmetry. apply Z.mod_unique with (seg_start h / 4096 + j); [lia|].
    pose proof (Z.div_mod (seg_start h) 4096). lia. }
  assert (Ep : page_of (seg_start h + i) = seg_page h j).
  { unfold page_of, nth_page, seg_base. rewrite Em. f_equal. lia. }
  rewrite Ep, Em. destruct (Hb (seg_start h mod 4096 + i - j * 4096)) as [E Ho]; [lia|].
  split; [exact Hl|]. split; [unfold load8; now rewrite E | exact Ho].
Qed.

(** The pages of a segment, put together. *)
Lemma segment_loaded_pages h m0 m a g :
  0 < file_size h <= mem_size h -> mem_size h + 8192 < 2 ^ 48 ->
  seg_image h mod 4096 = seg_start h mod 4096 ->
  (forall j, 0 <= j < seg_file_pages h - 1 -> page_bytes (seg_base h) m a j (segment_flags h)
     (fun o => m0 (seg_image h - seg_image h mod 4096 + j * 4096 + o))) ->
  page_bytes (seg_base h) m a (seg_file_pages h - 1) (tail_flags h) g ->
  (forall o, 0 <= o < tail_start h ->
     g o = m0 (seg_image h - seg_image h mod 4096 + (seg_file_pages h - 1) * 4096 + o)) ->
  (forall o, tail_start h <= o -> file_size h < mem_size h -> g o = 0) ->
  (forall j, seg_file_pages h <= j < seg_pages h ->
     page_bytes (seg_base h) m a j (segment_flags h) (fun _ => 0)) ->
  segment_loaded h m0 m a.
Proof.
  intros Hf Hs Hcong H1' H2' Hg Hz H3' i Hi.
  destruct (seg_pages_bounds h Hf Hs) as (Hb1 & Hb2 & Hb3 & Hb4).
  pose proof (Z.mod_pos_bound (seg_start h) 4096 ltac:(lia)) as Hoff.
  set (j := (seg_start h mod 4096 + i) / 4096).
  assert (Hj : j * 4096 <= seg_start h mod 4096 + i < (j + 1) * 4096).
  { pose proof (Z.div_mod (seg_start h mod 4096 + i) 4096). pose proof (Z.mod_pos_bound (seg_start h mod 4096 + i) 4096).
    unfold j. lia. }
  assert (Himg : forall k, seg_image h - seg_image h mod 4096 + k * 4096 + (seg_start h mod 4096 + i - k * 4096)
                  = seg_image h + i) by lia.
  assert (0 <= j < seg_pages h) by nia.
  destruct (Z.lt_trichotomy j (seg_file_pages h - 1)) as [Hlt|[Heq|Hgt]].
  - exists (segment_flags h). split; [now left|]. replace (i <? file_size h) with true by nia.
    pose proof (page_bytes_reads h m a j _ _ i ltac:(lia) Hj (H1' j ltac:(lia))) as Hr. cbn beta in Hr.
    now rewrite Himg in Hr.
  - exists (tail_flags h). split; [unfold tail_flags; destruct (_ && _); auto|].
    rewrite <- Heq in H2'. pose proof (page_bytes_reads h m a j _ _ i ltac:(lia) Hj H2') as Hr. cbn beta in Hr.
    assert (tail_start h = seg_start h mod 4096 + file_size h - j * 4096) by (unfold tail_start; lia).
    destruct (Z.ltb_spec i (file_size h)).
    + rewrite Hg, <- Heq, Himg in Hr by lia. exact Hr.
    + rewrite Hz in Hr by lia. exact Hr.
  - exists (segment_flags h). split; [now left|]. replace (i <? file_size h) with false by nia.
    exact (page_bytes_reads h m a j _ _ i ltac:(lia) Hj (H3' j ltac:(lia))).
Qed.

Definition seg_frames h : Z := 4 * seg_pages h + 4.

(** The run of [segment_effect] up to the handling of the .bss part. *)
Lemma segment_effect_run h m a m1 a1 :
  segment_ok h m a -> seg_pages h < Z.of_nat fuel ->
  fold_outcome (map_segment_frame pt (mkFrame Size4KiB (seg_image h - seg_image h mod 4096)) (seg_page h 0) (segment_flags h))
    (frames_from Size4KiB (seg_image h - seg_image h mod 4096) (seg_file_pages h)) (m, a) = Ret (m1, a1) ->
  segment_effect fuel virtual_base info pt h (m, a) =
  if file_size h <? mem_size h
  then bss_effect fuel pt h (seg_start h) (segment_flags h) (m1, a1) else Ret (m1, a1).
Proof.
  intros [Hf (Hv1 & Hv2 & Hv3) Hs (Hp1 & Hp2 & Hp3) Hcong _ _] Hfuel E1.
  destruct (seg_pages_bounds h Hf Hs) as (Hb1 & Hb2 & Hb3 & Hb4).
  assert (Hs0 : 0 <= seg_start h) by (unfold seg_start; lia).
  assert (Hi0 : 0 <= seg_image h) by (unfold seg_image; lia).
  pose proof (Z.mod_pos_bound (seg_start h) 4096 ltac:(lia)) as Hoff.
  pose proof (Z.mod_le (seg_image h) 4096 Hi0 ltac:(lia)) as Hmle.
  set (sf := seg_image h - seg_image h mod 4096) in *.
  assert (Esf : sf = seg_image h - seg_start h mod 4096) by (unfold sf; lia).
  assert (Hsf : sf mod 4096 = 0) by (apply sub_mod_aligned; lia).
  unfold segment_effect. fold (seg_start h). fold (seg_image h).
  unfold uadd at 1. rewrite checked_ok by (unfold seg_start in *; lia). cbn [mbind outcome_bind].
  fold (seg_start h). unfold uadd at 1. fold (seg_image h). rewrite checked_ok by lia. cbn [mbind outcome_bind].
  rewrite frame_containing_eq by (unfold in_width; lia). cbn [mbind outcome_bind SIZE]. change 0x1000 with 4096. fold sf.
  unfold phys_add, uadd at 1. rewrite checked_ok by lia. cbn [mbind outcome_bind]. unfold phys_sub.
  replace (1 <=? seg_image h + file_size h) with true by lia. cbn [mbind outcome_bind unwrap].
  rewrite frame_containing_eq by (unfold in_width; lia). cbn [mbind outcome_bind SIZE]. change 0x1000 with 4096.
  replace (seg_image h + file_size h - 1 - (seg_image h + file_size h - 1) mod 4096)
    with (sf + (seg_file_pages h - 1) * SIZE Size4KiB).
  2: { cbn [SIZE]. replace ((seg_image h + file_size h - 1) mod 4096)
         with (seg_image h + file_size h - 1 - (sf + (seg_file_pages h - 1) * 4096)); [lia|].
       apply Z.mod_unique with (sf / 4096 + (seg_file_pages h - 1)); [lia|]. pose proof (Z.div_mod sf 4096). lia. }
  unfold uadd at 1. rewrite checked_ok by (unfold seg_start in *; lia). cbn [mbind outcome_bind].
  pose proof (seg_page_containing h 0 Hs0 ltac:(lia) ltac:(lia)) as Epage.
  rewrite !Z.add_0_r, (Z.div_small (seg_start h mod 4096)) in Epage by lia. rewrite Epage. cbn [mbind outcome_bind].
  rewrite (for_loop_yields _ _ (frames_from Size4KiB sf (seg_file_pages h)));
    [| apply frame_range_yields; cbn [SIZE]; lia | unfold frames_from; rewrite length_fmap, length_seqZ; lia].
  rewrite E1. reflexivity.
Qed.

(** One segment is loaded; nothing but its pages changes. *)
Lemma segment_effect_spec h m a :
  segment_ok h m a -> ms_inv pt m a -> seg_frames h <= fa_avail a -> seg_pages h < Z.of_nat fuel ->
  exists m' a', segment_effect fuel virtual_base info pt h (m, a) = Ret (m', a') /\
    extends (seg_base h) m a m' a' (seg_frames h) 0 (seg_pages h) /\ segment_loaded h m m' a'.
Proof.
  intros Hok Hi Hav Hfuel. pose proof Hok as [Hf (Hv1 & Hv2 & Hv3) Hs (Hp1 & Hp2 & Hp3) Hcong Hdata Hmap].
  unfold seg_frames in *.
  destruct (seg_pages_bounds h Hf Hs) as (Hb1 & Hb2 & Hb3 & Hb4).
  assert (Hs0 : 0 <= seg_start h) by (unfold seg_start; lia).
  assert (Hi0 : 0 <= seg_image h) by (unfold seg_image; lia).
  pose proof (seg_base_bound h Hs0) as [Hbase Ebase]. pose proof (seg_base_aligned h) as Hal.
  pose proof (Z.mod_pos_bound (seg_start h) 4096 ltac:(lia)) as Hoff.
  pose proof (Z.mod_le (seg_image h) 4096 Hi0 ltac:(lia)) as Hmle.
  destruct (segment_flags_ok h) as (Hfl & Hbit & _).
  set (sf := seg_image h - seg_image h mod 4096) in *.
  assert (Hsf : sf mod 4096 = 0) by (apply sub_mod_aligned; lia).
  assert (Esf : sf = seg_image h - seg_start h mod 4096) by (unfold sf; lia).
  destruct (map_segment_frames_spec (seg_base h) Hal Hbase sf (segment_flags h) (seg_file_pages h)
              ltac:(lia) Hsf Hfl Hbit 0 m a) as (m1 & a1 & E1 & He1 & Hb);
    [lia | lia | lia | lia | lia | assumption | lia | intros; apply Hmap; lia | intros; apply Hdata; lia |].
  pose proof (ex_consumed _ _ _ _ _ _ _ _ He1) as [Hc1 _].
  rewrite Z.mul_0_l, Z.add_0_r in E1. cbn [Z.add] in Hb, He1.
  destruct (Z.ltb_spec (file_size h) (mem_size h)) as [Hlt|Hge].
  - destruct (bss_effect_spec h m1 a1 (fun o => m (sf + (seg_file_pages h - 1) * 4096 + o)))
      as (m' & a' & E2 & He2 & Ht & Hz); [lia.. | apply He1 | lia | lia | | apply Hb; lia | |].
    { apply He1; [|apply Hmap; lia]. apply Hmap. lia. }
    { intros j Hj. eapply extends_mappable; [exact Hal | exact He1 | lia..|]. apply Hmap. lia. }
    exists m', a'. split; [erewrite segment_effect_run by eassumption; replace (file_size h <? mem_size h) with true by lia; exact E2|]. split; [eapply extends_trans; [exact He1 | exact He2 | lia..]|].
    eapply segment_loaded_pages; [lia | lia | assumption | | exact Ht | | | exact Hz].
    2: { intros o Ho. cbn beta. replace (o <? tail_start h) with true by lia. reflexivity. }
    2: { intros o Ho _. cbn beta. replace (o <? tail_start h) with false by lia. reflexivity. }
    intros j Hj. eapply page_bytes_extends; [exact Hal | exact He2 | apply Hmap; lia | lia.. | apply Hb; lia].
  - exists m1, a1. split; [erewrite segment_effect_run by eassumption; replace (file_size h <? mem_size h) with false by lia; reflexivity|]. split; [eapply extends_trans; [exact He1 | apply (extends_none _ m1 a1 0 0 0); [apply He1|lia] | lia..]|].
    assert (Htf : tail_flags h = segment_flags h).
    { unfold tail_flags. replace (file_size h <? mem_size h) with false by lia. reflexivity. }
    assert (seg_pages h = seg_file_pages h) by (unfold seg_pages, seg_file_pages; do 2 f_equal; lia).
    eapply segment_loaded_pages; [lia | lia | assumption | intros; apply Hb; lia | rewrite Htf; apply Hb; lia | | lia | lia].
    reflexivity.
Qed.

(** ** All segments *)

(** Two segments with no page in common. *)
Definition segments_apart h h' : Prop :=
  forall j j', 0 <= j < seg_pages h -> 0 <= j' < seg_pages h' ->
    vpn (page_address (seg_page h j)) <> vpn (page_address (seg_page h' j')).

Fixpoint frames_needed (hs : list ProgramHeader) : Z :=
  match hs with [] => 0 | h :: hs => seg_frames h + frames_needed hs end.

Lemma frames_needed_nonneg hs : Forall (fun h => 0 <= mem_size h) hs -> 0 <= frames_needed hs.
Proof.
  induction 1 as [|h hs Hh _ IH]; cbn; [lia|]. unfold seg_frames, seg_pages.
  pose proof (Z.mod_pos_bound (seg_start h) 4096). pose proof (Z.div_pos (seg_start h mod 4096 + mem_size h + 4095) 4096). lia.
Qed.

(** A segment stays loadable, and a loaded one stays loaded, while others are loaded. *)
Lemma segment_ok_keep h h' m a m' a' k :
  segment_ok h m a -> segments_apart h' h ->
  extends (seg_base h') m a m' a' k 0 (seg_pages h') -> segment_ok h m' a'.
Proof.
  intros [Hf Hv Hs Hp Hc Hd Hm] Hap He. split; try assumption.
  - intros x Hx. apply (ex_keeps _ _ _ _ _ _ _ _ He). auto.
  - intros j Hj. destruct (Hm j Hj) as (Hw & Hpl & Hn). split; [assumption|].
    split; [now apply (ex_plain _ _ _ _ _ _ _ _ He)|].
    rewrite (ex_other _ _ _ _ _ _ _ _ He); [assumption..|].
    intros i Hi E. now apply (Hap i j).
Qed.

(** A byte of a segment is in one of its pages. *)
Lemma seg_page_of h i :
  0 < file_size h <= mem_size h -> mem_size h + 8192 < 2 ^ 48 -> 0 <= i < mem_size h ->
  exists j, 0 <= j < seg_pages h /\ page_of (seg_start h + i) = seg_page h j.
Proof.
  intros Hf Hs Hi. exists ((seg_start h mod 4096 + i) / 4096). destruct (seg_pages_bounds h Hf Hs) as (_ & _ & _ & Hb).
  pose proof (Z.mod_pos_bound (seg_start h) 4096).
  split; [split; [apply Z.div_pos; lia | apply Z.div_lt_upper_bound; lia]|].
  unfold page_of, nth_page, seg_base. f_equal. Z.to_euclidean_division_equations; lia.
Qed.

Lemma segment_loaded_keep h m0 m a m' a' :
  0 <= seg_start h -> mem_size h + 8192 < 2 ^ 48 -> 0 < file_size h <= mem_size h ->
  keeps pt m a m' a' ->
  (forall j, 0 <= j < seg_pages h -> ms_lookup pt m' (seg_page h j) = ms_lookup pt m (seg_page h j)) ->
  segment_loaded h m0 m a -> segment_loaded h m0 m' a'.
Proof.
  intros H0' Hs Hf Hk Hl Hload i Hi. destruct (Hload i Hi) as (fl & Hfl & Hr). exists fl.
  split; [assumption|]. eapply reads_keep; [exact Hk | | exact Hr].
  destruct (seg_page_of h i Hf Hs Hi) as (j & Hj & ->). now apply Hl.
Qed.

Lemma segment_loaded_image h m0 m0' m a :
  (forall i, 0 <= i < file_size h -> m0' (seg_image h + i) = m0 (seg_image h + i)) ->
  segment_loaded h m0' m a -> segment_loaded h m0 m a.
Proof.
  intros Himg Hload i Hi. destruct (Hload i Hi) as (fl & Hfl & Hr). exists fl. split; [assumption|].
  destruct (Z.ltb_spec i (file_size h)); [|assumption]. unfold load8 in *.
  rewrite Himg in Hr by lia. exact Hr.
Qed.

Lemma segment_data h m a i :
  segment_ok h m a -> 0 <= i < file_size h -> ~ ms_owned pt m a (seg_image h + i).
Proof.
  intros [Hf (Hv1 & Hv2 & Hv3) Hs (Hp1 & Hp2 & Hp3) Hc Hd Hm] Hi. apply Hd.
  destruct (seg_pages_bounds h Hf Hs) as (_ & _ & Hb & _).
  pose proof (Z.mod_pos_bound (seg_image h) 4096). lia.
Qed.

Lemma allocate_segments_spec hs m a :
  Forall (fun h => segment_ok h m a) hs -> ForallOrdPairs segments_apart hs ->
  ms_inv pt m a -> frames_needed hs <= fa_avail a ->
  Forall (fun h => seg_pages h < Z.of_nat fuel) hs ->
  exists m' a', fold_outcome (segment_effect fuel virtual_base info pt) hs (m, a) = Ret (m', a') /\
    ms_inv pt m' a' /\ keeps pt m a m' a' /\
    (forall va, in_width 64 va -> ms_plain pt m va -> ms_plain pt m' va) /\
    Forall (fun h => segment_loaded h m m' a') hs /\
    (forall q, in_width 64 (page_address q) ->
       (forall h j, h ∈ hs -> 0 <= j < seg_pages h -> vpn (page_address q) <> vpn (page_address (seg_page h j))) ->
       ms_lookup pt m' q = ms_lookup pt m q) /\
    consumed (frames_needed hs) a a'.
Proof.
  revert m a. induction hs as [|h hs IH]; intros m a Hok Hap Hi Hav Hfuel.
  - exists m, a. split; [reflexivity|]. split; [assumption|]. split; [apply keeps_refl|].
    split; [auto|]. split; [constructor|]. split; [auto | apply consumed_refl; cbn; lia].
  - apply Forall_cons in Hok as [Hh Hok]. apply Forall_cons in Hfuel as [Hfh Hfuel].
    inversion_clear Hap as [|? ? Happ Hap']. cbn [frames_needed] in Hav.
    assert (Hneed : 0 <= frames_needed hs).
    { apply frames_needed_nonneg. eapply Forall_impl; [exact Hok|]. intros h' [Hf _ _ _ _ _ _]. lia. }
    destruct (segment_effect_spec h m a Hh Hi ltac:(lia) Hfh) as (m1 & a1 & E1 & He1 & Hl1).
    pose proof (ex_consumed _ _ _ _ _ _ _ _ He1) as Hc1. pose proof (proj1 Hc1) as Hav1.
    pose proof (ex_keeps _ _ _ _ _ _ _ _ He1) as Hk1.
    assert (Hok1 : Forall (fun h => segment_ok h m1 a1) hs).
    { rewrite Forall_forall in *. intros h' Hin. eapply segment_ok_keep; eauto. }
    destruct (IH m1 a1) as (m' & a' & E2 & Hi2 & Hk2 & Hp2 & Hl2 & Ho2 & Hc2);
      [assumption | assumption | apply He1 | lia | assumption |].
    exists m', a'. cbn [fold_outcome]. rewrite E1. cbn [mbind outcome_bind].
    split; [exact E2|]. split; [assumption|]. split; [eapply keeps_trans; eauto|].
    split; [intros va Hva Hpl; apply Hp2; [assumption | now apply (ex_plain _ _ _ _ _ _ _ _ He1)]|].
    split; [|split; [|exact (consumed_trans _ _ _ _ _ Hc1 Hc2)]].
    + constructor.
      * destruct Hh as [Hf (? & ? & ?) Hs _ _ _ Hm].
        eapply segment_loaded_keep; [unfold seg_start; lia | assumption | assumption | exact Hk2 | | exact Hl1].
        intros j Hj. apply Ho2; [apply Hm; lia|]. intros h' j' Hin Hj'.
        rewrite Forall_forall in Happ. now apply Happ.
      * rewrite Forall_forall in *. intros h' Hin. eapply segment_loaded_image; [|eauto].
        intros i Hi'. apply Hk1. apply segment_data; auto.
    + intros q Hq Hne. rewrite Ho2, (ex_other _ _ _ _ _ _ _ _ He1); [reflexivity | assumption | | assumption |].
      * intros j Hj. apply (Hne h j); [left | assumption].
      * intros h' j Hin Hj. apply (Hne h' j); [now right | assumption].
Qed.

(** Loading the kernel's segments succeeds, and afterwards every segment
    reads through the page table as its bytes of the file followed by zeroes, in
    pages with the protection its header asks for, although the frames that two
    segments share are mapped twice; pages of no segment keep their mapping, and
    no memory is written but free frames and the tables; a message about every segment is
    on the serial line. *)
Theorem allocate_correct `{UW : UartWorld W 0x3F8} (display_flags : ProgramHeader -> list Z) hs m a (con : console W) :
  Forall (fun h => segment_ok h m a) hs -> ForallOrdPairs segments_apart hs ->
  ms_inv pt m a -> frames_needed hs <= fa_avail a ->
  Forall (fun h => seg_pages h < Z.of_nat fuel) hs ->
  (polls_bound < fuel)%nat -> console_ok con ->
  exists m' a' con', allocate (E := unit) fuel virtual_base info pt display_flags hs (m, a, con) = Ret (Ok tt, (m', a', con')) /\
    printed (hs ≫= segment_log virtual_base display_flags) con con' /\ ms_inv pt m' a' /\ keeps pt m a m' a' /\
    (forall va, in_width 64 va -> ms_plain pt m va -> ms_plain pt m' va) /\
    Forall (fun h => segment_loaded h m m' a') hs /\
    (forall q, in_width 64 (page_address q) ->
       (forall h j, h ∈ hs -> 0 <= j < seg_pages h -> vpn (page_address q) <> vpn (page_address (seg_page h j))) ->
       ms_lookup pt m' q = ms_lookup pt m q).
Proof.
  intros Hok Hap Hi Hav Hfuel Hpoll Hcon.
  destruct (allocate_segments_spec hs m a Hok Hap Hi Hav Hfuel) as (m' & a' & E & Hi' & Hk & Hp & Hl & Ho & _).
  destruct (allocate_says (E := unit) fuel virtual_base info pt display_flags Hpoll hs (m, a) (m', a') con Hcon E) as (con' & E' & Hs).
  exists m', a', con'. auto 10.
Qed.
End Segments.

(** ** Relocations *)

Section Relocations.
Context `{FL : Bitflags} `{MS : MapperSpec M A} (pt : M).
Implicit Types (m : mem) (a : A) (va : Z).

(** One step of the loop: [k] bytes at the page's part of the value. *)
Lemma relocate_page_eq m a page f fl va bs bw off k :
  ms_inv pt m a -> in_width 64 (page_address page) -> ms_plain pt m (page_address page) ->
  ms_lookup pt m page = Some (mkFrame Size4KiB f, fl) ->
  length bs = 8%nat -> 0 <= va -> va + 8 < 2 ^ 64 -> page_address page + 4096 < 2 ^ 64 ->
  off = Z.max 0 (va - page_address page) -> off < 4096 -> 0 <= bw -> 0 <= k -> bw + k <= 8 ->
  k = (if page_address page + 4096 <? va + 8 then page_address page + 4096 - va else 8 - bw) ->
  relocate_page pt va bs page (m, bw)
  = Ret (write_list m (f + off) (take (Z.to_nat k) (drop (Z.to_nat bw) bs)), bw + k).
Proof.
  intros Hi Hw Hpl Hl Hlen Hva Hva8 Hpe Hoff Ho4 Hbw Hk Hbk Ek. pose proof (ms_valid _ _ _ _ _ Hl) as [Hf _].
  unfold in_width in Hw. unfold relocate_page. rewrite (ms_translate pt m a) by assumption. rewrite Hl, Hlen.
  cbn [as_result mbind outcome_bind expect]. change (Z.of_nat 8) with 8.
  replace (if page_address page <? va then virt_sub va (page_address page) else Ret 0) with (Ret off).
  2: { unfold virt_sub. destruct (Z.ltb_spec (page_address page) va); [|f_equal; lia].
       replace (page_address page <=? va) with true by lia. cbn. f_equal. lia. }
  cbn [mbind outcome_bind]. unfold page_end, virt_add, uadd. cbn [SIZE]. change 0x1000 with 4096.
  rewrite (checked_ok 64 (va + 8)) by lia. cbn [mbind outcome_bind].
  rewrite (checked_ok 64 (page_address page + 4096)) by lia. cbn [mbind outcome_bind].
  replace (if page_address page + 4096 <? va + 8 then virt_sub (page_address page + 4096) va else usub 64 8 bw)
    with (Ret k).
  2: { rewrite Ek. unfold virt_sub, usub. destruct (Z.ltb_spec (page_address page + 4096) (va + 8)); [|rewrite checked_ok by lia; reflexivity].
       replace (va <=? page_address page + 4096) with true by lia. reflexivity. }
  cbn [mbind outcome_bind]. rewrite (checked_ok 64 (bw + k)) by lia. cbn [mbind outcome_bind].
  clear Ek. unfold slice. rewrite Hlen. change (Z.of_nat 8) with 8. replace ((0 <=? bw) && (bw <=? bw + k) && (bw + k <=? 8)) with true by lia.
  cbn [mbind outcome_bind frame_address]. rewrite checked_ok by lia. cbn [mbind outcome_bind].
  replace (bw + k - bw) with k by lia. reflexivity.
Qed.

(** The address in memory of byte [i] of a value that starts at the offset [o] of
    the frame [f1] and may go on in [f2]. *)
Definition reloc_target (f1 f2 o i : Z) : Z :=
  if o + i <? 4096 then f1 + (o + i) else f2 + (o + i - 4096).

(** [m'] is [m] with the eight bytes of [v] written there. *)
Definition reloc_written m m' (f1 f2 o v : Z) : Prop :=
  (forall i, 0 <= i < 8 -> m' (reloc_target f1 f2 o i) = (v / 256 ^ i) mod 256) /\
  (forall x, (forall i, 0 <= i < 8 -> x <> reloc_target f1 f2 o i) -> m' x = m x).

Lemma le_byte v i : 0 <= i < 8 -> to_le_bytes 8 v !! Z.to_nat i = Some ((v / 256 ^ i) mod 256).
Proof. intros Hi. rewrite lookup_to_le_bytes by lia. now rewrite Z2Nat.id by lia. Qed.

Lemma reloc_written_one m f1 f2 o v :
  0 <= o -> o + 8 <= 4096 ->
  reloc_written m (write_list m (f1 + o) (take (Z.to_nat 8) (drop (Z.to_nat 0) (to_le_bytes 8 v)))) f1 f2 o v.
Proof.
  intros Ho Ho8. change (drop (Z.to_nat 0) (to_le_bytes 8 v)) with (to_le_bytes 8 v).
  rewrite take_ge by (rewrite length_to_le_bytes; lia). split.
  - intros i Hi. unfold reloc_target. replace (o + i <? 4096) with true by lia.
    replace (f1 + (o + i)) with (f1 + o + i) by lia. apply write_list_inside; [lia | now apply le_byte].
  - intros x Hx. apply write_list_outside. rewrite length_to_le_bytes.
    destruct (decide (f1 + o <= x < f1 + o + 8)) as [Hin|]; [|lia].
    destruct (Hx (x - (f1 + o))); [lia|]. unfold reloc_target.
    replace (o + (x - (f1 + o)) <? 4096) with true by lia. lia.
Qed.

Lemma reloc_written_two m f1 f2 o v k bw :
  valid_frame f1 -> valid_frame f2 -> o < 4096 -> k = 4096 - o -> k <= 8 -> bw = k ->
  reloc_written m
    (write_list (write_list m (f1 + o) (take (Z.to_nat k) (drop (Z.to_nat 0) (to_le_bytes 8 v))))
       (f2 + 0) (take (Z.to_nat (8 - k)) (drop (Z.to_nat bw) (to_le_bytes 8 v)))) f1 f2 o v.
Proof.
  intros [Hf1 Ha1] [Hf2 Ha2] Ho -> Hk ->. change (drop (Z.to_nat 0) (to_le_bytes 8 v)) with (to_le_bytes 8 v).
  rewrite (take_ge (drop _ _)) by (rewrite length_drop, length_to_le_bytes; lia). rewrite Z.add_0_r.
  assert (Hl1 : Z.of_nat (length (take (Z.to_nat (4096 - o)) (to_le_bytes 8 v))) = 4096 - o)
    by (rewrite length_take, length_to_le_bytes; lia).
  assert (Hl2 : Z.of_nat (length (drop (Z.to_nat (4096 - o)) (to_le_bytes 8 v))) = o + 8 - 4096)
    by (rewrite length_drop, length_to_le_bytes; lia).
  pose proof (Z.div_mod f1 4096 ltac:(lia)) as D1. pose proof (Z.div_mod f2 4096 ltac:(lia)) as D2.
  rewrite Ha1 in D1. rewrite Ha2 in D2. split.
  - intros i Hi. unfold reloc_target. destruct (Z.ltb_spec (o + i) 4096).
    + rewrite write_list_outside by lia. replace (f1 + (o + i)) with (f1 + o + i) by lia.
      apply write_list_inside; [lia|]. rewrite lookup_take_lt by lia. now apply le_byte.
    + apply write_list_inside; [lia|]. rewrite lookup_drop.
      replace (Z.to_nat (4096 - o) + Z.to_nat (o + i - 4096))%nat with (Z.to_nat i) by lia. now apply le_byte.
  - intros x Hx. rewrite write_list_outside; [apply write_list_outside|].
    + destruct (decide (f1 + o <= x < f1 + 4096)) as [Hin|]; [|lia]. destruct (Hx (x - (f1 + o))); [lia|].
      unfold reloc_target. replace (o + (x - (f1 + o)) <? 4096) with true by lia. lia.
    + destruct (decide (f2 <= x < f2 + (o + 8 - 4096))) as [Hin|]; [|lia]. destruct (Hx (x - f2 + 4096 - o)); [lia|].
      unfold reloc_target. replace (o + (x - f2 + 4096 - o) <? 4096) with false by lia. lia.
Qed.

Context (fuel : nat) (virtual_base : Z).

(** A relative relocation of the value [virtual_base + d] that can be applied: its
    eight bytes are mapped, in memory the tables do not own, and so is the page
    of the byte behind them. *)
Record reloc_ok (entry : RelocationEntry) (d : Z) m a : Prop := {
  ro_type : rtype entry = reloc_x86_64 R_AMD64_RELATIVE;
  ro_addend : addend entry = Some d;
  ro_bounds : 0 <= virtual_base /\ 0 <= reloc_offset entry /\ 0 <= d /\ virtual_base + d < 2 ^ 64 /\
    virtual_base + reloc_offset entry + 8 + 8192 < 2 ^ 64;
  ro_plain i : 0 <= i <= 8 -> ms_plain pt m (page_address (page_of (virtual_base + reloc_offset entry + i)));
  ro_bytes i : 0 <= i < 8 -> exists fl b, reads pt m a (virtual_base + reloc_offset entry + i) fl b;
  ro_next : ms_lookup pt m (page_of (virtual_base + reloc_offset entry + 8)) <> None;
}.

(** The pages of the bytes of a value. *)
Lemma page_of_near va i :
  0 <= va -> 0 <= i <= 8 ->
  page_of (va + i) = mkPage Size4KiB (if va mod 4096 + i <? 4096 then va - va mod 4096 else va - va mod 4096 + 4096)
  /\ (va + i) mod 4096 = if va mod 4096 + i <? 4096 then va mod 4096 + i else va mod 4096 + i - 4096.
Proof.
  intros Hva Hi. pose proof (Z.mod_pos_bound va 4096 ltac:(lia)). pose proof (Z.div_mod va 4096 ltac:(lia)).
  assert (Em : (va + i) mod 4096 = if va mod 4096 + i <? 4096 then va mod 4096 + i else va mod 4096 + i - 4096).
  { destruct (Z.ltb_spec (va mod 4096 + i) 4096); symmetry;
      [apply Z.mod_unique with (va / 4096) | apply Z.mod_unique with (va / 4096 + 1)]; lia. }
  split; [|exact Em]. unfold page_of. rewrite Em. destruct (Z.ltb_spec (va mod 4096 + i) 4096); f_equal; lia.
Qed.

(** The pages the loop runs over. *)
Lemma relocation_pages {St} va n ps last (body : Page Size4KiB -> St -> outcome St) st :
  pages_from Size4KiB (va - va mod 4096) n = ps ->
  last = mkPage Size4KiB (va - va mod 4096 + (n - 1) * 4096) ->
  0 <= va -> 0 <= n -> va - va mod 4096 + n * 4096 < 2 ^ 64 -> (length ps < fuel)%nat ->
  for_loop fuel body (page_range_inclusive (page_of va) last) st = fold_outcome body ps st.
Proof.
  intros <- -> Hva Hn Hlt Hfuel. pose proof (Z.mod_le va 4096 Hva ltac:(lia)).
  apply for_loop_yields; [|assumption]. apply page_range_yields; cbn [SIZE]; lia.
Qed.

(** The loop writes the value at the frames of the two pages. *)
Lemma relocation_loop_spec m a va v f1 fl1 f2 fl2 :
  ms_inv pt m a -> 0 <= va -> va + 8 + 8192 < 2 ^ 64 -> (2 < fuel)%nat ->
  ms_plain pt m (page_address (page_of va)) -> ms_plain pt m (page_address (page_of (va + 8))) ->
  ms_lookup pt m (page_of va) = Some (mkFrame Size4KiB f1, fl1) ->
  ms_lookup pt m (page_of (va + 8)) = Some (mkFrame Size4KiB f2, fl2) ->
  (forall x, f1 + va mod 4096 <= x < f1 + Z.min 4096 (va mod 4096 + 8) -> ~ ms_owned pt m a x) ->
  exists m', (start_page ← page_containing_address Size4KiB va;
      e ← virt_add va (Z.of_nat (length (to_le_bytes 8 v)));
      end_page ← page_containing_address Size4KiB e;
      '(m, _) ← for_loop fuel (relocate_page pt va (to_le_bytes 8 v)) (page_range_inclusive start_page end_page) (m, 0);
      Ret m) = Ret m' /\
    reloc_written m m' f1 f2 (va mod 4096) v.
Proof.
  intros Hi Hva Hlt Hfuel Hpl1 Hpl2 Hl1 Hl2 Hown.
  pose proof (Z.mod_pos_bound va 4096 ltac:(lia)) as Ho. pose proof (Z.mod_le va 4096 Hva ltac:(lia)) as Hole.
  pose proof (ms_valid _ _ _ _ _ Hl1) as Hf1. pose proof (ms_valid _ _ _ _ _ Hl2) as Hf2.
  pose proof (sub_mod_aligned va 4096 ltac:(lia)) as Hal.
  set (o := va mod 4096) in *. pose proof (length_to_le_bytes 8 v) as Hlen.
  destruct (page_of_near va 8 Hva ltac:(lia)) as [Ep8 _]. fold o in Ep8.
  assert (E1 : page_containing_address Size4KiB va = Ret (page_of va)) by (rewrite page_containing_eq; [reflexivity | unfold in_width; lia]).
  assert (E8 : page_containing_address Size4KiB (va + 8) = Ret (page_of (va + 8)))
    by (rewrite page_containing_eq; [reflexivity | unfold in_width; lia]).
  rewrite E1, Hlen. cbn [mbind outcome_bind]. change (Z.of_nat 8) with 8. unfold virt_add, uadd.
  rewrite checked_ok by lia. cbn [mbind outcome_bind]. rewrite E8. cbn [mbind outcome_bind].
  assert (Ep : page_of va = mkPage Size4KiB (va - o)) by reflexivity.
  destruct (Z.ltb_spec (o + 8) 4096) as [Hone|Htwo].
  - eexists. split; [|apply reloc_written_one with (f2 := f2); lia].
    rewrite (relocation_pages va 1 [page_of va]); [| | rewrite Ep8; f_equal; lia | lia | lia | lia | cbn; lia].
    2: { rewrite pages_from_cons by lia. now rewrite Ep. }
    cbn [fold_outcome]. erewrite (relocate_page_eq m a (page_of va) f1 fl1 va _ 0 o 8);
      [reflexivity | eassumption | rewrite Ep; unfold in_width; cbn; lia | assumption.. | lia | rewrite Ep; cbn; lia
        | rewrite Ep; cbn [page_address]; lia | lia | lia | lia | lia |].
    rewrite Ep. cbn [page_address]. replace (va - o + 4096 <? va + 8) with false by lia. reflexivity.
  - set (m1 := write_list m (f1 + o) (take (Z.to_nat (4096 - o)) (drop (Z.to_nat 0) (to_le_bytes 8 v)))).
    assert (Hm1 : forall x, ms_owned pt m a x -> m1 x = m x).
    { intros x Hx. apply write_list_outside. rewrite length_take, length_drop, Hlen.
      destruct (decide (f1 + o <= x < f1 + 4096)); [|lia]. destruct (Hown x); [lia | assumption]. }
    destruct (ms_write pt m m1 a Hi Hm1) as (Hi1 & _ & Hp1 & Hlk1).
    exists (write_list m1 (f2 + 0) (take (Z.to_nat (8 - (4096 - o))) (drop (Z.to_nat (0 + (4096 - o))) (to_le_bytes 8 v)))).
    split; [|apply reloc_written_two; assumption || lia].
    rewrite (relocation_pages va 2 [page_of va; page_of (va + 8)]);
      [| | rewrite Ep8; f_equal; lia | lia | lia | lia | cbn; lia].
    2: { rewrite !pages_from_cons, Ep8, Ep by lia. reflexivity. }
    cbn [fold_outcome]. rewrite (relocate_page_eq m a (page_of va) f1 fl1 va _ 0 o (4096 - o));
      [| eassumption | rewrite Ep; unfold in_width; cbn; lia | assumption.. | lia | rewrite Ep; cbn; lia
        | rewrite Ep; cbn [page_address]; lia | lia | lia | lia | lia |].
    2: { rewrite Ep. cbn [page_address]. destruct (Z.ltb_spec (va - o + 4096) (va + 8)); lia. }
    fold m1. cbn [mbind outcome_bind].
    rewrite (relocate_page_eq m1 a (page_of (va + 8)) f2 fl2 va _ (0 + (4096 - o)) 0 (8 - (4096 - o)));
      [reflexivity | assumption | | apply Hp1; [|assumption] | rewrite Hlk1; [assumption|] | assumption | ..].
    all: try (rewrite Ep8; cbn [page_address]); try (unfold in_width; lia).
    destruct (Z.ltb_spec (va - o + 4096 + 4096) (va + 8)); lia.
Qed.

Lemma relocate_spec {E} `{IO : IoPorts W} entry d m a (con : console W) :
  reloc_ok entry d m a -> ms_inv pt m a -> (2 < fuel)%nat ->
  exists m', relocate (E := E) fuel virtual_base pt entry (m, a, con) = Ret (Ok tt, (m', a, con)) /\
    ms_inv pt m' a /\
    (forall q, in_width 64 (page_address q) -> ms_lookup pt m' q = ms_lookup pt m q) /\
    (forall i, 0 <= i < 8 -> exists fl,
       reads pt m' a (virtual_base + reloc_offset entry + i) fl (((virtual_base + d) / 256 ^ i) mod 256)) /\
    (forall x, (forall i f fl, 0 <= i < 8 ->
         ms_lookup pt m (page_of (virtual_base + reloc_offset entry + i)) = Some (mkFrame Size4KiB f, fl) ->
         x <> f + (virtual_base + reloc_offset entry + i) mod 4096) -> m' x = m x) /\
    (forall x, ms_owned pt m' a x <-> ms_owned pt m a x) /\
    (forall va, in_width 64 va -> ms_plain pt m va -> ms_plain pt m' va).
Proof.
  intros [Ht Ha (Hb1 & Hb2 & Hb3 & Hb4 & Hb5) Hpl Hbytes Hnext] Hi Hfuel.
  set (va := virtual_base + reloc_offset entry) in *. assert (Hva : 0 <= va) by (unfold va; lia).
  destruct (ms_lookup pt m (page_of (va + 8))) as [[[f2] fl2]|] eqn:El2; [|easy].
  destruct (Hbytes 0 ltac:(lia)) as (fl1 & b0 & f1 & El1 & _ & _). rewrite Z.add_0_r in El1.
  (* the frame of every byte *)
  assert (Htgt : forall i, 0 <= i < 8 -> exists f fl,
    ms_lookup pt m (page_of (va + i)) = Some (mkFrame Size4KiB f, fl) /\
    reloc_target f1 f2 (va mod 4096) i = f + (va + i) mod 4096 /\
    ~ ms_owned pt m a (f + (va + i) mod 4096)).
  { intros i Hi'. destruct (Hbytes i Hi') as (fl & b & f & El & _ & Ho). exists f, fl. split; [exact El|].
    split; [|exact Ho]. destruct (page_of_near va i Hva ltac:(lia)) as [Ep ->].
    destruct (page_of_near va 8 Hva ltac:(lia)) as [Ep8 _]. unfold reloc_target. rewrite Ep in El.
    destruct (Z.ltb_spec (va mod 4096 + i) 4096).
    - unfold page_of in El1. rewrite El in El1. injection El1 as -> _. reflexivity.
    - rewrite Ep8 in El2. replace (va mod 4096 + 8 <? 4096) with false in El2 by lia.
      rewrite El in El2. injection El2 as -> _. reflexivity. }
  destruct (relocation_loop_spec m a va (virtual_base + d) f1 fl1 f2 fl2) as (m' & Erun & Hin & Hout);
    [assumption.. | | apply Hpl; lia | exact El1 | exact El2 | |].
  { specialize (Hpl 0 ltac:(lia)). rewrite Z.add_0_r in Hpl. exact Hpl. }
  { intros x Hx. destruct (Htgt (x - f1 - va mod 4096)) as (f & fl & _ & Et & Ho); [lia|].
    unfold reloc_target in Et. replace (va mod 4096 + (x - f1 - va mod 4096) <? 4096) with true in Et by lia.
    rewrite <- Et in Ho. replace (f1 + (va mod 4096 + (x - f1 - va mod 4096))) with x in Ho by lia. exact Ho. }
  assert (Hkeep : forall x, ms_owned pt m a x -> m' x = m x).
  { intros x Hx. apply Hout. intros i Hi' ->. destruct (Htgt i Hi') as (f & fl & _ & Et & Ho).
    rewrite Et in Hx. contradiction. }
  destruct (ms_write pt m m' a Hi Hkeep) as (Hi' & Hown & Hpl' & Hl').
  exists m'. split; [|split; [exact Hi'|split; [exact Hl'|split; [|split; [|split; [exact Hown | exact Hpl']]]]]].
  - unfold relocate. rewrite Ht. unfold handle_relative_relocation. rewrite Ha. cbn [mbind outcome_bind unwrap].
    unfold uadd. rewrite checked_ok by lia. cbn [mbind outcome_bind].
    rewrite checked_ok by lia. fold va. cbn [mbind outcome_bind] in Erun |- *. rewrite Erun. reflexivity.
  - intros i Hi''. destruct (Htgt i Hi'') as (f & fl & El & Et & Ho). exists fl, f.
    rewrite Hl' by (apply page_of_width; unfold in_width; lia). split; [exact El|].
    unfold load8. rewrite <- Et, Hin by assumption. split; [apply Z.mod_mod; lia|]. rewrite Hown, Et. exact Ho.
  - intros x Hx. apply Hout. intros i Hi'' ->. destruct (Htgt i Hi'') as (f & fl & El & Et & _).
    now apply (Hx i f fl).
Qed.

(** A relative relocation writes the eight bytes of [virtual_base + addend] at
    its place, also when that spans two pages mapped to frames that are not
    adjacent, and changes nothing else. *)
Theorem relocate_correct `{IO : IoPorts W} entry d m a (con : console W) :
  reloc_ok entry d m a -> ms_inv pt m a -> (2 < fuel)%nat ->
  exists m', relocate (E := unit) fuel virtual_base pt entry (m, a, con) = Ret (Ok tt, (m', a, con)) /\
    ms_inv pt m' a /\
    (forall q, in_width 64 (page_address q) -> ms_lookup pt m' q = ms_lookup pt m q) /\
    (forall i, 0 <= i < 8 -> exists fl,
       reads pt m' a (virtual_base + reloc_offset entry + i) fl (((virtual_base + d) / 256 ^ i) mod 256)) /\
    (forall x, (forall i f fl, 0 <= i < 8 ->
         ms_lookup pt m (page_of (virtual_base + reloc_offset entry + i)) = Some (mkFrame Size4KiB f, fl) ->
         x <> f + (virtual_base + reloc_offset entry + i) mod 4096) -> m' x = m x).
Proof.
  intros Hr Hi Hfuel. destruct (relocate_spec (E := unit) entry d m a con Hr Hi Hfuel) as (m' & E & ? & ? & ? & ? & _).
  exists m'. auto.
Qed.

(** A relocation of the last eight bytes of a page panics when the next page is
    not mapped, although it has nothing to write there. *)
Theorem relocation_at_page_end_panics `{IO : IoPorts W} entry d m a (con : console W) :
  rtype entry = reloc_x86_64 R_AMD64_RELATIVE -> addend entry = Some d ->
  0 <= virtual_base -> 0 <= reloc_offset entry -> 0 <= d -> virtual_base + d < 2 ^ 64 ->
  virtual_base + reloc_offset entry + 8 + 8192 < 2 ^ 64 -> (2 < fuel)%nat ->
  (virtual_base + reloc_offset entry) mod 4096 = 4088 -> ms_inv pt m a ->
  ms_plain pt m (page_address (page_of (virtual_base + reloc_offset entry))) ->
  ms_plain pt m (virtual_base + reloc_offset entry + 8) ->
  (forall i, 0 <= i < 8 -> exists fl b, reads pt m a (virtual_base + reloc_offset entry + i) fl b) ->
  ms_lookup pt m (page_of (virtual_base + reloc_offset entry + 8)) = None ->
  relocate (E := unit) fuel virtual_base pt entry (m, a, con) = Panic UnwrapNone.
Proof.
  intros Ht Ha Hb1 Hb2 Hb3 Hb4 Hb5 Hfuel Hmod Hi Hpl1 Hpl2 Hbytes Hnext.
  set (va := virtual_base + reloc_offset entry) in *. assert (Hva : 0 <= va) by (unfold va; lia).
  destruct (Hbytes 0 ltac:(lia)) as (fl1 & b0 & f1 & El1 & _ & _). rewrite Z.add_0_r in El1.
  assert (4088 <= va) by (rewrite <- Hmod; apply Z.mod_le; lia).
  destruct (page_of_near va 8 Hva ltac:(lia)) as [Ep8 Em8]. rewrite Hmod in Ep8, Em8.
  change (4088 + 8 <? 4096) with false in Ep8, Em8. cbn iota in Ep8, Em8.
  assert (Ep : page_of va = mkPage Size4KiB (va - 4088)) by (unfold page_of; now rewrite Hmod).
  assert (Hp8 : page_address (page_of (va + 8)) = va + 8) by (rewrite Ep8; cbn [page_address]; lia).
  pose proof (length_to_le_bytes 8 (virtual_base + d)) as Hlen.
  set (bs := to_le_bytes 8 (virtual_base + d)) in *.
  set (m1 := write_list m (f1 + 4088) (take (Z.to_nat 8) (drop (Z.to_nat 0) bs))).
  assert (Hm1 : forall x, ms_owned pt m a x -> m1 x = m x).
  { intros x Hx. apply write_list_outside. rewrite length_take, length_drop, Hlen.
    destruct (decide (f1 + 4088 <= x < f1 + 4096)) as [Hin|]; [|lia].
    destruct (Hbytes (x - f1 - 4088)) as (fl & b & f & El & _ & Ho); [lia|].
    destruct (page_of_near va (x - f1 - 4088) Hva) as [Epx Emx]; [lia|]. rewrite Hmod in Epx, Emx.
    replace (4088 + (x - f1 - 4088) <? 4096) with true in Epx, Emx by lia.
    rewrite Epx in El. rewrite Ep in El1. rewrite El in El1. injection El1 as -> _.
    rewrite Emx in Ho. replace (f1 + (4088 + (x - f1 - 4088))) with x in Ho by lia. contradiction. }
  destruct (ms_write pt m m1 a Hi Hm1) as (Hi1 & _ & Hp1 & Hlk1).
  unfold relocate. rewrite Ht. unfold handle_relative_relocation. rewrite Ha. cbn [mbind outcome_bind unwrap].
  unfold uadd. rewrite checked_ok by lia. cbn [mbind outcome_bind]. fold bs. fold va.
  rewrite checked_ok by lia. cbn [mbind outcome_bind].
  rewrite page_containing_eq by (unfold in_width; lia). cbn [mbind outcome_bind SIZE]. fold bs. rewrite Hlen.
  unfold virt_add, uadd. change (Z.of_nat 8) with 8. rewrite checked_ok by lia. cbn [mbind outcome_bind].
  rewrite page_containing_eq by (unfold in_width; lia). cbn [mbind outcome_bind SIZE]. change 0x1000 with 4096.
  fold (page_of va). fold (page_of (va + 8)).
  rewrite (relocation_pages va 2 [page_of va; page_of (va + 8)]);
    [| rewrite !pages_from_cons, Ep8, Ep, Hmod by lia; reflexivity | rewrite Ep8, Hmod; f_equal; lia | lia | lia | lia | cbn; lia].
  cbn [fold_outcome]. rewrite (relocate_page_eq m a (page_of va) f1 fl1 va bs 0 4088 8);
    [| assumption | rewrite Ep; unfold in_width; cbn [page_address]; lia | assumption.. | lia | rewrite Ep; cbn [page_address]; lia
      | rewrite Ep; cbn [page_address]; lia | lia | lia | lia | lia |].
  2: { rewrite Ep. cbn [page_address]. replace (va - 4088 + 4096 <? va + 8) with false by lia. reflexivity. }
  fold m1. cbn [mbind outcome_bind]. unfold relocate_page.
  rewrite (ms_translate pt m1 a (page_of (va + 8)) Hi1).
  - rewrite Hlk1 by (rewrite Hp8; unfold in_width; lia). now rewrite Hnext.
  - rewrite Hp8. unfold in_width. lia.
  - rewrite Hp8. apply Hp1; [unfold in_width; lia | assumption].
Qed.
End Relocations.
