(* ===== verification/KernelLoad.v ===== *)
(** Loading the kernel as a whole: [KernelLoader::load_kernel] of
    [stage4/src/elf.rs].

    The loader is called back by the [elfloader] crate; [ElfBinarySpec] states
    the calls the crate documents for [load]: [allocate] with the loadable
    headers, then [load] or [tls] for each segment, then [relocate] for each
    relocation, up to the first error.  Under it the methods proved correct one
    by one add up to a loaded and relocated kernel. *)
From Stdlib Require Import ZArith Lia.
From stdpp Require Import base tactics numbers list sets strings.
From S2P Require Import Prelude Crates Memory Paging AddressSpace.
From S2P Require Import MapperClient BootInfo Ports SpinLock Fmt Serial KernelLoader KernelImage.
#[local] Open Scope Z_scope.

(** ** What [elfloader] documents *)

Section Calls.
Context {St E : Type}.
Abbreviation step := (St -> outcome (Result unit E * St)).

(** [first?; then] *)
Definition and_then (first : outcome (Result unit E * St)) (next : step) : outcome (Result unit E * St) :=
  '(r, st) ← first;
  match r with Ok _ => next st | Err e => Ret (Err e, st) end.

Fixpoint run_calls {X} (call : X -> step) (xs : list X) (st : St) : outcome (Result unit E * St) :=
  match xs with
  | [] => Ret (Ok tt, st)
  | x :: xs => and_then (call x st) (run_calls call xs)
  end.
End Calls.

(** A segment of the program: its bytes are handed to [load], or its place to [tls]. *)
Inductive segment_call := call_load (flags base : Z) (region : list Z) | call_tls (start length total align : Z).

Definition segment_step {St E} (l : ElfLoader St E) (c : segment_call) (st : St) : outcome (Result unit E * St) :=
  match c with
  | call_load flags base region => el_load l flags base region st
  | call_tls start length total align => el_tls l start length total align st
  end.

Class ElfBinarySpec (B E : Type) `{EB : ElfBinary B E} := {
  elf_loadable : B -> Prop;
  elf_headers : B -> list ProgramHeader;
  elf_segments : B -> list segment_call;
  elf_relocations : B -> list RelocationEntry;
  elf_load_calls St (l : ElfLoader St E) b st : elf_loadable b ->
    elf_load St l b st =
      and_then (el_allocate l (elf_headers b) st) (fun st =>
      and_then (run_calls (segment_step l) (elf_segments b) st)
               (run_calls (el_relocate l) (elf_relocations b)));
}.

(** ** Relocations, one after the other *)

Section Relocate.
Context `{FL : Bitflags} `{MS : MapperSpec M A} (pt : M) (fuel : nat) (virtual_base : Z) (Hfuel : (2 < fuel)%nat).
Implicit Types (m : mem) (a : A) (r : RelocationEntry).

(** The physical bytes a relocation writes, and when the bytes of two are different. *)
Definition reloc_place m r x : Prop :=
  exists i f fl, 0 <= i < 8 /\
    ms_lookup pt m (page_of (virtual_base + reloc_offset r + i)) = Some (mkFrame Size4KiB f, fl) /\
    x = f + (virtual_base + reloc_offset r + i) mod 4096.
Definition relocs_apart m r r' : Prop := forall x, reloc_place m r x -> ~ reloc_place m r' x.

Definition reloc_applicable m a r : Prop := exists d, reloc_ok pt virtual_base r d m a.

(** The bytes of [r] are those of its value. *)
Definition reloc_applied m a r : Prop :=
  forall d i, addend r = Some d -> 0 <= i < 8 -> exists fl,
    reads pt m a (virtual_base + reloc_offset r + i) fl (((virtual_base + d) / 256 ^ i) mod 256).

(** Same mappings, same owned memory. *)
Record same_space m m' a : Prop := {
  ss_inv : ms_inv pt m' a;
  ss_lookup q : in_width 64 (page_address q) -> ms_lookup pt m' q = ms_lookup pt m q;
  ss_owned x : ms_owned pt m' a x <-> ms_owned pt m a x;
  ss_plain va : in_width 64 va -> ms_plain pt m va -> ms_plain pt m' va;
}.

Lemma same_space_refl m a : ms_inv pt m a -> same_space m m a.
Proof. split; [assumption | tauto..]. Qed.

Lemma same_space_trans m1 m2 m3 a : same_space m1 m2 a -> same_space m2 m3 a -> same_space m1 m3 a.
Proof.
  intros [_ L1 O1 P1] [I2 L2 O2 P2]. split; [assumption | intros q Hq; rewrite L2; auto | | auto].
  intros x. now rewrite O2.
Qed.

Lemma reloc_ok_width m a r d i : reloc_ok pt virtual_base r d m a -> 0 <= i <= 8 ->
  in_width 64 (page_address (page_of (virtual_base + reloc_offset r + i))).
Proof. intros Hr Hi. apply page_of_width. destruct (ro_bounds _ _ _ _ _ _ Hr). unfold in_width. lia. Qed.

Lemma reloc_applicable_same m m' a r : same_space m m' a -> reloc_applicable m a r -> reloc_applicable m' a r.
Proof.
  intros Hs [d Hr]. pose proof (fun i => reloc_ok_width m a r d i Hr) as Hwd. exists d.
  destruct Hs as [_ L O Pl], Hr as [Ht Ha Hb Hp Hby Hn]. split; [assumption.. | auto | |].
  - intros i Hi. destruct (Hby i Hi) as (fl & b & f & Hl & _ & Ho). exists fl, (load8 m' (f + (virtual_base + reloc_offset r + i) mod 4096)), f.
    rewrite L by (apply Hwd; lia). split; [assumption|]. split; [reflexivity | now rewrite O].
  - rewrite L by (apply Hwd; lia). assumption.
Qed.

Lemma reloc_place_same m m' a r x d :
  same_space m m' a -> reloc_ok pt virtual_base r d m a -> reloc_place m' r x <-> reloc_place m r x.
Proof.
  intros Hs Hr. pose proof (fun i => reloc_ok_width m a r d i Hr) as Hwd.
  split; intros (i & f & fl & Hi & Hl & ->); exists i, f, fl;
    rewrite (ss_lookup _ _ _ Hs) in * by (apply Hwd; lia); auto.
Qed.

(** All relocations: what no relocation writes stays, and a relocation whose
    bytes no later one writes has its value. *)
Lemma relocations_spec {E} `{IO : IoPorts W} rs m a (con : console W) :
  ms_inv pt m a -> Forall (reloc_applicable m a) rs ->
  exists m', run_calls (relocate (E := E) fuel virtual_base pt) rs (m, a, con) = Ret (Ok tt, (m', a, con)) /\
    same_space m m' a /\
    (forall x, (forall r, r ∈ rs -> ~ reloc_place m r x) -> m' x = m x) /\
    (forall rs1 r rs2, rs = rs1 ++ r :: rs2 -> Forall (relocs_apart m r) rs2 -> reloc_applied m' a r).
Proof.
  revert m. induction rs as [|r rs IH]; intros m Hi Hrs.
  - exists m. split; [reflexivity|]. split; [now apply same_space_refl|]. split; [auto|].
    intros rs1 r rs2 E1. now apply app_cons_not_nil in E1.
  - apply Forall_cons in Hrs as [[d Hr] Hrs].
    destruct (relocate_spec (E := E) pt fuel virtual_base r d m a con Hr Hi Hfuel)
      as (m1 & E1 & Hi1 & L1 & V1 & K1 & O1 & P1).
    assert (Hs1 : same_space m m1 a) by now split.
    destruct (IH m1 Hi1) as (m' & E' & Hs' & Hk & Hv).
    { eapply Forall_impl; [exact Hrs|]. intros r'. now apply reloc_applicable_same. }
    assert (Hpl : forall r' x, r' ∈ rs -> reloc_place m1 r' x <-> reloc_place m r' x).
    { intros r' x Hr'. rewrite Forall_forall in Hrs. destruct (Hrs r' Hr') as [d' Hd']. eapply reloc_place_same; eauto. }
    exists m'. cbn [run_calls]. unfold and_then. rewrite E1. cbn [mbind outcome_bind].
    split; [exact E'|]. split; [eapply same_space_trans; eauto|]. split.
    + intros x Hx. rewrite Hk.
      * apply K1. intros i f fl Hi' Hl ->. apply (Hx r (list_elem_of_here _ _)). exists i, f, fl. auto.
      * intros r' Hr'. rewrite Hpl by assumption. apply Hx. now right.
    + intros [|r0 rs1] r' rs2 [= <- Ers] Hap.
      * subst rs2. intros d' i Ed Hi'. rewrite (ro_addend _ _ _ _ _ _ Hr) in Ed. injection Ed as <-.
        destruct (V1 i Hi') as (fl & f & Hl & Hb & Ho). exists fl, f.
        rewrite (ss_lookup _ _ _ Hs') by (eapply reloc_ok_width; [exact Hr | lia]).
        split; [assumption|]. split; [|now rewrite (ss_owned _ _ _ Hs')].
        unfold load8 in *. rewrite Hk; [assumption|]. intros r' Hr'. rewrite Hpl by assumption.
        rewrite Forall_forall in Hap. apply (Hap r' Hr'). exists i, f, fl. split; [assumption|]. split; [|reflexivity].
        rewrite <- L1 by (eapply reloc_ok_width; [exact Hr | lia]). exact Hl.
      * subst rs. apply (Hv rs1 r' rs2 eq_refl). rewrite Forall_forall in *. intros r1 Hr1 x Hx1 Hx2.
        assert (Hin : forall q, q ∈ r' :: rs2 -> q ∈ rs1 ++ r' :: rs2) by (intros; apply elem_of_app; now right).
        apply (Hap r1 Hr1 x); [apply Hpl; [apply Hin; left | assumption] | apply Hpl; [apply Hin; now right | assumption]].
Qed.
End Relocate.

(** ** The whole kernel *)

Section LoadKernel.
Context `{FL : Bitflags} `{FLS : !BitflagsSpec FL} `{MS : MapperSpec M A} (pt : M).
Context (Hid : forall f, valid_frame f -> ms_frame_va pt f = f).
Context (fuel : nat) (virtual_base : Z) (info : BiosInfo) (display_flags : ProgramHeader -> list Z).
Context `{EBS : ElfBinarySpec B E} (b : B).
Context `{UW : UartWorld W 0x3F8}.
Implicit Types (m : mem) (a : A) (h : ProgramHeader) (r : RelocationEntry) (con : console W).

Abbreviation hs := (elf_headers b).
Abbreviation rs := (elf_relocations b).
Abbreviation seg_va h := (seg_start virtual_base h).

Definition segment_call_ok (c : segment_call) : Prop :=
  match c with call_load _ _ _ => True | call_tls s _ n _ => 0 <= s /\ 0 <= n /\ s + n < 2 ^ 64 end.

(** A relative relocation within a segment, not at its very end. *)
Definition reloc_in_segment r : Prop :=
  exists d h, rtype r = reloc_x86_64 R_AMD64_RELATIVE /\ addend r = Some d /\ 0 <= d /\ virtual_base + d < 2 ^ 64 /\
    h ∈ hs /\ virtual_addr h <= reloc_offset r /\ reloc_offset r + 8 < virtual_addr h + mem_size h /\
    virtual_base + reloc_offset r + 8 + 8192 < 2 ^ 64.

(** A kernel file that can be loaded. *)
Record kernel_loadable m a : Prop := {
  kl_file : elf_new (read_list m (pmr_start (bios_kernel info)) (Z.to_nat (pmr_size (bios_kernel info)))) = Ok b;
  kl_loadable : elf_loadable b;
  kl_segments : Forall (fun h => segment_ok pt virtual_base info h m a) hs;
  kl_apart : ForallOrdPairs (segments_apart virtual_base) hs;
  kl_fuel : (2 < fuel)%nat /\ Forall (fun h => seg_pages virtual_base h < Z.of_nat fuel) hs;
  kl_calls : Forall segment_call_ok (elf_segments b);
  kl_relocs : Forall reloc_in_segment rs;
  kl_entry : 0 <= virtual_base /\ 0 <= elf_entry_point b /\ virtual_base + elf_entry_point b < 2 ^ 64;
}.

(** The loaded kernel: a byte of a segment is mapped with the protection its
    header asks for and, unless a relocation writes it, is that of the file in
    [m0] or zero; relocations that are not overwritten have their values. *)
Definition byte_loaded h i (m0 : mem) m a : Prop :=
  exists f fl, ms_lookup pt m (page_of (seg_va h + i)) = Some (mkFrame Size4KiB f, fl) /\
    (fl = segment_flags h \/ fl = Z.lor (segment_flags h) COPIED) /\
    ~ ms_owned pt m a (f + (seg_va h + i) mod 4096) /\
    ((forall r, r ∈ rs -> ~ reloc_place pt virtual_base m r (f + (seg_va h + i) mod 4096)) ->
     load8 m (f + (seg_va h + i) mod 4096) = if i <? file_size h then load8 m0 (seg_image info h + i) else 0).

Record kernel_loaded (m0 : mem) m a : Prop := {
  kd_bytes h i : h ∈ hs -> 0 <= i < mem_size h -> byte_loaded h i m0 m a;
  kd_relocs rs1 r rs2 : rs = rs1 ++ r :: rs2 -> Forall (relocs_apart pt virtual_base m r) rs2 ->
    reloc_applied pt virtual_base m a r;
}.

(** What is printed about a segment with thread-local data, and in all. *)
Definition call_log (c : segment_call) : list (list Z) :=
  match c with
  | call_load _ _ _ => []
  | call_tls s _ n _ => [text "Initial TLS region is at = "; fmt_hex_alt s; text " -- "; fmt_hex_alt (s + n); newline]
  end.
Definition loader_log : list (list Z) :=
  (hs ≫= segment_log virtual_base display_flags) ++ (elf_segments b ≫= call_log).

Lemma segment_calls_run cs st con : (polls_bound < fuel)%nat -> console_ok con -> Forall segment_call_ok cs ->
  exists con', run_calls (segment_step (KernelLoader (E := E) fuel virtual_base info pt display_flags)) cs (st, con)
      = Ret (Ok tt, (st, con')) /\
    printed (cs ≫= call_log) con con'.
Proof.
  intros Hpoll. revert con. induction cs as [|c cs IH]; intros con Hcon.
  - intros _. exists con. split; [reflexivity | now apply printed_nil].
  - intros [Hc Hcs]%Forall_cons. cbn [run_calls]. unfold and_then at 1.
    assert (exists con1, segment_step (KernelLoader (E := E) fuel virtual_base info pt display_flags) c (st, con)
      = Ret (Ok tt, (st, con1)) /\ printed (call_log c) con con1) as (con1 & -> & Hp1).
    { destruct c as [|s l n al]; [exists con; split; [reflexivity | now apply printed_nil]|].
      cbn [segment_step el_tls KernelLoader]. unfold tls, uadd. cbn in Hc. rewrite checked_ok by lia. rewrite bind_Ret.
      edestruct (println_spec fuel) as (con1 & -> & Hp); [exact Hpoll | exact Hcon|]. rewrite bind_Ret. eauto. }
    rewrite bind_Ret. destruct (IH con1 (proj1 Hp1) Hcs) as (con' & E' & Hp'). exists con'. split; [exact E'|].
    exact (printed_trans _ _ _ _ _ Hp1 Hp').
Qed.

(** The bytes of a relocation, and the one behind, are bytes of a segment. *)
Lemma reloc_in_byte r i : reloc_in_segment r -> 0 <= i <= 8 ->
  exists h k, h ∈ hs /\ 0 <= k < mem_size h /\ virtual_base + reloc_offset r + i = seg_va h + k.
Proof.
  intros (d & h & _ & _ & _ & _ & Hh & Hlo & Hhi & _) Hi. exists h, (reloc_offset r + i - virtual_addr h).
  unfold seg_start. split; [assumption | lia].
Qed.

Lemma reloc_in_applicable r m0 m a :
  reloc_in_segment r -> 0 <= virtual_base ->
  (forall h, h ∈ hs -> 0 <= virtual_addr h) ->
  (forall h, h ∈ hs -> segment_loaded pt virtual_base info h m0 m a) ->
  (forall h k, h ∈ hs -> 0 <= k < mem_size h -> ms_plain pt m (page_address (page_of (seg_va h + k)))) ->
  reloc_applicable pt virtual_base m a r.
Proof.
  intros Hr Hvb Hva Hl Hpl. pose proof (fun i => reloc_in_byte r i Hr) as Hb.
  assert (Hbyte : forall i, 0 <= i <= 8 -> exists fl v, reads pt m a (virtual_base + reloc_offset r + i) fl v).
  { intros i Hi. destruct (Hb i Hi) as (h & k & Hh & Hk & ->). destruct (Hl h Hh k Hk) as (fl & _ & Hrd). eauto. }
  destruct Hr as (d & h & Ht & Ha & Hd & Hvd & Hh & H1' & H2' & H3'). specialize (Hva h Hh).
  exists d. split; [assumption | assumption | lia | | |].
  - intros i Hi. destruct (Hb i Hi) as (h' & k & Hh' & Hk & ->). auto.
  - intros i Hi. apply Hbyte. lia.
  - destruct (Hbyte 8 ltac:(lia)) as (fl & v & f & -> & _). discriminate.
Qed.

(** Loading maps the pages of the segments and nothing else, and writes only to
    free frames, to the tables and where a relocation says. *)
Lemma load_kernel_spec m a con :
  kernel_loadable m a -> ms_inv pt m a -> frames_needed virtual_base hs <= fa_avail a ->
  (polls_bound < fuel)%nat -> console_ok con ->
  exists m' a' con', load_kernel fuel virtual_base info pt display_flags (m, a, con)
      = Ret (virtual_base + elf_entry_point b, (m', a', con')) /\
    printed loader_log con con' /\ ms_inv pt m' a' /\ consumed (frames_needed virtual_base hs) a a' /\ kernel_loaded m m' a' /\
    (forall va, in_width 64 va -> ms_plain pt m va -> ms_plain pt m' va) /\
    (forall x, ~ ms_owned pt m a x -> ~ ms_owned pt m' a' x /\
       ((forall r, r ∈ rs -> ~ reloc_place pt virtual_base m' r x) -> m' x = m x)) /\
    (forall q, in_width 64 (page_address q) ->
       (forall h j, h ∈ hs -> 0 <= j < seg_pages virtual_base h ->
          vpn (page_address q) <> vpn (page_address (nth_page (seg_base virtual_base h) j))) ->
       ms_lookup pt m' q = ms_lookup pt m q).
Proof.
  intros [Hfile Hld Hseg Hap [Hfuel Hfp] Hcalls Hrel (Hv0 & He0 & He1)] Hi Hav Hpoll Hcon.
  destruct (allocate_segments_spec pt Hid fuel virtual_base info hs m a Hseg Hap Hi Hav Hfp)
    as (m1 & a1 & E1 & Hi1 & Hk1 & Hp1 & Hl1 & Ho1 & Hc1).
  rewrite Forall_forall in Hl1, Hseg.
  assert (Hpg : forall h k, h ∈ hs -> 0 <= k < mem_size h -> mappable pt m (page_of (seg_va h + k))).
  { intros h k Hh Hk. destruct (Hseg h Hh) as [Hf _ Hs _ _ _ Hm].
    destruct (seg_page_of virtual_base h k Hf Hs Hk) as (j & Hj & ->). auto. }
  assert (Happ : Forall (reloc_applicable pt virtual_base m1 a1) rs).
  { eapply Forall_impl; [exact Hrel|]. intros r Hr. apply (reloc_in_applicable r m); try assumption.
    - intros h Hh. apply (so_virt _ _ _ _ _ _ (Hseg h Hh)).
    - intros h k Hh Hk. destruct (Hpg h k Hh Hk) as (? & ? & _). auto. }
  destruct (allocate_says (E := E) fuel virtual_base info pt display_flags Hpoll hs (m, a) (m1, a1) con Hcon E1)
    as (con1 & E1' & Hs1).
  destruct (segment_calls_run (elf_segments b) (m1, a1) con1 Hpoll (proj1 Hs1) Hcalls) as (con2 & E2 & Hs2).
  destruct (relocations_spec (E := E) pt fuel virtual_base Hfuel rs m1 a1 con2 Hi1 Happ) as (m' & E' & Hs & Hkeep & Hval).
  assert (Hplace : forall r x, r ∈ rs -> reloc_place pt virtual_base m' r x <-> reloc_place pt virtual_base m1 r x).
  { intros r x Hr. rewrite Forall_forall in Happ. destruct (Happ r Hr) as [d Hd]. eapply reloc_place_same; eauto. }
  exists m', a1, con2. split; [|split; [exact (printed_trans _ _ _ _ _ Hs1 Hs2)|split; [apply Hs|split; [exact Hc1|split; [|split; [|split]]]]]].
  - unfold load_kernel. rewrite Hfile. cbn [expect mbind outcome_bind]. rewrite elf_load_calls by assumption.
    unfold and_then at 1. cbn [el_allocate KernelLoader]. rewrite E1'. cbn [mbind outcome_bind].
    unfold and_then. rewrite E2. cbn [mbind outcome_bind el_relocate KernelLoader].
    rewrite E'. cbn [mbind outcome_bind expect]. unfold uadd. rewrite checked_ok by lia. reflexivity.
  - split.
    + intros h i Hh Hi'. destruct (Hl1 h Hh i Hi') as (fl & Hfl & f & Hl & Hb & Ho). exists f, fl.
      destruct (Hpg h i Hh Hi') as (Hw & _).
      rewrite (ss_lookup _ _ _ _ Hs) by assumption. split; [assumption|]. split; [assumption|].
      split; [now rewrite (ss_owned _ _ _ _ Hs)|]. intros Hn. rewrite <- Hb. unfold load8. rewrite Hkeep; [reflexivity|].
      intros r Hr. rewrite <- Hplace by assumption. auto.
    + intros rs1 r rs2 Ers Hapart. apply (Hval rs1 r rs2 Ers). rewrite Forall_forall in *. intros r' Hr' x Hx1 Hx2.
      assert (Hin : forall q, q ∈ r :: rs2 -> q ∈ rs) by (intros; rewrite Ers; apply elem_of_app; now right).
      apply (Hapart r' Hr' x); (apply Hplace; [apply Hin; set_solver | assumption]).
  - intros va Hva Hpl. apply (ss_plain _ _ _ _ Hs); auto.
  - intros x Hx. destruct (Hk1 x Hx) as [Ex Hx1]. split; [now rewrite (ss_owned _ _ _ _ Hs)|].
    intros Hn. rewrite <- Ex. apply Hkeep. intros r Hr. rewrite <- Hplace by assumption. auto.
  - intros q Hq Hn. rewrite (ss_lookup _ _ _ _ Hs) by assumption. now apply Ho1.
Qed.

(** C6: loading the kernel from a file that can be loaded, which asks of every segment
    that some of it is in the file, that it has the same offset within a page there as in memory and
    shares no page with another segment, and of every relocation that it is relative and ends
    before the last byte of a segment.  The entry point is returned; every byte of
    every segment is mapped with the protection its header asks for and, where no
    relocation writes, reads as in the file or as zero; every relocation that no
    later one overwrites has its value; pages of no segment keep their mapping, and
    memory that is neither free nor a table nor the place of a relocation is
    untouched; what went out on the serial line are the messages about the segments
    and the thread-local data. *)
Theorem load_kernel_correct m a con :
  kernel_loadable m a -> ms_inv pt m a -> frames_needed virtual_base hs <= fa_avail a ->
  (polls_bound < fuel)%nat -> console_ok con ->
  exists m' a' con', load_kernel fuel virtual_base info pt display_flags (m, a, con)
      = Ret (virtual_base + elf_entry_point b, (m', a', con')) /\
    printed loader_log con con' /\ ms_inv pt m' a' /\ kernel_loaded m m' a' /\
    (forall x, ~ ms_owned pt m a x -> ~ ms_owned pt m' a' x /\
       ((forall r, r ∈ rs -> ~ reloc_place pt virtual_base m' r x) -> m' x = m x)) /\
    (forall q, in_width 64 (page_address q) ->
       (forall h j, h ∈ hs -> 0 <= j < seg_pages virtual_base h ->
          vpn (page_address q) <> vpn (page_address (nth_page (seg_base virtual_base h) j))) ->
       ms_lookup pt m' q = ms_lookup pt m q).
Proof.
  intros Hk Hi Hav Hpoll Hcon.
  destruct (load_kernel_spec m a con Hk Hi Hav Hpoll Hcon) as (m' & a' & con' & ? & ? & ? & _ & ? & _ & ? & ?).
  exists m', a', con'. auto 10.
Qed.
End LoadKernel.
