(* ===== verification/KernelExample.v ===== *)
(** A kernel with two segments that share a frame, and the theorems of
    [KernelImage] at work on it.

    The file is at [0x200000]; the first segment takes its first [0x1800] bytes
    and has a .bss part, the second the rest, so that the frame at [0x201000] is
    mapped twice. *)
From Stdlib Require Import ZArith Lia.
From stdpp Require Import base tactics numbers list sets strings.
From S2P Require Import Prelude Crates Memory Paging BumpAlloc AddressSpace.
From S2P Require Import MapperClient HeapSetup BootInfo Ports SpinLock Fmt Serial KernelLoader KernelImage KernelLoad.
#[local] Open Scope Z_scope.

Section Example.
#[local] Existing Instances ref_bit_field ref_bitflags ref_bit_field_ok ref_bitflags_ok line_ports line_uart.

Abbreviation ex_A := (BumpFrameAllocator PhysicalMemoryRegion).
Abbreviation ex_lookup := (ms_lookup (A := ex_A) ex_table).
Abbreviation ex_plain := (ms_plain (A := ex_A) ex_table).

Definition ex_vbase : Z := 0xffffffff80000000.
Definition ex_info : BiosInfo :=
  mkBiosInfo (PhysicalMemoryRegion_new 0 0 Used) (PhysicalMemoryRegion_new 0x200000 0x2800 Used)
    (mkFramebufferInfo (PhysicalMemoryRegion_new 0 0 Used) 0 0 0 0 Rgb) 0x203000 0 0.
Definition ex_text : ProgramHeader := mkProgramHeader 0 0 0x1800 0x3000 true false.
Definition ex_data : ProgramHeader := mkProgramHeader 0x1800 0x4800 0x800 0x800 false true.
(** How [rwx] flags could be shown, and a serial line not used before. *)
Definition ex_display (h : ProgramHeader) : list Z :=
  text "R" ++ (if is_write h then text "W" else []) ++ (if is_execute h then text "E" else []).
Definition ex_console : console line := mkConsole None (mkLine 2 [] true).
Definition ex_image : mem := fun x => if x <? 0x200000 then 0 else x mod 251.

Lemma ex_image_low i : idx_ok i -> load64 ex_image (0x1000 + 8 * i) = 0.
Proof.
  intros Hi. apply (load_le_zero _ _ 8). intros x Hx. unfold ex_image, idx_ok in *.
  replace (x <? 0x200000) with true by lia. reflexivity.
Qed.

Lemma ex_image_inv : ms_inv ex_table ex_image ex_frames.
Proof.
  destruct ex_table_inv as [Hw Hi]. split; [exact Hw|].
  apply empty_inv with 0x1000; [exact ex_image_low | apply Hi | split; [lia | reflexivity] | reflexivity|].
  cbn [fa_free Bump_FrameAllocatorSpec].
  intros (r & ->%list_elem_of_singleton & _ & i & Hi' & E & _)%elem_of_usable_addrs. cbn in E. lia.
Qed.

Lemma ex_identity f : valid_frame f -> ms_frame_va (A := ex_A) ex_table f = f.
Proof. intros _. cbn. lia. Qed.

Lemma ex_owned x : ms_owned ex_table ex_image ex_frames x -> x < 0x200000.
Proof.
  intros [(q & t & Hq & Ht & Hx)|(f & Hf & Hx)].
  - apply empty_walk_nil in Ht as [_ ->]; [cbn in Hx; lia | exact ex_image_low | assumption].
  - cbn [fa_free Bump_FrameAllocatorSpec] in Hf. cbn in Hx.
    apply elem_of_usable_addrs in Hf as (r & ->%list_elem_of_singleton & _ & i & Hi' & E & Hlt). cbn in *. lia.
Qed.

Lemma ex_mappable p : in_width 64 (page_address p) -> mappable (A := ex_A) ex_table ex_image p.
Proof.
  intros Hp. destruct (empty_lookup (mkPhysicalOffset 0) 0x1000 ex_image ex_image_low) as (H1 & _ & H2).
  split; [exact Hp|]. split; [exact (H2 _ Hp) | exact (H1 p Hp)].
Qed.

Lemma ex_segments_ok :
  Forall (fun h => segment_ok ex_table ex_vbase ex_info h ex_image ex_frames) [ex_text; ex_data].
Proof.
  assert (Hnum : forall h, In h [ex_text; ex_data] ->
    (0 < file_size h <= mem_size h) /\
    (0 <= ex_vbase /\ 0 <= virtual_addr h /\ seg_start ex_vbase h + mem_size h + 4096 < 2 ^ 64) /\
    mem_size h + 8192 < 2 ^ 48 /\
    (0 <= pmr_start (bios_kernel ex_info) /\ 0 <= ph_offset h /\ seg_image ex_info h + file_size h + 4096 <= 2 ^ 48) /\
    seg_image ex_info h mod 4096 = seg_start ex_vbase h mod 4096 /\
    0x200000 <= seg_image ex_info h - seg_image ex_info h mod 4096 /\
    0 <= seg_base ex_vbase h /\ seg_base ex_vbase h + seg_pages ex_vbase h * 4096 < 2 ^ 64).
  { intros h [<-|[<-|[]]]; vm_compute; intuition congruence. }
  apply Forall_forall. intros h Hh%list_elem_of_In. destruct (Hnum h Hh) as (N1 & N2 & N3 & N4 & N5 & N6 & N7 & N8).
  split; [assumption..| |].
  - intros x Hx Ho%ex_owned. lia.
  - intros j Hj. apply ex_mappable. unfold in_width. cbn [page_address nth_page]. lia.
Qed.

Lemma ex_segments_apart : ForallOrdPairs (segments_apart ex_vbase) [ex_text; ex_data].
Proof.
  constructor; [|constructor; [constructor | constructor]]. constructor; [|constructor].
  intros j j' Hj Hj' E. change (seg_pages ex_vbase ex_text) with 3 in Hj. change (seg_pages ex_vbase ex_data) with 1 in Hj'.
  change (vpn (0xffffffff80000000 + j * 4096) = vpn (0xffffffff80000000 + 4 * 4096 + j' * 4096)) in E.
  replace (0xffffffff80000000 + 4 * 4096 + j' * 4096) with (0xffffffff80000000 + (4 + j') * 4096) in E by lia.
  apply vpn_pages_inj in E; [lia | reflexivity | lia].
Qed.

Lemma allocate_correct_witness :
  exists m' a' con', allocate (E := unit) 10 ex_vbase ex_info ex_table ex_display [ex_text; ex_data]
        (ex_image, ex_frames, ex_console)
      = Ret (Ok tt, (m', a', con')) /\
    printed ([ex_text; ex_data] ≫= segment_log ex_vbase ex_display) ex_console con' /\ ms_inv ex_table m' a' /\ keeps ex_table ex_image ex_frames m' a' /\
    (forall va, in_width 64 va -> ex_plain ex_image va -> ex_plain m' va) /\
    Forall (fun h => segment_loaded ex_table ex_vbase ex_info h ex_image m' a') [ex_text; ex_data] /\
    (forall q, in_width 64 (page_address q) ->
       (forall h j, h ∈ [ex_text; ex_data] -> 0 <= j < seg_pages ex_vbase h ->
          vpn (page_address q) <> vpn (page_address (nth_page (seg_base ex_vbase h) j))) ->
       ex_lookup m' q = ex_lookup ex_image q).
Proof.
  apply (allocate_correct ex_table ex_identity 10 ex_vbase ex_info ex_display [ex_text; ex_data] ex_image ex_frames ex_console).
  - exact ex_segments_ok.
  - exact ex_segments_apart.
  - exact ex_image_inv.
  - vm_compute. discriminate.
  - constructor; [vm_compute; reflexivity | constructor; [vm_compute; reflexivity | constructor]].
  - cbn. lia.
  - exact I.
Defined.

(** The state after loading: both segments are there, the page behind the data
    segment is not. *)
Lemma ex_loaded : exists m (a : ex_A), ms_inv ex_table m a /\
  (forall va, in_width 64 va -> ex_plain m va) /\
  Forall (fun h => segment_loaded ex_table ex_vbase ex_info h ex_image m a) [ex_text; ex_data] /\
  ex_lookup m (page_of (ex_vbase + 0x4ff8 + 8)) = None.
Proof.
  destruct (allocate_segments_spec ex_table ex_identity 10 ex_vbase ex_info [ex_text; ex_data] ex_image ex_frames)
    as (m & a & _ & Hi & _ & Hp & Hl & Hother & _); [exact ex_segments_ok | exact ex_segments_apart | exact ex_image_inv
    | vm_compute; discriminate | constructor; [vm_compute; reflexivity | constructor; [vm_compute; reflexivity | constructor]] |].
  exists m, a. split; [exact Hi|]. split; [|split; [exact Hl|]].
  - intros va Hva. apply Hp; [assumption|].
    destruct (ex_mappable (mkPage Size4KiB va) Hva) as (_ & Hpl & _). exact Hpl.
  - assert (Hw : in_width 64 (page_address (page_of (ex_vbase + 0x4ff8 + 8)))) by (vm_compute; intuition congruence).
    rewrite Hother; [apply ex_mappable; exact Hw | exact Hw|].
    intros h j Hh Hj E. set (x := 0xffffffff80000000) in *.
    change (vpn (page_address (page_of (ex_vbase + 0x4ff8 + 8)))) with (vpn (x + 5 * 4096)) in E.
    apply list_elem_of_In in Hh as [<-|[<-|[]]].
    + change (0 <= j < 3) in Hj. change (vpn (page_address (nth_page (seg_base ex_vbase ex_text) j))) with (vpn (x + j * 4096)) in E.
      apply vpn_pages_inj in E; [lia | reflexivity | lia].
    + change (0 <= j < 1) in Hj.
      change (vpn (page_address (nth_page (seg_base ex_vbase ex_data) j))) with (vpn (x + 4 * 4096 + j * 4096)) in E.
      replace (x + 4 * 4096 + j * 4096) with (x + (4 + j) * 4096) in E by lia.
      apply vpn_pages_inj in E; [lia | reflexivity | lia].
Qed.

Definition ex_reloc : RelocationEntry := mkRelocationEntry (reloc_x86_64 R_AMD64_RELATIVE) 0xffc (Some 0x1234).
Definition ex_reloc_end : RelocationEntry := mkRelocationEntry (reloc_x86_64 R_AMD64_RELATIVE) 0x4ff8 (Some 0x1234).

(** A value that starts four bytes before the end of the first page. *)
Lemma relocate_correct_witness :
  exists m (a : ex_A) m',
    relocate (E := unit) 10 ex_vbase ex_table ex_reloc (m, a, ex_console) = Ret (Ok tt, (m', a, ex_console)) /\
    forall i, 0 <= i < 8 -> exists fl,
      reads ex_table m' a (ex_vbase + 0xffc + i) fl ((0xffffffff80001234 / 256 ^ i) mod 256).
Proof.
  destruct ex_loaded as (m & a & Hi & Hp & Hl & _). apply Forall_cons in Hl as [Ht _]. exists m, a.
  assert (Hread : forall i, 0 <= i < 0x3000 -> exists fl b, reads ex_table m a (ex_vbase + i) fl b).
  { intros i Hi'. destruct (Ht i Hi') as (fl & _ & Hr). eauto. }
  destruct (relocate_correct ex_table 10 ex_vbase ex_reloc 0x1234 m a ex_console) as (m' & E & _ & _ & Hr & _).
  - split; [reflexivity | reflexivity | vm_compute; intuition congruence | | |].
    + intros i Hi'. apply Hp, page_of_width. unfold in_width, ex_vbase. cbn [reloc_offset ex_reloc]. lia.
    + intros i Hi'. replace (ex_vbase + reloc_offset ex_reloc + i) with (ex_vbase + (0xffc + i)) by (cbn [reloc_offset ex_reloc]; lia).
      apply Hread. lia.
    + destruct (Hread (0xffc + 8)) as (fl & b & f & Hf & _); [lia|].
      replace (ex_vbase + reloc_offset ex_reloc + 8) with (ex_vbase + (0xffc + 8)) by (cbn [reloc_offset ex_reloc]; lia).
      rewrite Hf. discriminate.
  - exact Hi.
  - lia.
  - exists m'. split; [exact E | exact Hr].
Defined.

Lemma relocation_at_page_end_panics_witness :
  exists m (a : ex_A),
    (forall i, 0 <= i < 8 -> exists fl b, reads ex_table m a (ex_vbase + 0x4ff8 + i) fl b) /\
    relocate (E := unit) 10 ex_vbase ex_table ex_reloc_end (m, a, ex_console) = Panic UnwrapNone.
Proof.
  destruct ex_loaded as (m & a & Hi & Hp & Hl & Hnone).
  apply Forall_cons in Hl as [_ [Hd _]%Forall_cons]. exists m, a.
  assert (Hread : forall i, 0 <= i < 8 -> exists fl b, reads ex_table m a (ex_vbase + 0x4ff8 + i) fl b).
  { intros i Hi'. destruct (Hd (0x7f8 + i)) as (fl & _ & Hr); [cbn [mem_size ex_data]; lia|]. exists fl. eexists.
    replace (ex_vbase + 0x4ff8 + i) with (seg_start ex_vbase ex_data + (0x7f8 + i))
      by (unfold seg_start; cbn [virtual_addr ex_data]; lia). exact Hr. }
  split; [exact Hread|].
  apply (relocation_at_page_end_panics ex_table 10 ex_vbase ex_reloc_end 0x1234 m a ex_console);
    [reflexivity | reflexivity | vm_compute; discriminate | vm_compute; discriminate | vm_compute; discriminate
    | reflexivity | reflexivity | lia | reflexivity | exact Hi | | | exact Hread | exact Hnone].
  - apply Hp. vm_compute. intuition congruence.
  - apply Hp. vm_compute. intuition congruence.
Defined.

(** *** A parsed file *)

Record toy_binary := mkToy {
  toy_headers : list ProgramHeader;
  toy_segments : list segment_call;
  toy_relocations : list RelocationEntry;
  toy_entry : Z;
}.

(** A parser that knows files by their length. *)
Definition toy_elf (size : nat) (file : toy_binary) : ElfBinary toy_binary unit := {|
  elf_new bytes := if (length bytes =? size)%nat then Ok file else Err tt;
  elf_load St l b st :=
    and_then (el_allocate l (toy_headers b) st) (fun st =>
    and_then (run_calls (segment_step l) (toy_segments b) st) (run_calls (el_relocate l) (toy_relocations b)));
  elf_entry_point := toy_entry;
|}.

#[program] Definition toy_elf_ok size file : ElfBinarySpec toy_binary unit (EB := toy_elf size file) := {|
  elf_loadable _ := True;
  elf_headers := toy_headers;
  elf_segments := toy_segments;
  elf_relocations := toy_relocations;
|}.
Next Obligation. reflexivity. Qed.

Definition ex_kernel_file : toy_binary :=
  mkToy [ex_text; ex_data] [call_load 5 0 []; call_tls 0x4800 0x10 0x20 8] [ex_reloc] 0x100.
#[local] Instance ex_elf : ElfBinary toy_binary unit := toy_elf 0x2800 ex_kernel_file.
#[local] Instance ex_elf_ok : ElfBinarySpec toy_binary unit := toy_elf_ok 0x2800 ex_kernel_file.

Lemma load_kernel_correct_witness :
  exists m' a' con', load_kernel 10 ex_vbase ex_info ex_table ex_display (ex_image, ex_frames, ex_console)
      = Ret (0xffffffff80000100, (m', a', con')) /\
    sent (c_world con') =
      text "Kernel elf: allocate segment at 0xffffffff80000000, size = 0x3000, flags = RE" ++ newline ++
      text "Data bytes before zero: bytes_before_zero:2048 header_mem_size:12288 header_file_size:6144" ++ newline ++
      text "Kernel elf: allocate segment at 0xffffffff80004800, size = 0x800, flags = RW" ++ newline ++
      text "Initial TLS region is at = 0x4800 -- 0x4820" ++ newline /\
    kernel_loaded ex_table ex_vbase ex_info ex_kernel_file ex_image m' a' /\
    reloc_applied ex_table ex_vbase m' a' ex_reloc.
Proof.
  destruct (load_kernel_correct ex_table ex_identity 10 ex_vbase ex_info ex_display ex_kernel_file ex_image ex_frames ex_console)
    as (m' & a' & con' & E & Hp & _ & Hk & _).
  - split.
    + vm_compute. reflexivity.
    + exact I.
    + exact ex_segments_ok.
    + exact ex_segments_apart.
    + split; [lia|]. constructor; [vm_compute; reflexivity | constructor; [vm_compute; reflexivity | constructor]].
    + repeat constructor; vm_compute; intuition congruence.
    + constructor; [|constructor]. exists 0x1234, ex_text. split; [reflexivity|]. split; [reflexivity|].
      split; [lia|]. split; [reflexivity|]. split; [left|]. vm_compute. intuition congruence.
    + vm_compute. intuition congruence.
  - exact ex_image_inv.
  - vm_compute. discriminate.
  - cbn. lia.
  - exact I.
  - exists m', a', con'. split; [exact E|]. split; [destruct Hp as (_ & -> & _); vm_compute; reflexivity|]. split; [exact Hk|].
    exact (kd_relocs _ _ _ _ _ _ _ Hk [] ex_reloc [] eq_refl (Forall_nil_2 _)).
Defined.
End Example.
