(* ===== verification/Descriptors.v ===== *)
(** The descriptor tables: [x86_64/src/gdt.rs], [tss.rs] and [idt.rs].

    Descriptors are built bit field by bit field with the [bit_field] crate; the
    theorems read the fields back the way the processor does.  Loading a table
    into the processor is a single instruction and is not modelled. *)
From Stdlib Require Import ZArith Lia.
From stdpp Require Import base tactics numbers list.
From S2P Require Import Prelude Crates Memory.
#[local] Open Scope Z_scope.

(** ** Privilege levels and selectors *)

Inductive PrivilegeLevel := Ring0 | Ring1 | Ring2 | Ring3.

(** [level as u16] *)
Definition level_bits (l : PrivilegeLevel) : Z :=
  match l with Ring0 => 0 | Ring1 => 1 | Ring2 => 2 | Ring3 => 3 end.

(** [From<u8>] *)
Definition PrivilegeLevel_from (v : Z) : outcome PrivilegeLevel :=
  match v with
  | 0 => Ret Ring0
  | 1 => Ret Ring1
  | 2 => Ret Ring2
  | 3 => Ret Ring3
  | _ => Panic ExplicitPanic
  end.

(** [idx << 3 | rpl as u16] *)
Definition SegmentSelector_new (idx : Z) (rpl : PrivilegeLevel) : Z :=
  Z.lor (ucast 16 (Z.shiftl idx 3)) (level_bits rpl).

(** ** [SegmentDescriptorFlags] *)

Definition SDF_ACCESSED : Z := 1 ≪ 40.
Definition SDF_READ_WRITE : Z := 1 ≪ 41.
Definition SDF_CONFORMING : Z := 1 ≪ 42.
Definition SDF_EXECUTABLE : Z := 1 ≪ 43.
Definition SDF_USER_SEGMENT : Z := 1 ≪ 44.
Definition SDF_PRESENT : Z := 1 ≪ 47.
Definition SDF_LONG_MODE : Z := 1 ≪ 53.
Definition SDF_PROTECTED_MODE : Z := 1 ≪ 54.
Definition SDF_GRANULARITY : Z := 1 ≪ 55.

Inductive SystemSegmentType := LDT | TssAvailable | TssBusy.

Definition system_type_bits (t : SystemSegmentType) : Z :=
  match t with LDT => 0x2 | TssAvailable => 0x9 | TssBusy => 0xB end.

Inductive SegmentDescriptor :=
  | UserSegment (v : Z)
  | SystemSegment (low high : Z).

(** [size_of::<TaskStateSegment>()]: the struct is packed to four bytes. *)
Definition TSS_SIZE : Z := 4 + 3 * 8 + 8 + 7 * 8 + 8 + 2 + 2.

Record TaskStateSegment := mkTss {
  reserved_1 : Z;
  privilege_stack_table : list VirtualAddress;
  reserved_2 : Z;
  interrupt_stack_table : list VirtualAddress;
  reserved_3 : Z;
  reserved_4 : Z;
  iomap_base : Z;
}.

Definition TaskStateSegment_new : TaskStateSegment := 
  mkTss 0 (replicate 3 0) 0 (replicate 7 0) 0 0 (ucast 16 TSS_SIZE).

Definition DOUBLE_FAULT_IST_IDX : Z := 0x0.

Section Segments.
Context `{BF : BitField} `{FL : Bitflags}.

Definition new_user (flags limit base : Z) : outcome SegmentDescriptor :=
  let limit_low := Z.land limit 0xFFFF in
  let limit_high := Z.land (Z.shiftr limit 16) 0xF in
  let base_low := Z.land base 0xFFFFFF in
  let base_high := Z.land (Z.shiftr base 24) 0xFF in
  let desc := flags in
  desc ← (if negb (base =? 0) then
            desc ← set_bits desc 16 40 base_low;
            set_bits desc 56 64 base_high
          else Ret desc);
  desc ← set_bits desc 0 16 limit_low;
  desc ← set_bits desc 48 52 limit_high;
  Ret (UserSegment desc).

(** [ptr] is the address of the segment. *)
Definition new_tss_segment (ptr : Z) : outcome SegmentDescriptor :=
  let low := SDF_PRESENT in
  low ← set_bits low 16 40 (get_bits ptr 0 24);
  low ← set_bits low 56 64 (get_bits ptr 24 32);
  high ← set_bits 0 0 32 (get_bits ptr 32 64);
  low ← set_bits low 0 16 (TSS_SIZE - 1);
  low ← set_bits low 40 44 (system_type_bits TssAvailable);
  Ret (SystemSegment low high).

Definition flags_of (l : list Z) : Z :=
  match l with [] => 0 | f :: l => fold_left flags_union l f end.

Definition protected_mode_code_segment : outcome SegmentDescriptor :=
  new_user (flags_of [SDF_READ_WRITE; SDF_EXECUTABLE; SDF_PRESENT; SDF_USER_SEGMENT; SDF_PROTECTED_MODE; SDF_GRANULARITY; SDF_ACCESSED]) 0xFFFFF 0.

Definition protected_mode_data_segment : outcome SegmentDescriptor :=
  new_user (flags_of [SDF_READ_WRITE; SDF_PRESENT; SDF_USER_SEGMENT; SDF_PROTECTED_MODE; SDF_GRANULARITY; SDF_ACCESSED]) 0xFFFFF 0.

Definition long_mode_code_segment : outcome SegmentDescriptor :=
  new_user (flags_of [SDF_READ_WRITE; SDF_EXECUTABLE; SDF_PRESENT; SDF_USER_SEGMENT; SDF_LONG_MODE; SDF_ACCESSED; SDF_GRANULARITY]) 0 0.

Definition long_mode_data_segment : outcome SegmentDescriptor :=
  new_user (flags_of [SDF_READ_WRITE; SDF_PRESENT; SDF_USER_SEGMENT; SDF_ACCESSED; SDF_GRANULARITY]) 0 0.

Definition kernel_code_segment : outcome SegmentDescriptor := long_mode_code_segment.
Definition kernel_data_segment : outcome SegmentDescriptor := long_mode_data_segment.
End Segments.

Definition descriptor_privilege_level (d : SegmentDescriptor) : outcome PrivilegeLevel :=
  let value_low := match d with UserSegment v => v | SystemSegment v _ => v end in
  PrivilegeLevel_from (Z.land (Z.shiftr value_low 45) 3).

(** ** [GlobalDescriptorTable] *)

Definition GLOBAL_DESCRIPTOR_TABLE_ENTRY_COUNT : nat := 8.

Record GlobalDescriptorTable := mkGdt { gdt_entries : list Z; gdt_size : Z }.

Definition Gdt_new : GlobalDescriptorTable := mkGdt (replicate GLOBAL_DESCRIPTOR_TABLE_ENTRY_COUNT 0) 1.

Definition gdt_push (t : GlobalDescriptorTable) (value : Z) : outcome (Z * GlobalDescriptorTable) :=
  if gdt_size t <? Z.of_nat (length (gdt_entries t)) then
    let idx := gdt_size t in
    Ret (idx, mkGdt (<[Z.to_nat idx := value]> (gdt_entries t)) (gdt_size t + 1))
  else Panic ExplicitPanic.

Definition add_entry (t : GlobalDescriptorTable) (entry : SegmentDescriptor) :
    outcome (Z * GlobalDescriptorTable) :=
  '(idx, t) ← (match entry with
               | UserSegment val => gdt_push t val
               | SystemSegment low high =>
                   '(idx, t) ← gdt_push t low;
                   '(_, t) ← gdt_push t high;
                   Ret (idx, t)
               end);
  dpl ← descriptor_privilege_level entry;
  Ret (SegmentSelector_new (ucast 16 idx) dpl, t).

(** The limit the processor is told: [(table.size * 8 - 1) as u16]. *)
Definition gdt_descriptor_size (t : GlobalDescriptorTable) : outcome Z :=
  s ← umul 64 (gdt_size t) 8; s ← usub 64 s 1; Ret (ucast 16 s).

(** ** [InterruptDescriptor] *)

Section Idt.
Context `{BF : BitField}.

(** [0xe << 8] *)
Definition default_options : Z := Z.shiftl 0xe 8.

Definition set_present (o : Z) (present : bool) : Z := set_bit o 15 present.
Definition disable_interrupts (o : Z) (disable : bool) : Z := set_bit o 8 (negb disable).
Definition set_privilege_level (o : Z) (level : PrivilegeLevel) : outcome Z := set_bits o 13 15 (level_bits level).
Definition set_interrupt_stack_index (o idx : Z) : outcome Z := i ← uadd 16 idx 1; set_bits o 0 3 i.

Record InterruptDescriptor := mkInterruptDescriptor {
  pointer_low : Z;
  segment_selector : Z;
  options : Z;
  pointer_middle : Z;
  pointer_high : Z;
  reserved : Z;
}.

Definition missing : InterruptDescriptor :=
  mkInterruptDescriptor 0 (SegmentSelector_new 0 Ring0) default_options 0 0 0.

(** [cs] is the value of the code segment register. *)
Definition set_handler_function (d : InterruptDescriptor) (handler_address cs : Z) : InterruptDescriptor :=
  mkInterruptDescriptor (ucast 16 handler_address) cs (set_present (options d) true)
    (ucast 16 (Z.shiftr handler_address 16)) (ucast 32 (Z.shiftr handler_address 32)) (reserved d).

(** The table, in the order of its fields: 32 exceptions and 224 interrupts. *)
Definition InterruptDescriptorTable_default : list InterruptDescriptor := replicate 256 missing.
End Idt.

(** ** Theorems *)

(** The bits from [lo] to [hi] of a word. *)
Definition field (v lo hi : Z) : Z := (v / 2 ^ lo) mod 2 ^ (hi - lo).

Lemma field_bits v lo hi i :
  0 <= lo <= hi -> 0 <= i -> Z.testbit (field v lo hi) i = (i <? hi - lo) && Z.testbit v (i + lo).
Proof.
  intros Hlo Hi. unfold field. destruct (Z.ltb_spec i (hi - lo)).
  - rewrite Z.mod_pow2_bits_low, Z.div_pow2_bits by lia. reflexivity.
  - rewrite Z.mod_pow2_bits_high by lia. reflexivity.
Qed.

Lemma field_land v lo k : 0 <= lo -> 0 <= k -> Z.land (Z.shiftr v lo) (2 ^ k - 1) = field v lo (lo + k).
Proof.
  intros Hlo Hk. rewrite land_ones_mod, Z.shiftr_div_pow2 by lia. unfold field. do 2 f_equal. lia.
Qed.

(** Equal fields have equal parts. *)
Lemma field_part v w a b lo hi :
  field v a b = field w a b -> 0 <= a <= lo -> lo <= hi <= b -> field v lo hi = field w lo hi.
Proof.
  intros E Ha Hb. apply Z.bits_inj'. intros i Hi. rewrite !field_bits by lia.
  destruct (Z.ltb_spec i (hi - lo)); cbn [andb]; [|reflexivity].
  pose proof (f_equal (fun z => Z.testbit z (i + (lo - a))) E) as E'. cbn beta in E'. rewrite !field_bits in E' by lia.
  replace (i + (lo - a) <? b - a) with true in E' by lia. now replace (i + (lo - a) + a) with (i + lo) in E' by lia.
Qed.

(** The privilege level is in bits 45 and 46. *)
Lemma descriptor_ring0 v : field v 45 47 = 0 -> descriptor_privilege_level (UserSegment v) = Ret Ring0.
Proof.
  intros E. unfold descriptor_privilege_level. pose proof (field_land v 45 2 ltac:(lia) ltac:(lia)) as Ef.
  change (2 ^ 2 - 1) with 3 in Ef. rewrite Ef. change (45 + 2) with 47. now rewrite E.
Qed.

Section Fields.
Context `{BF : BitField} `{BFS : !BitFieldSpec BF}.

(** Writing a field: it reads back, and fields apart from it do not change. *)
Lemma set_bits_fields v lo hi x :
  0 <= v < 2 ^ 64 -> 0 <= lo < hi -> hi <= 64 -> 0 <= x < 2 ^ (hi - lo) ->
  exists r, set_bits v lo hi x = Ret r /\ 0 <= r < 2 ^ 64 /\ field r lo hi = x /\
    forall a b, 0 <= a <= b -> b <= lo \/ hi <= a -> field r a b = field v a b.
Proof.
  intros Hv Hlo Hhi Hx. destruct (set_bits_spec v lo hi x Hv Hlo Hhi Hx) as (r & E & Hr & Hbits).
  exists r. split; [exact E|]. split; [exact Hr|]. split.
  - apply Z.bits_inj'. intros i Hi. rewrite field_bits, Hbits by lia.
    destruct (Z.ltb_spec i (hi - lo)); cbn [andb].
    + replace ((lo <=? i + lo) && (i + lo <? hi)) with true by lia. f_equal. lia.
    + symmetry. apply (testbit_high x i (hi - lo)); lia.
  - intros a b Hab Hd. apply Z.bits_inj'. intros i Hi. rewrite !field_bits, Hbits by lia.
    destruct (Z.ltb_spec i (b - a)); cbn [andb]; [|reflexivity].
    replace ((lo <=? i + a) && (i + a <? hi)) with false by lia. reflexivity.
Qed.

Lemma field_bound v lo hi : lo <= hi -> 0 <= field v lo hi < 2 ^ (hi - lo).
Proof. intros H. apply Z.mod_pos_bound, Z.pow_pos_nonneg; lia. Qed.

Lemma get_bits_field v lo hi : 0 <= v < 2 ^ 64 -> 0 <= lo < hi -> hi <= 64 -> get_bits v lo hi = field v lo hi.
Proof. intros. now apply get_bits_spec. Qed.

(** A word is the sum of its fields. *)
Lemma field_split v lo mid hi :
  0 <= lo <= mid -> mid <= hi -> field v lo hi = field v lo mid + 2 ^ (mid - lo) * field v mid hi.
Proof.
  intros Hlo Hhi. unfold field.
  replace (2 ^ (hi - lo)) with (2 ^ (mid - lo) * 2 ^ (hi - mid)) by (rewrite <- Z.pow_add_r by lia; f_equal; lia).
  assert (0 < 2 ^ (mid - lo)) by (apply Z.pow_pos_nonneg; lia).
  assert (0 < 2 ^ (hi - mid)) by (apply Z.pow_pos_nonneg; lia).
  assert (0 < 2 ^ lo) by (apply Z.pow_pos_nonneg; lia).
  rewrite Z.rem_mul_r by lia. rewrite Z.div_div by lia. rewrite <- Z.pow_add_r by lia.
  replace (lo + (mid - lo)) with mid by lia. reflexivity.
Qed.

(** A segment without base: limit in two parts, flags elsewhere. *)
Lemma new_user_spec flags limit :
  0 <= flags < 2 ^ 64 -> 0 <= limit < 2 ^ 20 ->
  exists v, new_user flags limit 0 = Ret (UserSegment v) /\ 0 <= v < 2 ^ 64 /\
    field v 0 16 = limit mod 2 ^ 16 /\ field v 48 52 = limit / 2 ^ 16 /\
    field v 16 48 = field flags 16 48 /\ field v 52 64 = field flags 52 64.
Proof.
  intros Hf Hl. unfold new_user. cbn [Z.eqb negb mbind outcome_bind].
  change 0xFFFF with (2 ^ 16 - 1). change 0xF with (2 ^ 4 - 1). rewrite !land_ones_mod, Z.shiftr_div_pow2 by lia.
  pose proof (Z.mod_pos_bound limit (2 ^ 16)). pose proof (Z.mod_pos_bound (limit / 2 ^ 16) (2 ^ 4)).
  destruct (set_bits_fields flags 0 16 (limit mod 2 ^ 16)) as (v1 & -> & B1 & F1 & K1); [lia..|]. cbn [mbind outcome_bind].
  destruct (set_bits_fields v1 48 52 ((limit / 2 ^ 16) mod 2 ^ 4)) as (v2 & -> & B2 & F2 & K2); [lia..|]. cbn [mbind outcome_bind].
  exists v2. split; [reflexivity|]. split; [assumption|].
  rewrite (K2 0 16), (K2 16 48), (K2 52 64), (K1 16 48), (K1 52 64), F1, F2 by lia.
  rewrite (Z.mod_small (limit / 2 ^ 16)); [auto|].
  split; [apply Z.div_pos; lia | apply Z.div_lt_upper_bound; lia].
Qed.

(** The descriptor of a task state segment is present, available, of the size
    of the segment, and the processor reads the segment's address back from its
    three parts. *)
Theorem tss_segment_fields ptr :
  0 <= ptr < 2 ^ 64 ->
  exists low high, new_tss_segment ptr = Ret (SystemSegment low high) /\
    field low 16 40 + 2 ^ 24 * field low 56 64 + 2 ^ 32 * field high 0 32 = ptr /\
    field low 0 16 = 103 /\ field low 40 44 = 9 /\ field low 44 45 = 0 /\
    field low 45 47 = 0 /\ field low 47 48 = 1 /\ 0 <= high < 2 ^ 64 /\ field high 32 64 = 0.
Proof.
  intros Hp. unfold new_tss_segment. rewrite !get_bits_field by lia.
  destruct (set_bits_fields SDF_PRESENT 16 40 (field ptr 0 24)) as (l1 & -> & B1 & F1 & K1);
    [split; [discriminate | reflexivity] | lia | lia | apply (field_bound ptr 0 24); lia |]. cbn [mbind outcome_bind].
  destruct (set_bits_fields l1 56 64 (field ptr 24 32)) as (l2 & -> & B2 & F2 & K2);
    [lia | lia | lia | apply (field_bound ptr 24 32); lia |]. cbn [mbind outcome_bind].
  destruct (set_bits_fields 0 0 32 (field ptr 32 64)) as (h & -> & Bh & Fh & Kh);
    [lia | lia | lia | apply (field_bound ptr 32 64); lia |]. cbn [mbind outcome_bind].
  destruct (set_bits_fields l2 0 16 (TSS_SIZE - 1)) as (l3 & -> & B3 & F3 & K3);
    [lia | lia | lia | unfold TSS_SIZE; lia |]. cbn [mbind outcome_bind].
  destruct (set_bits_fields l3 40 44 (system_type_bits TssAvailable)) as (l4 & -> & B4 & F4 & K4);
    [lia | lia | lia | cbn; lia |]. cbn [mbind outcome_bind].
  exists l4, h. split; [reflexivity|].
  rewrite !(K4 16 40), !(K4 56 64), !(K4 0 16), !(K4 44 45), !(K4 45 47), !(K4 47 48) by lia.
  rewrite !(K3 16 40), !(K3 56 64), !(K3 44 45), !(K3 45 47), !(K3 47 48) by lia.
  rewrite !(K2 16 40), !(K2 44 45), !(K2 45 47), !(K2 47 48) by lia.
  rewrite !(K1 44 45), !(K1 45 47), !(K1 47 48) by lia. rewrite (Kh 32 64) by lia.
  split; [|split; [exact F3 | split; [exact F4 | split; [reflexivity | split; [reflexivity | split; [reflexivity | split; [exact Bh | reflexivity]]]]]]].
  rewrite F1, F2, Fh.
  transitivity (field ptr 0 64); [|unfold field; rewrite Z.div_1_r; now apply Z.mod_small].
  rewrite (field_split ptr 0 24 64), (field_split ptr 24 32 64) by lia. lia.
Qed.

(** The address of an interrupt handler is read back from the three parts of
    its descriptor, which is present; the gate type is kept. *)
Theorem handler_address_roundtrip d handler cs :
  0 <= handler < 2 ^ 64 -> 0 <= options d < 2 ^ 16 ->
  let d' := set_handler_function d handler cs in
  pointer_low d' + 2 ^ 16 * pointer_middle d' + 2 ^ 32 * pointer_high d' = handler /\
  field (options d') 15 16 = 1 /\ field (options d') 0 15 = field (options d) 0 15 /\
  segment_selector d' = cs.
Proof.
  intros Hh Ho d'. cbn [d' set_handler_function pointer_low pointer_middle pointer_high options segment_selector].
  unfold ucast. rewrite !Z.shiftr_div_pow2 by lia.
  destruct (set_bit_spec (options d) 15 true) as [Hb Hbits]; [lia..|].
  split; [|split; [|split; [|reflexivity]]].
  - transitivity (field handler 0 64); [|unfold field; rewrite Z.div_1_r; now apply Z.mod_small].
    rewrite (field_split handler 0 16 64), (field_split handler 16 32 64) by lia.
    assert (E0 : field handler 0 16 = handler mod 2 ^ 16) by (unfold field; now rewrite Z.div_1_r).
    rewrite E0. change (field handler 16 32) with ((handler / 2 ^ 16) mod 2 ^ 16).
    change (field handler 32 64) with ((handler / 2 ^ 32) mod 2 ^ 32). lia.
  - apply Z.bits_inj'. intros i Hi. rewrite field_bits by lia. unfold set_present.
    destruct (Z.ltb_spec i (16 - 15)); cbn [andb].
    + replace i with 0 by lia. rewrite Hbits by lia. reflexivity.
    + symmetry. apply (testbit_high 1 i 1); lia.
  - apply Z.bits_inj'. intros i Hi. rewrite !field_bits by lia. unfold set_present.
    destruct (Z.ltb_spec i (15 - 0)); cbn [andb]; [|reflexivity]. rewrite Hbits by lia.
    replace (i + 0 =? 15) with false by lia. reflexivity.
Qed.

End Fields.

(** *** The table *)

(** The words of a descriptor. *)
Definition descriptor_words (d : SegmentDescriptor) : list Z :=
  match d with UserSegment v => [v] | SystemSegment low high => [low; high] end.

Record gdt_ok (t : GlobalDescriptorTable) : Prop := {
  go_length : length (gdt_entries t) = GLOBAL_DESCRIPTOR_TABLE_ENTRY_COUNT;
  go_size : 1 <= gdt_size t <= 8;
  go_null : gdt_entries t !! 0%nat = Some 0;
}.

Lemma gdt_new_ok : gdt_ok Gdt_new.
Proof. split; [reflexivity | cbn; lia | reflexivity]. Qed.

Lemma gdt_push_spec t v :
  gdt_ok t -> gdt_size t < 8 ->
  exists t', gdt_push t v = Ret (gdt_size t, t') /\ gdt_ok t' /\ gdt_size t' = gdt_size t + 1 /\
    gdt_entries t' !! Z.to_nat (gdt_size t) = Some v /\
    forall i, (i < Z.to_nat (gdt_size t))%nat -> gdt_entries t' !! i = gdt_entries t !! i.
Proof.
  intros [Hl Hs Hn] Hlt. unfold gdt_push. rewrite Hl. change (Z.of_nat GLOBAL_DESCRIPTOR_TABLE_ENTRY_COUNT) with 8.
  replace (gdt_size t <? 8) with true by lia. eexists. split; [reflexivity|]. cbn [gdt_size gdt_entries].
  unfold GLOBAL_DESCRIPTOR_TABLE_ENTRY_COUNT in Hl.
  split; [split; cbn [gdt_size gdt_entries]|split; [reflexivity|split]].
  - now rewrite length_insert.
  - lia.
  - rewrite list_lookup_insert_ne by lia. exact Hn.
  - apply list_lookup_insert_eq. lia.
  - intros i Hi. apply list_lookup_insert_ne. lia.
Qed.

Lemma gdt_push_full t v : gdt_ok t -> gdt_size t = 8 -> gdt_push t v = Panic ExplicitPanic.
Proof.
  intros [Hl Hs Hn] Hf. unfold gdt_push. rewrite Hl, Hf. reflexivity.
Qed.

Lemma PrivilegeLevel_from_bits v : 0 <= v < 4 -> exists l, PrivilegeLevel_from v = Ret l /\ level_bits l = v.
Proof.
  intros Hv. assert (v = 0 \/ v = 1 \/ v = 2 \/ v = 3) as [-> | [-> | [-> | -> ] ] ] by lia; eexists; (split; [reflexivity|]); reflexivity.
Qed.

Lemma selector_fields idx l :
  0 <= idx < 8 -> SegmentSelector_new idx l / 8 = idx /\ SegmentSelector_new idx l mod 8 = level_bits l.
Proof.
  intros Hi. unfold SegmentSelector_new, ucast. rewrite Z.shiftl_mul_pow2 by lia. rewrite Z.mod_small by lia.
  assert (Hl : 0 <= level_bits l < 4) by (destruct l; cbn; lia).
  rewrite (lor_add_low _ _ 3) by (try apply Z.mod_mul; lia). Z.to_euclidean_division_equations; lia.
Qed.

Lemma add_entry_spec t d :
  gdt_ok t ->
  let n := Z.of_nat (length (descriptor_words d)) in
  if gdt_size t + n <=? 8 then
    exists sel t', add_entry t d = Ret (sel, t') /\ gdt_ok t' /\ gdt_size t' = gdt_size t + n /\
      sel / 8 = gdt_size t /\ sel mod 8 = field (hd 0 (descriptor_words d)) 45 47 /\
      (forall i w, descriptor_words d !! i = Some w -> gdt_entries t' !! (Z.to_nat (gdt_size t) + i)%nat = Some w) /\
      (forall i, (i < Z.to_nat (gdt_size t))%nat -> gdt_entries t' !! i = gdt_entries t !! i)
  else add_entry t d = Panic ExplicitPanic.
Proof.
  intros Hok n. pose proof (go_size t Hok) as Hs.
  assert (Hdpl : exists l, descriptor_privilege_level d = Ret l /\ level_bits l = field (hd 0 (descriptor_words d)) 45 47).
  { unfold descriptor_privilege_level. rewrite (field_land _ 45 2) by lia.
    destruct d; cbn [descriptor_words hd]; apply PrivilegeLevel_from_bits, (field_bound _ 45 47); lia. }
  destruct Hdpl as (l & Hdpl & El).
  assert (Hsel : SegmentSelector_new (ucast 16 (gdt_size t)) l = SegmentSelector_new (gdt_size t) l).
  { unfold ucast. now rewrite Z.mod_small by lia. }
  unfold add_entry. rewrite Hdpl. destruct d as [v|low high]; cbn [descriptor_words length hd] in *; subst n.
  - destruct (Z.leb_spec (gdt_size t + Z.of_nat 1) 8); [|now rewrite gdt_push_full by (assumption || lia)].
    destruct (gdt_push_spec t v Hok) as (t' & -> & Hok' & Es & Ev & Ho); [lia|]. cbn [mbind outcome_bind].
    rewrite Hsel. destruct (selector_fields (gdt_size t) l) as [S1 S2]; [lia|].
    eexists _, t'. split; [reflexivity|]. split; [assumption|]. split; [lia|]. split; [assumption|].
    split; [congruence|]. split; [|assumption]. intros [|i] w E; [|now destruct i].
    rewrite Nat.add_0_r. injection E as <-. assumption.
  - destruct (Z.eq_dec (gdt_size t) 8) as [E8|Hne].
    { rewrite (gdt_push_full t low) by assumption.
      destruct (Z.leb_spec (gdt_size t + Z.of_nat 2) 8); [lia | reflexivity]. }
    destruct (gdt_push_spec t low Hok) as (t1 & -> & Hok1 & Es1 & Ev1 & Ho1); [lia|]. cbn [mbind outcome_bind].
    destruct (Z.leb_spec (gdt_size t + Z.of_nat 2) 8); [|now rewrite gdt_push_full by (assumption || lia)].
    destruct (gdt_push_spec t1 high Hok1) as (t' & -> & Hok' & Es & Ev & Ho); [lia|]. cbn [mbind outcome_bind].
    rewrite Hsel. destruct (selector_fields (gdt_size t) l) as [S1 S2]; [lia|].
    eexists _, t'. split; [reflexivity|]. split; [assumption|]. split; [lia|]. split; [assumption|].
    split; [congruence|]. split.
    + intros [|[|i]] w E; [| |now destruct i]; injection E as <-.
      * rewrite Nat.add_0_r, Ho by lia. assumption.
      * rewrite <- Ev. f_equal. lia.
    + intros i Hi. rewrite Ho, Ho1 by lia. reflexivity.
Qed.

(** C36: adding a segment to the descriptor table puts its words behind the entries
    there are and returns a selector with that index and the privilege level of
    the descriptor; the null entry and the other entries stay.  A table without
    room for the descriptor panics. *)
Theorem gdt_add_entry_correct t d :
  gdt_ok t ->
  let n := Z.of_nat (length (descriptor_words d)) in
  if gdt_size t + n <=? 8 then
    exists sel t', add_entry t d = Ret (sel, t') /\ gdt_ok t' /\ gdt_size t' = gdt_size t + n /\
      sel / 8 = gdt_size t /\ sel mod 8 = field (hd 0 (descriptor_words d)) 45 47 /\
      (forall i w, descriptor_words d !! i = Some w -> gdt_entries t' !! (Z.to_nat (gdt_size t) + i)%nat = Some w) /\
      (forall i, (i < Z.to_nat (gdt_size t))%nat -> gdt_entries t' !! i = gdt_entries t !! i)
  else add_entry t d = Panic ExplicitPanic.
Proof. apply add_entry_spec. Qed.

(** The tables of the boot stages: a code and a data segment behind the null entry. *)
Lemma two_segments_steps `{BF : BitField} `{BFS : !BitFieldSpec BF} fc lc fd ld :
  0 <= fc < 2 ^ 64 -> 0 <= lc < 2 ^ 20 -> field fc 45 47 = 0 ->
  0 <= fd < 2 ^ 64 -> 0 <= ld < 2 ^ 20 -> field fd 45 47 = 0 ->
  exists code data,
    new_user fc lc 0 = Ret (UserSegment code) /\
    add_entry Gdt_new (UserSegment code) = Ret (8, mkGdt [0; code; 0; 0; 0; 0; 0; 0] 2) /\
    new_user fd ld 0 = Ret (UserSegment data) /\
    add_entry (mkGdt [0; code; 0; 0; 0; 0; 0; 0] 2) (UserSegment data) = Ret (16, mkGdt [0; code; data; 0; 0; 0; 0; 0] 3) /\
    (field code 0 16 = lc mod 2 ^ 16 /\ field code 48 52 = lc / 2 ^ 16 /\ field code 52 64 = field fc 52 64) /\
    (field data 0 16 = ld mod 2 ^ 16 /\ field data 48 52 = ld / 2 ^ 16 /\ field data 52 64 = field fd 52 64).
Proof.
  intros Bfc Blc Dc Bfd Bld Dd.
  destruct (new_user_spec fc lc Bfc Blc) as (code & -> & Bc & L1 & L2 & Mc & Tc).
  destruct (new_user_spec fd ld Bfd Bld) as (data & -> & Bd & L3 & L4 & Md & Td).
  assert (Hdpl : forall v f, field v 16 48 = field f 16 48 -> field f 45 47 = 0 ->
    descriptor_privilege_level (UserSegment v) = Ret Ring0).
  { intros v f E E0. apply descriptor_ring0. rewrite <- E0. apply (field_part v f 16 48); lia || assumption. }
  exists code, data. split; [reflexivity|]. split; [unfold add_entry; now rewrite (Hdpl code fc) by assumption|].
  split; [reflexivity|]. split; [unfold add_entry; now rewrite (Hdpl data fd) by assumption | auto].
Qed.

Lemma two_segments_spec `{BF : BitField} `{BFS : !BitFieldSpec BF} fc lc fd ld :
  0 <= fc < 2 ^ 64 -> 0 <= lc < 2 ^ 20 -> field fc 45 47 = 0 ->
  0 <= fd < 2 ^ 64 -> 0 <= ld < 2 ^ 20 -> field fd 45 47 = 0 ->
  exists code data l,
    (code ← new_user fc lc 0; '(_, gdt) ← add_entry Gdt_new code;
     data ← new_user fd ld 0; '(_, gdt) ← add_entry gdt data; Ret gdt)
      = Ret (mkGdt (0 :: code :: data :: l) 3) /\
    (field code 0 16 = lc mod 2 ^ 16 /\ field code 48 52 = lc / 2 ^ 16 /\ field code 52 64 = field fc 52 64) /\
    (field data 0 16 = ld mod 2 ^ 16 /\ field data 48 52 = ld / 2 ^ 16 /\ field data 52 64 = field fd 52 64).
Proof.
  intros Bfc Blc Dc Bfd Bld Dd.
  destruct (two_segments_steps fc lc fd ld Bfc Blc Dc Bfd Bld Dd) as (code & data & -> & E1 & -> & E2 & Fc & Fd).
  cbn [mbind outcome_bind]. rewrite E1. cbn [mbind outcome_bind]. rewrite E2. cbn [mbind outcome_bind].
  do 3 eexists. split; [reflexivity|]. auto.
Qed.

(** *** Witnesses *)

Section Witnesses.
#[local] Existing Instances ref_bit_field ref_bit_field_ok.

Lemma tss_segment_fields_witness :
  exists low high, new_tss_segment 0x123456789abcdef0 = Ret (SystemSegment low high) /\
    field low 16 40 + 2 ^ 24 * field low 56 64 + 2 ^ 32 * field high 0 32 = 0x123456789abcdef0 /\
    field low 0 16 = 103 /\ field low 40 44 = 9 /\ field low 44 45 = 0 /\
    field low 45 47 = 0 /\ field low 47 48 = 1 /\ 0 <= high < 2 ^ 64 /\ field high 32 64 = 0.
Proof. apply (tss_segment_fields 0x123456789abcdef0). lia. Defined.

Lemma handler_address_roundtrip_witness :
  pointer_low (set_handler_function missing 0xffffffff80012345 8)
    + 2 ^ 16 * pointer_middle (set_handler_function missing 0xffffffff80012345 8)
    + 2 ^ 32 * pointer_high (set_handler_function missing 0xffffffff80012345 8) = 0xffffffff80012345.
Proof.
  exact (proj1 (handler_address_roundtrip missing 0xffffffff80012345 8 ltac:(lia) ltac:(split; [discriminate | reflexivity]))).
Defined.

Lemma gdt_add_entry_correct_witness :
  exists sel t', add_entry Gdt_new (SystemSegment 0x891234567890067 0x12) = Ret (sel, t') /\ gdt_ok t' /\
    gdt_size t' = 3 /\ sel / 8 = 1.
Proof.
  destruct (gdt_add_entry_correct Gdt_new (SystemSegment 0x891234567890067 0x12) gdt_new_ok)
    as (sel & t' & E & Hok & Hs & Hi & _).
  exists sel, t'. split; [exact E|]. split; [exact Hok|]. split; [exact Hs | exact Hi].
Defined.
End Witnesses.
