(* ===== verification/Processor.v ===== *)
(** The processor's registers: [x86_64/src/register.rs], the mode switches of
    [stage2/src/protected_mode.rs] and loading of tables.

    The wrappers of [register.rs] are one instruction each; an instruction is a
    function on the state below.  A segment register has its selector and the
    limit in its descriptor cache: loading it in protected mode takes the limit
    from the descriptor table, loading it in real mode leaves the limit alone,
    which is what unreal mode builds on. *)
From Stdlib Require Import ZArith Lia.
From stdpp Require Import base tactics numbers list.
From S2P Require Import Prelude Crates Memory Descriptors.
#[local] Open Scope Z_scope.

Record segment := mkSegment { seg_selector : Z; seg_limit : Z }.

Record cpu := mkCpu {
  cpu_cr0 : Z;
  cpu_cr3 : Z;
  cpu_cr4 : Z;
  cpu_msr : Z -> Z;
  cpu_cs : segment;
  cpu_ds : segment;
  cpu_es : segment;
  cpu_ss : segment;
  cpu_tr : Z;
  cpu_gdt : list Z;        (** the entries the table register covers *)
  cpu_interrupts : bool;   (** the interrupt flag *)
}.

(** ** Instructions *)

Definition set_cr0 (c : cpu) (v : Z) : cpu :=
  mkCpu v (cpu_cr3 c) (cpu_cr4 c) (cpu_msr c) (cpu_cs c) (cpu_ds c) (cpu_es c) (cpu_ss c) (cpu_tr c) (cpu_gdt c) (cpu_interrupts c).
Definition set_cr3 (c : cpu) (v : Z) : cpu :=
  mkCpu (cpu_cr0 c) v (cpu_cr4 c) (cpu_msr c) (cpu_cs c) (cpu_ds c) (cpu_es c) (cpu_ss c) (cpu_tr c) (cpu_gdt c) (cpu_interrupts c).
Definition set_cr4 (c : cpu) (v : Z) : cpu :=
  mkCpu (cpu_cr0 c) (cpu_cr3 c) v (cpu_msr c) (cpu_cs c) (cpu_ds c) (cpu_es c) (cpu_ss c) (cpu_tr c) (cpu_gdt c) (cpu_interrupts c).
Definition set_msr (c : cpu) (n v : Z) : cpu :=
  mkCpu (cpu_cr0 c) (cpu_cr3 c) (cpu_cr4 c) (fun k => if k =? n then v else cpu_msr c k) (cpu_cs c) (cpu_ds c) (cpu_es c) (cpu_ss c) (cpu_tr c) (cpu_gdt c) (cpu_interrupts c).
Definition set_cs (c : cpu) (s : segment) : cpu :=
  mkCpu (cpu_cr0 c) (cpu_cr3 c) (cpu_cr4 c) (cpu_msr c) s (cpu_ds c) (cpu_es c) (cpu_ss c) (cpu_tr c) (cpu_gdt c) (cpu_interrupts c).
Definition set_ds (c : cpu) (s : segment) : cpu :=
  mkCpu (cpu_cr0 c) (cpu_cr3 c) (cpu_cr4 c) (cpu_msr c) (cpu_cs c) s (cpu_es c) (cpu_ss c) (cpu_tr c) (cpu_gdt c) (cpu_interrupts c).
Definition set_es (c : cpu) (s : segment) : cpu :=
  mkCpu (cpu_cr0 c) (cpu_cr3 c) (cpu_cr4 c) (cpu_msr c) (cpu_cs c) (cpu_ds c) s (cpu_ss c) (cpu_tr c) (cpu_gdt c) (cpu_interrupts c).
Definition set_ss (c : cpu) (s : segment) : cpu :=
  mkCpu (cpu_cr0 c) (cpu_cr3 c) (cpu_cr4 c) (cpu_msr c) (cpu_cs c) (cpu_ds c) (cpu_es c) s (cpu_tr c) (cpu_gdt c) (cpu_interrupts c).
Definition set_tr (c : cpu) (v : Z) : cpu :=
  mkCpu (cpu_cr0 c) (cpu_cr3 c) (cpu_cr4 c) (cpu_msr c) (cpu_cs c) (cpu_ds c) (cpu_es c) (cpu_ss c) v (cpu_gdt c) (cpu_interrupts c).
Definition set_gdt (c : cpu) (l : list Z) : cpu :=
  mkCpu (cpu_cr0 c) (cpu_cr3 c) (cpu_cr4 c) (cpu_msr c) (cpu_cs c) (cpu_ds c) (cpu_es c) (cpu_ss c) (cpu_tr c) l (cpu_interrupts c).
Definition set_interrupts (c : cpu) (b : bool) : cpu :=
  mkCpu (cpu_cr0 c) (cpu_cr3 c) (cpu_cr4 c) (cpu_msr c) (cpu_cs c) (cpu_ds c) (cpu_es c) (cpu_ss c) (cpu_tr c) (cpu_gdt c) b.

(** [cli] and [sti]: [interrupts::disable] and [interrupts::enable] *)
Definition disable (c : cpu) : cpu := set_interrupts c false.
Definition enable (c : cpu) : cpu := set_interrupts c true.

(** [without_interrupts] around [f] *)
Definition without_interrupts {R} (f : cpu -> R * cpu) (c : cpu) : R * cpu :=
  let '(ret, c) := f (disable c) in (ret, enable c).

(** The limit of a descriptor, in bytes when the granularity bit is set. *)
Definition descriptor_limit (d : Z) : Z :=
  let raw := d mod 2 ^ 16 + ((d / 2 ^ 48) mod 2 ^ 4) * 2 ^ 16 in
  if Z.testbit d 55 then raw * 4096 + 4095 else raw.

(** What a segment register holds after it was loaded with selector [sel]. *)
Definition load_segment (c : cpu) (old : segment) (sel : Z) : segment :=
  if Z.testbit (cpu_cr0 c) 0
  then mkSegment sel (descriptor_limit (default 0 (cpu_gdt c !! Z.to_nat (sel / 8))))
  else mkSegment sel (seg_limit old).

Lemma load_segment_selector c old sel : seg_selector (load_segment c old sel) = sel.
Proof. unfold load_segment. now destruct (Z.testbit (cpu_cr0 c) 0). Qed.

Definition mov_ds (c : cpu) (sel : Z) : cpu := set_ds c (load_segment c (cpu_ds c) sel).
Definition mov_es (c : cpu) (sel : Z) : cpu := set_es c (load_segment c (cpu_es c) sel).
Definition mov_ss (c : cpu) (sel : Z) : cpu := set_ss c (load_segment c (cpu_ss c) sel).

(** ** [Msr] and [Efer] *)

(** The two halves [edx] and [eax] of [rdmsr] are put together. *)
Definition Msr_read (c : cpu) (num : Z) : Z :=
  let high := ucast 32 (Z.shiftr (cpu_msr c num) 32) in
  let low := ucast 32 (cpu_msr c num) in
  Z.lor (ucast 64 (Z.shiftl high 32)) low.

Definition Msr_write (c : cpu) (num val : Z) : cpu :=
  let high := ucast 32 (Z.shiftr val 32) in
  let low := ucast 32 val in
  set_msr c num (high * 2 ^ 32 + low).

Definition EFER_NUM : Z := 0xC0000080.
Definition EFER_LONG_MODE_ENABLE : Z := 1 ≪ 8.
Definition EFER_NO_EXECUTE_ENABLE : Z := 1 ≪ 11.
(** Bits 0, 8, 10 to 15. *)
Definition EferFlags_all : Z := Z.lor (Z.lor 1 (1 ≪ 8)) (Z.shiftl (Z.ones 6) 10).

Definition CR0_PROTECTED_MODE_ENABLE : Z := 1.
Definition CR0_WRITE_PROTECT : Z := 1 ≪ 16.
Definition CR0_PAGING : Z := 1 ≪ 31.
(** Bits 0 to 5, 16, 18 and 29 to 31. *)
Definition Cr0Flags_all : Z :=
  Z.lor (Z.lor (Z.ones 6) (Z.lor (1 ≪ 16) (1 ≪ 18))) (Z.shiftl (Z.ones 3) 29).
(** Bits 3 and 4. *)
Definition Cr3Flags_all : Z := Z.lor (1 ≪ 3) (1 ≪ 4).

Section Registers.
Context `{FL : Bitflags}.

Definition Efer_read_raw (c : cpu) : Z := Msr_read c EFER_NUM.
Definition Efer_read (c : cpu) : Z := flags_from_bits_truncate EferFlags_all (Efer_read_raw c).
Definition Efer_write_raw (c : cpu) (val : Z) : cpu := Msr_write c EFER_NUM val.
Definition Efer_write (c : cpu) (val : Z) : cpu := Efer_write_raw c val.
Definition Efer_update (c : cpu) (f : Z -> Z) : cpu := Efer_write c (f (Efer_read c)).

(** ** [Cr0] *)

Definition Cr0_read_raw (c : cpu) : Z := cpu_cr0 c.
Definition Cr0_read (c : cpu) : Z := flags_from_bits_truncate Cr0Flags_all (Cr0_read_raw c).
Definition Cr0_write_raw (c : cpu) (val : Z) : cpu := set_cr0 c val.
Definition Cr0_write (c : cpu) (val : Z) : cpu := Cr0_write_raw c val.
Definition Cr0_update (c : cpu) (f : Z -> Z) : cpu := Cr0_write c (f (Cr0_read c)).

(** ** [Cr3] *)

Definition Cr3_read_raw (c : cpu) : Z := cpu_cr3 c.
Definition Cr3_read (c : cpu) : outcome (PhysicalFrame Size4KiB * Z) :=
  let raw := Cr3_read_raw c in
  frame ← frame_containing_address Size4KiB (Z.land raw 0x000f_ffff_ffff_f000);
  Ret (frame, flags_from_bits_truncate Cr3Flags_all (Z.land raw 0xfff)).
(** The instruction is [mov cr0, {}]. *)
Definition Cr3_write_raw (c : cpu) (val : Z) : cpu := set_cr0 c val.
Definition Cr3_write (c : cpu) (frame : PhysicalFrame Size4KiB) (val : Z) : cpu :=
  Cr3_write_raw c (Z.lor (frame_start frame) val).
Definition Cr3_update_flags (c : cpu) (f : Z -> Z) : outcome cpu :=
  '(pml4t, flags) ← Cr3_read c; Ret (Cr3_write c pml4t (f flags)).
Definition Cr3_update_pml4t_base (c : cpu) (pml4t : PhysicalFrame Size4KiB) : outcome cpu :=
  '(_, flags) ← Cr3_read c; Ret (Cr3_write c pml4t flags).

(** ** Segment registers *)

Definition CS_read (c : cpu) : Z := seg_selector (cpu_cs c).
(** A far return to the next instruction. *)
Definition CS_write (c : cpu) (val : Z) : cpu := set_cs c (load_segment c (cpu_cs c) val).
(** The instruction is [mov {:x}, cs]. *)
Definition SS_read (c : cpu) : Z := seg_selector (cpu_cs c).
Definition SS_write (c : cpu) (val : Z) : cpu := mov_ss c val.
Definition DS_read (c : cpu) : Z := seg_selector (cpu_ds c).
Definition DS_write (c : cpu) (val : Z) : cpu := mov_ds c val.
Definition ES_read (c : cpu) : Z := seg_selector (cpu_es c).
Definition ES_write (c : cpu) (val : Z) : cpu := mov_es c val.

(** ** Descriptor tables *)

(** [GlobalDescriptorTable::load]: the size is that of the entries pushed. *)
Definition gdt_load (t : GlobalDescriptorTable) (c : cpu) : outcome cpu :=
  n ← gdt_descriptor_size t;
  Ret (set_gdt c (take (Z.to_nat ((n + 1) / 8)) (gdt_entries t))).

Definition clear_interrupts_and_load (t : GlobalDescriptorTable) (c : cpu) : outcome cpu :=
  gdt_load t (disable c).

(** [TaskStateSegment::load] *)
Definition tss_load (c : cpu) (sel : Z) : cpu := set_tr c sel.

(** ** Unreal mode *)

(** The table of stage 2. *)
Definition stage2_gdt `{BF : BitField} : outcome GlobalDescriptorTable :=
  code ← protected_mode_code_segment;
  '(_, gdt) ← add_entry Gdt_new code;
  data ← protected_mode_data_segment;
  '(_, gdt) ← add_entry gdt data;
  Ret gdt.

Definition enter_unreal_mode `{BF : BitField} (c : cpu) : outcome cpu :=
  let ds := seg_selector (cpu_ds c) in
  let ss := seg_selector (cpu_ss c) in
  gdt ← stage2_gdt;
  c ← clear_interrupts_and_load gdt c;
  let c := Cr0_update c (fun val => flags_union val CR0_PROTECTED_MODE_ENABLE) in
  let c := mov_ds c 0x10 in
  let c := mov_ss c 0x10 in
  let c := Cr0_update c (fun val => flags_inter val (flags_complement Cr0Flags_all CR0_PROTECTED_MODE_ENABLE)) in
  let c := mov_ds c ds in
  let c := mov_ss c ss in
  Ret (enable c).

(** The stack of 32-bit code: its pointer, and those 32-bit words from there upwards
    that are known. *)
Record stack32 := mkStack { esp : Z; known_words : list Z }.

Definition push32 (v : Z) (s : stack32) : stack32 := mkStack (ucast 32 (esp s - 4)) (ucast 32 v :: known_words s).
Definition pop32 (s : stack32) : Z * stack32 := (hd 0 (known_words s), mkStack (ucast 32 (esp s + 4)) (tl (known_words s))).

(** [and esp, mask]: nothing is known of the words the pointer moves down over. *)
Definition and_esp (mask : Z) (s : stack32) : stack32 :=
  let p := Z.land (esp s) mask in
  mkStack p (if p =? esp s then known_words s else []).

(** The entry point is popped and called with the pointer to the boot information on
    top of the stack. *)
Definition enter_protected_mode_and_jump_to_stage3 (entry_point info : Z) (c : cpu) (stack : stack32) : cpu * (Z * stack32) :=
  let c := disable c in
  let c := Cr0_update c (fun val => flags_union val CR0_PROTECTED_MODE_ENABLE) in
  let stack := and_esp 0xffffff00 stack in
  let stack := push32 info stack in
  let stack := push32 entry_point stack in
  let c := CS_write c 0x8 in
  let c := mov_ds c 0x10 in
  let c := mov_es c 0x10 in
  let c := mov_ss c 0x10 in
  (c, pop32 stack).
End Registers.

(** ** Theorems *)

Section RegisterTheorems.
Context `{FL : Bitflags} `{FLS : !BitflagsSpec FL} `{BF : BitField} `{BFS : !BitFieldSpec BF}.
Implicit Types (c : cpu).

(** What is written to a model specific register is read back. *)
Lemma Msr_roundtrip c num val : in_width 64 val -> Msr_read (Msr_write c num val) num = val.
Proof.
  intros [H0 H1]. unfold Msr_read, Msr_write, set_msr, ucast. cbn [cpu_msr]. rewrite Z.eqb_refl.
  rewrite !Z.shiftr_div_pow2, Z.shiftl_mul_pow2 by lia.
  assert (Hh : 0 <= val / 2 ^ 32 < 2 ^ 32) by (split; [apply Z.div_pos; lia | apply Z.div_lt_upper_bound; lia]).
  rewrite (Z.mod_small (val / 2 ^ 32)) by lia.
  pose proof (Z.mod_pos_bound val (2 ^ 32) ltac:(lia)) as Hl. pose proof (Z.div_mod val (2 ^ 32) ltac:(lia)) as Hd.
  replace (val / 2 ^ 32 * 2 ^ 32 + val mod 2 ^ 32) with val by lia.
  rewrite (Z.mod_small (val / 2 ^ 32)), (Z.mod_small (val / 2 ^ 32 * 2 ^ 32)) by lia.
  rewrite (lor_add_low _ _ 32) by (try apply Z.mod_mul; lia). lia.
Qed.

(** Updating [EFER] applies the function to its known flags. *)
Lemma Efer_update_spec c f :
  let v := f (Z.land (Efer_read_raw c) EferFlags_all) in
  in_width 64 v -> Efer_read_raw (Efer_update c f) = v.
Proof.
  intros v Hv. unfold Efer_update, Efer_write, Efer_write_raw, Efer_read. unfold Efer_read_raw at 1.
  rewrite flags_from_bits_truncate_spec. now apply Msr_roundtrip.
Qed.

(** Changing the page table base or the cache flags of the page table through
    [Cr3] does not change [cr3]; it overwrites [cr0] with the address of the
    table, which clears the paging and protection bits for an address below
    2 GiB. *)
Theorem cr3_update_clobbers_cr0 c pml4t :
  in_width 64 (cpu_cr3 c) -> valid_frame (frame_address pml4t) -> frame_address pml4t < 2 ^ 31 ->
  exists c', Cr3_update_pml4t_base c pml4t = Ret c' /\ cpu_cr3 c' = cpu_cr3 c /\
    Z.testbit (cpu_cr0 c') 31 = false /\ Z.testbit (cpu_cr0 c') 0 = false.
Proof.
  intros Hc [Hf Hal] Hlow. unfold Cr3_update_pml4t_base, Cr3_read, Cr3_read_raw.
  assert (Hr : 0 <= Z.land (cpu_cr3 c) 0x000f_ffff_ffff_f000 < 2 ^ 64).
  { apply land_bound; lia. }
  rewrite frame_containing_eq by assumption. cbn [mbind outcome_bind].
  eexists. split; [reflexivity|]. split; [reflexivity|].
  unfold Cr3_write, Cr3_write_raw. cbn [set_cr0 cpu_cr0]. unfold frame_start.
  rewrite flags_from_bits_truncate_spec, !Z.lor_spec, !Z.land_spec.
  rewrite (testbit_high (frame_address pml4t) 31 31) by lia.
  assert (E : Z.testbit (frame_address pml4t) 0 = false).
  { rewrite Z.bit0_odd, Zodd_mod. apply Z.eqb_neq. Z.to_euclidean_division_equations; lia. }
  rewrite E. split; now rewrite andb_false_r.
Qed.

(** *** Unreal mode *)

(** The limit of a descriptor from its fields. *)
Lemma descriptor_limit_fields d :
  descriptor_limit d = (let raw := field d 0 16 + field d 48 52 * 2 ^ 16 in
                        if Z.testbit (field d 52 64) 3 then raw * 4096 + 4095 else raw).
Proof.
  unfold descriptor_limit. rewrite field_bits by lia. cbn [Z.ltb Z.compare Pos.compare Pos.compare_cont andb Z.add Pos.add Pos.succ].
  unfold field. now rewrite Z.div_1_r.
Qed.

(** Both segments of stage 2 cover 4 GiB and have privilege level 0. *)
Lemma stage2_gdt_spec :
  exists code data l, stage2_gdt = Ret (mkGdt (0 :: code :: data :: l) 3) /\
    descriptor_limit code = 2 ^ 32 - 1 /\ descriptor_limit data = 2 ^ 32 - 1.
Proof.
  unfold stage2_gdt, protected_mode_code_segment, protected_mode_data_segment, flags_of. cbn [fold_left].
  rewrite !flags_union_spec.
  set (fd := Z.lor _ _). set (fc := Z.lor _ _).
  destruct (two_segments_spec fc 0xFFFFF fd 0xFFFFF) as (code & data & l & E & (C1 & C2 & C3) & (D1 & D2 & D3));
    try reflexivity; try lia; [split; [discriminate | reflexivity]..|].
  exists code, data, l. split; [exact E|].
  split; rewrite descriptor_limit_fields; [rewrite C1, C2, C3 | rewrite D1, D2, D3]; reflexivity.
Qed.

(** Setting and clearing the protected mode bit. *)
Lemma cr0_set_protected v :
  Z.land v Cr0Flags_all = v -> Z.land (Z.lor v CR0_PROTECTED_MODE_ENABLE) Cr0Flags_all = Z.lor v CR0_PROTECTED_MODE_ENABLE.
Proof. intros E. now rewrite Z.land_lor_distr_l, E. Qed.

Lemma cr0_clear_protected v :
  Z.land v Cr0Flags_all = v -> Z.testbit v 0 = false ->
  Z.land (Z.lor v CR0_PROTECTED_MODE_ENABLE) (Z.ldiff Cr0Flags_all CR0_PROTECTED_MODE_ENABLE) = v.
Proof.
  intros E H0. apply Z.bits_inj'. intros i Hi.
  pose proof (f_equal (fun z => Z.testbit z i) E) as Ei. cbn beta in Ei.
  rewrite !Z.land_spec, Z.lor_spec, Z.ldiff_spec in *. destruct (Z.eq_dec i 0) as [->|Hne].
  - now rewrite H0, !andb_false_r.
  - rewrite (testbit_high CR0_PROTECTED_MODE_ENABLE i 1) by (unfold CR0_PROTECTED_MODE_ENABLE; lia).
    now rewrite orb_false_r, andb_true_r.
Qed.

Lemma unreal_mode_spec c :
  Z.land (cpu_cr0 c) Cr0Flags_all = cpu_cr0 c -> Z.testbit (cpu_cr0 c) 0 = false ->
  exists c' code data, enter_unreal_mode c = Ret c' /\
    cpu_cr0 c' = cpu_cr0 c /\ cpu_interrupts c' = true /\
    cpu_ds c' = mkSegment (seg_selector (cpu_ds c)) (2 ^ 32 - 1) /\
    cpu_ss c' = mkSegment (seg_selector (cpu_ss c)) (2 ^ 32 - 1) /\
    cpu_cs c' = cpu_cs c /\ cpu_es c' = cpu_es c /\ cpu_cr3 c' = cpu_cr3 c /\ cpu_cr4 c' = cpu_cr4 c /\
    cpu_gdt c' = [0; code; data] /\ descriptor_limit code = 2 ^ 32 - 1 /\ descriptor_limit data = 2 ^ 32 - 1.
Proof.
  intros Hk H0. unfold enter_unreal_mode. destruct stage2_gdt_spec as (code & data & l & -> & Hcode & Hd).
  cbn [mbind outcome_bind]. unfold clear_interrupts_and_load, gdt_load, gdt_descriptor_size. cbn [gdt_size].
  change (umul 64 3 8) with (Ret 24 : outcome Z). cbn [mbind outcome_bind].
  change (usub 64 24 1) with (Ret 23 : outcome Z). cbn [mbind outcome_bind].
  change (Z.to_nat ((ucast 16 23 + 1) / 8)) with 3%nat. cbn [gdt_entries take].
  eexists _, code, data. split; [reflexivity|].
  unfold Cr0_update, Cr0_write, Cr0_write_raw, Cr0_read, Cr0_read_raw, mov_ds, mov_ss, load_segment, enable, disable.
  cbn [set_cr0 set_ds set_ss set_gdt set_interrupts cpu_cr0 cpu_cr3 cpu_cr4 cpu_cs cpu_ds cpu_es cpu_ss cpu_gdt cpu_interrupts].
  rewrite !flags_from_bits_truncate_spec, !flags_union_spec, !flags_inter_spec, !flags_complement_spec, Hk.
  rewrite cr0_set_protected by assumption. rewrite cr0_clear_protected by assumption.
  rewrite H0, Z.lor_spec, H0. cbn [orb].
  change (Z.testbit CR0_PROTECTED_MODE_ENABLE 0) with true. cbn [seg_selector seg_limit].
  change (Z.to_nat (0x10 / 8)) with 2%nat. cbn [lookup list_lookup default id]. rewrite Hd. repeat split; assumption.
Qed.

(** The stack stage 3 is called with: 256-byte aligned but for the one word pushed. *)
Definition argument_stack (info : Z) (stack : stack32) : stack32 := push32 info (and_esp 0xffffff00 stack).

Lemma pop_push v u s : pop32 (push32 v (push32 u s)) = (ucast 32 v, push32 u s).
Proof.
  unfold pop32, push32, ucast. cbn [esp known_words hd tl]. do 2 f_equal. rewrite Zplus_mod_idemp_l.
  replace ((esp s - 4) mod 2 ^ 32 - 4 + 4) with ((esp s - 4) mod 2 ^ 32) by lia. now rewrite Z.mod_mod.
Qed.

Lemma protected_mode_spec entry info c stack code data :
  Z.land (cpu_cr0 c) Cr0Flags_all = cpu_cr0 c -> in_width 32 entry -> in_width 32 info ->
  cpu_gdt c = [0; code; data] -> descriptor_limit code = 2 ^ 32 - 1 -> descriptor_limit data = 2 ^ 32 - 1 ->
  exists c', enter_protected_mode_and_jump_to_stage3 entry info c stack = (c', (entry, argument_stack info stack)) /\
    cpu_cr0 c' = Z.lor (cpu_cr0 c) 1 /\ cpu_interrupts c' = false /\ cpu_cs c' = mkSegment 0x8 (2 ^ 32 - 1) /\
    cpu_ds c' = mkSegment 0x10 (2 ^ 32 - 1) /\ cpu_es c' = mkSegment 0x10 (2 ^ 32 - 1) /\
    cpu_ss c' = mkSegment 0x10 (2 ^ 32 - 1).
Proof.
  intros Hk He Hi G Hc Hd. unfold enter_protected_mode_and_jump_to_stage3. rewrite pop_push. fold (argument_stack info stack).
  unfold ucast at 1. rewrite Z.mod_small by assumption. eexists. split; [reflexivity|].
  unfold Cr0_update, Cr0_write, Cr0_write_raw, Cr0_read, Cr0_read_raw, CS_write, mov_ds, mov_es, mov_ss, load_segment, disable.
  cbn [set_cr0 set_cs set_ds set_es set_ss set_interrupts cpu_cr0 cpu_cs cpu_ds cpu_es cpu_ss cpu_gdt cpu_interrupts].
  rewrite !flags_from_bits_truncate_spec, !flags_union_spec, Hk, Z.lor_spec.
  change (Z.testbit CR0_PROTECTED_MODE_ENABLE 0) with true. rewrite orb_true_r, G.
  change (Z.to_nat (0x10 / 8)) with 2%nat. change (Z.to_nat (0x8 / 8)) with 1%nat.
  cbn [lookup list_lookup default id]. rewrite Hc, Hd. repeat split.
Qed.

(** C26: the mode switches of stage 2.  Entering unreal mode from real mode leaves
    the processor in real mode with the same selectors and interrupts on, but
    with data and stack segments that reach 4 GiB.  From there the jump to stage
    3 arrives at its entry point in protected mode, with interrupts off, flat
    4 GiB segments, and the pointer to the boot information on the stack, one word
    below a 256-byte boundary. *)
Theorem unreal_mode_correct c entry info stack :
  Z.land (cpu_cr0 c) Cr0Flags_all = cpu_cr0 c -> Z.testbit (cpu_cr0 c) 0 = false ->
  in_width 32 entry -> in_width 32 info ->
  exists c' c'', enter_unreal_mode c = Ret c' /\
    cpu_cr0 c' = cpu_cr0 c /\ cpu_interrupts c' = true /\
    cpu_ds c' = mkSegment (seg_selector (cpu_ds c)) (2 ^ 32 - 1) /\
    cpu_ss c' = mkSegment (seg_selector (cpu_ss c)) (2 ^ 32 - 1) /\
    cpu_cs c' = cpu_cs c /\ cpu_es c' = cpu_es c /\ cpu_cr3 c' = cpu_cr3 c /\ cpu_cr4 c' = cpu_cr4 c /\
    enter_protected_mode_and_jump_to_stage3 entry info c' stack
      = (c'', (entry, mkStack (ucast 32 (Z.land (esp stack) 0xffffff00 - 4)) (info :: known_words (and_esp 0xffffff00 stack)))) /\
    cpu_cr0 c'' = Z.lor (cpu_cr0 c) 1 /\ cpu_interrupts c'' = false /\ cpu_cs c'' = mkSegment 0x8 (2 ^ 32 - 1) /\
    cpu_ds c'' = mkSegment 0x10 (2 ^ 32 - 1) /\ cpu_es c'' = mkSegment 0x10 (2 ^ 32 - 1) /\
    cpu_ss c'' = mkSegment 0x10 (2 ^ 32 - 1).
Proof.
  intros Hk H0 He Hi.
  destruct (unreal_mode_spec c Hk H0) as (c' & code & data & E & E0 & I1 & D & S & C & Es & C3 & C4 & G & Lc & Ld).
  rewrite <- E0 in Hk. destruct (protected_mode_spec entry info c' stack code data Hk He Hi G Lc Ld) as (c'' & E' & H').
  exists c', c''. rewrite <- E0. repeat (split; [assumption || reflexivity|]).
  split; [|exact H']. rewrite E'. unfold argument_stack, push32. unfold ucast at 2. now rewrite (Z.mod_small info) by assumption.
Qed.
End RegisterTheorems.

(** *** Witnesses *)

Section Witnesses.
#[local] Existing Instances ref_bit_field ref_bit_field_ok ref_bitflags ref_bitflags_ok.

(** A processor after reset, and one in long mode with a table at [0x5000]. *)
Definition real_mode_cpu : cpu :=
  mkCpu 0x10 0 0 (fun _ => 0) (mkSegment 0 0xffff) (mkSegment 0 0xffff) (mkSegment 0 0xffff) (mkSegment 0x10 0xffff) 0 [] true.
Definition long_mode_cpu : cpu := set_cr3 (set_cr0 real_mode_cpu 0x80000011) 0x5000.

Lemma unreal_mode_correct_witness :
  exists c' c'', enter_unreal_mode real_mode_cpu = Ret c' /\
    cpu_cr0 c' = 0x10 /\ cpu_ds c' = mkSegment 0 (2 ^ 32 - 1) /\
    enter_protected_mode_and_jump_to_stage3 0x100000 0x7000 c' (mkStack 0x7bf2 [])
      = (c'', (0x100000, mkStack 0x7afc [0x7000])) /\ cpu_cr0 c'' = 0x11.
Proof.
  destruct (unreal_mode_correct real_mode_cpu 0x100000 0x7000 (mkStack 0x7bf2 []))
    as (c' & c'' & E & E0 & _ & D & _ & _ & _ & _ & _ & E' & E0' & _);
    [reflexivity | reflexivity | split; cbn; lia | split; cbn; lia |].
  exists c', c''.
  exact (conj E (conj E0 (conj D (conj E' E0')))).
Defined.

Lemma cr3_update_clobbers_cr0_witness :
  exists c', Cr3_update_pml4t_base long_mode_cpu (mkFrame Size4KiB 0x9000) = Ret c' /\ cpu_cr3 c' = 0x5000 /\
    Z.testbit (cpu_cr0 c') 31 = false /\ Z.testbit (cpu_cr0 c') 0 = false.
Proof.
  apply (cr3_update_clobbers_cr0 long_mode_cpu (mkFrame Size4KiB 0x9000)).
  - split; cbn; lia.
  - split; [cbn; lia | reflexivity].
  - cbn. lia.
Defined.
End Witnesses.
