(* ===== verification/InterruptStubs.v ===== *)
(** The entry stubs of interrupt handlers: the macros of [x86_64/src/interrupts.rs].

    A stub is a list of instructions on the caller-saved registers, the stack
    pointer and the stack in memory.  The processor pushes the exception frame
    before the stub runs; [iretq] takes it back.  The handler is compiled Rust:
    what is used of it is the calling convention. *)
From Stdlib Require Import ZArith Lia.
From stdpp Require Import base tactics numbers list.
From S2P Require Import Prelude.
#[local] Open Scope Z_scope.

Inductive reg := RAX | RCX | RDX | RSI | RDI | R8 | R9 | R10 | R11 | RSP.

#[global] Instance reg_eq_dec : EqDecision reg.
Proof. solve_decision. Defined.

Record machine := mkMachine { regs : reg -> Z; stk : mem }.

Definition set_reg (f : reg -> Z) (r : reg) (v : Z) : reg -> Z := fun r' => if decide (r' = r) then v else f r'.

Inductive instr :=
  | Push (r : reg)
  | Pop (r : reg)
  | LoadRsp (r : reg) (off : Z)   (** [mov r, [rsp + off]] *)
  | MovRsp (r : reg)              (** [mov r, rsp] *)
  | AddImm (r : reg) (n : Z)
  | SubImm (r : reg) (n : Z).

Definition push_word (v : Z) (st : machine) : machine :=
  let sp := ucast 64 (regs st RSP - 8) in
  mkMachine (set_reg (regs st) RSP sp) (store64 (stk st) sp v).

Definition exec (i : instr) (st : machine) : machine :=
  let sp := regs st RSP in
  match i with
  | Push r => push_word (regs st r) st
  | Pop r => mkMachine (set_reg (set_reg (regs st) RSP (ucast 64 (sp + 8))) r (load64 (stk st) sp)) (stk st)
  | LoadRsp r off => mkMachine (set_reg (regs st) r (load64 (stk st) (sp + off))) (stk st)
  | MovRsp r => mkMachine (set_reg (regs st) r sp) (stk st)
  | AddImm r n => mkMachine (set_reg (regs st) r (ucast 64 (regs st r + n))) (stk st)
  | SubImm r n => mkMachine (set_reg (regs st) r (ucast 64 (regs st r - n))) (stk st)
  end.

Definition exec_all (l : list instr) (st : machine) : machine := foldl (fun st i => exec i st) st l.

(** ** The macros *)

Definition push_scratch_registers : list instr :=
  [Push RAX; Push RCX; Push RDX; Push RSI; Push RDI; Push R8; Push R9; Push R10; Push R11].
Definition pop_scratch_registers : list instr :=
  [Pop RAX; Pop RCX; Pop RDX; Pop RSI; Pop RDI; Pop R8; Pop R9; Pop R10; Pop R11].

(** What [iretq] restores. *)
Record resumed := mkResumed { r_rip : Z; r_cs : Z; r_flags : Z; r_rsp : Z; r_ss : Z }.

Definition iretq (st : machine) : resumed * (reg -> Z) :=
  let sp := regs st RSP in
  let m := stk st in
  (mkResumed (load64 m sp) (load64 m (sp + 8)) (load64 m (sp + 16)) (load64 m (sp + 24)) (load64 m (sp + 32)),
   set_reg (regs st) RSP (load64 m (sp + 24))).

(** What the processor does on an interrupt: the stack is aligned, then the
    interrupted state and, for some exceptions, an error code are pushed. *)
Definition interrupt_entry (old : resumed) (error : option Z) (st : machine) : machine :=
  let aligned := mkMachine (set_reg (regs st) RSP (regs st RSP - regs st RSP mod 16)) (stk st) in
  let st := push_word (r_rip old) (push_word (r_cs old) (push_word (r_flags old)
              (push_word (r_rsp old) (push_word (r_ss old) aligned)))) in
  match error with Some e => push_word e st | None => st end.

(** [handler_with_error_code] up to and after the call *)
Definition with_error_code_before : list instr :=
  push_scratch_registers ++ [LoadRsp RSI (9 * 8); MovRsp RDI; AddImm RDI (10 * 8); SubImm RSP 8].
Definition with_error_code_after : list instr :=
  [AddImm RSP 8] ++ pop_scratch_registers ++ [AddImm RSP 8].

(** [handler_without_error_code] *)
Definition without_error_code_before : list instr :=
  push_scratch_registers ++ [MovRsp RDI; AddImm RDI (9 * 8)].
Definition without_error_code_after : list instr := pop_scratch_registers.

Section Stubs.
Context (handler : machine -> machine) (return_address : Z).

(** [call]: the return address is pushed, and taken off by the handler's return. *)
Definition call (st : machine) : machine :=
  let st := handler (push_word return_address st) in
  mkMachine (set_reg (regs st) RSP (ucast 64 (regs st RSP + 8))) (stk st).

Definition handler_with_error_code (st : machine) : resumed * (reg -> Z) :=
  iretq (exec_all with_error_code_after (call (exec_all with_error_code_before st))).
Definition handler_without_error_code (st : machine) : resumed * (reg -> Z) :=
  iretq (exec_all without_error_code_after (call (exec_all without_error_code_before st))).
End Stubs.

(** ** Runs of pushes and pops *)

Lemma set_reg_eq f r v : set_reg f r v r = v.
Proof. unfold set_reg. now rewrite decide_True. Qed.
Lemma set_reg_ne f r v r' : r' <> r -> set_reg f r v r' = f r'.
Proof. intros. unfold set_reg. now rewrite decide_False. Qed.

(** Look registers up in a state that was built instruction by instruction. *)
Ltac simpl_regs := repeat (rewrite set_reg_eq || rewrite set_reg_ne by (discriminate || assumption)).

Lemma exec_all_app l1 l2 st : exec_all (l1 ++ l2) st = exec_all l2 (exec_all l1 st).
Proof. apply foldl_app. Qed.

(** The words from [a] up, and memory from [hi] up as in [m]. *)
Definition words (m : mem) (a : Z) (l : list Z) : Prop :=
  forall i v, l !! i = Some v -> load64 m (a + 8 * Z.of_nat i) = v.

Lemma words_app m a l1 l2 :
  words m a (l1 ++ l2) <-> words m a l1 /\ words m (a + 8 * Z.of_nat (length l1)) l2.
Proof.
  unfold words. split.
  - intros H. split; intros i v Hi.
    + apply H. now apply lookup_app_l_Some.
    + rewrite <- (H (length l1 + i)%nat v); [f_equal; lia|]. rewrite lookup_app_r by lia. now rewrite Nat.add_comm, Nat.add_sub.
  - intros [H1 H2] i v Hi. apply lookup_app_Some in Hi as [Hi|[Hge Hi]]; [auto|].
    rewrite <- (H2 _ _ Hi). f_equal. lia.
Qed.

Lemma words_keep m m' a l : (forall x, a <= x < a + 8 * Z.of_nat (length l) -> m' x = m x) -> words m a l -> words m' a l.
Proof.
  intros Hk H i v Hi. rewrite <- (H i v Hi). apply load64_agree. intros x Hx. apply Hk.
  apply lookup_lt_Some in Hi. lia.
Qed.

(** Pushing a word. *)
Lemma push_word_spec v st sp l :
  regs st RSP = sp -> 8 <= sp < 2 ^ 64 -> in_width 64 v -> words (stk st) sp l ->
  regs (push_word v st) RSP = sp - 8 /\ words (stk (push_word v st)) (sp - 8) (v :: l) /\
  (forall r, r <> RSP -> regs (push_word v st) r = regs st r) /\
  (forall x, sp <= x -> stk (push_word v st) x = stk st x).
Proof.
  intros Hsp Hb Hv Hl. unfold push_word. cbn [regs stk]. rewrite Hsp.
  replace (ucast 64 (sp - 8)) with (sp - 8) by (unfold ucast; rewrite Z.mod_small; lia).
  split; [apply set_reg_eq|]. split; [|split].
  - apply (words_app _ _ [v]). split.
    + intros [|i] u Hi; [|destruct i; discriminate]. injection Hi as <-.
      rewrite Z.add_0_r. now apply load64_store64_same.
    + cbn [length]. replace (sp - 8 + 8 * Z.of_nat 1) with sp by lia. apply (words_keep (stk st)); [|assumption].
      intros x Hx. apply store_le_outside. lia.
  - intros r Hr. now apply set_reg_ne.
  - intros x Hx. apply store_le_outside. lia.
Qed.

Lemma push_all_spec l : forall st sp ws,
  regs st RSP = sp -> RSP ∉ l -> 8 * Z.of_nat (length l) <= sp < 2 ^ 64 -> (forall r, in_width 64 (regs st r)) ->
  words (stk st) sp ws ->
  let st' := exec_all (Push <$> l) st in
  regs st' RSP = sp - 8 * Z.of_nat (length l) /\
  words (stk st') (sp - 8 * Z.of_nat (length l)) (rev (regs st <$> l) ++ ws) /\
  (forall r, r <> RSP -> regs st' r = regs st r) /\
  (forall x, sp <= x -> stk st' x = stk st x).
Proof.
  induction l as [|r l IH]; intros st sp ws Hsp Hni Hb Hw Hl st'.
  { cbn. rewrite Z.sub_0_r. auto. }
  apply not_elem_of_cons in Hni as [Hr Hni]. cbn [length] in Hb.
  destruct (push_word_spec (regs st r) st sp ws) as (E1 & E2 & E3 & E4); [assumption | lia | apply Hw | assumption|].
  destruct (IH (push_word (regs st r) st) (sp - 8) (regs st r :: ws)) as (F1 & F2 & F3 & F4); try assumption; [lia | |].
  { intros r'. destruct (decide (r' = RSP)) as [->|Hne]; [rewrite E1; unfold in_width; lia | rewrite E3 by assumption; apply Hw]. }
  change (exec_all (Push <$> (r :: l)) st) with (exec_all (Push <$> l) (push_word (regs st r) st)) in st'. subst st'.
  cbn [length]. replace (sp - 8 * Z.of_nat (S (length l))) with (sp - 8 - 8 * Z.of_nat (length l)) by lia.
  split; [exact F1|]. split; [|split].
  - cbn [fmap list_fmap rev]. rewrite <- app_assoc. cbn [app].
    replace (regs st <$> l) with (regs (push_word (regs st r) st) <$> l); [exact F2|].
    apply list_fmap_ext. intros i x Hx. apply E3. intros ->. apply Hni. eapply list_elem_of_lookup_2; eauto.
  - intros r' Hr'. rewrite F3, E3 by assumption. reflexivity.
  - intros x Hx. rewrite F4, E4 by lia. reflexivity.
Qed.

Lemma pop_all_spec l : forall st sp vs,
  regs st RSP = sp -> RSP ∉ l -> NoDup l -> 0 <= sp -> sp + 8 * Z.of_nat (length l) < 2 ^ 64 ->
  length vs = length l -> words (stk st) sp vs ->
  let st' := exec_all (Pop <$> l) st in
  regs st' RSP = sp + 8 * Z.of_nat (length l) /\ stk st' = stk st /\
  (forall i r v, l !! i = Some r -> vs !! i = Some v -> regs st' r = v) /\
  (forall r, r <> RSP -> r ∉ l -> regs st' r = regs st r).
Proof.
  induction l as [|r l IH]; intros st sp vs Hsp Hni Hnd H0 Hb Hlen Hw st'.
  { cbn. rewrite Z.add_0_r. split; [assumption|]. split; [reflexivity|]. split; [intros i ? ? E; now destruct i | auto]. }
  destruct vs as [|v vs]; [discriminate|]. apply not_elem_of_cons in Hni as [Hr Hni].
  apply NoDup_cons in Hnd as [Hrl Hnd]. cbn [length] in *. injection Hlen as Hlen.
  set (st1 := exec (Pop r) st). apply (words_app _ _ [v]) in Hw as [Hv Hvs]. cbn [length] in Hvs.
  assert (Ev : load64 (stk st) sp = v) by (rewrite <- (Hv 0%nat v eq_refl); f_equal; lia).
  assert (R1 : regs st1 RSP = sp + 8).
  { unfold st1. cbn [exec regs]. rewrite set_reg_ne, set_reg_eq, Hsp by congruence. unfold ucast. apply Z.mod_small. lia. }
  destruct (IH st1 (sp + 8) vs) as (F1 & F2 & F3 & F4); try assumption; try lia.
  change (exec_all (Pop <$> (r :: l)) st) with (exec_all (Pop <$> l) st1) in st'. subst st'.
  split; [rewrite F1; lia|]. split; [exact F2|]. split.
  - intros [|i] r' v' Hi Hv'; [injection Hi as <-; injection Hv' as <- | now apply (F3 i)].
    rewrite F4 by congruence. unfold st1. cbn [exec regs]. now rewrite set_reg_eq, Hsp.
  - intros r' Hr' [Hne Hnl]%not_elem_of_cons. rewrite F4 by assumption. unfold st1. cbn [exec regs].
    now rewrite !set_reg_ne by congruence.
Qed.

(** ** The stubs *)

Definition scratch : list reg := [RAX; RCX; RDX; RSI; RDI; R8; R9; R10; R11].

Lemma scratch_ok : (RSP ∉ scratch) /\ NoDup scratch.
Proof.
  split; [apply (bool_decide_unpack (RSP ∉ scratch)); exact I | apply (bool_decide_unpack (NoDup scratch)); exact I].
Qed.

Definition frame_words (old : resumed) : list Z := [r_rip old; r_cs old; r_flags old; r_rsp old; r_ss old].
Definition error_words (error : option Z) : list Z := match error with Some e => [e] | None => [] end.

(** The interrupted state: values of 64 bits, and room on the stack. *)
Record interrupted (old : resumed) (error : option Z) (st : machine) : Prop := {
  in_regs r : in_width 64 (regs st r);
  in_room : 256 <= regs st RSP;
  in_frame : Forall (in_width 64) (frame_words old);
  in_error : Forall (in_width 64) (error_words error);
}.

(** Where the stack is aligned to. *)
Definition stack_top (st : machine) : Z := regs st RSP - regs st RSP mod 16.

(** The stack pointer behind the frame and the error code. *)
Definition entry_sp (error : option Z) (st : machine) : Z :=
  stack_top st - 40 - 8 * Z.of_nat (length (error_words error)).

Lemma interrupt_entry_spec old error st :
  interrupted old error st ->
  let st' := interrupt_entry old error st in
  regs st' RSP = entry_sp error st /\
  words (stk st') (entry_sp error st) (error_words error ++ frame_words old) /\
  (forall r, r <> RSP -> regs st' r = regs st r).
Proof.
  intros [Hr Hroom Hf He] st'. destruct (Hr RSP) as [_ Htop].
  pose proof (Z.mod_pos_bound (regs st RSP) 16 ltac:(lia)) as Hm.
  unfold frame_words in Hf. rewrite !Forall_cons in Hf. destruct Hf as (F1 & F2 & F3 & F4 & F5 & _).
  unfold entry_sp. set (top := stack_top st). assert (Hb : 200 <= top < 2 ^ 64) by (unfold top, stack_top; lia).
  set (s0 := mkMachine (set_reg (regs st) RSP top) (stk st)).
  assert (W0 : words (stk s0) top []) by (intros i v Hi; destruct i; discriminate).
  destruct (push_word_spec (r_ss old) s0 top [] (set_reg_eq _ _ _) ltac:(lia) F5 W0) as (P1 & W1 & K1 & _).
  destruct (push_word_spec (r_rsp old) _ _ _ P1 ltac:(lia) F4 W1) as (P2 & W2 & K2 & _).
  destruct (push_word_spec (r_flags old) _ _ _ P2 ltac:(lia) F3 W2) as (P3 & W3 & K3 & _).
  destruct (push_word_spec (r_cs old) _ _ _ P3 ltac:(lia) F2 W3) as (P4 & W4 & K4 & _).
  destruct (push_word_spec (r_rip old) _ _ _ P4 ltac:(lia) F1 W4) as (P5 & W5 & K5 & _).
  set (s5 := push_word (r_rip old) _) in *.
  assert (K : forall r, r <> RSP -> regs s5 r = regs st r).
  { intros r Hne. unfold s5. rewrite K5, K4, K3, K2, K1 by assumption. now apply set_reg_ne. }
  subst st'. destruct error as [e|]; cbn [error_words length app] in *.
  - apply Forall_cons in He as [He _]. change (interrupt_entry old (Some e) st) with (push_word e s5).
    destruct (push_word_spec e s5 _ _ P5 ltac:(lia) He W5) as (P6 & W6 & K6 & _).
    replace (top - 40 - 8 * Z.of_nat 1) with (top - 8 - 8 - 8 - 8 - 8 - 8) by lia.
    split; [exact P6|]. split; [exact W6|]. intros r Hne. rewrite K6 by assumption. auto.
  - change (interrupt_entry old None st) with s5.
    replace (top - 40 - 8 * Z.of_nat 0) with (top - 8 - 8 - 8 - 8 - 8) by lia. auto.
Qed.

(** The two stubs, by whether there is an error code. *)
Definition stub_before (error : option Z) : list instr :=
  match error with Some _ => with_error_code_before | None => without_error_code_before end.

Lemma scratch_pushed old error st :
  interrupted old error st ->
  let st' := exec_all push_scratch_registers (interrupt_entry old error st) in
  regs st' RSP = entry_sp error st - 72 /\
  words (stk st') (entry_sp error st - 72)
    (rev (regs st <$> scratch) ++ error_words error ++ frame_words old).
Proof.
  intros Hin st'. destruct (interrupt_entry_spec old error st Hin) as (P & W & K). destruct scratch_ok as [Hni _].
  destruct Hin as [Hr Hroom _ _]. destruct (Hr RSP) as [_ Htop].
  pose proof (Z.mod_pos_bound (regs st RSP) 16 ltac:(lia)) as Hm.
  assert (Hlen : 0 <= Z.of_nat (length (error_words error)) <= 1) by (destruct error; cbn; lia).
  assert (Hsp : 72 <= entry_sp error st < 2 ^ 64) by (unfold entry_sp, stack_top; lia).
  destruct (push_all_spec scratch (interrupt_entry old error st) (entry_sp error st) (error_words error ++ frame_words old) P Hni)
    as (E1 & E2 & _); [cbn [length scratch]; lia | | exact W |].
  { intros r. destruct (decide (r = RSP)) as [->|Hne]; [rewrite P; unfold in_width; lia | rewrite K by assumption; apply Hr]. }
  change (Push <$> scratch) with push_scratch_registers in *. change (8 * Z.of_nat (length scratch)) with 72 in *.
  split; [exact E1|]. replace (regs st <$> scratch) with (regs (interrupt_entry old error st) <$> scratch); [exact E2|].
  apply list_fmap_ext. intros i r Hi. apply K. intros ->. apply Hni. eapply list_elem_of_lookup_2; eauto.
Qed.

Section StubTheorems.
Context (handler : machine -> machine) (return_address : Z).
(** The calling convention: the handler returns with the stack pointer it was
    entered with, and leaves the stack from there upwards alone. *)
Context (Hsp : forall st, regs (handler st) RSP = regs st RSP).
Context (Hstk : forall st x, regs st RSP <= x -> stk (handler st) x = stk st x).

Lemma call_spec st sp :
  regs st RSP = sp -> 8 <= sp < 2 ^ 64 ->
  regs (call handler return_address st) RSP = sp /\
  forall x, sp <= x -> stk (call handler return_address st) x = stk st x.
Proof.
  intros E Hb. unfold call. cbn [regs stk]. rewrite set_reg_eq, Hsp. unfold push_word at 1. cbn [regs].
  rewrite set_reg_eq, E. unfold ucast. rewrite (Z.mod_small (sp - 8)) by lia.
  split; [rewrite Z.mod_small; lia|]. intros x Hx. rewrite Hstk.
  - unfold push_word. cbn [stk]. rewrite E. unfold ucast. rewrite Z.mod_small by lia. apply store_le_outside. lia.
  - unfold push_word. cbn [regs]. rewrite set_reg_eq, E. unfold ucast. rewrite Z.mod_small by lia. lia.
Qed.

Definition run_stub (error : option Z) (st : machine) : resumed * (reg -> Z) :=
  match error with
  | Some _ => handler_with_error_code handler return_address st
  | None => handler_without_error_code handler return_address st
  end.

(** The instructions between the pushes and the call. *)
Definition stub_setup (error : option Z) : list instr :=
  match error with
  | Some _ => [LoadRsp RSI (9 * 8); MovRsp RDI; AddImm RDI (10 * 8); SubImm RSP 8]
  | None => [MovRsp RDI; AddImm RDI (9 * 8)]
  end.

Lemma stub_before_split error : stub_before error = push_scratch_registers ++ stub_setup error.
Proof. now destruct error. Qed.

Lemma stub_setup_spec error s sp :
  regs s RSP = sp -> 8 <= sp -> sp + 80 < 2 ^ 64 ->
  let s' := exec_all (stub_setup error) s in
  let pad := 8 * Z.of_nat (length (error_words error)) in
  regs s' RSP = sp - pad /\ regs s' RDI = sp + 72 + pad /\ stk s' = stk s /\
  (forall e, error = Some e -> regs s' RSI = load64 (stk s) (sp + 72)).
Proof.
  intros Hs Hlo Hhi s' pad. subst s' pad.
  destruct error as [e|]; cbn [stub_setup error_words length exec_all foldl exec regs stk].
  - simpl_regs. rewrite Hs.
    unfold ucast. rewrite !Z.mod_small by lia. split; [lia|]. split; [lia|]. split; [reflexivity|]. auto.
  - simpl_regs. rewrite Hs.
    unfold ucast. rewrite !Z.mod_small by lia. split; [lia|]. split; [lia|]. split; [reflexivity | discriminate].
Qed.

(** The state at the call: arguments and stack. *)
Lemma stub_at_call old error st :
  interrupted old error st ->
  let s := exec_all (stub_before error) (interrupt_entry old error st) in
  let pad := 8 * Z.of_nat (length (error_words error)) in
  regs s RSP = entry_sp error st - 72 - pad /\ regs s RDI = entry_sp error st + pad /\
  (forall e, error = Some e -> regs s RSI = e) /\
  words (stk s) (entry_sp error st - 72) (rev (regs st <$> scratch) ++ error_words error ++ frame_words old).
Proof.
  intros Hin s pad. destruct (scratch_pushed old error st Hin) as (P & W).
  destruct Hin as [Hr Hroom _ _]. destruct (Hr RSP) as [_ Htop].
  pose proof (Z.mod_pos_bound (regs st RSP) 16 ltac:(lia)) as Hm.
  assert (Hlen : 0 <= Z.of_nat (length (error_words error)) <= 1) by (destruct error; cbn; lia).
  assert (Hspb : 80 <= entry_sp error st < 2 ^ 64 - 8) by (unfold entry_sp, stack_top; lia).
  subst s. rewrite stub_before_split, exec_all_app.
  revert P W. generalize (exec_all push_scratch_registers (interrupt_entry old error st)). intros s1 P W.
  destruct (stub_setup_spec error s1 _ P) as (Q1 & Q2 & Q3 & Q4); [lia..|].
  rewrite Q3. split; [exact Q1|]. split; [rewrite Q2; lia|]. split; [|exact W].
  intros e ->. rewrite (Q4 e eq_refl). rewrite <- (W 9%nat e eq_refl). f_equal.
Qed.

(** The state [iretq] runs in: the frame is at the stack pointer, and each
    scratch register has the word its pop found. *)
Lemma stub_at_iretq old error st :
  interrupted old error st ->
  exists s, run_stub error (interrupt_entry old error st) = iretq s /\
    words (stk s) (regs s RSP) (frame_words old) /\
    (forall i r v, scratch !! i = Some r -> rev (regs st <$> scratch) !! i = Some v -> regs s r = v).
Proof.
  intros Hin. destruct (stub_at_call old error st Hin) as (P & _ & _ & W). destruct scratch_ok as [Hni Hnd].
  set (pad := 8 * Z.of_nat (length (error_words error))) in *.
  destruct Hin as [Hr Hroom _ _]. destruct (Hr RSP) as [_ Htop].
  pose proof (Z.mod_pos_bound (regs st RSP) 16 ltac:(lia)) as Hm.
  assert (Hpad : 0 <= pad <= 8) by (unfold pad; destruct error; cbn; lia).
  assert (Hb : 100 <= entry_sp error st < 2 ^ 64 - 40) by (unfold entry_sp, stack_top; unfold pad in Hpad; lia).
  set (s0 := exec_all (stub_before error) _) in *. set (sp := entry_sp error st) in *.
  destruct (call_spec s0 (sp - 72 - pad)) as (C1 & C2); [assumption | lia|].
  set (s1 := call handler return_address s0) in *.
  apply (words_keep _ (stk s1)) in W; [|intros x Hx; apply C2; lia].
  apply words_app in W as [Wr W]. rewrite length_rev, length_fmap in W. change (8 * Z.of_nat (length scratch)) with 72 in W.
  replace (sp - 72 + 72) with sp in W by lia. apply words_app in W as [We Wf]. fold pad in Wf.
  set (s2 := match error with Some _ => exec (AddImm RSP 8) s1 | None => s1 end).
  assert (E2 : regs s2 RSP = sp - 72 /\ stk s2 = stk s1).
  { unfold s2, pad in *. destruct error; cbn [exec regs stk error_words length] in *;
      rewrite ?set_reg_eq, C1; unfold ucast; rewrite ?Z.mod_small by lia; split; reflexivity || lia. }
  destruct E2 as [E2 M2]. rewrite <- M2 in Wr, Wf.
  destruct (pop_all_spec scratch s2 (sp - 72) (rev (regs st <$> scratch))) as (Q1 & Q2 & Q3 & _);
    [assumption.. | lia | cbn [length scratch]; lia | now rewrite length_rev, length_fmap | exact Wr |].
  change (8 * Z.of_nat (length scratch)) with 72 in Q1. replace (sp - 72 + 72) with sp in Q1 by lia.
  set (s3 := exec_all (Pop <$> scratch) s2) in *.
  exists (match error with Some _ => exec (AddImm RSP 8) s3 | None => s3 end). rewrite <- Q2 in Wf. split; [|split].
  - now destruct error.
  - unfold pad in Wf. destruct error; cbn [exec regs stk error_words length] in *; rewrite ?set_reg_eq, Q1.
    + unfold ucast. rewrite Z.mod_small by lia. exact Wf.
    + rewrite Z.add_0_r in Wf. exact Wf.
  - intros i r v Hi Hv. assert (r <> RSP) by (intros ->; apply Hni; eapply list_elem_of_lookup_2; eauto).
    destruct error; cbn [exec regs]; rewrite ?set_reg_ne by assumption; now apply (Q3 i).
Qed.

(** C25: an interrupt stub calls its handler with a pointer to the five words the
    processor saved, with the error code where there is one, and with the stack
    aligned to 16 bytes; when the handler returns, execution resumes with the
    saved instruction pointer, flags, segments and stack. *)
Theorem interrupt_stub_correct old error st :
  interrupted old error st ->
  let s := exec_all (stub_before error) (interrupt_entry old error st) in
  words (stk s) (regs s RDI) (frame_words old) /\ (forall e, error = Some e -> regs s RSI = e) /\
  regs s RSP mod 16 = 0 /\
  fst (run_stub error (interrupt_entry old error st)) = old.
Proof.
  intros Hin s. subst s. destruct (stub_at_call old error st Hin) as (P & D & S & W).
  set (pad := 8 * Z.of_nat (length (error_words error))) in *. split; [|split; [exact S | split]].
  - rewrite D. apply words_app in W as [_ W]. rewrite length_rev, length_fmap in W. apply words_app in W as [_ W].
    change (8 * Z.of_nat (length scratch)) with 72 in W. fold pad in W.
    now replace (entry_sp error st - 72 + 72 + pad) with (entry_sp error st + pad) in W by lia.
  - rewrite P. unfold entry_sp, stack_top, pad. destruct error; cbn [error_words length];
      Z.to_euclidean_division_equations; lia.
  - destruct (stub_at_iretq old error st Hin) as (s' & -> & Wf & _). unfold iretq. cbn [fst].
    pose proof (Wf 0%nat _ eq_refl) as E0. pose proof (Wf 1%nat _ eq_refl) as E1. pose proof (Wf 2%nat _ eq_refl) as E2.
    pose proof (Wf 3%nat _ eq_refl) as E3. pose proof (Wf 4%nat _ eq_refl) as E4.
    change (8 * Z.of_nat 1) with 8 in E1. change (8 * Z.of_nat 2) with 16 in E2.
    change (8 * Z.of_nat 3) with 24 in E3. change (8 * Z.of_nat 4) with 32 in E4.
    rewrite Z.add_0_r in E0. rewrite E0, E1, E2, E3, E4. now destruct old.
Qed.

(** C38: the stub does not give the interrupted code its registers back: they are
    popped in the order they were pushed in, so that each gets the value of its
    mirror image, [rax] that of [r11] and so on; only [rdi] in the middle is
    restored. *)
Theorem scratch_registers_reversed old error st :
  interrupted old error st ->
  forall i r, scratch !! i = Some r ->
    exists r', scratch !! (8 - i)%nat = Some r' /\
      snd (run_stub error (interrupt_entry old error st)) r = regs st r'.
Proof.
  intros Hin i r Hi. destruct (stub_at_iretq old error st Hin) as (s & -> & _ & Hr).
  assert (Hlt : (i < 9)%nat) by (apply lookup_lt_Some in Hi; exact Hi).
  destruct (lookup_lt_is_Some_2 scratch (8 - i)) as [r' Hr']; [cbn; lia|]. exists r'. split; [exact Hr'|].
  assert (r <> RSP) by (intros ->; apply (proj1 scratch_ok); eapply list_elem_of_lookup_2; eauto).
  unfold iretq. cbn [snd]. rewrite set_reg_ne by assumption. apply (Hr i r _ Hi).
  rewrite rev_alt. change (rev_append (regs st <$> scratch) []) with (reverse (regs st <$> scratch)).
  rewrite reverse_lookup by (rewrite length_fmap; exact Hlt). rewrite length_fmap, list_lookup_fmap.
  replace (length scratch - S i)%nat with (8 - i)%nat by (cbn; lia). now rewrite Hr'.
Qed.
End StubTheorems.

(** *** Witnesses *)

(** A handler that clobbers every scratch register, and interrupted code with
    different values in all of them. *)
Definition clobbering_handler (st : machine) : machine :=
  mkMachine (fun r => if decide (r = RSP) then regs st RSP else 0) (stk st).

Definition busy_regs (r : reg) : Z :=
  match r with RAX => 1 | RCX => 2 | RDX => 3 | RSI => 4 | RDI => 5 | R8 => 6 | R9 => 7 | R10 => 8 | R11 => 9 | RSP => 0x8008 end.
Definition busy_machine : machine := mkMachine busy_regs (fun _ => 0).
Definition busy_frame : resumed := mkResumed 0x1234 0x8 0x202 0x8008 0x10.

Lemma busy_interrupted error : Forall (in_width 64) (error_words error) -> interrupted busy_frame error busy_machine.
Proof.
  intros He. split; [intros []; unfold in_width; cbn; lia | cbn; lia | | exact He].
  unfold frame_words, in_width. cbn. repeat constructor; lia.
Qed.

Lemma interrupt_stub_correct_witness :
  let s := exec_all (stub_before (Some 2)) (interrupt_entry busy_frame (Some 2) busy_machine) in
  words (stk s) (regs s RDI) [0x1234; 0x8; 0x202; 0x8008; 0x10] /\ regs s RSI = 2 /\
  fst (run_stub clobbering_handler 0 (Some 2) (interrupt_entry busy_frame (Some 2) busy_machine)) = busy_frame.
Proof.
  destruct (interrupt_stub_correct clobbering_handler 0 (fun _ => eq_refl) (fun _ _ _ => eq_refl)
    busy_frame (Some 2) busy_machine) as (H1 & H2 & _ & H4).
  - apply busy_interrupted. repeat constructor; unfold in_width; lia.
  - split; [exact H1|]. split; [exact (H2 2 eq_refl) | exact H4].
Defined.

Lemma scratch_registers_reversed_witness :
  exists r', scratch !! 8%nat = Some r' /\
    snd (run_stub clobbering_handler 0 None (interrupt_entry busy_frame None busy_machine)) RAX = busy_regs r'.
Proof.
  apply (scratch_registers_reversed clobbering_handler 0 (fun _ => eq_refl) (fun _ _ _ => eq_refl)
    busy_frame None busy_machine (busy_interrupted None (Forall_nil_2 _)) 0%nat RAX eq_refl).
Defined.
