(* ===== verification/SharedHeap.v ===== *)
(** The heap shared by several contexts: [ALLOCATOR] of [kernel/src/allocator.rs],
    a [Locked<BuddyAllocator>], as the global allocator.

    [GlobalAlloc::alloc] and [dealloc] take the spin lock, work on the allocator
    and drop the guard; between its calls a context writes into the allocations it
    owns, and hands some to other contexts.  The steps of the contexts interleave
    freely.  The work under the lock is one step: it only touches free chunks, the
    block that is freed and the list heads ([heap_alloc], [heap_dealloc]), which no
    other context touches meanwhile, as the invariant says.  A context that panics
    under the lock stays in the panic handler and keeps the guard. *)
From Stdlib Require Import ZArith Lia.
From stdpp Require Import base tactics numbers list sets relations.
From S2P Require Import Prelude Buddy BuddyHeap KernelHeap SpinLock.
#[local] Open Scope Z_scope.

(** ** The system *)

Inductive request := ReqAlloc (layout : Layout) | ReqDealloc (ptr : Z) (layout : Layout).

(** The two functions between [lock] and the drop of the guard; what a context owns
    afterwards in addition. *)
Definition request_body (fuel : nat) (r : request) (b : BuddyAllocator) : outcome (option (Z * Layout) * BuddyAllocator) :=
  match r with
  | ReqAlloc layout => '(p, b) ← global_alloc b layout; Ret (Some (p, layout), b)
  | ReqDealloc ptr layout => b ← global_dealloc fuel b ptr layout; Ret (None, b)
  end.

(** Where a context is: outside, in the loop of [lock], under the lock before and
    after its work, or in the panic handler under the lock. *)
Inductive phase := Away | Asking (r : request) | Inside (r : request) | Leaving (o : option (Z * Layout)) | Panicked.

Record client := mkClient { cl_phase : phase; cl_owned : list (Z * Layout) }.

Record shared := mkShared { sh_lock : @Mutex BuddyAllocator; sh_clients : list client }.

Definition sh_mem (st : shared) : mem := bmem (inner (sh_lock st)).

(** What is on its way between a context and the allocator. *)
Definition pending (p : phase) : list (Z * Layout) :=
  match p with
  | Asking (ReqDealloc ptr layout) | Inside (ReqDealloc ptr layout) => [(ptr, layout)]
  | Leaving (Some a) => [a]
  | _ => []
  end.

Definition client_allocs (c : client) : list (Z * Layout) := pending (cl_phase c) ++ cl_owned c.
Definition allocs_of (cs : list client) : list (Z * Layout) := concat (client_allocs <$> cs).
Definition allocs (st : shared) : list (Z * Layout) := allocs_of (sh_clients st).

Section Steps.
Context (fuel : nat).

(** The step of context [i]. *)
Inductive shared_step (i : nat) : shared -> shared -> Prop :=
  | sh_call_alloc m cs owned layout :
      cs !! i = Some (mkClient Away owned) -> layout_ok layout ->
      shared_step i (mkShared m cs) (mkShared m (<[i := mkClient (Asking (ReqAlloc layout)) owned]> cs))
  | sh_call_dealloc m cs l1 l2 p layout :
      cs !! i = Some (mkClient Away (l1 ++ (p, layout) :: l2)) ->
      shared_step i (mkShared m cs) (mkShared m (<[i := mkClient (Asking (ReqDealloc p layout)) (l1 ++ l2)]> cs))
  | sh_iteration m cs r owned b m' :
      cs !! i = Some (mkClient (Asking r) owned) -> lock_iteration m = (b, m') ->
      shared_step i (mkShared m cs) (mkShared m' (if b then <[i := mkClient (Inside r) owned]> cs else cs))
  | sh_body m cs r owned o b' :
      cs !! i = Some (mkClient (Inside r) owned) -> request_body fuel r (inner m) = Ret (o, b') ->
      shared_step i (mkShared m cs) (mkShared (guard_write (fun _ => b') m) (<[i := mkClient (Leaving o) owned]> cs))
  | sh_panic m cs r owned e :
      cs !! i = Some (mkClient (Inside r) owned) -> request_body fuel r (inner m) = Panic e ->
      shared_step i (mkShared m cs) (mkShared m (<[i := mkClient Panicked owned]> cs))
  | sh_drop m cs o owned :
      cs !! i = Some (mkClient (Leaving o) owned) ->
      shared_step i (mkShared m cs) (mkShared (guard_drop m) (<[i := mkClient Away (option_list o ++ owned)]> cs))
  | sh_write m cs owned a m' :
      cs !! i = Some (mkClient Away owned) -> a ∈ owned -> writes_only (in_alloc a) (bmem (inner m)) m' ->
      shared_step i (mkShared m cs) (mkShared (mkMutex (mkBuddy m' (buddies (inner m))) (lock_status m)) cs)
  | sh_give m cs l1 l2 a j p owned :
      cs !! i = Some (mkClient Away (l1 ++ a :: l2)) -> j <> i -> cs !! j = Some (mkClient p owned) ->
      shared_step i (mkShared m cs) (mkShared m (<[j := mkClient p (a :: owned)]> (<[i := mkClient Away (l1 ++ l2)]> cs))).

Definition shared_any (st st' : shared) : Prop := exists i, shared_step i st st'.
End Steps.

(** After the heap was initialised, with [n] contexts. *)
Definition shared_start (b : BuddyAllocator) (n : nat) : shared := mkShared (Mutex_new b) (replicate n (mkClient Away [])).

(** ** The lock *)

Definition erase_phase (p : phase) : context :=
  match p with Away => Outside | Asking _ => Spinning | _ => Holding end.

Definition erase_clients (cs : list client) : list context := (fun c => erase_phase (cl_phase c)) <$> cs.

(** The system as the lock sees it. *)
Definition erase (st : shared) : @lock_state unit :=
  mkLockState (mkMutex tt (lock_status (sh_lock st))) (erase_clients (sh_clients st)).

Lemma erase_lookup cs i p owned :
  cs !! i = Some (mkClient p owned) -> erase_clients cs !! i = Some (erase_phase p).
Proof. intros H. unfold erase_clients. now rewrite list_lookup_fmap, H. Qed.

Lemma erase_insert cs i c : erase_clients (<[i := c]> cs) =
  <[i := erase_phase (cl_phase c)]> (erase_clients cs).
Proof. apply (list_fmap_insert (fun c => erase_phase (cl_phase c))). Qed.

Lemma erase_same cs i p owned p' owned' :
  cs !! i = Some (mkClient p owned) -> erase_phase p' = erase_phase p ->
  erase_clients (<[i := mkClient p' owned']> cs) = erase_clients cs.
Proof. intros Hi E. rewrite erase_insert. cbn [cl_phase]. rewrite E. apply list_insert_id. eapply erase_lookup; eauto. Qed.

(** Every step is one of the lock's system, or none of its concern. *)
Lemma shared_step_erase fuel i st st' : shared_step fuel i st st' -> rtc any_step (erase st) (erase st').
Proof.
  destruct 1 as [m cs owned layout Hi _ | m cs l1 l2 p layout Hi | m cs r owned b m' Hi Eb | m cs r owned o b' Hi _
    | m cs r owned e Hi _ | m cs o owned Hi | m cs owned a m' Hi _ _ | m cs l1 l2 a j p owned Hi Hne Hj]; unfold erase; cbn [sh_lock sh_clients].
  - apply rtc_once. exists i. rewrite erase_insert. apply step_call. exact (erase_lookup _ _ _ _ Hi).
  - apply rtc_once. exists i. rewrite erase_insert. apply step_call. exact (erase_lookup _ _ _ _ Hi).
  - apply rtc_once. exists i. rewrite lock_iteration_spec in Eb.
    pose proof (erase_lookup _ _ _ _ Hi) as Hs. cbn [erase_phase] in Hs.
    destruct (lock_status m) eqn:El; injection Eb as <- <-; cbn [lock_status]; rewrite ?El, ?erase_insert.
    + exact (step_iteration i (mkMutex tt true) _ false _ Hs eq_refl).
    + exact (step_iteration i (mkMutex tt false) _ true _ Hs eq_refl).
  - rewrite (erase_same _ _ _ _ _ _ Hi) by reflexivity. apply rtc_refl.
  - rewrite (erase_same _ _ _ _ _ _ Hi) by reflexivity. apply rtc_refl.
  - apply rtc_once. exists i. rewrite erase_insert. apply (step_drop i (mkMutex tt (lock_status m))). exact (erase_lookup _ _ _ _ Hi).
  - apply rtc_refl.
  - rewrite (erase_same _ j p owned p); [|rewrite list_lookup_insert_ne by congruence; exact Hj | reflexivity].
    rewrite (erase_same _ _ _ _ _ _ Hi) by reflexivity. apply rtc_refl.
Qed.

Lemma erase_start b n : erase (shared_start b n) = fresh tt n.
Proof. unfold erase, erase_clients, shared_start, fresh. cbn [sh_lock sh_clients Mutex_new lock_status]. now rewrite fmap_replicate. Qed.

Lemma shared_lock_inv fuel b n st : rtc (shared_any fuel) (shared_start b n) st -> lock_inv (erase st).
Proof.
  intros Hr. apply (reachable_inv tt n). rewrite <- (erase_start b).
  induction Hr as [|x y z [i Hs] _ IH]; [apply rtc_refl|]. etrans; [eapply shared_step_erase; eauto | exact IH].
Qed.

(** ** The heap *)

(** The allocations of one context against those of all others. *)
Lemma allocs_insert cs i c :
  cs !! i = Some c -> exists rest, allocs_of cs ≡ₚ client_allocs c ++ rest /\
    forall c', allocs_of (<[i := c']> cs) ≡ₚ client_allocs c' ++ rest.
Proof.
  intros Hi. exists (allocs_of (take i cs) ++ allocs_of (drop (S i) cs)). unfold allocs_of.
  assert (Hsplit : forall l1 (x : client) l2, concat (client_allocs <$> l1 ++ x :: l2) ≡ₚ
      client_allocs x ++ concat (client_allocs <$> l1) ++ concat (client_allocs <$> l2)).
  { intros l1 x l2. rewrite fmap_app, concat_app, fmap_cons. cbn [concat]. rewrite !app_assoc. now rewrite (Permutation_app_comm (concat _)). }
  split.
  - rewrite <- (take_drop_middle cs i c Hi) at 1. apply Hsplit.
  - intros c'. rewrite insert_take_drop by (eapply lookup_lt_Some; eauto). apply Hsplit.
Qed.

(** A change of one context that keeps its allocations. *)
Lemma allocs_same cs i c c' :
  cs !! i = Some c -> client_allocs c' ≡ₚ client_allocs c -> allocs_of (<[i := c']> cs) ≡ₚ allocs_of cs.
Proof. intros Hi Hc. destruct (allocs_insert cs i c Hi) as (rest & -> & H). now rewrite H, Hc. Qed.

Lemma allocs_elem cs i c a : cs !! i = Some c -> a ∈ client_allocs c -> a ∈ allocs_of cs.
Proof. intros Hi Ha. destruct (allocs_insert cs i c Hi) as (rest & -> & _). apply elem_of_app. now left. Qed.

Section Heap.
Context (start size : Z) (fuel : nat) (Hh : heap_ok start size fuel).
Implicit Types (st : shared) (b : BuddyAllocator).

(** An abstract heap with the same memory and allocations. *)
Definition heap_of (st : shared) (live : list (Z * Layout)) : heap_state := mkHeap (inner (sh_lock st)) live.

(** What a context asks for is a layout. *)
Definition request_ok (c : client) : Prop :=
  match cl_phase c with Asking (ReqAlloc layout) | Inside (ReqAlloc layout) => layout_ok layout | _ => True end.
Definition requests_ok (cs : list client) : Prop := Forall request_ok cs.

Lemma requests_ok_insert cs i c : requests_ok cs -> request_ok c -> requests_ok (<[i := c]> cs).
Proof. intros. now apply Forall_insert. Qed.

Lemma shared_step_requests i st st' : shared_step fuel i st st' -> requests_ok (sh_clients st) -> requests_ok (sh_clients st').
Proof.
  destruct 1 as [m cs owned layout Hi Hlay | m cs l1 l2 p layout Hi | m cs r owned b m' Hi Eb | m cs r owned o b' Hi Er
    | m cs r owned e Hi _ | m cs o owned Hi | m cs owned a m' Hi Ha Hw | m cs l1 l2 a j p owned Hi Hne Hj];
    cbn [sh_clients]; intros H; try assumption; try (apply requests_ok_insert; [exact H | exact I || exact Hlay]).
  - destruct b; [|exact H]. apply requests_ok_insert; [exact H|]. exact (Forall_lookup_1 _ _ _ _ H Hi).
  - apply requests_ok_insert; [now apply requests_ok_insert|]. exact (Forall_lookup_1 _ _ _ _ H Hj).
Qed.

(** A request under the lock: the move of the sequential heap, or an allocation
    that was too large for what is free. *)
Lemma request_body_heap r b live owned o b' :
  heap_inv start size (mkHeap b live) -> request_ok (mkClient (Inside r) owned) -> request_body fuel r b = Ret (o, b') ->
  (forall p layout, r = ReqDealloc p layout -> (p, layout) ∈ live) ->
  exists live', heap_step fuel (mkHeap b live) (mkHeap b' live') /\ pending (Inside r) ++ live' ≡ₚ pending (Leaving o) ++ live.
Proof.
  intros [fl Hfl] Hreq E Hin. destruct r as [layout|p layout]; cbn [request_body pending app request_ok cl_phase] in *.
  - destruct (global_alloc b layout) as [[p b1]|] eqn:Ea; [|discriminate]. injection E as <- <-. exists ((p, layout) :: live).
    split; [|reflexivity]. apply step_alloc; [exact Hreq | | exact Ea].
    apply Nat.nle_gt. intros Hle. rewrite (oversized_alloc b fl layout (hi_rep _ _ _ _ Hfl) (hi_wf _ _ _ _ Hfl) Hreq Hle) in Ea. discriminate.
  - destruct (global_dealloc fuel b p layout) as [b1|] eqn:Ed; [|discriminate]. injection E as <- <-.
    destruct (list_elem_of_split _ _ (Hin p layout eq_refl)) as (l1 & l2 & ->). exists (l1 ++ l2).
    split; [now apply step_dealloc | apply Permutation_middle].
Qed.

Lemma request_panic b live r e :
  heap_inv start size (mkHeap b live) -> (forall p layout, r = ReqDealloc p layout -> (p, layout) ∈ live) ->
  request_body fuel r b = Panic e -> exists layout, r = ReqAlloc layout.
Proof.
  intros [fl Hfl] Hin E. destruct r as [layout|p layout]; [eauto|]. exfalso. cbn [request_body] in E.
  destruct (list_elem_of_split _ _ (Hin p layout eq_refl)) as (l1 & l2 & ->).
  destruct (heap_dealloc start size fuel fl b l1 l2 p layout Hh Hfl) as (b' & _ & Ed & _). rewrite Ed in E. discriminate.
Qed.

(** Every step of the contexts is a move of the clients of one sequential heap, or
    none: the allocations only change hands. *)
Lemma shared_step_heap i st st' live :
  shared_step fuel i st st' -> requests_ok (sh_clients st) -> heap_inv start size (heap_of st live) -> live ≡ₚ allocs st ->
  exists live', live' ≡ₚ allocs st' /\ rtc (heap_step fuel) (heap_of st live) (heap_of st' live').
Proof.
  unfold heap_of, allocs.
  destruct 1 as [m cs owned layout Hi _ | m cs l1 l2 p layout Hi | m cs r owned b m' Hi Eb | m cs r owned o b' Hi Er
    | m cs r owned e Hi Er | m cs o owned Hi | m cs owned a m' Hi Ha Hw | m cs l1 l2 a j p owned Hi Hne Hj];
    cbn [sh_lock sh_clients]; intros Hreq Hinv Hlive.
  - exists live. split; [|apply rtc_refl]. rewrite Hlive. symmetry. now apply (allocs_same cs i _ _ Hi).
  - exists live. split; [|apply rtc_refl]. rewrite Hlive. symmetry. apply (allocs_same cs i _ _ Hi). exact (Permutation_middle l1 l2 (p, layout)).
  - exists live. rewrite lock_iteration_spec in Eb. destruct (lock_status m); injection Eb as <- <-; cbn [inner].
    + split; [exact Hlive | apply rtc_refl].
    + split; [|apply rtc_refl]. rewrite Hlive. symmetry. now apply (allocs_same cs i _ _ Hi).
  - destruct (allocs_insert cs i _ Hi) as (rest & H1 & H2).
    destruct (request_body_heap r (inner m) live owned o b' Hinv) as (live' & Hstep & Hperm);
      [exact (Forall_lookup_1 _ _ _ _ Hreq Hi) | exact Er | intros p layout ->; rewrite Hlive, H1; left|].
    exists live'. split; [|now apply rtc_once]. rewrite H2. apply (Permutation_app_inv_l (pending (Inside r))).
    rewrite Hperm, Hlive, H1. unfold client_allocs. cbn [cl_phase cl_owned]. rewrite !app_assoc.
    do 2 apply Permutation_app_tail. apply Permutation_app_comm.
  - exists live. split; [|apply rtc_refl]. rewrite Hlive. symmetry. apply (allocs_same cs i _ _ Hi).
    destruct (request_panic (inner m) live r e Hinv) as [layout ->]; [|exact Er | reflexivity].
    intros p layout ->. rewrite Hlive. apply (allocs_elem cs i _ _ Hi). left.
  - exists live. split; [|apply rtc_refl]. rewrite Hlive. symmetry. apply (allocs_same cs i _ _ Hi). now destruct o.
  - exists live. split; [exact Hlive|]. destruct a as [p layout]. apply rtc_once. eapply KernelHeap.step_write; [|exact Hw].
    rewrite Hlive. exact (allocs_elem cs i _ _ Hi Ha).
  - exists live. split; [|apply rtc_refl]. rewrite Hlive. symmetry.
    destruct (allocs_insert cs i _ Hi) as (rest & -> & H2).
    destruct (allocs_insert (<[i := mkClient Away (l1 ++ l2)]> cs) j (mkClient p owned)) as (rest' & H3 & ->);
      [now rewrite list_lookup_insert_ne by congruence|].
    pose proof (H2 (mkClient Away (l1 ++ l2))) as H4. rewrite H3 in H4. unfold client_allocs in *. cbn [cl_phase cl_owned pending app] in *.
    rewrite <- !Permutation_middle. cbn [app]. apply Permutation_skip. exact H4.
Qed.

(** ** Safety *)

(** The contexts have done what a sequential heap could have done. *)
Lemma shared_run b n st :
  heap_inv start size (mkHeap b []) -> rtc (shared_any fuel) (shared_start b n) st ->
  requests_ok (sh_clients st) /\
  exists live, live ≡ₚ allocs st /\ rtc (heap_step fuel) (mkHeap b []) (heap_of st live).
Proof.
  intros Hb. revert st. apply rtc_ind_r.
  - split; [apply Forall_replicate; exact I|]. exists []. split; [|apply rtc_refl].
    unfold allocs, allocs_of, shared_start. cbn [sh_clients]. rewrite fmap_replicate. clear. induction n as [|n IH]; [reflexivity | exact IH].
  - intros st1 st2 _ [i Hs] (Hreq & live & Hlive & Hrun). split; [eapply shared_step_requests; eauto|].
    pose proof (heap_reachable_inv _ _ _ _ _ Hh Hb Hrun) as Hinv.
    destruct (shared_step_heap i st1 st2 live Hs Hreq Hinv Hlive) as (live' & Hp & Hr).
    exists live'. split; [exact Hp | etrans; [exact Hrun | exact Hr]].
Qed.

(** The heap is in order with the allocations of all contexts. *)
Definition shared_ok (st : shared) : Prop := requests_ok (sh_clients st) /\
  exists live, live ≡ₚ allocs st /\ heap_inv start size (heap_of st live).

Lemma shared_run_ok b n st :
  heap_inv start size (mkHeap b []) -> rtc (shared_any fuel) (shared_start b n) st -> shared_ok st.
Proof.
  intros Hb Hr. destruct (shared_run b n st Hb Hr) as (H1 & live & H2 & H3). split; [exact H1|].
  exists live. split; [exact H2|]. eapply heap_reachable_inv; eauto.
Qed.

(** Allocations of two contexts. *)
Lemma two_allocs cs i j c c' a a' :
  i <> j -> cs !! i = Some c -> cs !! j = Some c' -> a ∈ client_allocs c -> a' ∈ client_allocs c' ->
  exists rest, allocs_of cs ≡ₚ a :: a' :: rest.
Proof.
  intros Hne Hi Hj Ha Ha'. destruct (allocs_insert cs i c Hi) as (rest & H1 & H2).
  assert (Hr : a' ∈ rest).
  { specialize (H2 (mkClient Away [])). cbn in H2. rewrite <- H2. apply (allocs_elem _ j c'); [|exact Ha'].
    now rewrite list_lookup_insert_ne. }
  apply list_elem_of_split in Ha as (l1 & l2 & El). apply list_elem_of_split in Hr as (r1 & r2 & ->).
  exists ((l1 ++ l2) ++ r1 ++ r2). rewrite H1, El, <- (Permutation_middle l1), <- (Permutation_middle r1). cbn [app].
  apply Permutation_skip. symmetry. apply Permutation_middle.
Qed.

Lemma ForallOrdPairs_Permutation {A} (R : A -> A -> Prop) (l l' : list A) :
  (forall x y, R x y -> R y x) -> l ≡ₚ l' -> ForallOrdPairs R l -> ForallOrdPairs R l'.
Proof.
  intros Hsym. induction 1 as [|x l l' Hp IH|x y l|l l' l'' _ IH1 _ IH2]; intros H; try assumption; [| |auto].
  - inversion_clear H as [|? ? Hx Hl]. constructor; [now rewrite <- Hp | auto].
  - inversion_clear H as [|? ? Hy Hl]. inversion_clear Hl as [|? ? Hx Hl']. apply Forall_cons in Hy as [Hyx Hyl].
    constructor; [constructor; auto | now constructor].
Qed.

Lemma ok_disjoint st i j c c' a a' :
  shared_ok st -> i <> j -> sh_clients st !! i = Some c -> sh_clients st !! j = Some c' ->
  a ∈ client_allocs c -> a' ∈ client_allocs c' -> allocs_disjoint a a'.
Proof.
  intros (_ & live & Hlive & fl & Hfl) Hne Hi Hj Ha Ha'. destruct (two_allocs _ _ _ _ _ _ _ Hne Hi Hj Ha Ha') as [rest Hp].
  pose proof (ForallOrdPairs_Permutation _ _ _ allocs_disjoint_sym (transitivity Hlive Hp) (hi_disjoint _ _ _ _ Hfl)) as H.
  inversion_clear H as [|? ? Hx _]. now apply Forall_cons in Hx as [Hx _].
Qed.

(** The work under the lock leaves the allocations of other contexts alone. *)
Lemma request_body_frame r b live o b' a x :
  heap_inv start size (mkHeap b live) -> request_ok (mkClient (Inside r) []) -> request_body fuel r b = Ret (o, b') ->
  (forall p layout, r = ReqDealloc p layout -> (p, layout) ∈ live /\ allocs_disjoint a (p, layout)) ->
  a ∈ live -> in_alloc a x -> bmem b' x = bmem b x.
Proof.
  intros [fl Hfl] Hreq E Hin Ha Hx. pose proof (apart_not_free _ _ _ x (lo_apart _ _ (hi_live _ _ _ _ Hfl a Ha)) Hx) as Hnf.
  destruct r as [layout|p layout]; cbn [request_body request_ok cl_phase] in *.
  - destruct (Nat.le_gt_cases (Z.to_nat MAX_ORDER) (layout_class layout)) as [Hle|Hlt].
    { rewrite (oversized_alloc b fl layout (hi_rep _ _ _ _ Hfl) (hi_wf _ _ _ _ Hfl) Hreq Hle) in E. discriminate. }
    destruct (heap_alloc start size fl b live layout Hfl Hreq Hlt) as [(p & b1 & fl' & E1 & _ & W & _)|[E1 _]];
      rewrite E1 in E; [|discriminate]. injection E as <- <-. now apply W.
  - destruct (Hin p layout eq_refl) as [Hp Hd]. destruct (list_elem_of_split _ _ Hp) as (l1 & l2 & ->).
    destruct (heap_dealloc start size fuel fl b l1 l2 p layout Hh Hfl) as (b1 & fl' & E1 & _ & W & _).
    rewrite E1 in E. injection E as <- <-. apply W. intros [Hf|Hf]; [exact (Hnf Hf)|].
    exact (allocs_disjoint_spec _ _ x Hd Hx Hf).
Qed.

Lemma shared_step_frame i st st' j c a x :
  shared_ok st -> shared_step fuel i st st' -> i <> j -> sh_clients st !! j = Some c -> a ∈ client_allocs c -> in_alloc a x ->
  sh_mem st' x = sh_mem st x.
Proof.
  intros Hok Hs Hne Hj Ha Hx. pose proof Hok as (Hreq & live & Hlive & Hinv). pose proof (allocs_elem _ _ _ _ Hj Ha) as Hin. fold (allocs st) in Hin. rewrite <- Hlive in Hin.
  destruct Hs as [m cs owned layout Hi _ | m cs l1 l2 p layout Hi | m cs r owned b m' Hi Eb | m cs r owned o b' Hi Er
    | m cs r owned e Hi Er | m cs o owned Hi | m cs owned a0 m' Hi Ha0 Hw | m cs l1 l2 a0 k p owned Hi _ Hk];
    unfold sh_mem; cbn [sh_lock inner guard_write guard_drop bmem sh_clients] in *; try reflexivity.
  - rewrite lock_iteration_spec in Eb. destruct (lock_status m); injection Eb as <- <-; reflexivity.
  - apply (request_body_frame r (inner m) live o b' a x Hinv); try assumption; [exact (Forall_lookup_1 _ _ _ _ Hreq Hi)|].
    intros p layout ->. split; [rewrite Hlive; apply (allocs_elem cs i _ _ Hi); left|].
    eapply (ok_disjoint _ j i c); [exact Hok | congruence | exact Hj | exact Hi | exact Ha | left].
  - apply Hw. intros Hx0.
    refine (allocs_disjoint_spec a a0 x _ Hx Hx0).
    eapply (ok_disjoint _ j i c); [exact Hok | congruence | exact Hj | exact Hi | exact Ha | exact Ha0].
Qed.

(** A context that has the lock. *)
Definition under_lock (c : client) : bool :=
  match cl_phase c with Inside _ | Leaving _ | Panicked => true | _ => false end.

Lemma under_lock_holding cs i c : cs !! i = Some c -> under_lock c = true -> erase_clients cs !! i = Some Holding.
Proof. destruct c as [p owned]. intros Hi Hu. rewrite (erase_lookup cs i p owned Hi). now destruct p. Qed.

(** C13: the shared heap behaves like a sequential one: whatever the contexts do and
    however their steps interleave, there is a sequence of moves of the clients of
    one heap that ends with the same allocator and memory and the same live
    allocations. *)
Theorem shared_heap_refines m b n st :
  buddy_init fuel (Buddy_new m) start size = Ret b -> rtc (shared_any fuel) (shared_start b n) st ->
  exists live, live ≡ₚ allocs st /\ rtc (heap_step fuel) (mkHeap b []) (mkHeap (inner (sh_lock st)) live).
Proof.
  intros E Hr. destruct (heap_init start size fuel m Hh) as (b' & E' & Hi & _). rewrite E in E'. injection E' as <-.
  exact (proj2 (shared_run b n st Hi Hr)).
Qed.

(** C12: contexts that share the heap do not get into each other's way: in every
    reachable state the allocations of a context are aligned and inside the heap,
    those of two contexts do not overlap, at most one context is under the lock,
    and no step of one context changes a byte of an allocation of another. *)
Theorem shared_heap_safe m b n st :
  buddy_init fuel (Buddy_new m) start size = Ret b -> rtc (shared_any fuel) (shared_start b n) st ->
  (forall i c a, sh_clients st !! i = Some c -> a ∈ client_allocs c ->
     fst a mod layout_align (snd a) = 0 /\ start <= fst a /\ fst a + layout_size (snd a) <= start + size) /\
  (forall i j c c' a a', i <> j -> sh_clients st !! i = Some c -> sh_clients st !! j = Some c' ->
     a ∈ client_allocs c -> a' ∈ client_allocs c' -> ranges_disjoint (fst a) (layout_size (snd a)) (fst a') (layout_size (snd a'))) /\
  (forall i j c c', sh_clients st !! i = Some c -> sh_clients st !! j = Some c' ->
     under_lock c = true -> under_lock c' = true -> i = j) /\
  (forall i j c a x st', shared_step fuel i st st' -> i <> j -> sh_clients st !! j = Some c ->
     a ∈ client_allocs c -> in_alloc a x -> sh_mem st' x = sh_mem st x).
Proof.
  intros E Hr. destruct (heap_init start size fuel m Hh) as (b' & E' & Hi & _). rewrite E in E'. injection E' as <-.
  pose proof (shared_run_ok b n st Hi Hr) as Hok. pose proof Hok as (_ & live & Hlive & Hinv).
  assert (Hbounds : forall i c a, sh_clients st !! i = Some c -> a ∈ client_allocs c ->
      fst a mod layout_align (snd a) = 0 /\ start <= fst a /\ fst a + bsize (layout_class (snd a)) <= start + size /\
      layout_size (snd a) <= bsize (layout_class (snd a))).
  { intros i c a Hc Ha. apply (live_bounds start size (heap_of st live) a Hinv). cbn [heap_of hs_live]. rewrite Hlive.
    exact (allocs_elem _ _ _ _ Hc Ha). }
  split; [|split; [|split]].
  - intros i c a Hc Ha. destruct (Hbounds i c a Hc Ha) as (? & ? & ? & ?). repeat split; [assumption|lia..].
  - intros i j c c' a a' Hne Hc Hc' Ha Ha'. pose proof (ok_disjoint st i j c c' a a' Hok Hne Hc Hc' Ha Ha') as Hd.
    destruct (Hbounds i c a Hc Ha) as (_ & _ & _ & ?). destruct (Hbounds j c' a' Hc' Ha') as (_ & _ & _ & ?).
    unfold allocs_disjoint, blocks_disjoint, ranges_disjoint in *. lia.
  - intros i j c c' Hc Hc' Hu Hu'. apply (li_one _ (shared_lock_inv fuel b n st Hr)); eapply under_lock_holding; eauto.
  - intros i j c a x st' Hs Hne Hc Ha Hx. eapply shared_step_frame; eauto.
Qed.

(** An allocation that finds no memory panics under the lock, and nothing releases
    it: from then on no other context gets an allocation or frees one. *)
Theorem panic_locks_heap b n st i c st' :
  rtc (shared_any fuel) (shared_start b n) st -> sh_clients st !! i = Some c -> cl_phase c = Panicked ->
  rtc (shared_any fuel) st st' ->
  exists c', sh_clients st' !! i = Some c' /\ cl_phase c' = Panicked /\ lock_status (sh_lock st') = true /\
    forall j r owned, sh_clients st' !! j = Some (mkClient r owned) -> under_lock (mkClient r owned) = true -> j = i.
Proof.
  intros Hr Hc Hp Hrun.
  assert (Hstay : exists c', sh_clients st' !! i = Some c' /\ cl_phase c' = Panicked).
  { clear Hr. revert c Hc Hp. induction Hrun as [st|st1 st2 st3 [k Hs] _ IH]; [eauto|]. intros c Hc Hp.
    assert (exists c', sh_clients st2 !! i = Some c' /\ cl_phase c' = Panicked) as (c' & H1 & H2); [|eauto].
    assert (Hother : forall (cs : list client) c0 c1, cs !! i = Some c -> cs !! k = Some c0 -> cl_phase c0 <> Panicked ->
        exists c', <[k := c1]> cs !! i = Some c' /\ cl_phase c' = Panicked).
    { intros cs c0 c1 Hi Hk Hn. exists c. rewrite list_lookup_insert_ne; [auto|]. intros ->. rewrite Hi in Hk. injection Hk as ->. auto. }
    destruct Hs as [m cs owned layout Hi _ | m cs l1 l2 p layout Hi | m cs r owned bb m' Hi Eb | m cs r owned o b' Hi Er
      | m cs r owned e Hi Er | m cs o owned Hi | m cs owned a0 m' Hi Ha0 Hw | m cs l1 l2 a0 j p owned Hi Hne Hj];
      cbn [sh_clients] in *; try (eapply Hother; [exact Hc | exact Hi | discriminate]); [|eauto|].
    - destruct bb; [|eauto]. eapply Hother; [exact Hc | exact Hi | discriminate].
    - destruct (decide (j = i)) as [->|Hji].
      + rewrite Hc in Hj. injection Hj as ->. cbn [cl_phase] in Hp. subst p. exists (mkClient Panicked (a0 :: owned)).
        split; [|reflexivity]. apply list_lookup_insert_eq. rewrite length_insert. eapply lookup_lt_Some; eauto.
      + destruct (Hother cs _ (mkClient Away (l1 ++ l2)) Hc Hi ltac:(discriminate)) as (c' & H1 & H2). exists c'.
        now rewrite list_lookup_insert_ne. }
  destruct Hstay as (c' & H1 & H2). exists c'. split; [exact H1|]. split; [exact H2|].
  pose proof (shared_lock_inv fuel b n st' (transitivity Hr Hrun)) as Hinv.
  assert (Hhold : erase_clients (sh_clients st') !! i = Some Holding).
  { apply (under_lock_holding _ _ c' H1). unfold under_lock. now rewrite H2. }
  split.
  - apply (li_flag _ Hinv). exists i. exact Hhold.
  - intros j r owned Hj Hu. apply (li_one _ Hinv); [eapply under_lock_holding; eauto | exact Hhold].
Qed.
End Heap.

(** ** Two contexts on the small heap of [KernelHeap]: the first gets 24 bytes, then
    the second asks. *)

Definition ex_owned : list (Z * Layout) := [(0x103e0, ex_layout)].
Definition ex_shared : shared :=
  mkShared (Mutex_new ex_heap_allocated) [mkClient Away ex_owned; mkClient (Asking (ReqAlloc ex_layout)) []].

Lemma ex_body : request_body 65 (ReqAlloc ex_layout) ex_heap = Ret (Some (0x103e0, ex_layout), ex_heap_allocated).
Proof. cbn [request_body]. rewrite ex_heap_alloc. reflexivity. Qed.

Lemma ex_shared_reachable : rtc (shared_any 65) (shared_start ex_heap 2) ex_shared.
Proof.
  eapply rtc_l; [exists 0%nat; apply (sh_call_alloc 65 0 (Mutex_new ex_heap) _ [] ex_layout); [reflexivity | exact ex_layout_ok]|].
  eapply rtc_l; [exists 0%nat; eapply sh_iteration; reflexivity|]. cbn [shared_start insert list_insert replicate].
  eapply rtc_l; [exists 0%nat; eapply sh_body; [reflexivity | exact ex_body]|].
  eapply rtc_l; [exists 0%nat; eapply sh_drop; reflexivity|].
  eapply rtc_l; [exists 1%nat; eapply (sh_call_alloc 65 1 _ _ [] ex_layout); [reflexivity | exact ex_layout_ok]|].
  apply rtc_refl.
Qed.

Lemma shared_heap_refines_witness :
  exists live, live ≡ₚ allocs ex_shared /\ rtc (heap_step 65) (mkHeap ex_heap []) (mkHeap (inner (sh_lock ex_shared)) live).
Proof.
  exact (shared_heap_refines 0x10000 1024 65 ex_heap_ok (fun _ => 0) ex_heap 2 ex_shared (proj1 ex_heap_init) ex_shared_reachable).
Defined.

(** Whatever the second context does next, the 24 bytes of the first stay. *)
Lemma shared_heap_safe_witness :
  0x103e0 mod 8 = 0 /\
  forall x st', shared_step 65 1 ex_shared st' -> in_alloc (0x103e0, ex_layout) x -> sh_mem st' x = sh_mem ex_shared x.
Proof.
  destruct (shared_heap_safe 0x10000 1024 65 ex_heap_ok (fun _ => 0) ex_heap 2 ex_shared (proj1 ex_heap_init) ex_shared_reachable)
    as (H1 & _ & _ & H4).
  split; [apply (H1 0%nat _ (0x103e0, ex_layout) eq_refl); left|].
  intros x st' Hs Hx. apply (H4 1%nat 0%nat _ (0x103e0, ex_layout) x st' Hs (fun E => O_S 0 (eq_sym E)) eq_refl); [left | exact Hx].
Defined.
