(* ===== verification/IntrusiveList.v ===== *)
(** The intrusive doubly linked list: [util/intrusive_linked_list/src/lib.rs].

    Nodes live outside the list, at addresses: the store maps addresses to
    nodes, and the list is a head, a tail and a length.  The operations thread
    the store.  A deque of addresses is what the list means. *)
From Stdlib Require Import ZArith Lia.
From stdpp Require Import base tactics numbers list sets.
From S2P Require Import Prelude.

#[local] Open Scope Z_scope.

Record ListNode := mkListNode { node_next : option Z; node_prev : option Z }.

Definition ListNode_new : ListNode := mkListNode None None.

Definition store := Z -> ListNode.

Definition get_next (s : store) (p : Z) : option Z := node_next (s p).
Definition get_prev (s : store) (p : Z) : option Z := node_prev (s p).
Definition set_next (p : Z) (v : option Z) (s : store) : store :=
  fun q => if bool_decide (q = p) then mkListNode v (node_prev (s p)) else s q.
Definition set_prev (p : Z) (v : option Z) (s : store) : store :=
  fun q => if bool_decide (q = p) then mkListNode (node_next (s p)) v else s q.

Record IntrusiveLinkedList := mkList { list_head : option Z; list_tail : option Z; list_len : Z }.

Definition IntrusiveLinkedList_new : IntrusiveLinkedList := mkList None None 0.

Definition push_front (new : Z) (s : store) (l : IntrusiveLinkedList) : outcome (store * IntrusiveLinkedList) :=
  let '(s, l) :=
    match list_head l with
    | Some head =>
        let s := set_next new (Some head) s in
        let s := set_prev head (Some new) s in
        (s, mkList (Some new) (list_tail l) (list_len l))
    | None => (s, mkList (Some new) (Some new) (list_len l))
    end in
  n ← uadd 64 (list_len l) 1;
  Ret (s, mkList (list_head l) (list_tail l) n).

Definition push_back (new : Z) (s : store) (l : IntrusiveLinkedList) : outcome (store * IntrusiveLinkedList) :=
  let '(s, l) :=
    match list_tail l with
    | Some tail =>
        let s := set_next tail (Some new) s in
        let s := set_prev new (Some tail) s in
        (s, mkList (list_head l) (Some new) (list_len l))
    | None => (s, mkList (Some new) (Some new) (list_len l))
    end in
  n ← uadd 64 (list_len l) 1;
  Ret (s, mkList (list_head l) (list_tail l) n).

(** Both [pop]s clear the [next] link of the element that becomes the end. *)
Definition clear_next (o : option Z) (s : store) : store :=
  match o with Some p => set_next p None s | None => s end.

Definition pop_front (s : store) (l : IntrusiveLinkedList) : outcome (option Z * (store * IntrusiveLinkedList)) :=
  match list_head l with
  | Some head =>
      tail ← unwrap (list_tail l);
      let '(s, l) :=
        if bool_decide (head = tail) then (s, mkList None None (list_len l))
        else
          let head' := get_next s head in
          (clear_next head' s, mkList head' (list_tail l) (list_len l)) in
      n ← usub 64 (list_len l) 1;
      Ret (Some head, (s, mkList (list_head l) (list_tail l) n))
  | None => Ret (None, (s, l))
  end.

Definition pop_back (s : store) (l : IntrusiveLinkedList) : outcome (option Z * (store * IntrusiveLinkedList)) :=
  match list_tail l with
  | Some tail =>
      head ← unwrap (list_head l);
      let '(s, l) :=
        if bool_decide (head = tail) then (s, mkList None None (list_len l))
        else
          let tail' := get_prev s tail in
          (clear_next tail' s, mkList (list_head l) tail' (list_len l)) in
      n ← usub 64 (list_len l) 1;
      Ret (Some tail, (s, mkList (list_head l) (list_tail l) n))
  | None => Ret (None, (s, l))
  end.

Definition is_empty (l : IntrusiveLinkedList) : bool :=
  match list_head l with None => true | Some _ => false end.

(** [container_of!] goes from a member to its container. *)
Definition container_of (ptr offset : Z) : Z := ptr + offset.

(** ** What the list means *)

(** Neighbours are linked both ways; the outer links of the ends are free. *)
Definition linked (s : store) (x y : Z) : Prop := get_next s x = Some y /\ get_prev s y = Some x.

Fixpoint links (s : store) (xs : list Z) : Prop :=
  match xs with
  | x :: (y :: _) as xs => linked s x y /\ links s xs
  | _ => True
  end.

Record represents (s : store) (l : IntrusiveLinkedList) (xs : list Z) : Prop := {
  rp_head : list_head l = head xs;
  rp_tail : list_tail l = last xs;
  rp_len : list_len l = Z.of_nat (length xs);
  rp_nodup : NoDup xs;
  rp_links : links s xs;
  rp_width : Z.of_nat (length xs) < 2 ^ 64;
}.

Lemma get_next_set_next p v s q : get_next (set_next p v s) q = if bool_decide (q = p) then v else get_next s q.
Proof. unfold get_next, set_next. now case_bool_decide. Qed.
Lemma get_prev_set_next p v s q : get_prev (set_next p v s) q = get_prev s q.
Proof. unfold get_prev, set_next. now case_bool_decide; subst. Qed.
Lemma get_next_set_prev p v s q : get_next (set_prev p v s) q = get_next s q.
Proof. unfold get_next, set_prev. now case_bool_decide; subst. Qed.
Lemma get_prev_set_prev p v s q : get_prev (set_prev p v s) q = if bool_decide (q = p) then v else get_prev s q.
Proof. unfold get_prev, set_prev. now case_bool_decide. Qed.

Lemma bool_decide_refl (x : Z) : bool_decide (x = x) = true.
Proof. now apply bool_decide_eq_true_2. Qed.

Create Rewrite HintDb links.
#[export] Hint Rewrite get_next_set_next get_prev_set_next get_next_set_prev get_prev_set_prev bool_decide_refl : links.

(** Links survive a change of [next] outside all but the last element and of
    [prev] outside all but the first one. *)
Lemma links_mono s s' xs :
  (forall x l1 l2, xs = l1 ++ x :: l2 -> l2 <> [] -> get_next s' x = get_next s x) ->
  (forall x l1 l2, xs = l1 ++ x :: l2 -> l1 <> [] -> get_prev s' x = get_prev s x) ->
  links s xs -> links s' xs.
Proof.
  induction xs as [|x xs IH]; [done|]. destruct xs as [|y xs]; [done|]. intros Hn Hp [[H1 H2] Hl]. split.
  - split; [now rewrite (Hn x [] (y :: xs)) | now rewrite (Hp y [x] xs)].
  - apply IH; [..|exact Hl].
    + intros z l1 l2 E. apply (Hn z (x :: l1) l2). cbn. now rewrite E.
    + intros z l1 l2 E Hne. apply (Hp z (x :: l1) l2); [|done]. cbn. now rewrite E.
Qed.

Lemma links_app s xs ys :
  links s (xs ++ ys) <-> links s xs /\ links s ys /\ (forall x y, last xs = Some x -> head ys = Some y -> linked s x y).
Proof.
  induction xs as [|x xs IH]; cbn [app]; [cbn; naive_solver|].
  destruct xs as [|x' xs]; cbn [app] in *.
  - destruct ys as [|y ys]; cbn; naive_solver.
  - change (links s (x :: x' :: xs ++ ys)) with (linked s x x' /\ links s (x' :: xs ++ ys)).
    change (links s (x :: x' :: xs)) with (linked s x x' /\ links s (x' :: xs)).
    rewrite IH. change (last (x :: x' :: xs)) with (last (x' :: xs)). tauto.
Qed.

(** ** The deque it implements *)

Inductive list_op := PushFront (a : Z) | PushBack (a : Z) | PopFront | PopBack.

Definition deque_op (op : list_op) (xs : list Z) : option Z * list Z :=
  match op with
  | PushFront a => (None, a :: xs)
  | PushBack a => (None, xs ++ [a])
  | PopFront => (head xs, tail xs)
  | PopBack => (last xs, removelast xs)
  end.

Definition list_run (op : list_op) (st : store * IntrusiveLinkedList) :
    outcome (option Z * (store * IntrusiveLinkedList)) :=
  match op with
  | PushFront a => st ← push_front a st.1 st.2; Ret (None, st)
  | PushBack a => st ← push_back a st.1 st.2; Ret (None, st)
  | PopFront => pop_front st.1 st.2
  | PopBack => pop_back st.1 st.2
  end.

(** A node is pushed while it is not in the list; [pop_front] is used on at
    most two elements. *)
Definition op_ok (op : list_op) (xs : list Z) : Prop :=
  match op with
  | PushFront a | PushBack a => (a ∉ xs) /\ Z.of_nat (length xs) < 2 ^ 64 - 1
  | PopFront => (length xs <= 2)%nat
  | PopBack => True
  end.

Lemma represents_nil s : represents s IntrusiveLinkedList_new [].
Proof. split; cbn; try done. constructor. Qed.

Lemma represents_singleton s a : represents s (mkList (Some a) (Some a) 1) [a].
Proof. split; cbn; try done. apply NoDup_singleton. Qed.

Lemma push_front_spec a s l xs :
  represents s l xs -> a ∉ xs -> Z.of_nat (length xs) < 2 ^ 64 - 1 ->
  exists s' l', push_front a s l = Ret (s', l') /\ represents s' l' (a :: xs).
Proof.
  intros [Hh Ht Hn Hd Hl Hw] Ha Hlen. unfold push_front. rewrite Hh. destruct xs as [|x xs]; cbn [head] in *.
  - cbn [list_len list_head list_tail]. rewrite Hn. do 2 eexists. split; [reflexivity|].
    apply represents_singleton.
  - cbn [list_len list_head list_tail]. rewrite Hn. unfold uadd. rewrite checked_ok by (cbn [length] in *; lia).
    do 2 eexists. split; [reflexivity|]. split; cbn [list_len list_head list_tail]; [done|exact Ht|cbn [length] in *; lia| |split|cbn [length] in *; lia].
    + now constructor.
    + unfold linked. autorewrite with links. auto.
    + revert Hl. apply links_mono; intros y l1 l2 E Hne; autorewrite with links.
      * rewrite bool_decide_eq_false_2; [done|]. intros ->. apply Ha. rewrite E. set_solver.
      * rewrite bool_decide_eq_false_2; [done|]. intros ->. destruct l1 as [|z l1]; [done|].
        injection E as <- E. apply NoDup_cons in Hd as [Hd _]. apply Hd. rewrite E. set_solver.
Qed.

Lemma push_back_spec a s l xs :
  represents s l xs -> a ∉ xs -> Z.of_nat (length xs) < 2 ^ 64 - 1 ->
  exists s' l', push_back a s l = Ret (s', l') /\ represents s' l' (xs ++ [a]).
Proof.
  intros [Hh Ht Hn Hd Hl Hw] Ha Hlen. unfold push_back. rewrite Ht.
  destruct xs as [|x xs _] using rev_ind.
  - cbn [last list_len list_head list_tail]. rewrite Hn. do 2 eexists. split; [reflexivity|].
    apply represents_singleton.
  - rewrite last_snoc. cbn [list_len list_head list_tail]. rewrite Hn. unfold uadd. rewrite checked_ok by lia.
    do 2 eexists. split; [reflexivity|].
    split; cbn [list_len list_head list_tail]; [| |rewrite !length_app in *; cbn [length] in *; lia| | |rewrite !length_app in *; cbn [length] in *; lia].
    + rewrite Hh. now destruct xs.
    + now rewrite last_snoc.
    + apply NoDup_app. split; [done|]. split; [set_solver|apply NoDup_singleton].
    + apply links_app. split; [|split; [done|]].
      * revert Hl. apply links_mono; intros y l1 l2 E Hne; autorewrite with links.
        -- rewrite bool_decide_eq_false_2; [done|]. intros ->.
           destruct l2 as [|z l2 _] using rev_ind; [done|].
           rewrite app_comm_cons, app_assoc in E. apply app_inj_tail in E as [-> <-].
           apply NoDup_app in Hd as (_ & Hd & _). apply (Hd x); set_solver.
        -- rewrite bool_decide_eq_false_2; [done|]. intros ->. apply Ha. rewrite E. set_solver.
      * rewrite last_snoc. cbn. intros ? ? [= <-] [= <-]. unfold linked. autorewrite with links. auto.
Qed.

Lemma pop_back_spec s l xs :
  represents s l xs ->
  exists s' l', pop_back s l = Ret (last xs, (s', l')) /\ represents s' l' (removelast xs).
Proof.
  intros [Hh Ht Hn Hd Hl Hw]. unfold pop_back. rewrite Ht, Hh.
  destruct xs as [|x xs _] using rev_ind; [do 2 eexists; split; [reflexivity|split; assumption]|].
  rewrite last_snoc, removelast_last. destruct xs as [|y xs _] using rev_ind.
  - cbn [app head unwrap mbind outcome_bind]. rewrite bool_decide_eq_true_2 by done.
    cbn [list_len list_head list_tail]. rewrite Hn. do 2 eexists. split; [reflexivity|]. apply represents_nil.
  - destruct (head ((xs ++ [y]) ++ [x])) as [h|] eqn:Eh; [|now destruct xs].
    cbn [unwrap mbind outcome_bind]. apply NoDup_app in Hd as (Hd & Hx & _).
    apply links_app in Hl as (Hl & _ & Hxy). destruct (Hxy y x) as [Hyx Hprev]; [apply last_snoc | done|].
    rewrite bool_decide_eq_false_2.
    2: { intros ->. apply (Hx x); [|set_solver]. destruct xs; cbn in Eh; injection Eh as ->; set_solver. }
    rewrite Hprev. cbn [list_len list_head list_tail clear_next]. rewrite Hn. unfold usub.
    rewrite !length_app in *. cbn [length] in *. rewrite checked_ok by lia.
    do 2 eexists. split; [reflexivity|].
    split; cbn [list_len list_head list_tail]; [| |rewrite !length_app in *; cbn [length] in *; lia|done| |rewrite !length_app in *; cbn [length] in *; lia].
    + rewrite <- Eh. now destruct xs.
    + now rewrite last_snoc.
    + revert Hl. apply links_mono; intros z l1 l2 E Hne; autorewrite with links; [|done].
      rewrite bool_decide_eq_false_2; [done|]. intros ->. destruct l2 as [|w l2 _] using rev_ind; [done|].
      rewrite app_comm_cons, app_assoc in E. apply app_inj_tail in E as [-> <-].
      apply NoDup_app in Hd as (_ & Hd & _). apply (Hd y); set_solver.
Qed.

(** Up to two elements, [pop_front] takes the first. *)
Lemma pop_front_spec s l xs :
  represents s l xs -> (length xs <= 2)%nat ->
  exists s' l', pop_front s l = Ret (head xs, (s', l')) /\ represents s' l' (tail xs).
Proof.
  intros [Hh Ht Hn Hd Hl Hw] Hlen. unfold pop_front. rewrite Ht, Hh.
  destruct xs as [|x [|y [|z xs]]]; cbn [head last tail length unwrap mbind outcome_bind] in *; [..|lia].
  - do 2 eexists. split; [reflexivity|split; assumption].
  - rewrite bool_decide_refl. cbn [list_len list_head list_tail]. rewrite Hn. do 2 eexists. split; [reflexivity|]. apply represents_nil.
  - destruct Hl as [[Hxy _] _]. apply NoDup_cons in Hd as [Hx Hd].
    rewrite bool_decide_eq_false_2 by (intros ->; set_solver).
    cbn [list_len list_head list_tail]. rewrite Hn, Hxy. do 2 eexists. split; [reflexivity|]. apply represents_singleton.
Qed.

Lemma list_run_spec op st xs :
  represents st.1 st.2 xs -> op_ok op xs ->
  exists st', list_run op st = Ret ((deque_op op xs).1, st') /\ represents st'.1 st'.2 (deque_op op xs).2.
Proof.
  intros Hr Hop. destruct st as [s l]. destruct op; cbn [list_run deque_op fst snd op_ok] in *.
  - destruct Hop as [Ha Hlen]. destruct (push_front_spec a s l xs) as (s' & l' & -> & H); [done..|]. now exists (s', l').
  - destruct Hop as [Ha Hlen]. destruct (push_back_spec a s l xs) as (s' & l' & -> & H); [done..|]. now exists (s', l').
  - destruct (pop_front_spec s l xs) as (s' & l' & -> & H); [done..|]. now exists (s', l').
  - destruct (pop_back_spec s l xs) as (s' & l' & -> & H); [done..|]. now exists (s', l').
Qed.

(** A program over the list, and over the deque, with the results in order. *)
Fixpoint list_program (ops : list list_op) (st : store * IntrusiveLinkedList) :
    outcome (list (option Z) * (store * IntrusiveLinkedList)) :=
  match ops with
  | [] => Ret ([], st)
  | op :: ops => '(r, st) ← list_run op st; '(rs, st) ← list_program ops st; Ret (r :: rs, st)
  end.

Fixpoint deque_program (ops : list list_op) (xs : list Z) : list (option Z) * list Z :=
  match ops with
  | [] => ([], xs)
  | op :: ops =>
      let '(r, xs) := deque_op op xs in
      let '(rs, xs) := deque_program ops xs in (r :: rs, xs)
  end.

Fixpoint program_ok (ops : list list_op) (xs : list Z) : Prop :=
  match ops with
  | [] => True
  | op :: ops => op_ok op xs /\ program_ok ops (deque_op op xs).2
  end.

Lemma list_program_spec ops st xs :
  represents st.1 st.2 xs -> program_ok ops xs ->
  exists st', list_program ops st = Ret ((deque_program ops xs).1, st') /\
    represents st'.1 st'.2 (deque_program ops xs).2.
Proof.
  revert st xs. induction ops as [|op ops IH]; intros st xs Hr Hok; [now exists st|].
  destruct Hok as [Hop Hok]. cbn [list_program deque_program].
  destruct (list_run_spec op st xs Hr Hop) as (st1 & -> & Hr1). cbn [mbind outcome_bind].
  destruct (deque_op op xs) as [r xs1]. cbn [fst snd] in *.
  destruct (IH st1 xs1 Hr1 Hok) as (st2 & -> & Hr2). cbn [mbind outcome_bind].
  destruct (deque_program ops xs1) as [rs xs2]. now exists st2.
Qed.

(** C27: the list refines a deque: every program of pushes and pops that pushes
    only nodes that are not in the list, and that takes from the front only
    while there are at most two elements, returns from an empty list what the
    deque returns, and the final list, its links and its length represent the
    final deque; the stored nodes may hold any links before they are pushed. *)
Theorem intrusive_list_refines_deque (ops : list list_op) (s : store) :
  program_ok ops [] ->
  exists s' l', list_program ops (s, IntrusiveLinkedList_new) = Ret ((deque_program ops []).1, (s', l')) /\
    represents s' l' (deque_program ops []).2.
Proof.
  intros Hok. destruct (list_program_spec ops (s, IntrusiveLinkedList_new) []) as ([s' l'] & H & Hr); [|done|eauto].
  apply represents_nil.
Qed.

(** [pop_front] cuts the list off: it clears the [next] link of the new
    first element instead of its [prev] link.  From three elements on, the
    element after next is out of reach from the front: the second [pop_front]
    leaves a list that says it is empty and of positive length, whose
    [pop_front] returns nothing and whose [pop_back] panics. *)
Theorem pop_front_truncates s l x y z xs :
  represents s l (x :: y :: z :: xs) ->
  exists st1 st2, list_run PopFront (s, l) = Ret (Some x, st1) /\ list_run PopFront st1 = Ret (Some y, st2) /\
    is_empty st2.2 = true /\ list_len st2.2 = Z.of_nat (S (length xs)) /\
    list_run PopFront st2 = Ret (None, st2) /\ list_run PopBack st2 = Panic UnwrapNone.
Proof.
  intros [Hh Ht Hn Hd Hl Hw]. cbn [list_run fst snd]. destruct Hl as [[Hxy _] [[Hyz _] _]].
  apply NoDup_cons in Hd as [Hx Hd]. apply NoDup_cons in Hd as [Hy _].
  destruct (last (z :: xs)) as [t|] eqn:El; [|now apply last_None in El].
  assert (Htail : t ∈ z :: xs) by (apply last_Some in El as [l' ->]; set_solver).
  assert (list_tail l = Some t) as Et by (rewrite Ht; exact El).
  eexists (_, _), (_, _).
  unfold pop_front at 1. rewrite Hh, Et. cbn [head unwrap mbind outcome_bind].
  rewrite bool_decide_eq_false_2 by (intros ->; set_solver). rewrite Hxy. cbn [list_len list_head list_tail clear_next].
  rewrite Hn. unfold usub. cbn [length] in *. rewrite checked_ok by lia. cbn [mbind outcome_bind].
  split; [reflexivity|]. cbn [fst snd].
  unfold pop_front at 1. cbn [list_len list_head list_tail unwrap mbind outcome_bind].
  rewrite bool_decide_eq_false_2 by (intros ->; set_solver). autorewrite with links. cbn [clear_next].
  cbn [list_len list_head list_tail]. unfold usub. rewrite checked_ok by lia. cbn [mbind outcome_bind].
  split; [reflexivity|]. cbn [fst snd is_empty list_len list_head list_tail]. split; [reflexivity|].
  split; [lia|]. split; reflexivity.
Qed.

(** ** The unit test of the crate *)

(** [test_list] on four structures at the addresses [t 1 .. t 4], whose node is
    at [offset] and whose value [val] reads. *)
Definition test_list (offset : Z) (t val : Z -> Z) (s : store) : outcome unit :=
  let assert_len n (st : store * IntrusiveLinkedList) := assert_true (list_len st.2 =? n) in
  let assert_val r i := p ← unwrap r; assert_true (val (container_of p offset) =? val (t i)) in
  '(_, st) ← list_run (PushBack (t 1 + offset)) (s, IntrusiveLinkedList_new); _ ← assert_len 1 st;
  '(_, st) ← list_run (PushBack (t 2 + offset)) st; _ ← assert_len 2 st;
  '(_, st) ← list_run (PushFront (t 3 + offset)) st; _ ← assert_len 3 st;
  '(_, st) ← list_run (PushFront (t 4 + offset)) st; _ ← assert_len 4 st;
  '(r, st) ← list_run PopFront st; _ ← assert_val r 4;
  '(r, st) ← list_run PopBack st; _ ← assert_val r 2;
  '(r, st) ← list_run PopBack st; _ ← assert_val r 1;
  '(r, st) ← list_run PopBack st; _ ← assert_val r 3;
  '(r, st) ← list_run PopFront st; _ ← assert_true (match r with None => true | Some _ => false end);
  '(r, _) ← list_run PopBack st; assert_true (match r with None => true | Some _ => false end).

(** It takes from the front once only, so it passes while the node comes first
    in the structure; with the value first, [container_of!] goes the wrong way. *)
Example test_list_passes :
  test_list 0 (fun i => 100 * i) (fun a => a / 100) (fun _ => ListNode_new) = Ret tt.
Proof. vm_compute. reflexivity. Qed.

Example test_list_offset :
  test_list 8 (fun i => 100 * i) (fun a => if a mod 100 =? 0 then a / 100 else 0) (fun _ => ListNode_new) =
    Panic AssertFailed.
Proof. vm_compute. reflexivity. Qed.

Lemma container_of_spec base offset : container_of (base + offset) offset = base <-> offset = 0.
Proof. unfold container_of. lia. Qed.

(** ** Witnesses *)

Definition ex_ops : list list_op := [PushBack 1; PushFront 2; PushBack 3; PopBack; PopFront; PopBack; PopBack].

Lemma intrusive_list_refines_deque_witness :
  exists s' l', list_program ex_ops ((fun _ => mkListNode (Some 9) (Some 8)), IntrusiveLinkedList_new) =
      Ret ([None; None; None; Some 3; Some 2; Some 1; None], (s', l')) /\ represents s' l' [].
Proof.
  apply (intrusive_list_refines_deque ex_ops (fun _ => mkListNode (Some 9) (Some 8))).
  repeat split; cbn; try lia; set_solver.
Defined.

Definition ex_store : store :=
  set_next 1 (Some 2) (set_prev 2 (Some 1) (set_next 2 (Some 3) (set_prev 3 (Some 2) (fun _ => ListNode_new)))).
Definition ex_list : IntrusiveLinkedList := mkList (Some 1) (Some 3) 3.

Lemma pop_front_truncates_witness :
  represents ex_store ex_list [1; 2; 3] /\
  exists st1 st2, list_run PopFront (ex_store, ex_list) = Ret (Some 1, st1) /\
    list_run PopFront st1 = Ret (Some 2, st2) /\ is_empty st2.2 = true /\ list_len st2.2 = 1 /\
    list_run PopFront st2 = Ret (None, st2) /\ list_run PopBack st2 = Panic UnwrapNone.
Proof.
  assert (represents ex_store ex_list [1; 2; 3]) as H.
  { split; [reflexivity..| |vm_compute; tauto|reflexivity]. repeat constructor; set_solver. }
  split; [exact H|]. exact (pop_front_truncates ex_store ex_list 1 2 3 [] H).
Defined.
