(* ===== verification/Stage3.v ===== *)
(** Stage 3: [stage3/src/paging.rs] and [start] of [stage3/src/main.rs].

    Stage 3 fills three static tables so that the first 10 GiB are mapped one to
    one with huge pages, turns on paging in long mode and jumps to stage 4.  The
    theorem is about the translation the tables define. *)
From Stdlib Require Import ZArith Lia.
From stdpp Require Import base tactics numbers list strings.
From S2P Require Import Prelude Crates Memory Paging AddressSpace Descriptors Processor SpinLock Ports Fmt Serial.
#[local] Open Scope Z_scope.

Section Stage3.
Context `{FL : Bitflags}.
(** The addresses of the statics [PML4T], [PDPT] and [PDT]. *)
Context (PML4T PDPT PDT : Z).

(** [for (j, entry) in l2.entries.iter_mut().enumerate()] *)
Definition fill_entry (flags offset l2 j : Z) (m : mem) : outcome mem :=
  o ← umul 64 j (2 * MIB);
  a ← uadd 64 offset o;
  Ret (store64 m (l2 + 8 * j) (Z.lor (Z.lor a flags) HUGE_PAGE)).

(** [for (i, l2) in l2.iter_mut().enumerate()] *)
Definition fill_directory (flags i : Z) (m : mem) : outcome mem :=
  let l2 := PDT + PageTable_SIZE * i in
  let m := store64 m (PDPT + 8 * i) (Z.lor l2 flags) in
  offset ← umul 64 i (1 * GIB);
  fold_outcome (fill_entry flags offset l2) (seqZ 0 TABLE_ENTRY_COUNT) m.

Definition create_mappings (m : mem) : outcome mem :=
  let flags := flags_union WRITABLE PRESENT in
  let m := store64 m PML4T (Z.lor PDPT flags) in
  fold_outcome (fill_directory flags) (seqZ 0 10) m.

(** Physical address extension, long mode, then paging. *)
Definition enable_paging (c : cpu) : cpu :=
  let c := set_cr3 c (ucast 32 PML4T) in
  let c := set_cr4 c (Z.lor (cpu_cr4 c) (Z.shiftl 1 5)) in
  let c := set_msr c 0xC0000080 (Z.lor (cpu_msr c 0xC0000080) (Z.shiftl 1 8)) in
  set_cr0 c (Z.lor (cpu_cr0 c) (Z.shiftl 1 31)).

Definition init_and_switch_to_long_mode (c : cpu) (m : mem) : outcome (cpu * mem) :=
  m ← create_mappings m;
  Ret (enable_paging c, m).

(** The table of stage 3. *)
Definition stage3_gdt `{BF : BitField} : outcome GlobalDescriptorTable :=
  code ← long_mode_code_segment;
  '(_, gdt) ← add_entry Gdt_new code;
  data ← long_mode_data_segment;
  '(_, gdt) ← add_entry gdt data;
  Ret gdt.

(** [pop] of a 64-bit word, from a stack that was pushed on in 32-bit code. *)
Definition pop64 (stack : stack32) : Z * stack32 :=
  let '(low, stack) := pop32 stack in
  let '(high, stack) := pop32 stack in
  (low + 2 ^ 32 * high, stack).

(** The call at the end: the entry point in [rax] and its argument in [rdi].  The
    registers [fs] and [gs], nulled like [ds], are not part of the state. *)
Definition jump_to_stage4 (info stage4_start : Z) (c : cpu) (stack : stack32) : cpu * (Z * Z) :=
  let stack := and_esp 0xffffff00 stack in
  let stack := push32 0 stack in
  let stack := push32 info stack in
  let stack := push32 0 stack in
  let stack := push32 stage4_start stack in
  let c := CS_write c 0x8 in
  let c := mov_ss c 0 in
  let c := mov_ds c 0 in
  let c := mov_es c 0 in
  let '(rax, stack) := pop64 stack in
  let '(rdi, stack) := pop64 stack in
  (c, (rax, rdi)).

Definition stage3_start `{BF : BitField} `{IO : IoPorts W} (fuel : nat) (info stage4_start : Z) (c : cpu) (stack : stack32)
    (con : console W) (m : mem) : outcome (cpu * (Z * Z) * console W * mem) :=
  con ← println fuel [text "Stage3"] con;
  '(c, m) ← init_and_switch_to_long_mode c m;
  gdt ← stage3_gdt;
  c ← clear_interrupts_and_load gdt c;
  Ret (jump_to_stage4 info stage4_start c stack, con, m).
End Stage3.

(** ** The tables *)

Section Tables.
Context `{FL : Bitflags} `{FLS : !BitflagsSpec FL} `{BF : BitField} `{BFS : !BitFieldSpec BF}.
Context (PML4T PDPT PDT : Z).

(** The statics are page aligned, below 4 GiB, and apart from each other. *)
Record statics_ok : Prop := {
  so_pml4t : 0 <= PML4T /\ PML4T mod 4096 = 0 /\ PML4T + 4096 <= 2 ^ 32;
  so_pdpt : 0 <= PDPT /\ PDPT mod 4096 = 0 /\ PDPT + 4096 <= 2 ^ 32;
  so_pdt : 0 <= PDT /\ PDT mod 4096 = 0 /\ PDT + 40960 <= 2 ^ 32;
  so_apart1 : ranges_disjoint PML4T 4096 PDPT 4096;
  so_apart2 : ranges_disjoint PML4T 4096 PDT 40960;
  so_apart3 : ranges_disjoint PDPT 4096 PDT 40960;
}.

Context (Hs : statics_ok).

(** The entry of 2 MiB page [j] of gibibyte [i]. *)
Definition huge_entry (i j : Z) : Z := Z.lor (Z.lor (i * GIB + j * (2 * MIB)) 3) HUGE_PAGE.

Lemma huge_entry_eq i j :
  0 <= i < 10 -> 0 <= j < 512 -> huge_entry i j = Z.lor (i * GIB + j * (2 * MIB)) 0x83 /\
  valid_frame (i * GIB + j * (2 * MIB)).
Proof.
  intros Hi Hj. unfold huge_entry. rewrite <- Z.lor_assoc. split; [reflexivity|].
  unfold valid_frame, GIB, MIB, KIB. split; [lia|].
  replace (i * (1024 * 1024 * 1024) + j * (2 * (1024 * 1024))) with ((i * 262144 + j * 512) * 4096) by lia.
  apply Z.mod_mul. lia.
Qed.

Lemma fill_entry_eq i l2 j m :
  0 <= i < 10 -> 0 <= j < 512 ->
  fill_entry 3 (i * GIB) l2 j m = Ret (store64 m (l2 + 8 * j) (huge_entry i j)).
Proof.
  intros Hi Hj. unfold fill_entry, umul, uadd, huge_entry. unfold MIB, GIB, MIB, KIB.
  rewrite checked_ok by lia. cbn [mbind outcome_bind]. rewrite checked_ok by lia. reflexivity.
Qed.

Lemma fill_entries_spec i l2 n lo m :
  0 <= i < 10 -> 0 <= lo -> 0 <= n -> lo + n <= 512 ->
  exists m', fold_outcome (fill_entry 3 (i * GIB) l2) (seqZ lo n) m = Ret m' /\
    (forall j, lo <= j < lo + n -> load64 m' (l2 + 8 * j) = huge_entry i j) /\
    (forall x, ~ (l2 + 8 * lo <= x < l2 + 8 * (lo + n)) -> m' x = m x).
Proof.
  intros Hi. revert lo m. induction (Z.to_nat n) as [|k IH] eqn:Ek in n |- *; intros lo m Hlo Hn Hend.
  { assert (n = 0) as -> by lia. exists m. split; [reflexivity|]. split; [lia | auto]. }
  rewrite seqZ_cons by lia. cbn [fold_outcome]. rewrite fill_entry_eq by lia. cbn [mbind outcome_bind].
  destruct (IH (Z.pred n) ltac:(lia) (Z.succ lo)
    (store64 m (l2 + 8 * lo) (huge_entry i lo))) as (m' & E & Hv & Hk); [lia..|].
  exists m'. split; [exact E|]. split.
  - intros j Hj. destruct (Z.eq_dec j lo) as [->|Hne]; [|apply Hv; lia].
    rewrite (load64_agree m' (store64 m (l2 + 8 * lo) (huge_entry i lo))).
    + apply load64_store64_same. destruct (huge_entry_eq i lo) as [-> Hf]; [lia..|]. now apply entry_bound.
    + intros x Hx. apply Hk. lia.
  - intros x Hx. rewrite Hk by lia. apply store_le_outside. lia.
Qed.

(** What the first [k] gibibytes' entries are. *)
Record filled (m : mem) (k : Z) : Prop := {
  fd_pdpt i : 0 <= i < k -> load64 m (PDPT + 8 * i) = Z.lor (PDT + 4096 * i) 3;
  fd_pdt i j : 0 <= i < k -> 0 <= j < 512 -> load64 m (PDT + 4096 * i + 8 * j) = huge_entry i j;
}.

(** An aligned table below 4 GiB is a frame. *)
Lemma table_frame t : 0 <= t -> t mod 4096 = 0 -> t + 4096 <= 2 ^ 32 -> valid_frame t.
Proof. intros. split; [lia | assumption]. Qed.

Lemma pdt_frame i : 0 <= i < 10 -> valid_frame (PDT + 4096 * i).
Proof.
  intros Hi. destruct Hs as [_ _ (? & Hal & ?) _ _ _]. apply table_frame; [lia | | lia].
  now rewrite Z.add_comm, Z.mul_comm, Z.add_mod, Z.mod_mul, Hal by lia.
Qed.

Lemma fill_directory_spec i m :
  0 <= i < 10 -> filled m i ->
  exists m', fill_directory PDPT PDT 3 i m = Ret m' /\ filled m' (i + 1) /\
    forall x, ~ (PDPT + 8 * i <= x < PDPT + 8 * i + 8) ->
      ~ (PDT + 4096 * i <= x < PDT + 4096 * (i + 1)) -> m' x = m x.
Proof.
  intros Hi [H3 H2]. destruct Hs as [_ (Hp0 & Hpal & Hp1) (Hd0 & Hdal & Hd1) _ _ Hap].
  unfold ranges_disjoint in Hap. unfold fill_directory, umul, PageTable_SIZE, TABLE_ENTRY_COUNT.
  replace (8 * 512 * i) with (4096 * i) by lia.
  rewrite checked_ok by (unfold GIB, MIB, KIB; lia). cbn [mbind outcome_bind]. rewrite Z.mul_1_l.
  set (m1 := store64 m (PDPT + 8 * i) (Z.lor (PDT + 4096 * i) 3)).
  assert (Hm1 : forall x, ~ (PDPT + 8 * i <= x < PDPT + 8 * i + 8) -> m1 x = m x)
    by (intros x Hx; apply store_le_outside; lia).
  destruct (fill_entries_spec i (PDT + 4096 * i) 512 0 m1) as (m' & E & Hv & Hk); [lia..|].
  exists m'. split; [exact E|]. split; [split|].
  - intros k Hk'. destruct (Z.eq_dec k i) as [->|Hne].
    + rewrite (load64_agree m' m1) by (intros x Hx; apply Hk; lia). apply load64_store64_same.
      apply entry_bound; [now apply pdt_frame | reflexivity].
    + rewrite <- (H3 k) by lia. apply load64_agree. intros x Hx. rewrite Hk, Hm1 by lia. reflexivity.
  - intros k j Hk' Hj. destruct (Z.eq_dec k i) as [->|Hne]; [now apply Hv|].
    rewrite <- (H2 k j) by lia. apply load64_agree. intros x Hx. rewrite Hk, Hm1 by lia. reflexivity.
  - intros x Hx1 Hx2. rewrite Hk, Hm1 by lia. reflexivity.
Qed.

Lemma fill_directories_spec n : forall lo m,
  0 <= lo -> 0 <= n -> lo + n <= 10 -> filled m lo ->
  exists m', fold_outcome (fill_directory PDPT PDT 3) (seqZ lo n) m = Ret m' /\ filled m' (lo + n) /\
    forall x, ~ (PDPT + 8 * lo <= x < PDPT + 8 * (lo + n)) -> ~ (PDT <= x < PDT + 40960) -> m' x = m x.
Proof.
  induction (Z.to_nat n) as [|k IH] eqn:Ek in n |- *; intros lo m Hlo Hn Hend Hf.
  { assert (n = 0) as -> by lia. exists m. rewrite Z.add_0_r. split; [reflexivity|]. auto. }
  rewrite seqZ_cons by lia. cbn [fold_outcome].
  destruct (fill_directory_spec lo m) as (m1 & -> & Hf1 & Hk1); [lia | assumption|]. cbn [mbind outcome_bind].
  destruct (IH (Z.pred n) ltac:(lia) (Z.succ lo) m1) as (m' & E & Hf' & Hk'); [lia.. | assumption|].
  exists m'. replace (Z.succ lo + Z.pred n) with (lo + n) in * by lia. split; [exact E|]. split; [assumption|].
  intros x Hx1 Hx2. rewrite Hk', Hk1 by lia. reflexivity.
Qed.

(** The statics are zero before stage 3 starts ([PageTable::empty]). *)
Definition empty_tables (m : mem) : Prop :=
  forall i, 0 <= i < 512 -> load64 m (PML4T + 8 * i) = 0 /\ load64 m (PDPT + 8 * i) = 0.

(** The tables after [create_mappings]. *)
Record identity_tables (m : mem) : Prop := {
  it_filled : filled m 10;
  it_pml4t i : 0 <= i < 512 -> load64 m (PML4T + 8 * i) = if i =? 0 then Z.lor PDPT 3 else 0;
  it_pdpt i : 10 <= i < 512 -> load64 m (PDPT + 8 * i) = 0;
}.

(** The bytes of the statics. *)
Definition in_statics (x : Z) : Prop := PML4T <= x < PML4T + 4096 \/ PDPT <= x < PDPT + 4096 \/ PDT <= x < PDT + 40960.

Lemma create_mappings_spec m :
  empty_tables m -> exists m', create_mappings PML4T PDPT PDT m = Ret m' /\ identity_tables m' /\
    forall x, ~ in_statics x -> m' x = m x.
Proof.
  intros Hz. unfold create_mappings. rewrite flags_union_spec. change (Z.lor WRITABLE PRESENT) with 3.
  pose proof Hs as [(H40 & H4a & H41) (H30 & H3a & H31) (H20 & H2a & H21) A1 A2 A3].
  unfold ranges_disjoint in *.
  set (m1 := store64 m PML4T (Z.lor PDPT 3)).
  assert (Hm1 : forall x, ~ (PML4T <= x < PML4T + 8) -> m1 x = m x)
    by (intros x Hx; apply store_le_outside; lia).
  destruct (fill_directories_spec 10 0 m1) as (m' & -> & Hf & Hk); [lia..| split; lia |].
  exists m'. split; [reflexivity|]. split; [|intros x Hx; unfold in_statics in Hx; rewrite Hk, Hm1 by lia; reflexivity].
  split; [exact Hf | |].
  - intros i Hi. rewrite (load64_agree m' m1) by (intros x Hx; apply Hk; lia).
    destruct (Z.eqb_spec i 0) as [->|Hne].
    + rewrite Z.add_0_r. apply load64_store64_same. apply entry_bound; [now apply table_frame | reflexivity].
    + rewrite (load64_agree m1 m) by (intros x Hx; apply Hm1; lia). now apply Hz.
  - intros i Hi. rewrite (load64_agree m' m1) by (intros x Hx; apply Hk; lia).
    rewrite (load64_agree m1 m) by (intros x Hx; apply Hm1; lia). apply Hz. lia.
Qed.

(** ** The translation they define *)

Abbreviation flat_memory := (mkPhysicalOffset 0).
Abbreviation root_table := (mkMappedPageTable flat_memory PML4T).

Lemma flat_memory_ok : pm_ok flat_memory.
Proof. repeat split; discriminate. Qed.

Lemma next_identity lvl f :
  valid_frame f -> next_of_entry flat_memory lvl (Z.lor f 3) = Some f.
Proof.
  intros Hf. unfold next_of_entry. rewrite pte_huge_lor by assumption.
  change (pte_huge 3) with false. rewrite andb_false_r.
  replace (Z.lor f 3 =? 0) with false by (symmetry; apply Z.eqb_neq; intros [_ E]%Z.lor_eq_0_iff; discriminate).
  rewrite pte_frame_lor by (assumption || reflexivity). reflexivity.
Qed.

Lemma identity_walk m i4 i3 :
  identity_tables m -> 0 <= i4 < 512 -> 0 <= i3 < 512 ->
  walk flat_memory m PML4T 4 [i4; i3] = if (i4 =? 0) && (i3 <? 10) then Some (PDT + 4096 * i3) else None.
Proof.
  intros [[Hp _] H4 H3] Hi4 Hi3. cbn [walk]. unfold next_table. rewrite H4 by assumption.
  destruct (Z.eqb_spec i4 0) as [->|Hne]; [|reflexivity]. cbn [andb].
  destruct Hs as [_ (? & ? & ?) _ _ _ _]. rewrite next_identity by now apply table_frame.
  destruct (Z.ltb_spec i3 10).
  - rewrite Hp, next_identity by (lia || apply pdt_frame; lia). reflexivity.
  - rewrite H3 by lia. reflexivity.
Qed.

(** The indices of an address from its parts. *)
Lemma identity_indices a :
  0 <= a < 2 ^ 48 ->
  l4_index a = a / 2 ^ 39 /\ l3_index a = (a / 2 ^ 30) mod 512 /\ l2_index a = (a / 2 ^ 21) mod 512.
Proof.
  intros Ha. unfold l4_index, l3_index, l2_index. rewrite !get_bits_spec by lia.
  change (2 ^ (48 - 39)) with 512. change (2 ^ (39 - 30)) with 512. change (2 ^ (30 - 21)) with 512.
  rewrite (Z.mod_small (a / 2 ^ 39)); [auto|].
  split; [apply Z.div_pos; lia | apply Z.div_lt_upper_bound; lia].
Qed.

Lemma identity_translate m a :
  identity_tables m -> 0 <= a < 2 ^ 48 -> a mod (2 * MIB) = 0 ->
  translate_2m root_table m (mkPage Size2MiB a)
  = Ret (if a <? 10 * GIB then Ok (mkFrame Size2MiB a, 0x83) else Err NotMapped).
Proof.
  intros Hm Ha Hal. destruct (identity_indices a Ha) as (E4 & E3 & E2).
  assert (Hw : in_width 64 a) by (unfold in_width; lia).
  destruct (paths_ok a Hw) as (_ & _ & _ & H4 & H3 & H2 & _). unfold idx_ok in *.
  pose proof (identity_walk m (l4_index a) (l3_index a) Hm H4 H3) as Hwalk.
  assert (Hlow : (l4_index a =? 0) && (l3_index a <? 10) = (a <? 10 * GIB)).
  { rewrite E4, E3. unfold GIB, MIB, KIB. Z.to_euclidean_division_equations; lia. }
  rewrite Hlow in Hwalk. destruct (Z.ltb_spec a (10 * GIB)) as [Hlt|Hge].
  - apply (translate_2m_lookup flat_memory PML4T flat_memory_ok); [exact Hw|].
    unfold lookup2m, entry_at, dir_path. cbn [page_address]. rewrite Hwalk.
    assert (Hi3 : 0 <= l3_index a < 10) by lia. destruct (huge_entry_eq (l3_index a) (l2_index a) Hi3 H2) as [Ee Hf].
    rewrite (fd_pdt _ _ (it_filled _ Hm)), Ee by lia.
    assert (Ea : l3_index a * GIB + l2_index a * (2 * MIB) = a).
    { rewrite E3, E2. unfold GIB, MIB, KIB in *. Z.to_euclidean_division_equations; lia. }
    rewrite Ea in *. rewrite present_lor, pte_huge_lor, pte_frame_lor by (assumption || reflexivity).
    change (Z.testbit 0x83 0 && pte_huge 0x83) with true. cbn iota.
    rewrite Z.land_lor_distr_l, (valid_frame_flags a Hf). cbn [SIZE]. change 0x200000 with (2 * MIB). rewrite Hal, Z.sub_0_r.
    reflexivity.
  - unfold translate_2m. cbn [walker pml4t page_address]. rewrite entry_addr_ok by exact H4. cbn [mbind outcome_bind].
    rewrite (get_pagetable_walk flat_memory PML4T flat_memory_ok m [] PML4T) by (reflexivity || cbn; lia).
    cbn [mbind outcome_bind app]. change [l4_index a; l3_index a] with ([l4_index a] ++ [l3_index a]) in Hwalk.
    rewrite walk_app in Hwalk. destruct (walk flat_memory m PML4T 4 [l4_index a]) as [t3|] eqn:E; [|reflexivity].
    rewrite entry_addr_ok by exact H3. cbn [mbind outcome_bind].
    rewrite (get_pagetable_walk flat_memory PML4T flat_memory_ok m [l4_index a] t3) by (assumption || cbn; lia).
    rewrite walk_app, E. cbn [mbind outcome_bind]. rewrite Hwalk. reflexivity.
Qed.

(** The code segment of stage 3 is a 64-bit one. *)
Lemma stage3_gdt_spec :
  exists code data l, stage3_gdt = Ret (mkGdt (0 :: code :: data :: l) 3) /\ Z.testbit code 53 = true.
Proof.
  unfold stage3_gdt, long_mode_code_segment, long_mode_data_segment, flags_of. cbn [fold_left].
  rewrite !flags_union_spec. set (fd := Z.lor _ _). set (fc := Z.lor _ _).
  destruct (two_segments_spec fc 0 fd 0) as (code & data & l & E & (_ & _ & C3) & _);
    try reflexivity; try lia; [split; [discriminate | reflexivity]..|].
  exists code, data, l. split; [exact E|].
  pose proof (f_equal (fun z => Z.testbit z 1) C3) as T. cbn beta in T. rewrite !field_bits in T by lia. exact T.
Qed.

(** Words pushed in two halves, the upper one zero, are popped. *)
Lemma pop64_pair p v w : pop64 (mkStack p (v :: 0 :: w)) = (v, mkStack (ucast 32 (ucast 32 (p + 4) + 4)) w).
Proof. unfold pop64, pop32. cbn [known_words esp hd tl]. f_equal. lia. Qed.

Lemma jump_to_stage4_arguments info entry c stack :
  in_width 32 info -> in_width 32 entry ->
  jump_to_stage4 info entry c stack = (mov_es (mov_ds (mov_ss (CS_write c 0x8) 0) 0) 0, (entry, info)).
Proof.
  intros Hi He. unfold jump_to_stage4, push32. cbn [known_words esp]. change (ucast 32 0) with 0.
  assert (Hcast : ucast 32 info = info /\ ucast 32 entry = entry) by (unfold ucast; split; now apply Z.mod_small).
  destruct Hcast as [-> ->]. now rewrite !pop64_pair.
Qed.

(** The run of [start]. *)
Lemma stage3_run `{UW : UartWorld W 0x3F8} fuel info entry c stack (con : console W) m :
  empty_tables m -> in_width 32 info -> in_width 32 entry -> (polls_bound < fuel)%nat -> console_ok con ->
  exists c' con' m', stage3_start PML4T PDPT PDT fuel info entry c stack con m = Ret (c', (entry, info), con', m') /\
    printed [text "Stage3"; newline] con con' /\
    cpu_interrupts c' = false /\ CS_read c' = 8 * 1 /\
    cpu_cr3 c' = PML4T /\ cpu_cr0 c' = Z.lor (cpu_cr0 c) (2 ^ 31) /\ cpu_cr4 c' = Z.lor (cpu_cr4 c) (2 ^ 5) /\
    cpu_msr c' EFER_NUM = Z.lor (cpu_msr c EFER_NUM) EFER_LONG_MODE_ENABLE /\
    (exists code, cpu_gdt c' !! 1%nat = Some code /\ Z.testbit code 53 = true) /\ identity_tables m' /\
    forall x, ~ in_statics x -> m' x = m x.
Proof.
  intros Hz Hi He Hf Hcon. unfold stage3_start.
  destruct (println_spec fuel [text "Stage3"] con Hf Hcon) as (con' & -> & Hprinted). rewrite bind_Ret.
  unfold init_and_switch_to_long_mode.
  destruct (create_mappings_spec m Hz) as (m' & -> & Hm & Hkeep). cbn [mbind outcome_bind].
  destruct stage3_gdt_spec as (code & data & l & -> & Hcode). cbn [mbind outcome_bind].
  unfold clear_interrupts_and_load, gdt_load, gdt_descriptor_size. cbn [gdt_size].
  change (umul 64 3 8) with (Ret 24 : outcome Z). cbn [mbind outcome_bind].
  change (usub 64 24 1) with (Ret 23 : outcome Z). cbn [mbind outcome_bind].
  change (Z.to_nat ((ucast 16 23 + 1) / 8)) with 3%nat. cbn [gdt_entries take].
  rewrite jump_to_stage4_arguments by assumption.
  do 3 eexists. split; [reflexivity|]. destruct (so_pml4t Hs) as (? & ? & ?). split; [exact Hprinted|].
  split; [reflexivity|]. split; [apply load_segment_selector|].
  split; [cbn; unfold ucast; apply Z.mod_small; lia|]. do 3 (split; [reflexivity|]).
  split; [exists code; split; [reflexivity | exact Hcode]|]. split; [exact Hm | exact Hkeep].
Qed.

(** C10: stage 3 ends in long mode with paging on, on a page table that maps every
    address below 10 GiB to itself, writable, with huge pages, and nothing else
    of the lower half; memory outside its three tables and the other control bits are
    unchanged, interrupts are off, and it calls the entry point of stage 4 with the
    boot information through a 64-bit code segment.  Its message is on the serial
    line. *)
Theorem stage3_start_correct `{UW : UartWorld W 0x3F8} fuel info entry c stack (con : console W) m :
  empty_tables m -> in_width 32 info -> in_width 32 entry -> (polls_bound < fuel)%nat -> console_ok con ->
  exists c' con' m', stage3_start PML4T PDPT PDT fuel info entry c stack con m = Ret (c', (entry, info), con', m') /\
    printed [text "Stage3"; newline] con con' /\
    cpu_interrupts c' = false /\ CS_read c' = 8 * 1 /\
    cpu_cr3 c' = PML4T /\ cpu_cr0 c' = Z.lor (cpu_cr0 c) (2 ^ 31) /\ cpu_cr4 c' = Z.lor (cpu_cr4 c) (2 ^ 5) /\
    cpu_msr c' EFER_NUM = Z.lor (cpu_msr c EFER_NUM) EFER_LONG_MODE_ENABLE /\
    (exists code, cpu_gdt c' !! 1%nat = Some code /\ Z.testbit code 53 = true) /\
    (forall x, ~ in_statics x -> m' x = m x) /\
    forall a, 0 <= a < 2 ^ 48 -> a mod (2 * MIB) = 0 ->
      translate_2m root_table m' (mkPage Size2MiB a)
      = Ret (if a <? 10 * GIB then Ok (mkFrame Size2MiB a, 0x83) else Err NotMapped).
Proof.
  intros Hz Hi He Hf Hcon.
  destruct (stage3_run fuel info entry c stack con m Hz Hi He Hf Hcon)
    as (c' & con' & m' & E & Hp & H1 & H2 & H3 & H4 & H5 & H6 & H7 & Hm & Hkeep).
  exists c', con', m'. repeat (split; [assumption|]). intros a Ha Hal. now apply identity_translate.
Qed.
End Tables.

(** *** Witness *)

Section Witness.
#[local] Existing Instances ref_bit_field ref_bit_field_ok ref_bitflags ref_bitflags_ok line_ports line_uart.

Lemma stage3_start_correct_witness :
  exists c' con' m', stage3_start 0x101000 0x102000 0x103000 4 0x7000 0x120000 real_mode_cpu (mkStack 0x7afc [0x7000]) (mkConsole None (mkLine 2 [] true)) (fun _ => 0)
      = Ret (c', (0x120000, 0x7000), con', m') /\
    sent (c_world con') = text "Stage3" ++ newline /\
    cpu_cr3 c' = 0x101000 /\ Z.testbit (cpu_cr0 c') 31 = true /\
    translate_2m (mkMappedPageTable (mkPhysicalOffset 0) 0x101000) m' (mkPage Size2MiB 0x40200000)
    = Ret (Ok (mkFrame Size2MiB 0x40200000, 0x83)).
Proof.
  destruct (@stage3_start_correct ref_bitflags ref_bitflags_ok ref_bit_field ref_bit_field_ok 0x101000 0x102000 0x103000) with (UW := line_uart) (fuel := 4%nat) (info := 0x7000) (entry := 0x120000) (c := real_mode_cpu)
    (stack := mkStack 0x7afc [0x7000]) (con := mkConsole None (mkLine 2 [] true)) (m := fun _ : Z => 0)
    as (c' & con' & m' & E & Hp & _ & _ & E3 & E0 & _ & _ & _ & _ & Ht).
  - split; repeat split; try reflexivity; unfold ranges_disjoint; lia.
  - intros i Hi. split; reflexivity.
  - split; cbn; lia.
  - split; cbn; lia.
  - apply Nat.ltb_lt. reflexivity.
  - exact I.
  - exists c', con', m'. split; [exact E|]. split; [apply Hp|]. split; [exact E3|]. split; [rewrite E0; reflexivity|].
    exact (Ht 0x40200000 ltac:(lia) eq_refl).
Defined.
End Witness.
