(* ===== verification/Pic8259.v ===== *)
(** The interrupt controllers: [kernel/src/interrupts/hardware/pic8259.rs].

    The driver talks to two cascaded 8259A chips through their command and data
    ports.  What it relies on is the datasheet: an initialisation command word
    on the command port, three more words on the data port, then the data port
    is the interrupt mask and the command port takes end-of-interrupt commands. *)
From Stdlib Require Import ZArith Lia.
From stdpp Require Import base tactics numbers list sets.
From S2P Require Import Prelude Ports.
#[local] Open Scope Z_scope.

(** ** The driver *)

Definition ICW1_ICW4 : Z := 0x1.
Definition ICW1_INIT : Z := 0x10.
Definition ICW4_MODE8086 : Z := 0x1.
Definition END_OF_INTERRUPT : Z := 0x20.

Definition MASTER_PIC_BASE : Z := 0x20.
Definition SLAVE_PIC_BASE : Z := 0xa0.

Record Pic := Pic_new { command : Port u8; data : Port u8 }.

Record ChainedPics := mkChainedPics { master : Pic; slave : Pic }.

Definition ChainedPics_new : ChainedPics :=
  mkChainedPics (Pic_new (Port_new MASTER_PIC_BASE) (Port_new (MASTER_PIC_BASE + 1)))
                (Pic_new (Port_new SLAVE_PIC_BASE) (Port_new (SLAVE_PIC_BASE + 1))).

Section Pic8259.
Context `{IO : IoPorts W}.

Definition read_command (p : Pic) (w : W) : Z * W := Port_read (command p) w.
Definition write_command (p : Pic) (v : Z) (w : W) : W := Port_write (command p) v w.
Definition read_data (p : Pic) (w : W) : Z * W := Port_read (data p) w.
Definition write_data (p : Pic) (v : Z) (w : W) : W := Port_write (data p) v w.

Definition pics_disable (c : ChainedPics) (w : W) : W :=
  let w := write_data (master c) 0xff w in
  write_data (slave c) 0xff w.

Definition pics_init (c : ChainedPics) (master_offset slave_offset : Z) (w : W) : W :=
  let '(master_mask, w) := read_data (master c) w in
  let '(slave_mask, w) := read_data (slave c) w in
  let w := io_wait (write_command (master c) (Z.lor ICW1_INIT ICW1_ICW4) w) in
  let w := io_wait (write_command (slave c) (Z.lor ICW1_INIT ICW1_ICW4) w) in
  let w := io_wait (write_data (master c) master_offset w) in
  let w := io_wait (write_data (slave c) slave_offset w) in
  let w := io_wait (write_data (master c) 0x4 w) in
  let w := io_wait (write_data (slave c) 0x2 w) in
  let w := io_wait (write_data (master c) ICW4_MODE8086 w) in
  let w := io_wait (write_data (slave c) ICW4_MODE8086 w) in
  let w := write_data (master c) master_mask w in
  write_data (slave c) slave_mask w.

Definition notify_end_of_interrupt (c : ChainedPics) (irq_number : Z) (w : W) : W :=
  let w := if 0x8 <=? irq_number then write_command (slave c) END_OF_INTERRUPT w else w in
  write_command (master c) END_OF_INTERRUPT w.
End Pic8259.

(** ** The chip, as its datasheet describes it *)

(** Which word the data port takes next. *)
Inductive pic_stage := ExpectIcw2 | ExpectIcw3 | ExpectIcw4 | Ready.

Record chip := mkChip {
  stage : pic_stage;
  vector_base : Z;      (** upper five bits of ICW2 *)
  cascade : Z;          (** ICW3 *)
  mode : Z;             (** ICW4 *)
  imr : Z;              (** interrupt mask register *)
  isr : Z;              (** in-service register *)
}.

(** Clears the lowest set bit: line 0 has the highest priority. *)
Definition clear_highest_priority (r : Z) : Z := Z.land r (r - 1).

(** ICW1 in cascade mode with ICW4 announced, and the non-specific end of
    interrupt; the other command words are not used. *)
Definition chip_command (v : Z) (c : chip) : chip :=
  if v =? 0x11 then mkChip ExpectIcw2 0 0 0 0 0
  else if v =? 0x20 then mkChip (stage c) (vector_base c) (cascade c) (mode c) (imr c) (clear_highest_priority (isr c))
  else c.

Definition chip_data (v : Z) (c : chip) : chip :=
  match stage c with
  | ExpectIcw2 => mkChip ExpectIcw3 (Z.land v 0xf8) (cascade c) (mode c) (imr c) (isr c)
  | ExpectIcw3 => mkChip ExpectIcw4 (vector_base c) v (mode c) (imr c) (isr c)
  | ExpectIcw4 => mkChip Ready (vector_base c) (cascade c) v (imr c) (isr c)
  | Ready => mkChip Ready (vector_base c) (cascade c) (mode c) v (isr c)
  end.

(** The vector under which line [irq] of the chip is delivered. *)
Definition irq_vector (c : chip) (irq : Z) : Z := vector_base c + irq.

(** A world with the two chips at their ports. *)
Class PicWorld (W : Type) `{IO : IoPorts W} := {
  chips : W -> chip * chip;
  pw_master_command v w : chips (port_out u8 0x20 v w) = (chip_command v (chips w).1, (chips w).2);
  pw_master_data v w : chips (port_out u8 0x21 v w) = (chip_data v (chips w).1, (chips w).2);
  pw_slave_command v w : chips (port_out u8 0xa0 v w) = ((chips w).1, chip_command v (chips w).2);
  pw_slave_data v w : chips (port_out u8 0xa1 v w) = ((chips w).1, chip_data v (chips w).2);
  pw_wait v w : chips (port_out u8 0x80 v w) = chips w;
  pw_read_master w : stage (chips w).1 = Ready ->
    (port_in u8 0x21 w).1 = imr (chips w).1 /\ chips (port_in u8 0x21 w).2 = chips w;
  pw_read_slave w : stage (chips w).2 = Ready ->
    (port_in u8 0xa1 w).1 = imr (chips w).2 /\ chips (port_in u8 0xa1 w).2 = chips w;
}.

Create Rewrite HintDb pic.
#[export] Hint Rewrite @pw_master_command @pw_master_data @pw_slave_command @pw_slave_data @pw_wait : pic.

Section PicTheorems.
Context `{PW : PicWorld W}.

(** The driver's writes act on the chips. *)
Lemma write_command_master v w : chips (write_command (master ChainedPics_new) v w) = (chip_command v (chips w).1, (chips w).2).
Proof. apply pw_master_command. Qed.
Lemma write_data_master v w : chips (write_data (master ChainedPics_new) v w) = (chip_data v (chips w).1, (chips w).2).
Proof. apply pw_master_data. Qed.
Lemma write_command_slave v w : chips (write_command (slave ChainedPics_new) v w) = ((chips w).1, chip_command v (chips w).2).
Proof. apply pw_slave_command. Qed.
Lemma write_data_slave v w : chips (write_data (slave ChainedPics_new) v w) = ((chips w).1, chip_data v (chips w).2).
Proof. apply pw_slave_data. Qed.
Lemma io_wait_chips w : chips (io_wait w) = chips w.
Proof. apply pw_wait. Qed.

Lemma pics_init_spec master_offset slave_offset w :
  stage (chips w).1 = Ready -> stage (chips w).2 = Ready ->
  chips (pics_init ChainedPics_new master_offset slave_offset w) =
    (mkChip Ready (Z.land master_offset 0xf8) 0x4 0x1 (imr (chips w).1) 0,
     mkChip Ready (Z.land slave_offset 0xf8) 0x2 0x1 (imr (chips w).2) 0).
Proof.
  intros Hm Hs. unfold pics_init, read_data, Port_read, read_from_register. cbn [master slave data address ChainedPics_new].
  change (MASTER_PIC_BASE + 1) with 0x21. change (SLAVE_PIC_BASE + 1) with 0xa1.
  destruct (pw_read_master w Hm) as [E1 E2]. destruct (port_in u8 33 w) as [mm w1]. cbn [fst snd] in *.
  rewrite <- E2 in Hs. destruct (pw_read_slave w1 Hs) as [E3 E4].
  destruct (port_in u8 161 w1) as [ms w2]. cbn [fst snd] in *. rewrite E2 in E3, E4. subst mm ms.
  rewrite <- E4. clear. change (mkChainedPics _ _) with ChainedPics_new.
  repeat (rewrite ?write_data_slave, ?write_data_master, ?write_command_slave, ?write_command_master, ?io_wait_chips; cbn [fst snd]).
  reflexivity.
Qed.

(** [ChainedPics::init] programs both controllers: whatever they were doing
    before, each ends up ready, with the requested vector base, the slave
    announced on line 2 of the master and told its identity, in 8086 mode, with
    nothing in service and the mask it had at the beginning; line [i] of the
    master and of the slave are delivered at [offset + i]. *)
Theorem pics_init_correct master_offset slave_offset w i :
  stage (chips w).1 = Ready -> stage (chips w).2 = Ready ->
  in_width 8 master_offset -> in_width 8 slave_offset -> master_offset mod 8 = 0 -> slave_offset mod 8 = 0 ->
  let '(m, s) := chips (pics_init ChainedPics_new master_offset slave_offset w) in
  irq_vector m i = master_offset + i /\ irq_vector s i = slave_offset + i /\
  stage m = Ready /\ stage s = Ready /\ cascade m = 2 ^ 2 /\ cascade s = 2 /\ mode m = 1 /\ mode s = 1 /\
  imr m = imr (chips w).1 /\ imr s = imr (chips w).2 /\ isr m = 0 /\ isr s = 0.
Proof.
  intros Hm Hs Wm Ws Am As. rewrite pics_init_spec by assumption. unfold irq_vector.
  cbn [stage vector_base cascade mode imr isr].
  assert (Hland : forall x, in_width 8 x -> x mod 8 = 0 -> Z.land x 0xf8 = x).
  { intros x Hx Ax. change 0xf8 with (unot 8 (2 ^ 3 - 1)). rewrite land_unot_mask by (unfold in_width in *; lia).
    change (2 ^ 3) with 8. lia. }
  rewrite !Hland by assumption. repeat split; reflexivity.
Qed.

(** What does not depend on the ports of the controllers and the wait port. *)
Definition pic_blind {X} (f : W -> X) : Prop :=
  forall p v w, p ∈ [0x20; 0x21; 0x80; 0xa0; 0xa1] -> f (port_out u8 p v w) = f w /\ f (port_in u8 p w).2 = f w.

Section Blind.
Context {X : Type} (f : W -> X) (Hf : pic_blind f).

Lemma pic_out_blind p v w : p ∈ [0x20; 0x21; 0x80; 0xa0; 0xa1] -> f (port_out u8 p v w) = f w.
Proof. intros Hp. now apply Hf. Qed.

Lemma pics_init_blind master_offset slave_offset w : f (pics_init ChainedPics_new master_offset slave_offset w) = f w.
Proof.
  unfold pics_init, write_data, write_command, read_data, io_wait, Port_read, read_from_register, Port_write, write_to_register.
  cbn [master slave command data address ChainedPics_new].
  change (MASTER_PIC_BASE + 1) with 0x21. change (SLAVE_PIC_BASE + 1) with 0xa1.
  pose proof (proj2 (Hf 0x21 0 w ltac:(set_solver))) as E1. destruct (port_in u8 0x21 w) as [mm w1].
  pose proof (proj2 (Hf 0xa1 0 w1 ltac:(set_solver))) as E2. destruct (port_in u8 0xa1 w1) as [ms w2].
  cbn [snd] in E1, E2. rewrite !pic_out_blind by set_solver. congruence.
Qed.

Lemma notify_blind irq w : f (notify_end_of_interrupt ChainedPics_new irq w) = f w.
Proof.
  unfold notify_end_of_interrupt, write_command, Port_write, write_to_register. cbn [master slave command address ChainedPics_new].
  destruct (0x8 <=? irq); now rewrite !pic_out_blind by set_solver.
Qed.
End Blind.

Lemma notify_spec irq w :
  chips (notify_end_of_interrupt ChainedPics_new irq w) =
    (chip_command END_OF_INTERRUPT (chips w).1,
     if 0x8 <=? irq then chip_command END_OF_INTERRUPT (chips w).2 else (chips w).2).
Proof.
  unfold notify_end_of_interrupt. rewrite write_command_master.
  destruct (0x8 <=? irq); [now rewrite write_command_slave | reflexivity].
Qed.
End PicTheorems.
