(* ===== verification/KernelInterrupts.v ===== *)
(** Interrupts in the kernel: [kernel/src/interrupts/mod.rs], and the handler
    table of [stage4/src/interrupts.rs].

    [init] loads the segments, the task state, the interrupt table, programs the
    interrupt controllers and switches interrupts on.  Where the linker put the
    handlers' stubs, the task state segment and the stack for double faults are
    parameters. *)
From Stdlib Require Import ZArith Lia.
From stdpp Require Import base tactics numbers list strings.
From S2P Require Import Prelude Crates Memory Descriptors Processor SpinLock Ports Fmt Serial Pic8259.
#[local] Open Scope Z_scope.

Definition MASTER_PIC_OFFSET : Z := 0x20.
Definition SLAVE_PIC_OFFSET : Z := MASTER_PIC_OFFSET + 8.

Inductive InterruptIndex := Timer | Keyboard.

Definition as_u8 (i : InterruptIndex) : Z := match i with Timer => 0 | Keyboard => 1 end.
Definition as_usize (i : InterruptIndex) : Z := as_u8 i.
Definition as_remapped_idt_number (i : InterruptIndex) : outcome Z := uadd 8 (as_u8 i) MASTER_PIC_OFFSET.

(** ** The fields of [InterruptDescriptorTable], in order *)

Inductive idt_field :=
  | divide_error | debug | non_maskable_interrupt | breakpoint | overflow | bound_range_exceeded | invalid_opcode
  | device_not_available | double_fault | coprocessor_segment_overrun | invalid_tss | segment_not_present
  | stack_segment_fault | general_protection_fault | page_fault | idt_reserved_1 | x87_floating_point | alignment_check
  | machine_check | simd_floating_point | virtualization | control_protection_exception | idt_reserved_2 (i : Z)
  | hypervisor_injection_exception | vmm_communication_exception | security_exception | idt_reserved_3 | interrupts (i : Z).

(** The vector of a field; indexing an array field is checked. *)
Definition field_vector (f : idt_field) : outcome Z :=
  match f with
  | divide_error => Ret 0 | debug => Ret 1 | non_maskable_interrupt => Ret 2 | breakpoint => Ret 3 | overflow => Ret 4
  | bound_range_exceeded => Ret 5 | invalid_opcode => Ret 6 | device_not_available => Ret 7 | double_fault => Ret 8
  | coprocessor_segment_overrun => Ret 9 | invalid_tss => Ret 10 | segment_not_present => Ret 11
  | stack_segment_fault => Ret 12 | general_protection_fault => Ret 13 | page_fault => Ret 14 | idt_reserved_1 => Ret 15
  | x87_floating_point => Ret 16 | alignment_check => Ret 17 | machine_check => Ret 18 | simd_floating_point => Ret 19
  | virtualization => Ret 20 | control_protection_exception => Ret 21
  | idt_reserved_2 i => if (0 <=? i) && (i <? 6) then Ret (22 + i) else Panic IndexOutOfBounds
  | hypervisor_injection_exception => Ret 28 | vmm_communication_exception => Ret 29 | security_exception => Ret 30
  | idt_reserved_3 => Ret 31
  | interrupts i => if (0 <=? i) && (i <? 256 - 32) then Ret (32 + i) else Panic IndexOutOfBounds
  end.

(** ** Handlers and their stubs *)

Inductive handler :=
  | divide_by_zero_handler | debug_handler | nmi_handler | breakpoint_handler | invalid_opcode_handler
  | device_not_available_handler | invalid_tss_handler | segment_not_present_handler | stack_segment_fault_handler
  | page_fault_handler | alignment_check_handler | double_fault_handler | timer_interrupt_handler
  | keyboard_interrupt_handler.

#[global] Instance handler_eq_dec : EqDecision handler.
Proof. solve_decision. Defined.

(** [handler_without_error_code!(h)] and [handler_with_error_code!(h)] *)
Inductive stub := without_error_code (h : handler) | with_error_code (h : handler).

Section Tables.
Context `{BF : BitField} `{FL : Bitflags}.
(** Link addresses. *)
Context (stub_address : stub -> Z) (tss_address stack_address : Z).

(** [idt.f.set_handler_function(s)]; [cs] is what the processor's register holds. *)
Definition set_gate (cs : Z) (f : idt_field) (s : stub) (idt : list InterruptDescriptor) : outcome (list InterruptDescriptor) :=
  v ← field_vector f;
  d ← index idt v;
  Ret (<[Z.to_nat v := set_handler_function d (stub_address s) cs]> idt).

(** [.set_interrupt_stack_index(i)] on the options of the gate. *)
Definition set_gate_stack (f : idt_field) (i : Z) (idt : list InterruptDescriptor) : outcome (list InterruptDescriptor) :=
  v ← field_vector f;
  d ← index idt v;
  o ← set_interrupt_stack_index (options d) i;
  Ret (<[Z.to_nat v := mkInterruptDescriptor (pointer_low d) (segment_selector d) o (pointer_middle d) (pointer_high d) (reserved d)]> idt).

(** The table of the kernel. *)
Definition kernel_idt (cs : Z) : outcome (list InterruptDescriptor) :=
  idt ← set_gate cs divide_error (without_error_code divide_by_zero_handler) InterruptDescriptorTable_default;
  idt ← set_gate cs debug (without_error_code debug_handler) idt;
  idt ← set_gate cs non_maskable_interrupt (without_error_code nmi_handler) idt;
  idt ← set_gate cs breakpoint (without_error_code breakpoint_handler) idt;
  idt ← set_gate cs invalid_opcode (without_error_code invalid_opcode_handler) idt;
  idt ← set_gate cs device_not_available (without_error_code device_not_available_handler) idt;
  idt ← set_gate cs invalid_tss (with_error_code invalid_tss_handler) idt;
  idt ← set_gate cs segment_not_present (with_error_code segment_not_present_handler) idt;
  idt ← set_gate cs stack_segment_fault (with_error_code stack_segment_fault_handler) idt;
  idt ← set_gate cs page_fault (with_error_code page_fault_handler) idt;
  idt ← set_gate cs alignment_check (with_error_code alignment_check_handler) idt;
  idt ← set_gate cs double_fault (with_error_code double_fault_handler) idt;
  idt ← set_gate_stack double_fault (ucast 16 DOUBLE_FAULT_IST_IDX) idt;
  idt ← set_gate cs (interrupts (as_usize Timer)) (without_error_code timer_interrupt_handler) idt;
  set_gate cs (interrupts (as_usize Keyboard)) (without_error_code keyboard_interrupt_handler) idt.

(** The table of stage 4. *)
Definition stage4_idt (cs : Z) : outcome (list InterruptDescriptor) :=
  idt ← set_gate cs divide_error (without_error_code divide_by_zero_handler) InterruptDescriptorTable_default;
  idt ← set_gate cs breakpoint (without_error_code breakpoint_handler) idt;
  idt ← set_gate cs invalid_opcode (without_error_code invalid_opcode_handler) idt;
  idt ← set_gate cs page_fault (with_error_code page_fault_handler) idt;
  idt ← set_gate cs alignment_check (with_error_code alignment_check_handler) idt;
  set_gate cs double_fault (with_error_code double_fault_handler) idt.

Definition STACK_SIZE : Z := SIZE Size4KiB * 5.

Definition kernel_tss : outcome TaskStateSegment :=
  let tss := TaskStateSegment_new in
  stack_end ← virt_add stack_address STACK_SIZE;
  Ret (mkTss (reserved_1 tss) (privilege_stack_table tss) (reserved_2 tss)
         (<[Z.to_nat DOUBLE_FAULT_IST_IDX := stack_end]> (interrupt_stack_table tss))
         (reserved_3 tss) (reserved_4 tss) (iomap_base tss)).

(** The table with the selectors of the task state, the code and the data. *)
Definition kernel_gdt : outcome (GlobalDescriptorTable * Z * Z * Z) :=
  tss ← new_tss_segment tss_address;
  '(tss_selector, gdt) ← add_entry Gdt_new tss;
  code ← kernel_code_segment;
  '(kernel_code_selector, gdt) ← add_entry gdt code;
  data ← kernel_data_segment;
  '(kernel_data_selector, gdt) ← add_entry gdt data;
  Ret (gdt, tss_selector, kernel_code_selector, kernel_data_selector).

Section Init.
Context (idt_address : Z) `{IO : IoPorts W}.

(** The processor, the table its interrupt table register names, the lock around
    the interrupt controllers, and the serial line with the devices. *)
Record kernel_machine := mkKernel {
  km_cpu : cpu;
  km_idt : list InterruptDescriptor;
  km_pics : @Mutex ChainedPics;
  km_console : console W;
}.

Definition km_world (st : kernel_machine) : W := c_world (km_console st).

(** [print!] in the kernel. *)
Definition machine_print (fuel : nat) (args : list (list Z)) (st : kernel_machine) : outcome kernel_machine :=
  c ← console_print fuel args (km_console st); Ret (mkKernel (km_cpu st) (km_idt st) (km_pics st) c).

Definition machine_println (fuel : nat) (args : list (list Z)) (st : kernel_machine) : outcome kernel_machine :=
  machine_print fuel (args ++ [newline]) st.

(** [PICS.lock()] for one statement. *)
Definition with_pics (fuel : nat) (f : ChainedPics -> W -> W) (st : kernel_machine) : outcome kernel_machine :=
  pics ← lock fuel (km_pics st);
  Ret (mkKernel (km_cpu st) (km_idt st) (guard_drop pics)
         (mkConsole (c_serial (km_console st)) (f (SpinLock.inner pics) (km_world st)))).

(** [InterruptDescriptorTable::load]: prints the address of the table; the result is
    the table that is in force afterwards. *)
Definition InterruptDescriptorTable_load (fuel : nat) (idt : list InterruptDescriptor) (con : console W) :
    outcome (list InterruptDescriptor * console W) :=
  con ← println fuel [text "Idt addr: "; fmt_hex idt_address] con;
  Ret (idt, con).

Definition idt_load (fuel : nat) (idt : list InterruptDescriptor) (st : kernel_machine) : outcome kernel_machine :=
  '(idt, con) ← InterruptDescriptorTable_load fuel idt (km_console st);
  Ret (mkKernel (km_cpu st) idt (km_pics st) con).

(** [interrupts::init] of stage 4. *)
Definition stage4_interrupts_init (fuel : nat) (c : cpu) (con : console W) : outcome (list InterruptDescriptor * console W) :=
  idt ← stage4_idt (CS_read c);
  InterruptDescriptorTable_load fuel idt con.

Definition interrupts_init (fuel : nat) (st : kernel_machine) : outcome kernel_machine :=
  '(gdt, tss_selector, code_selector, data_selector) ← kernel_gdt;
  c ← gdt_load gdt (km_cpu st);
  let c := CS_write c code_selector in
  let c := DS_write c data_selector in
  let c := ES_write c data_selector in
  let c := SS_write c data_selector in
  let c := tss_load c tss_selector in
  idt ← kernel_idt (CS_read c);
  st ← idt_load fuel idt (mkKernel c (km_idt st) (km_pics st) (km_console st));
  st ← with_pics fuel (fun pics => pics_init pics MASTER_PIC_OFFSET SLAVE_PIC_OFFSET) st;
  Ret (mkKernel (enable (km_cpu st)) (km_idt st) (km_pics st) (km_console st)).

(** The two device handlers. *)
Definition timer_interrupt (fuel : nat) (st : kernel_machine) : outcome kernel_machine :=
  st ← machine_print fuel [text "."] st;
  n ← as_remapped_idt_number Timer;
  with_pics fuel (fun pics => notify_end_of_interrupt pics n) st.

Definition keyboard_interrupt (fuel : nat) (st : kernel_machine) : outcome kernel_machine :=
  let port : Port u8 := Port_new 0x60 in
  let '(scancode, w) := Port_read port (km_world st) in
  let st := mkKernel (km_cpu st) (km_idt st) (km_pics st) (mkConsole (c_serial (km_console st)) w) in
  st ← machine_print fuel [fmt_dec scancode] st;
  n ← as_remapped_idt_number Keyboard;
  with_pics fuel (fun pics => notify_end_of_interrupt pics n) st.
End Init.
End Tables.

(** ** What the processor expects *)

(** The exceptions for which the processor pushes an error code. *)
Definition pushes_error_code (v : Z) : bool := bool_decide (v ∈ [8; 10; 11; 12; 13; 14; 17; 21; 29; 30]).

Definition takes_error_code (s : stub) : bool := match s with with_error_code _ => true | without_error_code _ => false end.

(** The stubs the kernel registers, by vector. *)
Definition kernel_gates : list (Z * stub) :=
  [(0, without_error_code divide_by_zero_handler); (1, without_error_code debug_handler);
   (2, without_error_code nmi_handler); (3, without_error_code breakpoint_handler);
   (6, without_error_code invalid_opcode_handler); (7, without_error_code device_not_available_handler);
   (8, with_error_code double_fault_handler); (10, with_error_code invalid_tss_handler);
   (11, with_error_code segment_not_present_handler); (12, with_error_code stack_segment_fault_handler);
   (14, with_error_code page_fault_handler); (17, with_error_code alignment_check_handler);
   (32, without_error_code timer_interrupt_handler); (33, without_error_code keyboard_interrupt_handler)].

Fixpoint gate_of (gates : list (Z * stub)) (v : Z) : option stub :=
  match gates with
  | [] => None
  | (u, s) :: gates => if u =? v then Some s else gate_of gates v
  end.

(** Where a gate leads. *)
Definition gate_target (d : InterruptDescriptor) : Z :=
  pointer_low d + 2 ^ 16 * pointer_middle d + 2 ^ 32 * pointer_high d.

Section Theorems.
Context `{BF : BitField} `{BFS : !BitFieldSpec BF} `{FL : Bitflags} `{FLS : !BitflagsSpec FL}.

Lemma present_options : set_present default_options true = 0x8e00.
Proof.
  destruct (set_bit_spec default_options 15 true) as [_ Hb]; [vm_compute; split; congruence | lia |].
  apply Z.bits_inj'. intros i Hi. unfold set_present. rewrite Hb by lia.
  change 0x8e00 with (Z.lor default_options (2 ^ 15)). rewrite Z.lor_spec, Z.pow2_bits_eqb, (Z.eqb_sym 15) by lia.
  destruct (i =? 15); [now rewrite orb_true_r | now rewrite orb_false_r].
Qed.

Lemma double_fault_options : set_interrupt_stack_index 0x8e00 0 = Ret 0x8e01.
Proof.
  unfold set_interrupt_stack_index. change (uadd 16 0 1) with (@Ret Z 1). cbn [mbind outcome_bind].
  destruct (set_bits_spec 0x8e00 0 3 1) as (r & -> & _ & Hb); [lia..|]. f_equal.
  apply Z.bits_inj'. intros i Hi. rewrite Hb by lia. change 0x8e01 with (Z.lor 0x8e00 (2 ^ 0)).
  rewrite Z.lor_spec, Z.pow2_bits_eqb by lia.
  destruct (Z.ltb_spec i 3); [|replace (0 =? i) with false by lia; rewrite orb_false_r; now replace ((0 <=? i) && false) with false by lia].
  assert (i = 0 \/ i = 1 \/ i = 2) as [-> | [-> | ->]] by lia; reflexivity.
Qed.

Section Gates.
Context (stub_address : stub -> Z).

Definition gate (cs o : Z) (s : stub) : InterruptDescriptor :=
  mkInterruptDescriptor (ucast 16 (stub_address s)) cs o (ucast 16 (Z.shiftr (stub_address s) 16))
    (ucast 32 (Z.shiftr (stub_address s) 32)) 0.

Lemma gate_target_spec cs o s : in_width 64 (stub_address s) -> gate_target (gate cs o s) = stub_address s.
Proof.
  intros Hs. refine (proj1 (handler_address_roundtrip missing (stub_address s) cs Hs _)). vm_compute. split; congruence.
Qed.

Lemma set_gate_spec cs f s idt v :
  field_vector f = Ret v -> 0 <= v -> idt !! Z.to_nat v = Some missing ->
  set_gate stub_address cs f s idt = Ret (<[Z.to_nat v := gate cs 0x8e00 s]> idt).
Proof.
  intros Hf Hv Hi. unfold set_gate. rewrite Hf. cbn [mbind outcome_bind]. unfold index.
  rewrite (proj2 (Z.leb_le 0 v) Hv), Hi. cbn [mbind outcome_bind].
  unfold set_handler_function. cbn [options missing reserved]. now rewrite present_options.
Qed.

Lemma set_gate_stack_spec cs f s idt v :
  field_vector f = Ret v -> 0 <= v -> idt !! Z.to_nat v = Some (gate cs 0x8e00 s) ->
  set_gate_stack f (ucast 16 DOUBLE_FAULT_IST_IDX) idt = Ret (<[Z.to_nat v := gate cs 0x8e01 s]> idt).
Proof.
  intros Hf Hv Hi. unfold set_gate_stack. rewrite Hf. cbn [mbind outcome_bind]. unfold index.
  rewrite (proj2 (Z.leb_le 0 v) Hv), Hi. cbn [mbind outcome_bind gate options].
  change (ucast 16 DOUBLE_FAULT_IST_IDX) with 0. now rewrite double_fault_options.
Qed.

(** One registration after the other. *)
Ltac run_gate := first [eapply set_gate_spec | eapply set_gate_stack_spec]; [reflexivity | vm_compute; discriminate | reflexivity].
Ltac run_gates := repeat (eapply bind_run; [run_gate | cbn beta]).

(** A table as a function of the vector. *)
Definition idt_of (gates : list (Z * stub)) (o : Z -> Z) (cs : Z) : list InterruptDescriptor :=
  (fun v => match gate_of gates v with Some s => gate cs (o v) s | None => missing end) <$> seqZ 0 256.

Lemma kernel_idt_spec cs :
  kernel_idt stub_address cs = Ret (idt_of kernel_gates (fun v => if v =? 8 then 0x8e01 else 0x8e00) cs).
Proof. unfold kernel_idt. run_gates. etransitivity; [run_gate | reflexivity]. Qed.

Lemma stage4_idt_spec cs :
  stage4_idt stub_address cs =
    Ret (idt_of (filter (fun g => g.1 ∈ [0; 3; 6; 8; 14; 17]) kernel_gates) (fun _ => 0x8e00) cs).
Proof. unfold stage4_idt. run_gates. etransitivity; [run_gate | reflexivity]. Qed.

Lemma idt_of_lookup gates o cs v :
  0 <= v < 256 ->
  idt_of gates o cs !! Z.to_nat v =
    Some (match gate_of gates v with Some s => gate cs (o v) s | None => missing end).
Proof.
  intros Hv. unfold idt_of. rewrite list_lookup_fmap, lookup_seqZ_lt by lia. cbn [fmap option_fmap option_map].
  now rewrite Z2Nat.id by lia.
Qed.

(** Every stub the tables name takes an error code exactly when the processor pushes one. *)
Lemma kernel_gates_error_codes :
  Forall (fun g => 0 <= g.1 < 256 /\ takes_error_code g.2 = pushes_error_code g.1) kernel_gates.
Proof. repeat (constructor; [split; [cbn; lia | vm_compute; reflexivity]|]). constructor. Qed.
End Gates.

(** What the processor finds in a descriptor: the access byte and the long mode bit. *)
Definition access_byte (d : Z) : Z := field d 40 48.

Lemma segment_access flags :
  0 <= flags < 2 ^ 64 -> field flags 45 47 = 0 ->
  exists v, new_user flags 0 0 = Ret (UserSegment v) /\ access_byte v = access_byte flags /\
    field v 53 54 = field flags 53 54 /\ descriptor_privilege_level (UserSegment v) = Ret Ring0.
Proof.
  intros Hf H0. destruct (new_user_spec flags 0 Hf) as (v & E & _ & _ & _ & Hm & Ht); [lia|].
  exists v. split; [exact E|]. split; [apply (field_part _ _ 16 48); lia || exact Hm|].
  split; [apply (field_part _ _ 52 64); lia || exact Ht|].
  apply descriptor_ring0. rewrite <- H0. apply (field_part _ _ 16 48); lia || exact Hm.
Qed.

Lemma kernel_gdt_spec tss_address :
  in_width 64 tss_address ->
  exists low high code data l,
    kernel_gdt tss_address = Ret (mkGdt (0 :: low :: high :: code :: data :: l) 5, 0x8, 0x18, 0x20) /\
    (field low 16 40 + 2 ^ 24 * field low 56 64 + 2 ^ 32 * field high 0 32 = tss_address /\ access_byte low = 0x89) /\
    (access_byte code = 0x9b /\ field code 53 54 = 1) /\ (access_byte data = 0x93 /\ field data 53 54 = 0).
Proof.
  intros Ht. unfold kernel_gdt, kernel_code_segment, kernel_data_segment, long_mode_code_segment, long_mode_data_segment, flags_of.
  cbn [fold_left]. rewrite !flags_union_spec. set (fd := Z.lor _ _). set (fc := Z.lor _ _).
  destruct (tss_segment_fields tss_address Ht) as (low & high & -> & Hbase & _ & F1 & F2 & F3 & F4 & _). cbn [mbind outcome_bind].
  assert (Hp : descriptor_privilege_level (SystemSegment low high) = Ret Ring0) by now apply (descriptor_ring0 low).
  assert (E1 : add_entry Gdt_new (SystemSegment low high) = Ret (0x8, mkGdt [0; low; high; 0; 0; 0; 0; 0] 3)).
  { unfold add_entry. now rewrite Hp. }
  destruct (segment_access fc) as (code & Ec & Ac & Lc & Pc); [split; [discriminate | reflexivity] | reflexivity |].
  destruct (segment_access fd) as (data & Ed & Ad & Ld & Pd); [split; [discriminate | reflexivity] | reflexivity |].
  assert (E2 : add_entry (mkGdt [0; low; high; 0; 0; 0; 0; 0] 3) (UserSegment code)
    = Ret (0x18, mkGdt [0; low; high; code; 0; 0; 0; 0] 4)) by (unfold add_entry; now rewrite Pc).
  assert (E3 : add_entry (mkGdt [0; low; high; code; 0; 0; 0; 0] 4) (UserSegment data)
    = Ret (0x20, mkGdt [0; low; high; code; data; 0; 0; 0] 5)) by (unfold add_entry; now rewrite Pd).
  rewrite E1. cbn [mbind outcome_bind]. rewrite Ec. cbn [mbind outcome_bind]. rewrite E2. cbn [mbind outcome_bind].
  rewrite Ed. cbn [mbind outcome_bind]. rewrite E3. cbn [mbind outcome_bind].
  exists low, high, code, data, [0; 0; 0]. split; [reflexivity|]. split; [split; [exact Hbase|]|].
  - unfold access_byte. rewrite (field_split low 40 44 48), (field_split low 44 45 48), (field_split low 45 47 48) by lia.
    now rewrite F1, F2, F3, F4.
  - rewrite Ac, Lc, Ad, Ld. repeat split; reflexivity.
Qed.
End Theorems.

(** A machine whose serial line, interrupt controllers and keyboard are separate devices. *)
Class MachineWorld (W : Type) `{IO : IoPorts W} := {
  #[global] mw_pics :: PicWorld W;
  #[global] mw_uart :: UartWorld W 0x3F8;
  mw_uart_pics : uart_blind chips;
  mw_pics_line : pic_blind sent /\ pic_blind dlab;
  mw_keyboard w : chips (port_in u8 0x60 w).2 = chips w /\ sent (port_in u8 0x60 w).2 = sent w /\
    dlab (port_in u8 0x60 w).2 = dlab w;
}.

Section InitTheorem.
Context `{BF : BitField} `{BFS : !BitFieldSpec BF} `{FL : Bitflags} `{FLS : !BitflagsSpec FL} `{MW : MachineWorld W}.
Context (stub_address : stub -> Z) (tss_address stack_address idt_address : Z).

(** A gate of the kernel's table under vector [v]: an interrupt gate into the
    kernel's code segment for the right kind of stub, or no gate. *)
Definition kernel_gate_ok (v : Z) (d : InterruptDescriptor) : Prop :=
  match gate_of kernel_gates v with
  | Some s =>
      gate_target d = stub_address s /\ segment_selector d = 0x18 /\ takes_error_code s = pushes_error_code v /\
      field (options d) 15 16 = 1 /\ field (options d) 8 12 = 0xe /\ field (options d) 0 3 = (if v =? 8 then 1 else 0)
  | None => d = missing
  end.

Lemma gate_of_elem gates v s : gate_of gates v = Some s -> (v, s) ∈ gates.
Proof.
  induction gates as [|[u s'] gates IH]; [discriminate|]. cbn [gate_of].
  destruct (Z.eqb_spec u v) as [->|]; [intros [= ->]; left | intros H; right; auto].
Qed.

Lemma kernel_idt_ok idt v :
  (forall s, in_width 64 (stub_address s)) -> kernel_idt stub_address 0x18 = Ret idt -> 0 <= v < 256 ->
  exists d, idt !! Z.to_nat v = Some d /\ kernel_gate_ok v d.
Proof.
  intros Hs E Hv. rewrite kernel_idt_spec in E. injection E as <-. rewrite idt_of_lookup by exact Hv.
  eexists. split; [reflexivity|]. unfold kernel_gate_ok. destruct (gate_of kernel_gates v) as [s|] eqn:Eg; [|reflexivity].
  rewrite gate_target_spec by apply Hs. split; [reflexivity|]. split; [reflexivity|]. split.
  - apply gate_of_elem in Eg. pose proof (proj1 (Forall_forall _ _) kernel_gates_error_codes _ Eg) as [_ H]. exact H.
  - cbn [gate options]. now destruct (v =? 8).
Qed.

Lemma kernel_tss_spec :
  0 <= stack_address -> stack_address + STACK_SIZE < 2 ^ 64 ->
  exists tss, kernel_tss stack_address = Ret tss /\
    interrupt_stack_table tss = (stack_address + STACK_SIZE) :: replicate 6 0.
Proof.
  intros H1 H2. unfold kernel_tss, virt_add, uadd. rewrite checked_ok by (unfold STACK_SIZE in *; cbn [SIZE] in *; lia).
  cbn [mbind outcome_bind]. eexists. split; reflexivity.
Qed.

(** The segment part of [init]. *)
Lemma load_segments low high code data l c cr3 :
  Z.testbit (cpu_cr0 c) 0 = true -> cpu_cr3 c = cr3 ->
  exists c', gdt_load (mkGdt (0 :: low :: high :: code :: data :: l) 5) c = Ret c' /\
    let c := tss_load (SS_write (ES_write (DS_write (CS_write c' 0x18) 0x20) 0x20) 0x20) 0x8 in
    cpu_gdt c = [0; low; high; code; data] /\ CS_read c = 0x18 /\ cpu_tr c = 0x8 /\
    DS_read c = 0x20 /\ ES_read c = 0x20 /\ seg_selector (cpu_ss c) = 0x20 /\ cpu_cr3 c = cr3.
Proof.
  intros H0 <-. unfold gdt_load, gdt_descriptor_size. cbn [gdt_size].
  change (umul 64 5 8) with (Ret 40 : outcome Z). cbn [mbind outcome_bind].
  change (usub 64 40 1) with (Ret 39 : outcome Z). cbn [mbind outcome_bind].
  change (Z.to_nat ((ucast 16 39 + 1) / 8)) with 5%nat. cbn [gdt_entries take].
  eexists. split; [reflexivity|].
  unfold tss_load, SS_write, ES_write, DS_write, CS_write, mov_ss, mov_es, mov_ds, load_segment, CS_read, DS_read, ES_read.
  cbn [set_cr0 set_cs set_ds set_es set_ss set_tr set_gdt cpu_cr0 cpu_cs cpu_ds cpu_es cpu_ss cpu_tr cpu_gdt]. rewrite !H0.
  repeat split; reflexivity.
Qed.

(** Where only the text [args] went out. *)
Definition machine_printed (args : list (list Z)) (st st' : @kernel_machine W) : Prop :=
  km_cpu st' = km_cpu st /\ km_idt st' = km_idt st /\ km_pics st' = km_pics st /\
  console_ok (km_console st') /\ sent (km_world st') = sent (km_world st) ++ (char_byte <$> concat args) /\
  chips (km_world st') = chips (km_world st).

Lemma machine_print_spec fuel args (st : @kernel_machine W) :
  (polls_bound < fuel)%nat -> console_ok (km_console st) ->
  exists st', machine_print fuel args st = Ret st' /\ machine_printed args st st'.
Proof.
  intros Hf Hc. unfold machine_print. destruct (console_print_spec fuel args (km_console st) Hf Hc) as (c & -> & Hok & Hs & Hx).
  eexists. split; [reflexivity|]. split; [reflexivity|]. split; [reflexivity|]. split; [reflexivity|].
  split; [exact Hok|]. split; [exact Hs | apply Hx, mw_uart_pics].
Qed.

Lemma machine_println_spec fuel args (st : @kernel_machine W) :
  (polls_bound < fuel)%nat -> console_ok (km_console st) ->
  exists st', machine_println fuel args st = Ret st' /\ machine_printed (args ++ [newline]) st st'.
Proof. apply machine_print_spec. Qed.

Lemma idt_load_eq fuel idt (st : @kernel_machine W) :
  idt_load idt_address fuel idt st = (st ← machine_println fuel [text "Idt addr: "; fmt_hex idt_address] st;
    Ret (mkKernel (km_cpu st) idt (km_pics st) (km_console st))).
Proof.
  unfold idt_load, InterruptDescriptorTable_load, machine_println, machine_print, println. cbn [mbind outcome_bind].
  now destruct (console_print _ _ _).
Qed.

(** A call of the controllers' driver that leaves the line alone. *)
Lemma with_pics_spec fuel (f : ChainedPics -> W -> W) (st : @kernel_machine W) :
  (0 < fuel)%nat -> km_pics st = Mutex_new ChainedPics_new ->
  with_pics fuel f st = Ret (mkKernel (km_cpu st) (km_idt st) (km_pics st)
    (mkConsole (c_serial (km_console st)) (f ChainedPics_new (km_world st)))).
Proof.
  intros Hf Hp. unfold with_pics. destruct fuel as [|fuel]; [lia|]. rewrite lock_spec, Hp. reflexivity.
Qed.

Lemma console_ok_world (c : console W) w : console_ok c -> dlab w = dlab (c_world c) -> console_ok (mkConsole (c_serial c) w).
Proof. unfold console_ok. cbn [c_serial c_world]. destruct (c_serial c); [|auto]. intros [? ?] ->. auto. Qed.

Lemma interrupts_init_spec fuel (st : @kernel_machine W) :
  Z.testbit (cpu_cr0 (km_cpu st)) 0 = true -> km_pics st = Mutex_new ChainedPics_new ->
  (polls_bound < fuel)%nat -> console_ok (km_console st) ->
  stage (chips (km_world st)).1 = Ready -> stage (chips (km_world st)).2 = Ready ->
  in_width 64 tss_address -> (forall s, in_width 64 (stub_address s)) ->
  0 <= stack_address -> stack_address + STACK_SIZE < 2 ^ 64 ->
  exists st' low high code data tss df,
    interrupts_init stub_address tss_address idt_address fuel st = Ret st' /\ cpu_cr3 (km_cpu st') = cpu_cr3 (km_cpu st) /\
    cpu_interrupts (km_cpu st') = true /\ km_pics st' = km_pics st /\ console_ok (km_console st') /\
    sent (km_world st') = sent (km_world st) ++ (char_byte <$> concat [text "Idt addr: "; fmt_hex idt_address; newline]) /\
    cpu_gdt (km_cpu st') = [0; low; high; code; data] /\
    (CS_read (km_cpu st') = 8 * 3 /\ access_byte code = 0x9b /\ field code 53 54 = 1) /\
    (DS_read (km_cpu st') = 8 * 4 /\ ES_read (km_cpu st') = 8 * 4 /\ seg_selector (cpu_ss (km_cpu st')) = 8 * 4 /\
     access_byte data = 0x93) /\
    (cpu_tr (km_cpu st') = 8 * 1 /\ access_byte low = 0x89 /\
     field low 16 40 + 2 ^ 24 * field low 56 64 + 2 ^ 32 * field high 0 32 = tss_address) /\
    (forall v, 0 <= v < 256 -> exists d, km_idt st' !! Z.to_nat v = Some d /\ kernel_gate_ok v d) /\
    (kernel_tss stack_address = Ret tss /\ km_idt st' !! 8%nat = Some df /\
     interrupt_stack_table tss !! Z.to_nat (field (options df) 0 3 - 1) = Some (stack_address + STACK_SIZE)) /\
    (let m := (chips (km_world st')).1 in
     stage m = Ready /\ imr m = imr (chips (km_world st)).1 /\ imr (chips (km_world st')).2 = imr (chips (km_world st)).2 /\
     gate_of kernel_gates (irq_vector m (as_u8 Timer)) = Some (without_error_code timer_interrupt_handler) /\
     gate_of kernel_gates (irq_vector m (as_u8 Keyboard)) = Some (without_error_code keyboard_interrupt_handler)).
Proof.
  intros H0 Hp Hf Hcon Hm Hsl Ht Hs Hst Hst'.
  destruct (kernel_gdt_spec tss_address Ht) as (low & high & code & data & l & Eg & (Hb & Hl) & (Ac & Lc) & (Ad & _)).
  destruct (load_segments low high code data l (km_cpu st) _ H0 eq_refl) as (c & Ec & Hc).
  destruct (kernel_tss_spec Hst Hst') as (tss & Etss & Ist).
  pose proof (kernel_idt_spec stub_address 0x18) as Ei. set (idt := idt_of _ _ _ _) in Ei.
  unfold interrupts_init. rewrite Eg. cbn [mbind outcome_bind]. rewrite Ec. cbn [mbind outcome_bind]. cbv zeta in Hc.
  set (c' := tss_load _ _) in *. destruct Hc as (G & CSr & TR & DSr & ESr & SSr & C3). rewrite CSr, Ei. cbn [mbind outcome_bind].
  rewrite idt_load_eq. destruct (machine_println_spec fuel [text "Idt addr: "; fmt_hex idt_address]
    (mkKernel c' (km_idt st) (km_pics st) (km_console st)) Hf Hcon) as (st1 & -> & Hcpu & _ & Hpics & Hok & Hsent & Hchips).
  cbn [km_cpu km_idt km_pics] in Hcpu, Hpics. change (km_world (mkKernel _ _ _ _)) with (km_world st) in Hsent, Hchips.
  cbn [mbind outcome_bind]. rewrite with_pics_spec by (cbn [km_pics]; congruence || lia).
  cbn [mbind outcome_bind km_cpu km_idt km_pics km_console]. rewrite Hcpu.
  change (km_world (mkKernel _ _ _ _)) with (km_world st1).
  do 7 eexists. split; [reflexivity|]. split; [exact C3|]. cbn [km_cpu km_idt km_pics km_console].
  change (km_world (mkKernel _ _ _ _)) with (pics_init ChainedPics_new MASTER_PIC_OFFSET SLAVE_PIC_OFFSET (km_world st1)).
  split; [reflexivity|]. split; [exact Hpics|].
  split; [apply console_ok_world; [exact Hok | apply (pics_init_blind dlab), mw_pics_line]|].
  split; [rewrite (pics_init_blind sent) by apply mw_pics_line; exact Hsent|]. split; [exact G|].
  split; [split; [exact CSr|split; [exact Ac|exact Lc]]|].
  split; [split; [exact DSr|split; [exact ESr|split; [exact SSr|exact Ad]]]|].
  split; [split; [exact TR|split; [exact Hl|exact Hb]]|].
  split; [intros v Hv; exact (kernel_idt_ok idt v Hs Ei Hv)|].
  split; [split; [exact Etss|split; [reflexivity|rewrite Ist; reflexivity]]|].
  rewrite <- Hchips in *. rewrite pics_init_spec by assumption. repeat split; reflexivity.
Qed.

(** C11: [interrupts::init] on a machine in protected or long mode with the
    controllers idle returns with interrupts on and everything in place: the
    code, data and task registers name the kernel's descriptors, and these are
    what they should be; every gate of the interrupt table is absent or leads
    into the kernel's code segment to a stub that takes an error code exactly
    when the processor pushes one; double faults switch to the end of their own
    stack; the timer and the keyboard are delivered at the vectors at which
    their handlers are registered, with the masks unchanged; the lock of the
    controllers is free; and what went out on the serial line is the address of the
    table. *)
Theorem interrupts_init_correct fuel (st : @kernel_machine W) :
  Z.testbit (cpu_cr0 (km_cpu st)) 0 = true -> km_pics st = Mutex_new ChainedPics_new ->
  (polls_bound < fuel)%nat -> console_ok (km_console st) ->
  stage (chips (km_world st)).1 = Ready -> stage (chips (km_world st)).2 = Ready ->
  in_width 64 tss_address -> (forall s, in_width 64 (stub_address s)) ->
  0 <= stack_address -> stack_address + STACK_SIZE < 2 ^ 64 ->
  exists st' low high code data tss df,
    interrupts_init stub_address tss_address idt_address fuel st = Ret st' /\
    cpu_interrupts (km_cpu st') = true /\ km_pics st' = km_pics st /\ console_ok (km_console st') /\
    sent (km_world st') = sent (km_world st) ++ (char_byte <$> concat [text "Idt addr: "; fmt_hex idt_address; newline]) /\
    cpu_gdt (km_cpu st') = [0; low; high; code; data] /\
    (CS_read (km_cpu st') = 8 * 3 /\ access_byte code = 0x9b /\ field code 53 54 = 1) /\
    (DS_read (km_cpu st') = 8 * 4 /\ ES_read (km_cpu st') = 8 * 4 /\ seg_selector (cpu_ss (km_cpu st')) = 8 * 4 /\
     access_byte data = 0x93) /\
    (cpu_tr (km_cpu st') = 8 * 1 /\ access_byte low = 0x89 /\
     field low 16 40 + 2 ^ 24 * field low 56 64 + 2 ^ 32 * field high 0 32 = tss_address) /\
    (forall v, 0 <= v < 256 -> exists d, km_idt st' !! Z.to_nat v = Some d /\ kernel_gate_ok v d) /\
    (kernel_tss stack_address = Ret tss /\ km_idt st' !! 8%nat = Some df /\
     interrupt_stack_table tss !! Z.to_nat (field (options df) 0 3 - 1) = Some (stack_address + STACK_SIZE)) /\
    (let m := (chips (km_world st')).1 in
     stage m = Ready /\ imr m = imr (chips (km_world st)).1 /\ imr (chips (km_world st')).2 = imr (chips (km_world st)).2 /\
     gate_of kernel_gates (irq_vector m (as_u8 Timer)) = Some (without_error_code timer_interrupt_handler) /\
     gate_of kernel_gates (irq_vector m (as_u8 Keyboard)) = Some (without_error_code keyboard_interrupt_handler)).
Proof.
  intros H0 Hp Hf Hcon Hm Hs Ht Ha Hst Hst'.
  destruct (interrupts_init_spec fuel st H0 Hp Hf Hcon Hm Hs Ht Ha Hst Hst')
    as (st' & low & high & code & data & tss & df & E & _ & Hpost).
  exists st', low, high, code, data, tss, df. exact (conj E Hpost).
Qed.

(** The end-of-interrupt of the timer and of the keyboard goes to the slave
    controller too: the driver compares the vector (0x20 and up), not the line,
    with 8.  A request of the slave that is in service, and that the timer
    interrupted, loses its in-service bit before its handler is done. *)
Theorem eoi_reaches_slave fuel (st : @kernel_machine W) (i : InterruptIndex) :
  km_pics st = Mutex_new ChainedPics_new -> (0 < fuel)%nat ->
  exists n st', as_remapped_idt_number i = Ret n /\
    with_pics fuel (fun pics => notify_end_of_interrupt pics n) st = Ret st' /\
    isr (chips (km_world st')).1 = clear_highest_priority (isr (chips (km_world st)).1) /\
    isr (chips (km_world st')).2 = clear_highest_priority (isr (chips (km_world st)).2).
Proof.
  intros Hp Hf. do 2 eexists. split; [destruct i; reflexivity|].
  split; [now rewrite with_pics_spec by assumption|]. unfold km_world. cbn [km_console c_world]. rewrite notify_spec. split; [reflexivity|].
  now destruct i.
Qed.
End InitTheorem.

(** ** A machine with two chips and a serial line at their ports *)

Section Witnesses.
#[local] Existing Instances ref_bit_field ref_bit_field_ok ref_bitflags ref_bitflags_ok line_ports line_uart.

#[local] Instance chip_ports : IoPorts (chip * chip * line) := {
  port_in T p w :=
    let '(c, l) := w in
    if p =? 0x21 then (imr c.1, w) else if p =? 0xa1 then (imr c.2, w)
    else let '(v, l) := port_in T p l in (v, (c, l));
  port_out T p v w :=
    let '(c, l) := w in
    if p =? 0x20 then ((chip_command v c.1, c.2), l) else if p =? 0x21 then ((chip_data v c.1, c.2), l)
    else if p =? 0xa0 then ((c.1, chip_command v c.2), l) else if p =? 0xa1 then ((c.1, chip_data v c.2), l)
    else (c, port_out T p v l);
}.

#[local] Instance chip_world : PicWorld (chip * chip * line).
Proof. refine {| chips := fun w : chip * chip * line => w.1 |}; intros; destruct w as [c l]; try split; reflexivity. Defined.

(** The ports of the line are not those of the controllers. *)
Lemma line_port p : 0x3F8 <= p <= 0x3FE -> (p =? 0x20) = false /\ (p =? 0x21) = false /\ (p =? 0xa0) = false /\ (p =? 0xa1) = false.
Proof. intros. repeat split; lia. Qed.

Lemma line_out p v c l : 0x3F8 <= p <= 0x3FE -> port_out u8 p v (c, l) = (c, port_out u8 p v l).
Proof. intros Hp. cbn [port_out chip_ports]. now destruct (line_port p Hp) as (-> & -> & -> & ->). Qed.

Lemma line_in p c l : 0x3F8 <= p <= 0x3FE -> port_in u8 p (c, l) = ((port_in u8 p l).1, (c, (port_in u8 p l).2)).
Proof. intros Hp. cbn [port_in chip_ports]. destruct (line_port p Hp) as (_ & -> & _ & ->). now destruct (port_in u8 p l). Qed.

#[local] Instance chip_uart : UartWorld (chip * chip * line) 0x3F8.
Proof.
  refine {| polls := fun w => polls w.2; sent := fun w => sent w.2; dlab := fun w => dlab w.2; polls_bound := polls_bound (W := line) |}.
  - intros [c l]. apply uw_bound.
  - intros [c l]. rewrite line_in by lia. cbn [snd]. pose proof (uw_status l) as H. now destruct (port_in u8 _ l).
  - intros [c l] v. rewrite line_out by lia. apply uw_send.
  - intros [c l] v. rewrite line_out by lia. apply uw_divisor.
  - intros [c l] v. rewrite line_out by lia. apply uw_line_ctrl.
  - intros [c l] v i Hi. rewrite line_out by (repeat (apply elem_of_cons in Hi as [->|Hi]; [lia|]); now apply not_elem_of_nil in Hi).
    now apply uw_control.
Defined.

#[local] Instance chip_machine : MachineWorld (chip * chip * line).
Proof.
  refine {| mw_pics := chip_world; mw_uart := chip_uart |}.
  - intros p v [c l] Hp. rewrite line_in, line_out by exact Hp. split; reflexivity.
  - split; intros p v [c l] Hp; repeat (apply elem_of_cons in Hp as [->|Hp]; [split; reflexivity|]); now apply not_elem_of_nil in Hp.
  - intros [c l]. repeat split; reflexivity.
Defined.

(** The keyboard is unmasked; line 3 of the slave is in service. *)
Definition ex_chips : chip * chip := (mkChip Ready 0x20 4 1 0xfc 0x1, mkChip Ready 0x28 2 1 0xff 0x8).
Definition ex_line : line := mkLine 2 [] true.
Definition ex_kernel : @kernel_machine (chip * chip * line) :=
  mkKernel (set_cr0 real_mode_cpu 0x80000011) [] (Mutex_new ChainedPics_new) (mkConsole None (ex_chips, ex_line)).

Lemma pics_init_correct_witness :
  let '(m, s) := chips (pics_init ChainedPics_new 0x20 0x28 (ex_chips, ex_line)) in
  irq_vector m 1 = 0x21 /\ irq_vector s 3 = 0x2b /\ imr m = 0xfc.
Proof.
  destruct (pics_init_correct 0x20 0x28 (ex_chips, ex_line) 1) as (E1 & _ & _ & _ & _ & _ & _ & _ & Em & _);
    [reflexivity | reflexivity | unfold in_width; lia | unfold in_width; lia | reflexivity | reflexivity |].
  destruct (pics_init_correct 0x20 0x28 (ex_chips, ex_line) 3) as (_ & E2 & _);
    [reflexivity | reflexivity | unfold in_width; lia | unfold in_width; lia | reflexivity | reflexivity |].
  exact (conj E1 (conj E2 Em)).
Defined.

Lemma interrupts_init_correct_witness :
  exists st', interrupts_init (fun _ => 0xffff800000001000) 0x5000 0x7000 4 ex_kernel = Ret st' /\
    cpu_interrupts (km_cpu st') = true /\ CS_read (km_cpu st') = 0x18 /\ sent (km_world st') = text "Idt addr: 7000" ++ newline.
Proof.
  destruct (interrupts_init_correct (fun _ => 0xffff800000001000) 0x5000 0x6000 0x7000 4 ex_kernel)
    as (st' & low & high & code & data & tss & df & E & Hi & _ & _ & Hs & _ & (Hc & _) & _);
    [reflexivity | reflexivity | cbn; lia | exact I | reflexivity | reflexivity | unfold in_width; lia | unfold in_width; lia | lia | reflexivity |].
  exists st'. exact (conj E (conj Hi (conj Hc Hs))).
Defined.

Lemma eoi_reaches_slave_witness :
  exists n st', as_remapped_idt_number Timer = Ret n /\
    with_pics 1 (fun pics => notify_end_of_interrupt pics n) ex_kernel = Ret st' /\
    isr (chips (km_world st')).1 = 0 /\ isr (chips (km_world st')).2 = 0.
Proof.
  destruct (eoi_reaches_slave 1 ex_kernel Timer) as (n & st' & En & Es & H1 & H2); [reflexivity | lia |].
  exists n, st'. exact (conj En (conj Es (conj H1 H2))).
Defined.
End Witnesses.
