(* ===== verification/Exceptions.v ===== *)
(** The handlers of exceptions and interrupts: [kernel/src/interrupts/mod.rs],
    [stage4/src/interrupts.rs], and what they show of the exception frame of
    [x86_64/src/interrupts.rs].

    A handler prints, and then returns to the interrupted code or stays in its
    loop forever with interrupts off.  [deliver] is the way from a vector to its
    handler through the interrupt table. *)
From Stdlib Require Import ZArith Lia.
From stdpp Require Import base tactics numbers list strings sets.
From S2P Require Import Prelude Crates Memory Descriptors Processor SpinLock Ports Fmt Serial Pic8259 KernelInterrupts.
#[local] Open Scope Z_scope.

(** ** What the processor pushes *)

Record ExceptionStackFrame := mkExceptionStackFrame {
  instruction_pointer : Z;
  code_segment : Z;
  cpu_flags : Z;
  stack_pointer : Z;
  stack_segment : Z;
}.

(** Its [Debug]. *)
Definition fmt_frame (f : ExceptionStackFrame) : list (list Z) :=
  [text "ExceptionFrame {"; newline;
   text "    IP: "; fmt_hex_padded 16 (instruction_pointer f); newline;
   text "    CS: "; fmt_hex_padded 16 (code_segment f); newline;
   text "    FLAGS: "; fmt_hex_padded 16 (cpu_flags f); newline;
   text "    SP: "; fmt_hex_padded 16 (stack_pointer f); newline;
   text "    SS: "; fmt_hex_padded 16 (stack_segment f); newline;
   text "}"].

(** The bits [PageFaultErrorCode] declares. *)
Definition PageFaultErrorCode_all : Z := 0x1f.

(** How a handler ends. *)
Inductive fate := Returns | Spins.

Section Handlers.
Context `{FL : Bitflags} `{IO : IoPorts W}.
(** The [Debug] that [bitflags!] derives for the error code. *)
Context (error_text : Z -> list Z).

(** ** The kernel *)

(** [println!], then [loop {}] or the return. *)
Definition report (fuel : nat) (args : list (list Z)) (f : fate) (st : @kernel_machine W) : outcome (fate * kernel_machine) :=
  st ← machine_println fuel args st; Ret (f, st).

Definition call_handler (fuel : nat) (h : handler) (frame : ExceptionStackFrame) (error_code : Z) (st : @kernel_machine W) :
    outcome (fate * kernel_machine) :=
  match h with
  | divide_by_zero_handler => report fuel [text "Exception: divide by zero"] Spins st
  | invalid_opcode_handler => report fuel [text "Invalid opcode handler"] Spins st
  | segment_not_present_handler =>
      report fuel ([text "General protection fault handler "; newline; text " error_code: "; fmt_dec error_code; text " "; newline;
                    text " exception frame: "] ++ fmt_frame frame) Spins st
  | page_fault_handler =>
      error ← unwrap (flags_from_bits PageFaultErrorCode_all error_code);
      report fuel ([text "Page fault handler "; newline; text " error_code: "; error_text error; text " "; newline;
                    text " exception frame: "] ++ fmt_frame frame) Spins st
  | alignment_check_handler => report fuel [text "Alignment check handler"] Spins st
  | invalid_tss_handler => report fuel (text "Invalid tss handler: " :: fmt_frame frame) Spins st
  | stack_segment_fault_handler => report fuel (text "Stack segment handler: " :: fmt_frame frame) Spins st
  | breakpoint_handler => report fuel (text "Int3 triggered: " :: fmt_frame frame) Returns st
  | nmi_handler => report fuel (text "Non maskable interrupt handler " :: fmt_frame frame) Returns st
  | debug_handler => report fuel (text "Debug handler " :: fmt_frame frame) Returns st
  | device_not_available_handler => report fuel (text "Device not available handler " :: fmt_frame frame) Returns st
  | double_fault_handler =>
      '(_, st) ← report fuel [text "Double fault error code: "; fmt_dec error_code] Spins st;
      report fuel (text "Double fault handler: " :: fmt_frame frame) Spins st
  | timer_interrupt_handler => st ← timer_interrupt fuel st; Ret (Returns, st)
  | keyboard_interrupt_handler => st ← keyboard_interrupt fuel st; Ret (Returns, st)
  end.

(** [general_protection_fault_handler], which no gate leads to. *)
Definition general_protection_fault_handler (fuel : nat) (st : @kernel_machine W) : outcome (fate * kernel_machine) :=
  report fuel [text "General protection fault"] Spins st.

(** [panic] of the kernel; [info] is the formatted [PanicInfo]. *)
Definition kernel_panic (fuel : nat) (info : list Z) (st : @kernel_machine W) : outcome (fate * kernel_machine) :=
  report fuel [text "Kernel PANIC: "; info] Spins st.

(** ** Stage 4 *)

Definition stage4_report (fuel : nat) (args : list (list Z)) (f : fate) (c : console W) : outcome (fate * console W) :=
  c ← println fuel args c; Ret (f, c).

(** The handlers stage 4 registers; the others are the kernel's. *)
Definition stage4_handler (fuel : nat) (h : handler) (frame : ExceptionStackFrame) (error_code : Z) (c : console W) :
    option (outcome (fate * console W)) :=
  match h with
  | divide_by_zero_handler => Some (stage4_report fuel (text "Divide by zero exception in bootloade: " :: fmt_frame frame) Spins c)
  | invalid_opcode_handler => Some (stage4_report fuel (text "Invalid opcode in bootloader: " :: fmt_frame frame) Spins c)
  | page_fault_handler => Some (
      error ← unwrap (flags_from_bits PageFaultErrorCode_all error_code);
      stage4_report fuel ([text "Page fault in bootloader: "; newline; text " error_code: "; error_text error; text " "; newline;
                           text " exception frame: "] ++ fmt_frame frame) Spins c)
  | alignment_check_handler => Some (stage4_report fuel (text "Alignment check exception in bootloader: " :: fmt_frame frame) Spins c)
  | breakpoint_handler => Some (stage4_report fuel (text "Int3 in bootloader: " :: fmt_frame frame) Returns c)
  | double_fault_handler => Some (stage4_report fuel (text "Double fault in bootloader: " :: fmt_frame frame) Spins c)
  | _ => None
  end.

(** ** From the vector to the handler *)

(** What the linker put where: the stub at an address. *)
Context (code_at : Z -> option stub).

Definition with_cpu (c : cpu) (st : @kernel_machine W) : kernel_machine :=
  mkKernel c (km_idt st) (km_pics st) (km_console st).

(** An exception or interrupt through a present gate: the handler runs with
    interrupts off, and a return restores the flag.  Without a present gate or a
    stub behind it another exception follows; that is not followed here. *)
Definition deliver (fuel : nat) (v : Z) (frame : ExceptionStackFrame) (error_code : Z) (st : @kernel_machine W) :
    option (outcome (fate * kernel_machine)) :=
  d ← km_idt st !! Z.to_nat v;
  if Z.testbit (options d) 15 then
    s ← code_at (gate_target d);
    Some (
      '(f, st') ← call_handler fuel (match s with without_error_code h | with_error_code h => h end) frame error_code
                   (with_cpu (disable (km_cpu st)) st);
      Ret (f, match f with Returns => with_cpu (if cpu_interrupts (km_cpu st) then enable (km_cpu st') else km_cpu st') st' | Spins => st' end))
  else None.
End Handlers.

(** ** Reading a frame off the serial line *)

(** [label], a padded number, and the end of the line. *)
Definition read_field (label l : list Z) : option (Z * list Z) :=
  l ← strip label l;
  l ← strip (text "0x") l;
  let '(n, l) := read_digits 16 0 l in
  l ← strip newline l;
  Some (n, l).

Definition read_frame (l : list Z) : option ExceptionStackFrame :=
  l ← strip (text "ExceptionFrame {") l;
  l ← strip newline l;
  '(ip, l) ← read_field (text "    IP: ") l;
  '(cs, l) ← read_field (text "    CS: ") l;
  '(flags, l) ← read_field (text "    FLAGS: ") l;
  '(sp, l) ← read_field (text "    SP: ") l;
  '(ss, l) ← read_field (text "    SS: ") l;
  _ ← strip (text "}") l;
  Some (mkExceptionStackFrame ip cs flags sp ss).

(** The words of a frame are words. *)
Record frame_in_width (f : ExceptionStackFrame) : Prop := {
  fw_ip : in_width 64 (instruction_pointer f);
  fw_cs : in_width 64 (code_segment f);
  fw_flags : in_width 64 (cpu_flags f);
  fw_sp : in_width 64 (stack_pointer f);
  fw_ss : in_width 64 (stack_segment f);
}.

Lemma read_field_spec label n rest :
  in_width 64 n -> read_field label (label ++ fmt_hex_padded 16 n ++ newline ++ rest) = Some (n, rest).
Proof.
  intros Hn. unfold read_field. rewrite strip_app. cbn [mbind option_bind].
  destruct (read_hex_padded 16 n (newline ++ rest) Hn ltac:(reflexivity)) as (l & -> & Hr). cbn [mbind option_bind].
  rewrite Hr, strip_app. reflexivity.
Qed.

Lemma read_frame_spec f rest : frame_in_width f -> read_frame (concat (fmt_frame f) ++ rest) = Some f.
Proof.
  intros [H1 H2 H3 H4 H5]. unfold read_frame, fmt_frame. cbn [concat]. rewrite <- !app_assoc.
  repeat (rewrite strip_app; cbn [mbind option_bind]).
  repeat (rewrite read_field_spec by assumption; cbn [mbind option_bind]).
  rewrite strip_app. cbn [mbind option_bind]. now destruct f.
Qed.

Lemma frame_printable f : printable (concat (fmt_frame f) ++ newline).
Proof.
  unfold fmt_frame. cbn [concat]. unfold printable. rewrite !Forall_app.
  repeat split; try apply hex_padded_printable; apply printable_dec; vm_compute; reflexivity.
Qed.

(** ** Theorems *)

Section Theorems.
Context `{FL : Bitflags} `{FLS : !BitflagsSpec FL} `{MW : MachineWorld W}.
Context (error_text : Z -> list Z) (stub_address : stub -> Z) (code_at : Z -> option stub).
Implicit Types (st : @kernel_machine W).

Lemma report_spec fuel args f st :
  (polls_bound < fuel)%nat -> console_ok (km_console st) ->
  exists st', report fuel args f st = Ret (f, st') /\ machine_printed (args ++ [newline]) st st'.
Proof.
  intros Hf Hc. unfold report. destruct (machine_println_spec fuel args st Hf Hc) as (st' & -> & H). eauto.
Qed.

(** The machine takes exceptions: the interrupt table is the kernel's, and the
    stubs are where its gates lead. *)
Record traps_ready (st : @kernel_machine W) : Prop := {
  tr_gates v : 0 <= v < 256 -> exists d, km_idt st !! Z.to_nat v = Some d /\ kernel_gate_ok stub_address v d;
  tr_code s : code_at (stub_address s) = Some s;
  tr_console : console_ok (km_console st);
  tr_pics : km_pics st = Mutex_new ChainedPics_new;
}.

(** The handler behind a vector. *)
Definition handler_of (s : stub) : handler := match s with without_error_code h | with_error_code h => h end.

Lemma deliver_gate fuel v frame error_code st s :
  traps_ready st -> 0 <= v < 256 -> gate_of kernel_gates v = Some s ->
  deliver error_text code_at fuel v frame error_code st = Some (
    '(f, st') ← call_handler error_text fuel (handler_of s) frame error_code (with_cpu (disable (km_cpu st)) st);
    Ret (f, match f with Returns => with_cpu (if cpu_interrupts (km_cpu st) then enable (km_cpu st') else km_cpu st') st' | Spins => st' end)).
Proof.
  intros [Hg Hcode _ _] Hv Hs. destruct (Hg v Hv) as (d & Ed & Hd). unfold kernel_gate_ok in Hd. rewrite Hs in Hd.
  destruct Hd as (Et & _ & _ & Hp & _). unfold deliver. rewrite Ed. cbn [mbind option_bind].
  assert (Z.testbit (options d) 15 = true) as ->.
  { unfold field in Hp. rewrite Z.testbit_true by lia. exact Hp. }
  rewrite Et, Hcode. reflexivity.
Qed.

(** The end of a handler that printed. *)
Definition reported (args : list (list Z)) (f : fate) st st' : Prop :=
  console_ok (km_console st') /\ km_idt st' = km_idt st /\ km_pics st' = km_pics st /\
  sent (km_world st') = sent (km_world st) ++ (char_byte <$> concat args) /\ chips (km_world st') = chips (km_world st) /\
  match f with Returns => km_cpu st' = km_cpu st | Spins => km_cpu st' = disable (km_cpu st) end.

Lemma restore_interrupts c : (if cpu_interrupts c then enable (disable c) else disable c) = c.
Proof. destruct c. unfold enable, disable, set_interrupts. cbn. now destruct cpu_interrupts. Qed.

Lemma deliver_reported fuel v frame error_code st s args f :
  traps_ready st -> 0 <= v < 256 -> gate_of kernel_gates v = Some s ->
  (forall st0, console_ok (km_console st0) ->
     exists st', call_handler error_text fuel (handler_of s) frame error_code st0 = Ret (f, st') /\ machine_printed args st0 st') ->
  exists st', deliver error_text code_at fuel v frame error_code st = Some (Ret (f, st')) /\ reported args f st st'.
Proof.
  intros Ht Hv Hs Hcall. rewrite (deliver_gate _ _ _ _ _ _ Ht Hv Hs).
  destruct (Hcall (with_cpu (disable (km_cpu st)) st) (tr_console _ Ht)) as (st' & -> & Hcpu & Hidt & Hp & Hok & Hsent & Hch).
  cbn [mbind outcome_bind]. eexists. split; [reflexivity|]. cbn [with_cpu km_cpu km_idt km_pics km_console] in Hcpu, Hidt, Hp.
  destruct f; unfold reported; cbn [with_cpu km_cpu km_idt km_pics km_console]; [|now repeat split].
  repeat split; try assumption. rewrite Hcpu. apply restore_interrupts.
Qed.

(** The text that is printed for an exception. *)
Definition exception_text (h : handler) (frame : ExceptionStackFrame) (error_code : Z) : list (list Z) :=
  match h with
  | divide_by_zero_handler => [text "Exception: divide by zero"]
  | invalid_opcode_handler => [text "Invalid opcode handler"]
  | segment_not_present_handler =>
      [text "General protection fault handler "; newline; text " error_code: "; fmt_dec error_code; text " "; newline;
       text " exception frame: "] ++ fmt_frame frame
  | page_fault_handler =>
      [text "Page fault handler "; newline; text " error_code: "; error_text error_code; text " "; newline;
       text " exception frame: "] ++ fmt_frame frame
  | alignment_check_handler => [text "Alignment check handler"]
  | invalid_tss_handler => text "Invalid tss handler: " :: fmt_frame frame
  | stack_segment_fault_handler => text "Stack segment handler: " :: fmt_frame frame
  | breakpoint_handler => text "Int3 triggered: " :: fmt_frame frame
  | nmi_handler => text "Non maskable interrupt handler " :: fmt_frame frame
  | debug_handler => text "Debug handler " :: fmt_frame frame
  | device_not_available_handler => text "Device not available handler " :: fmt_frame frame
  | double_fault_handler => [text "Double fault error code: "; fmt_dec error_code; newline; text "Double fault handler: "] ++ fmt_frame frame
  | timer_interrupt_handler | keyboard_interrupt_handler => []
  end.

Lemma machine_printed_trans args args' st st1 st2 :
  machine_printed args st st1 -> machine_printed args' st1 st2 -> machine_printed (args ++ args') st st2.
Proof.
  intros (C1 & I1 & P1 & _ & S1 & H1) (C2 & I2 & P2 & O2 & S2 & H2). split; [congruence|]. split; [congruence|].
  split; [congruence|]. split; [exact O2|]. split; [|congruence]. rewrite S2, S1, concat_app, fmap_app, app_assoc. reflexivity.
Qed.

Lemma call_exception_handler fuel h frame error_code st :
  (polls_bound < fuel)%nat -> console_ok (km_console st) -> h <> timer_interrupt_handler -> h <> keyboard_interrupt_handler ->
  (h = page_fault_handler -> Z.land error_code PageFaultErrorCode_all = error_code) ->
  exists f st', call_handler error_text fuel h frame error_code st = Ret (f, st') /\
    f = (if bool_decide (h ∈ [breakpoint_handler; nmi_handler; debug_handler; device_not_available_handler]) then Returns else Spins) /\
    machine_printed (exception_text h frame error_code ++ [newline]) st st'.
Proof.
  intros Hf Hc Ht Hk Hpf.
  destruct h; cbn [call_handler exception_text]; try congruence;
    try (match goal with |- context [report fuel ?a ?f st] => destruct (report_spec fuel a f st Hf Hc) as (st' & -> & Hp) end;
         eexists _, st'; split; [reflexivity|]; split; [reflexivity | exact Hp]).
  - rewrite flags_from_bits_spec, (Hpf eq_refl), Z.eqb_refl. cbn [unwrap mbind outcome_bind].
    match goal with |- context [report fuel ?a ?f st] => destruct (report_spec fuel a f st Hf Hc) as (st' & -> & Hp) end.
    eexists _, st'. split; [reflexivity|]. split; [reflexivity | exact Hp].
  - destruct (report_spec fuel [text "Double fault error code: "; fmt_dec error_code] Spins st Hf Hc) as (st1 & -> & Hp1).
    cbn [mbind outcome_bind]. pose proof Hp1 as (_ & _ & _ & Hc1 & _).
    destruct (report_spec fuel (text "Double fault handler: " :: fmt_frame frame) Spins st1 Hf Hc1) as (st2 & -> & Hp2).
    eexists _, st2. split; [reflexivity|]. split; [reflexivity|]. exact (machine_printed_trans _ _ _ _ _ Hp1 Hp2).
Qed.

(** The frame is at the end of the text, except for three handlers. *)
Lemma exception_text_frame h frame error_code :
  h ∉ [divide_by_zero_handler; invalid_opcode_handler; alignment_check_handler; timer_interrupt_handler; keyboard_interrupt_handler] ->
  exists pre, concat (exception_text h frame error_code ++ [newline]) = pre ++ concat (fmt_frame frame) ++ newline.
Proof.
  assert (Hcat : forall pre, concat ((pre ++ fmt_frame frame) ++ [newline]) = concat pre ++ concat (fmt_frame frame) ++ newline).
  { intros pre. rewrite !concat_app, <- app_assoc. reflexivity. }
  intros Hh. destruct h; cbn [exception_text]; try (exfalso; apply Hh; repeat constructor; fail);
    match goal with
    | |- context [(?a :: fmt_frame frame) ++ _] => exists (concat [a]); exact (Hcat [a])
    | |- _ => eexists; apply Hcat
    end.
Qed.

(** What is decided about a registered exception. *)
Definition exception_facts (g : Z * stub) : bool :=
  let v := g.1 in
  let h := handler_of g.2 in
  negb (v <? 32) ||
  (negb (bool_decide (h = timer_interrupt_handler)) && negb (bool_decide (h = keyboard_interrupt_handler)) &&
   bool_decide (0 <= v < 256) && Bool.eqb (bool_decide (h = page_fault_handler)) (bool_decide (v = 14)) &&
   Bool.eqb (bool_decide (h ∈ [breakpoint_handler; nmi_handler; debug_handler; device_not_available_handler])) (bool_decide (v ∈ [1; 2; 3; 7])) &&
   (bool_decide (v ∈ [0; 6; 17]) ||
    bool_decide (h ∉ [divide_by_zero_handler; invalid_opcode_handler; alignment_check_handler; timer_interrupt_handler; keyboard_interrupt_handler]))).

(** The exceptions the kernel has gates for. *)
Lemma kernel_exceptions v s :
  gate_of kernel_gates v = Some s -> v < 32 ->
  let h := handler_of s in
  h <> timer_interrupt_handler /\ h <> keyboard_interrupt_handler /\ 0 <= v < 256 /\ (h = page_fault_handler <-> v = 14) /\
  (h ∈ [breakpoint_handler; nmi_handler; debug_handler; device_not_available_handler] <-> v ∈ [1; 2; 3; 7]) /\
  (v ∉ [0; 6; 17] -> h ∉ [divide_by_zero_handler; invalid_opcode_handler; alignment_check_handler; timer_interrupt_handler; keyboard_interrupt_handler]).
Proof.
  intros Hg%gate_of_elem Hv. cbv zeta.
  pose proof (proj1 (forallb_forall exception_facts kernel_gates) ltac:(vm_compute; reflexivity) _ (proj1 (list_elem_of_In _ _) Hg)) as Hb.
  unfold exception_facts in Hb. cbn [fst snd] in Hb. rewrite (proj2 (Z.ltb_lt _ _) Hv) in Hb. cbn [negb orb] in Hb.
  repeat (apply andb_prop in Hb as [Hb ?]). rewrite ?negb_true_iff, ?eqb_true_iff, ?orb_true_iff, ?bool_decide_eq_true, ?bool_decide_eq_false in *.
  rewrite <- (bool_decide_eq_true (handler_of s = page_fault_handler)), <- (bool_decide_eq_true (v = 14)), H1.
  rewrite <- (bool_decide_eq_true (handler_of s ∈ [breakpoint_handler; _; _; _])), <- (bool_decide_eq_true (v ∈ [1; 2; 3; 7])), H0.
  tauto.
Qed.

(** A page fault whose error code has an undeclared bit. *)
Lemma deliver_undeclared_bits fuel frame error_code st :
  traps_ready st -> Z.land error_code PageFaultErrorCode_all <> error_code ->
  deliver error_text code_at fuel 14 frame error_code st = Some (Panic UnwrapNone).
Proof.
  intros Ht He. rewrite (deliver_gate _ _ _ _ _ (with_error_code page_fault_handler) Ht) by (lia || reflexivity).
  cbn [handler_of call_handler]. rewrite flags_from_bits_spec, (proj2 (Z.eqb_neq _ _) He). reflexivity.
Qed.

(** C34: every exception the kernel registered is handled while the locks of the serial
    line and of the interrupt controllers are free: through its gate the right handler
    runs with interrupts off, writes exactly the text of that handler, and changes
    nothing else.  The divide error, the invalid opcode and the alignment check have a
    fixed line; the text of the others ends with the exception frame, whose five words
    can be read back from the bytes that went out.  After a debug exception, a
    non-maskable interrupt, a breakpoint or a missing device the interrupted code goes
    on with the interrupt flag as it was; after any other one the kernel stays in the
    handler with interrupts off.  The one exception: a page fault whose error code has
    a bit that is not declared panics in its handler. *)
Theorem exceptions_reported fuel v frame error_code st s :
  traps_ready st -> (polls_bound < fuel)%nat -> gate_of kernel_gates v = Some s -> v < 32 -> frame_in_width frame ->
  if (v =? 14) && negb (Z.land error_code PageFaultErrorCode_all =? error_code)
  then deliver error_text code_at fuel v frame error_code st = Some (Panic UnwrapNone)
  else exists f st', deliver error_text code_at fuel v frame error_code st = Some (Ret (f, st')) /\
    reported (exception_text (handler_of s) frame error_code ++ [newline]) f st st' /\ (f = Returns <-> v ∈ [1; 2; 3; 7]) /\
    (v = 0 -> sent (km_world st') = sent (km_world st) ++ (char_byte <$> text "Exception: divide by zero" ++ newline)) /\
    (v = 6 -> sent (km_world st') = sent (km_world st) ++ (char_byte <$> text "Invalid opcode handler" ++ newline)) /\
    (v = 17 -> sent (km_world st') = sent (km_world st) ++ (char_byte <$> text "Alignment check handler" ++ newline)) /\
    (v ∉ [0; 6; 17] -> exists pre tail, sent (km_world st') = sent (km_world st) ++ pre ++ tail /\ read_frame tail = Some frame).
Proof.
  intros Ht Hf Hs Hv Hw. destruct (kernel_exceptions v s Hs Hv) as (N1 & N2 & Hv' & P & R & T).
  destruct ((v =? 14) && negb (Z.land error_code PageFaultErrorCode_all =? error_code)) eqn:Epf.
  { apply andb_prop in Epf as [->%Z.eqb_eq He%negb_true_iff%Z.eqb_neq]. now apply deliver_undeclared_bits. }
  set (h := handler_of s) in *.
  set (f := if bool_decide (h ∈ [breakpoint_handler; nmi_handler; debug_handler; device_not_available_handler]) then Returns else Spins).
  destruct (deliver_reported fuel v frame error_code st s (exception_text h frame error_code ++ [newline]) f Ht Hv' Hs) as (st' & E & Hr).
  { intros st0 Hc. destruct (call_exception_handler fuel h frame error_code st0 Hf Hc N1 N2) as (f' & st' & E & -> & Hp); [|eauto].
    intros ->%P. cbn [Z.eqb Pos.eqb andb] in Epf. now apply negb_false_iff, Z.eqb_eq in Epf. }
  exists f, st'. split; [exact E|]. split; [exact Hr|]. pose proof Hr as (_ & _ & _ & Hsent & _). split.
  { unfold f. rewrite <- R. case_bool_decide; [tauto | split; [discriminate | tauto]]. }
  do 3 (split; [intros ->; injection Hs as <-; exact Hsent|]).
  intros Hn. destruct (exception_text_frame h frame error_code (T Hn)) as (pre & Epre).
  exists (char_byte <$> pre), (concat (fmt_frame frame) ++ newline). split; [|now apply read_frame_spec].
  rewrite Hsent, Epre, fmap_app, (sent_printable (_ ++ newline)) by apply frame_printable. reflexivity.
Qed.

(** A page fault whose error code has a bit that [PageFaultErrorCode] does not
    declare (bit 5, protection keys, and above) panics in the handler instead. *)
Theorem page_fault_undeclared_bits fuel frame error_code st :
  traps_ready st -> Z.land error_code PageFaultErrorCode_all <> error_code ->
  deliver error_text code_at fuel 14 frame error_code st = Some (Panic UnwrapNone).
Proof. exact (deliver_undeclared_bits fuel frame error_code st). Qed.

(** ** Device interrupts *)

(** A device handler's end: what it printed, and its end-of-interrupt commands. *)
Definition served (args : list (list Z)) st st' : Prop :=
  km_cpu st' = km_cpu st /\ km_idt st' = km_idt st /\ km_pics st' = km_pics st /\ console_ok (km_console st') /\
  sent (km_world st') = sent (km_world st) ++ (char_byte <$> concat args) /\
  chips (km_world st') = (chip_command END_OF_INTERRUPT (chips (km_world st)).1, chip_command END_OF_INTERRUPT (chips (km_world st)).2).

(** Printing, then the end of the interrupt. *)
Lemma print_and_notify fuel args st (i : InterruptIndex) :
  (polls_bound < fuel)%nat -> console_ok (km_console st) -> km_pics st = Mutex_new ChainedPics_new ->
  exists st', (st ← machine_print fuel args st; n ← as_remapped_idt_number i;
               with_pics fuel (fun pics => notify_end_of_interrupt pics n) st) = Ret st' /\ served args st st'.
Proof.
  intros Hf Hc Hp. destruct (machine_print_spec fuel args st Hf Hc) as (st1 & -> & C & I & P & O & S & H).
  cbn [mbind outcome_bind].
  assert (exists n, as_remapped_idt_number i = Ret n /\ 8 <= n) as (n & -> & Hn) by (exists (as_u8 i + 32); destruct i; (split; [reflexivity | cbn; lia])).
  cbn [mbind outcome_bind]. rewrite with_pics_spec by (congruence || lia). eexists. split; [reflexivity|].
  split; [exact C|]. split; [exact I|]. split; [exact P|]. unfold km_world. cbn [km_console c_world]. fold (km_world st1).
  split; [apply console_ok_world; [exact O | apply (notify_blind dlab), mw_pics_line]|].
  rewrite (notify_blind sent) by apply mw_pics_line. split; [exact S|].
  rewrite notify_spec, (proj2 (Z.leb_le _ _) Hn), H. reflexivity.
Qed.

(** The world after the scan code was read. *)
Definition scanned st : @kernel_machine W :=
  mkKernel (km_cpu st) (km_idt st) (km_pics st) (mkConsole (c_serial (km_console st)) (port_in u8 0x60 (km_world st)).2).

Lemma served_scanned args st st' : served args (scanned st) st' -> served args st st'.
Proof.
  unfold served, scanned, km_world. cbn [km_cpu km_idt km_pics km_console c_world].
  destruct (mw_keyboard (c_world (km_console st))) as (-> & -> & _). auto.
Qed.

(** C35: while the locks of the serial line and of the interrupt controllers are free,
    the timer and the keyboard are served: through their gates the handlers run
    with interrupts off, the timer's prints a dot and the keyboard's the decimal
    scan code, each acknowledges the interrupt, so that the line with the highest
    priority is no longer in service at either controller, and the interrupted
    code goes on as it was. *)
Theorem devices_served fuel i frame st :
  traps_ready st -> (polls_bound < fuel)%nat ->
  exists st', deliver error_text code_at fuel (32 + as_u8 i) frame 0 st = Some (Ret (Returns, st')) /\
    served [match i with Timer => text "." | Keyboard => fmt_dec (port_in u8 0x60 (km_world st)).1 end] st st' /\
    isr (chips (km_world st')).1 = clear_highest_priority (isr (chips (km_world st)).1).
Proof.
  intros Ht Hf. set (st0 := with_cpu (disable (km_cpu st)) st).
  assert (exists s, gate_of kernel_gates (32 + as_u8 i) = Some s /\ exists st1,
    call_handler error_text fuel (handler_of s) frame 0 st0 = Ret (Returns, st1) /\
    served [match i with Timer => text "." | Keyboard => fmt_dec (port_in u8 0x60 (km_world st)).1 end] st0 st1) as (s & Hs & st1 & E & Hsv).
  { destruct i; (eexists; split; [reflexivity|]); cbn [handler_of call_handler].
    - unfold timer_interrupt. destruct (print_and_notify fuel [text "."] st0 Timer Hf (tr_console _ Ht) (tr_pics _ Ht)) as (st1 & E & H).
      rewrite E. exists st1. split; [reflexivity | exact H].
    - unfold keyboard_interrupt, Port_read, read_from_register. cbn [address].
      assert (Hok : console_ok (km_console (scanned st0))).
      { apply (console_ok_world (km_console st)); [exact (tr_console _ Ht) | apply mw_keyboard]. }
      destruct (print_and_notify fuel [fmt_dec (port_in u8 0x60 (km_world st0)).1] (scanned st0) Keyboard Hf Hok (tr_pics _ Ht)) as (st1 & E & H).
      change (km_world st) with (km_world st0). unfold scanned in E. destruct (port_in u8 0x60 (km_world st0)) as [v w] eqn:Ep. cbn [fst snd] in *.
      rewrite E. exists st1. split; [reflexivity|]. apply served_scanned. exact H. }
  exists (with_cpu (if cpu_interrupts (km_cpu st) then enable (km_cpu st1) else km_cpu st1) st1).
  rewrite (deliver_gate fuel (32 + as_u8 i) frame 0 st s Ht) by (destruct i; cbn; lia || exact Hs). fold st0. rewrite E. cbn [mbind outcome_bind].
  split; [reflexivity|]. destruct Hsv as (C & I & P & O & S & H). split.
  - split; [|now repeat split]. cbn [with_cpu km_cpu]. rewrite C. apply restore_interrupts.
  - unfold km_world in *. cbn [with_cpu km_console]. rewrite H. reflexivity.
Qed.
End Theorems.

(** ** A machine after [interrupts::init] *)

Section Witnesses.
#[local] Existing Instances ref_bit_field ref_bit_field_ok ref_bitflags ref_bitflags_ok line_ports line_uart chip_ports chip_machine.

Definition all_handlers : list handler :=
  [divide_by_zero_handler; debug_handler; nmi_handler; breakpoint_handler; invalid_opcode_handler;
   device_not_available_handler; invalid_tss_handler; segment_not_present_handler; stack_segment_fault_handler;
   page_fault_handler; alignment_check_handler; double_fault_handler; timer_interrupt_handler; keyboard_interrupt_handler].

(** The stubs lie behind each other in the kernel's image. *)
Definition ex_stubs : list stub := (without_error_code <$> all_handlers) ++ (with_error_code <$> all_handlers).
Definition handler_index (h : handler) : Z :=
  match list_find (fun h' => h' = h) all_handlers with Some (i, _) => Z.of_nat i | None => 0 end.
Definition ex_stub_address (s : stub) : Z :=
  0xffff800000001000 + 64 * match s with without_error_code h => handler_index h | with_error_code h => 14 + handler_index h end.
Definition ex_code_at (a : Z) : option stub := List.find (fun s => ex_stub_address s =? a) ex_stubs.

Lemma ex_code s : ex_code_at (ex_stub_address s) = Some s.
Proof. destruct s as [h|h]; destruct h; vm_compute; reflexivity. Qed.

Lemma ex_stub_width s : in_width 64 (ex_stub_address s).
Proof. destruct s as [h|h]; destruct h; vm_compute; split; congruence. Qed.

(** Where a machine in order gets to. *)
Lemma ex_traps_ready : exists st', interrupts_init ex_stub_address 0x5000 0x7000 4 ex_kernel = Ret st' /\
  traps_ready ex_stub_address ex_code_at st' /\ cpu_interrupts (km_cpu st') = true.
Proof.
  destruct (interrupts_init_spec ex_stub_address 0x5000 0x6000 0x7000 4 ex_kernel)
    as (st' & low & high & code & data & tss & df & E & _ & Hi & Hp & Hc & _ & _ & _ & _ & _ & Hg & _);
    [reflexivity | reflexivity | cbn; lia | exact I | reflexivity | reflexivity | unfold in_width; lia | exact ex_stub_width | lia | reflexivity |].
  exists st'. split; [exact E|]. split; [|exact Hi]. split; [exact Hg | exact ex_code | exact Hc | exact Hp].
Qed.

Definition ex_frame : ExceptionStackFrame := mkExceptionStackFrame 0xffff800000000123 0x18 0x202 0xffff800000010000 0x20.

Lemma exceptions_reported_witness : exists st f st',
  deliver (fun _ => text "(empty)") ex_code_at 4 8 ex_frame 0 st = Some (Ret (f, st')) /\ f = Spins /\
  (exists pre tail, sent (km_world st') = sent (km_world st) ++ pre ++ tail /\ read_frame tail = Some ex_frame) /\
  deliver (fun _ => text "(empty)") ex_code_at 4 14 ex_frame 0x21 st = Some (Panic UnwrapNone).
Proof.
  destruct ex_traps_ready as (st & _ & Ht & _).
  assert (Hw : frame_in_width ex_frame) by (split; cbn; unfold in_width; lia).
  destruct (exceptions_reported (fun _ => text "(empty)") ex_stub_address ex_code_at 4 8 ex_frame 0 st (with_error_code double_fault_handler) Ht)
    as (f & st' & E & Hr & Hf & _ & _ & _ & Hframe); [cbn; lia | reflexivity | lia | exact Hw |].
  exists st, f, st'. split; [exact E|]. split; [|split].
  - destruct f; [|reflexivity]. exfalso. revert Hf. rewrite <- (bool_decide_eq_true (_ ∈ _)). intros [H _]. discriminate (H eq_refl).
  - apply Hframe. rewrite <- (bool_decide_eq_false (_ ∈ _)). reflexivity.
  - apply (exceptions_reported (fun _ => text "(empty)") ex_stub_address ex_code_at 4 14 ex_frame 0x21 st (with_error_code page_fault_handler) Ht);
      [cbn; lia | reflexivity | lia | exact Hw].
Defined.

Lemma page_fault_undeclared_bits_witness : exists st,
  deliver (fun _ => text "(empty)") ex_code_at 4 14 ex_frame 0x21 st = Some (Panic UnwrapNone).
Proof.
  destruct ex_traps_ready as (st & _ & Ht & _). exists st.
  apply (page_fault_undeclared_bits (fun _ => text "(empty)") ex_stub_address ex_code_at 4 ex_frame 0x21 st Ht).
  vm_compute. discriminate.
Defined.

Lemma devices_served_witness : exists st st',
  deliver (fun _ => text "(empty)") ex_code_at 4 (32 + as_u8 Timer) ex_frame 0 st = Some (Ret (Returns, st')) /\
  sent (km_world st') = sent (km_world st) ++ text ".".
Proof.
  destruct ex_traps_ready as (st & _ & Ht & _). exists st.
  destruct (devices_served (fun _ => text "(empty)") ex_stub_address ex_code_at 4 Timer ex_frame st Ht) as (st' & E & (_ & _ & _ & _ & Hs & _) & _);
    [cbn; lia|].
  exists st'. split; [exact E | exact Hs].
Defined.
End Witnesses.
