(* ===== verification/Stage4.v ===== *)
(** The last boot stage: [stage4/src/main.rs].

    Stage 4 builds the kernel's page table (kernel image, stack, descriptor
    table, boot information and all of physical memory) and jumps to the kernel.
    It runs with physical memory mapped one to one.  The two layouts the compiler
    chooses, the bytes of [BootInfo] and their size, are parameters; so are link
    addresses. *)
From Stdlib Require Import ZArith Lia.
From stdpp Require Import base tactics numbers list sets strings.
From S2P Require Import Prelude Crates Memory Paging BumpAlloc AddressSpace.
From S2P Require Import MapperClient BootInfo Ports SpinLock Fmt Serial KernelLoader Descriptors Processor KernelInterrupts.
#[local] Open Scope Z_scope.

Definition KERNEL_VIRTUAL_BASE : Z := 0xffffffff80000000.
Definition KERNEL_STACK_TOP : Z := 0xffffffff00000000.
Definition KERNEL_STACK_SIZE : Z := 128 * KIB.
Definition PHYSICAL_MEMORY_OFFSET : Z := 10 * TIB.

(** ** The memory map handed to the kernel *)

(** [new_regions[idx] = r] *)
Definition set_region (new_regions : list (option PhysicalMemoryRegion)) (idx : Z) (r : PhysicalMemoryRegion) :
    outcome (list (option PhysicalMemoryRegion)) :=
  if (0 <=? idx) && (idx <? Z.of_nat (length new_regions))
  then Ret (<[Z.to_nat idx := Some r]> new_regions) else Panic IndexOutOfBounds.

(** One round of the loop; [continue] skips the final assertion and the
    increment. *)
Definition build_step {S} (last_frame : PhysicalFrame S) (region : E820MemoryRegion)
    (st : list (option PhysicalMemoryRegion) * Z) : outcome (list (option PhysicalMemoryRegion) * Z) :=
  let '(new_regions, idx) := st in
  if region_is_usable region && (region_start region =? 0x0) then
    let new_region := e820_into region in
    new_regions ← set_region new_regions idx
      (PhysicalMemoryRegion_new (pmr_start new_region) (pmr_size new_region) Reserved);
    Ret (new_regions, idx)
  else
    '(new_regions, idx) ←
      (if negb (region_is_usable region) then
         new_regions ← set_region new_regions idx (e820_into region);
         Ret (new_regions, idx + 1)
       else
         contains ← region_contains region (frame_address last_frame);
         if (contains : bool) then
           e ← frame_end last_frame;
           sz ← usub 64 e (region_start region);
           new_regions ← set_region new_regions idx (PhysicalMemoryRegion_new (region_start region) sz Reserved);
           let idx := idx + 1 in
           re ← region_end region;
           if negb (e =? re) then
             sz ← usub 64 re e;
             new_regions ← set_region new_regions idx (PhysicalMemoryRegion_new e sz Free);
             Ret (new_regions, idx + 1)
           else Ret (new_regions, idx)
         else
           new_regions ← set_region new_regions idx (e820_into region);
           Ret (new_regions, idx + 1));
    _ ← assert_true (idx <? Z.of_nat (length new_regions));
    Ret (new_regions, idx).

Definition build_memory_map {S} (regions : list E820MemoryRegion) (last_frame : PhysicalFrame S) :
    outcome (list (option PhysicalMemoryRegion)) :=
  '(new_regions, _) ← fold_outcome (build_step last_frame) regions (replicate 32 None, 0);
  Ret new_regions.

(** The regions of the map. *)
Definition present_regions (l : list (option PhysicalMemoryRegion)) : list PhysicalMemoryRegion := omap id l.

(** ** The kernel's page table *)

Section Stage4.
Context `{BF : BitField} `{FL : Bitflags} `{MP : Mapper Size4KiB M} `{MP2 : Mapper Size2MiB M}
  `{TR : Translator Size4KiB M} `{FA : FrameAllocator A}.
Context (fuel : nat) (pt : M).
Implicit Types (st : mem * A).

Definition allocate_and_map_stack st : outcome (VirtualAddress * (mem * A)) :=
  end_page ← page_containing_address Size4KiB KERNEL_STACK_TOP;
  s ← usub 64 KERNEL_STACK_TOP KERNEL_STACK_SIZE;
  start_page ← page_containing_address Size4KiB s;
  st ← for_loop fuel (map_new_frame pt (flags_union (flags_union PRESENT WRITABLE) NO_EXECUTE))
         (page_range_inclusive start_page end_page) st;
  g ← virt_sub (page_address start_page) (SIZE Size4KiB);
  guard_page ← page_containing_address Size4KiB g;
  _ ← assert_true (negb (bool_decide (guard_page = start_page)));
  st ← map_new_frame pt NONE guard_page st;
  Ret (page_address end_page, st).

Definition identity_map_context_switch_function (context_switch : Z) st : outcome (mem * A) :=
  frame ← frame_containing_address Size4KiB context_switch;
  '(r, st) ← identity_map pt frame PRESENT st;
  _ ← expect r;
  Ret st.

(** The bytes of a descriptor table: eight entries and the size. *)
Definition gdt_store (m : mem) (address : Z) (t : GlobalDescriptorTable) : mem :=
  write_list m address (concat (to_le_bytes 8 <$> gdt_entries t) ++ to_le_bytes 8 (gdt_size t)).

Definition initialize_and_map_gdt (c : cpu) st : outcome (cpu * (mem * A)) :=
  let '(m, al) := st in
  '(f, al) ← allocate_frame al;
  frame ← unwrap f;
  let virtual_address := frame_address frame in
  let gdt := Gdt_new in
  let m := gdt_store m virtual_address gdt in
  d ← kernel_code_segment;
  '(_, gdt) ← add_entry gdt d;
  let m := gdt_store m virtual_address gdt in
  d ← kernel_data_segment;
  '(_, gdt) ← add_entry gdt d;
  let m := gdt_store m virtual_address gdt in
  c ← gdt_load gdt c;
  '(r, st) ← identity_map pt frame PRESENT (m, al);
  _ ← expect r;
  Ret (c, st).

(** The layouts of [BootInfo] (a multiple of 8 bytes) and of a memory region. *)
Context (boot_info_size : Z) (store_boot_info : mem -> Z -> BootInfo -> mem).

Definition REGION_SIZE : Z := 24.
Definition region_type_bits (t : PhysicalMemoryRegionType) : Z :=
  match t with Reserved => 0 | Free => 1 | Used => 2 end.
Definition store_region (m : mem) (address : Z) (r : PhysicalMemoryRegion) : mem :=
  write_list m address (to_le_bytes 8 (pmr_start r) ++ to_le_bytes 8 (pmr_size r)
                        ++ to_le_bytes 4 (region_type_bits (pmr_typ r))).

Fixpoint store_regions (m : mem) (address : Z) (rs : list PhysicalMemoryRegion) : mem :=
  match rs with
  | [] => m
  | r :: rs => store_regions (store_region m address r) (address + REGION_SIZE) rs
  end.

Definition allocate_and_map_boot_info (info : BiosInfo) (e820_memory_map : list E820MemoryRegion) st :
    outcome (VirtualAddress * (mem * A)) :=
  let '(m, al) := st in
  '(f, al) ← allocate_frame al;
  frame ← unwrap f;
  memory_map ← build_memory_map e820_memory_map frame;
  let regions := present_regions memory_map in
  let usable_memory_regions_amount := Z.of_nat (length regions) in
  let memory_regions_offset := boot_info_size in
  _ ← assert_true (memory_regions_offset + REGION_SIZE * usable_memory_regions_amount <=? SIZE Size4KiB);
  memory_regions_ptr ← phys_add (frame_address frame) memory_regions_offset;
  let m := store_regions m memory_regions_ptr regions in
  let boot_info := mkBootInfo (bios_kernel info) (bios_framebuffer info)
    (mkPhysicalMemoryRegions memory_regions_ptr usable_memory_regions_amount) PHYSICAL_MEMORY_OFFSET in
  let m := store_boot_info m (frame_address frame) boot_info in
  let virtual_address := frame_address frame in
  page ← page_for_address Size4KiB virtual_address;
  '(r, st) ← map_to pt frame page PRESENT (m, al);
  _ ← expect r;
  Ret (virtual_address, st).

Definition map_physical_frame (offset : VirtualAddress) (frame : PhysicalFrame Size2MiB) st : outcome (mem * A) :=
  a ← virt_add offset (frame_start frame);
  page ← page_containing_address Size2MiB a;
  '(r, st) ← map_to pt frame page (flags_union (flags_union PRESENT WRITABLE) NO_EXECUTE) st;
  _ ← expect r;
  Ret st.

Definition map_complete_physical_memory_space_into_kernel `{IO : IoPorts W} (highest_physical_address : PhysicalAddress)
    (offset : VirtualAddress) (s : (mem * A) * console W) : outcome ((mem * A) * console W) :=
  let '(st, con) := s in
  con ← println fuel [text "Mapping complete physical address space to offset: "; fmt_hex_alt offset] con;
  start ← frame_containing_address Size2MiB 0;
  e ← frame_containing_address Size2MiB highest_physical_address;
  _ ← assert_true (offset mod SIZE Size2MiB =? 0);
  st ← for_loop fuel (map_physical_frame offset) (frame_range_inclusive start e) st;
  Ret (st, con).
End Stage4.

(** ** The processor *)

Section Switch.
Context `{FL : Bitflags}.

Definition enable_nxe_bit (c : cpu) : cpu := Efer_update c (fun val => flags_union val EFER_NO_EXECUTE_ENABLE).

Definition enable_write_protect_bit (c : cpu) : cpu := Cr0_update c (fun val => flags_union val CR0_WRITE_PROTECT).

(** Where execution goes on: instruction pointer, stack pointer (below the zero
    that was pushed) and the argument in [rdi]. *)
Record entered := mkEntered { at_rip : Z; at_rsp : Z; at_rdi : Z }.

Definition context_switch (page_table stack_top entry_point boot_info : Z) (c : cpu) : cpu * entered :=
  let c := set_cr3 c page_table in
  (c, mkEntered entry_point (ucast 64 (stack_top - 8)) boot_info).
End Switch.

(** ** [start]

    Besides the memory, the frame allocator and the console, the result is the
    interrupt table and the state in which the kernel is entered.  The link addresses of the
    handlers' stubs, of the interrupt table and of [context_switch] are parameters, as is the memory map
    that [info] points to. *)
Definition start `{BF : BitField} `{FL : Bitflags} `{EB : ElfBinary B E} `{IO : IoPorts W} (fuel : nat)
    (display_flags : ProgramHeader -> list Z) (boot_info_size : Z) (store_boot_info : mem -> Z -> BootInfo -> mem)
    (stub_address : stub -> Z) (idt_address context_switch_address : Z)
    (info : BiosInfo) (memory_map : list E820MemoryRegion) (c : cpu) (m : mem) (con : console W) :
    outcome ((cpu * entered) * list InterruptDescriptor * (mem * BumpFrameAllocator E820MemoryRegion) * console W) :=
  con ← println fuel [text "Stage4"] con;
  '(idt, con) ← stage4_interrupts_init stub_address idt_address fuel c con;
  let c := enable_nxe_bit c in
  let c := enable_write_protect_bit c in
  f ← frame_containing_address Size4KiB (last_physical_address info);
  next_free_frame ← frame_add f 1;
  allocator ← bump_new_starting_at next_free_frame memory_map;
  '(f, allocator) ← allocate_frame allocator;
  kernel_page_table_frame ← unwrap f;
  let kernel_page_table_address := frame_start kernel_page_table_frame in
  m ← initialize_empty_at_address m kernel_page_table_address;
  let page_table := OffsetPageTable_new kernel_page_table_address (mkPhysicalOffset 0) in
  '(kernel_entry_point, (st, con)) ← load_kernel fuel KERNEL_VIRTUAL_BASE info page_table display_flags ((m, allocator), con);
  '(stack_top, st) ← allocate_and_map_stack fuel page_table st;
  st ← identity_map_context_switch_function page_table context_switch_address st;
  '(c, st) ← initialize_and_map_gdt page_table c st;
  '(boot_info_address, st) ← allocate_and_map_boot_info page_table boot_info_size store_boot_info info memory_map st;
  max ← max_physical_address (snd st);
  '(st, con) ← map_complete_physical_memory_space_into_kernel fuel page_table max PHYSICAL_MEMORY_OFFSET (st, con);
  con ← println fuel [text "Switching to kernel entry point at "; fmt_hex_alt kernel_entry_point;
                      text ", kernel page table at address: "; fmt_hex_alt (frame_start kernel_page_table_frame)] con;
  Ret (context_switch (frame_start kernel_page_table_frame) stack_top kernel_entry_point boot_info_address c, idt, st, con).
