(* ===== verification/Stage4Theorems.v ===== *)
(** Theorems on stage 4: the kernel stack is mapped as the kernel expects it, and
    what the memory map handed to the kernel says. *)
From Stdlib Require Import ZArith Lia.
From stdpp Require Import base tactics numbers list sets.
From S2P Require Import Prelude Crates Memory Paging BumpAlloc AddressSpace.
From S2P Require Import MapperClient HeapSetup BootInfo KernelLoader Descriptors Stage4.
#[local] Open Scope Z_scope.

(** ** The kernel stack *)

Definition stack_bottom : Z := KERNEL_STACK_TOP - KERNEL_STACK_SIZE.
(** The pages from the bottom of the stack to the one at its top, and the page below. *)
Definition stack_pages : list (Page Size4KiB) := pages_from Size4KiB stack_bottom 33.
Definition stack_guard : Page Size4KiB := mkPage Size4KiB (stack_bottom - 4096).

Lemma stack_pages_computed :
  page_containing_address Size4KiB KERNEL_STACK_TOP
    = Ret (mkPage Size4KiB (stack_bottom + (33 - 1) * SIZE Size4KiB)) /\
  usub 64 KERNEL_STACK_TOP KERNEL_STACK_SIZE = Ret stack_bottom /\
  page_containing_address Size4KiB stack_bottom = Ret (mkPage Size4KiB stack_bottom) /\
  virt_sub stack_bottom (SIZE Size4KiB) = Ret (stack_bottom - 4096) /\
  page_containing_address Size4KiB (stack_bottom - 4096) = Ret stack_guard /\
  negb (bool_decide (stack_guard = mkPage Size4KiB stack_bottom)) = true.
Proof. refine (conj _ (conj _ (conj _ (conj _ (conj _ _))))); vm_compute; reflexivity. Qed.

Lemma stack_pages_vpns :
  ((fun p => vpn (page_address p)) <$> stack_pages) = seqZ (vpn stack_bottom) 33.
Proof. vm_compute. reflexivity. Qed.

Lemma stack_pages_length : length stack_pages = 33%nat.
Proof. reflexivity. Qed.

Lemma stack_guard_vpn : vpn (page_address stack_guard) = vpn stack_bottom - 1.
Proof. vm_compute. reflexivity. Qed.

Section Stack.
Context `{BF : BitField} `{FL : Bitflags} `{FLS : !BitflagsSpec FL} `{MS : MapperSpec M A}.
Implicit Types (pt : M) (m : mem) (a : A).

Lemma allocate_and_map_stack_run fuel pt st st1 st2 :
  (33 < fuel)%nat ->
  fold_outcome (map_new_frame pt (flags_union (flags_union PRESENT WRITABLE) NO_EXECUTE)) stack_pages st = Ret st1 ->
  map_new_frame pt NONE stack_guard st1 = Ret st2 ->
  allocate_and_map_stack fuel pt st = Ret (KERNEL_STACK_TOP, st2).
Proof.
  intros Hfuel E1 E2. unfold allocate_and_map_stack.
  destruct stack_pages_computed as (Ee & Es & Ep & Eg & Egp & Ene).
  eapply bind_run; [exact Ee|]. eapply bind_run; [exact Es|]. eapply bind_run; [exact Ep|].
  eapply bind_run.
  { rewrite (for_loop_yields _ _ stack_pages); [exact E1 | | rewrite stack_pages_length; lia].
    apply page_range_yields; [lia | vm_compute; discriminate | reflexivity]. }
  eapply bind_run; [exact Eg|]. eapply bind_run; [exact Egp|].
  eapply bind_run; [rewrite Ene; reflexivity|]. eapply bind_run; [exact E2|]. reflexivity.
Qed.

Lemma allocate_and_map_stack_spec fuel pt m a :
  ms_inv pt m a -> (33 < fuel)%nat -> 136 <= fa_avail a ->
  Forall (mappable pt m) (stack_guard :: stack_pages) ->
  exists fs m' a', allocate_and_map_stack fuel pt (m, a) = Ret (KERNEL_STACK_TOP, (m', a')) /\
    ms_inv pt m' a' /\ keeps pt m a m' a' /\ NoDup fs /\ (forall f, f ∈ fs -> fa_free a f) /\
    Forall2 (fun p f => ms_lookup pt m' p
               = Some (mkFrame Size4KiB f, flags_union (flags_union PRESENT WRITABLE) NO_EXECUTE)) stack_pages fs /\
    ms_lookup pt m' stack_guard = None /\
    (forall q, in_width 64 (page_address q) ->
       vpn (page_address q) ∉ seqZ (vpn stack_bottom - 1) 34 -> ms_lookup pt m' q = ms_lookup pt m q) /\
    consumed 136 a a' /\ (forall va, in_width 64 va -> ms_plain pt m va -> ms_plain pt m' va).
Proof.
  intros Hi Hfuel Hav Hall.
  assert (Hfl : flags_union (flags_union PRESENT WRITABLE) NO_EXECUTE = 2 ^ 63 + 3) by now rewrite !flags_union_spec.
  assert (Hvpns : ((fun p => vpn (page_address p)) <$> stack_guard :: stack_pages) = seqZ (vpn stack_bottom - 1) 34).
  { rewrite fmap_cons, stack_pages_vpns, stack_guard_vpn. vm_compute. reflexivity. }
  destruct (map_guarded_pages_spec pt (flags_union (flags_union PRESENT WRITABLE) NO_EXECUTE) stack_pages stack_guard m a Hi)
    as (fs & st1 & m' & a' & E1 & E2 & Hi' & Hk & Hnd & Hfs & Hlook & Hg & Hother & Hco & Hpl);
    [now rewrite Hfl | now rewrite Hfl | assumption | rewrite Hvpns; apply NoDup_seqZ | rewrite stack_pages_length; lia |].
  rewrite Hvpns in Hother. exists fs, m', a'. split; [eapply allocate_and_map_stack_run; eassumption|].
  split; [assumption|]. split; [assumption|]. split; [assumption|]. split; [intros f Hf; now apply Hfs|].
  split; [assumption|]. split; [assumption|]. split; [exact Hother|]. split; [exact Hco | exact Hpl].
Qed.

(** With enough frames left and its address range unmapped, the kernel stack is
    set up: 128 KiB below the stack top are mapped writable and not executable,
    each page to a frame of its own, the page below stays unmapped to catch
    overflows, no other page changes, and the stack top is returned. *)
Theorem allocate_and_map_stack_correct fuel pt m a :
  ms_inv pt m a -> (33 < fuel)%nat -> 136 <= fa_avail a ->
  Forall (mappable pt m) (stack_guard :: stack_pages) ->
  exists fs m' a', allocate_and_map_stack fuel pt (m, a) = Ret (KERNEL_STACK_TOP, (m', a')) /\
    ms_inv pt m' a' /\ keeps pt m a m' a' /\ NoDup fs /\ (forall f, f ∈ fs -> fa_free a f) /\
    Forall2 (fun p f => ms_lookup pt m' p
               = Some (mkFrame Size4KiB f, flags_union (flags_union PRESENT WRITABLE) NO_EXECUTE)) stack_pages fs /\
    ms_lookup pt m' stack_guard = None /\
    (forall q, in_width 64 (page_address q) ->
       vpn (page_address q) ∉ seqZ (vpn stack_bottom - 1) 34 -> ms_lookup pt m' q = ms_lookup pt m q).
Proof.
  intros Hi Hfuel Hav Hall. destruct (allocate_and_map_stack_spec fuel pt m a Hi Hfuel Hav Hall)
    as (fs & m' & a' & ? & ? & ? & ? & ? & ? & ? & ? & _). exists fs, m', a'. auto 10.
Qed.
End Stack.

(** ** The memory map *)

(** The array with the entries [l] in front. *)
Definition region_array (l : list PhysicalMemoryRegion) : list (option PhysicalMemoryRegion) :=
  (Some <$> l) ++ replicate (32 - length l) None.

Lemma region_array_push l r :
  (length l < 32)%nat -> set_region (region_array l) (Z.of_nat (length l)) r = Ret (region_array (l ++ [r])).
Proof.
  intros Hl. unfold set_region, region_array.
  rewrite length_app, length_fmap, length_replicate.
  replace (length l + (32 - length l))%nat with 32%nat by lia.
  change (Z.of_nat 32) with 32. replace ((0 <=? Z.of_nat (length l)) && (Z.of_nat (length l) <? 32)) with true by lia.
  rewrite Nat2Z.id.
  rewrite fmap_app, length_app. cbn [length fmap list_fmap].
  replace (32 - length l)%nat with (S (32 - (length l + 1)))%nat by lia. cbn [replicate].
  rewrite insert_app_r_alt by (rewrite length_fmap; lia). rewrite length_fmap, Nat.sub_diag. cbn.
  now rewrite <- app_assoc.
Qed.

Lemma region_array_length l : (length l <= 32)%nat -> length (region_array l) = 32%nat.
Proof. intros Hl. unfold region_array. rewrite length_app, length_fmap, length_replicate. lia. Qed.

Lemma present_region_array l : present_regions (region_array l) = l.
Proof.
  unfold present_regions, region_array. rewrite omap_app.
  replace (omap id (replicate (32 - length l) (@None PhysicalMemoryRegion))) with (@nil PhysicalMemoryRegion)
    by (induction (32 - length l)%nat as [|k IH]; cbn; [reflexivity | exact IH]).
  rewrite app_nil_r. induction l as [|r l IH]; [reflexivity|]. cbn. f_equal. exact IH.
Qed.

Section MemoryMap.
Context (f : PhysicalFrame Size4KiB).
Implicit Types (r : E820MemoryRegion).

Abbreviation r_end r := (region_start r + region_size r).

(** A region [build_memory_map] can handle: a usable one does not start at 0, and
    if it contains the last frame, then all of it. *)
Record region_fits r : Prop := {
  rf_start : 0 <= region_start r;
  rf_end : 0 <= region_size r /\ r_end r < 2 ^ 64;
  rf_low : region_is_usable r = true -> region_start r <> 0;
  rf_frame : region_is_usable r = true -> region_start r <= frame_address f <= r_end r ->
    frame_address f + 4096 <= r_end r;
}.

Definition contains_frame r : bool := (region_start r <=? frame_address f) && (frame_address f <=? r_end r).

(** The entries a region gives rise to. *)
Definition region_entries r : list PhysicalMemoryRegion :=
  if region_is_usable r && contains_frame r then
    PhysicalMemoryRegion_new (region_start r) (frame_address f + 4096 - region_start r) Reserved ::
    (if frame_address f + 4096 =? r_end r then []
     else [PhysicalMemoryRegion_new (frame_address f + 4096) (r_end r - (frame_address f + 4096)) Free])
  else [e820_into r].

Lemma build_step_spec r l :
  0 <= frame_address f -> region_fits r -> (length l + length (region_entries r) < 32)%nat ->
  build_step f r (region_array l, Z.of_nat (length l))
  = Ret (region_array (l ++ region_entries r), Z.of_nat (length (l ++ region_entries r))).
Proof.
  intros Hf [Hs [Hz He] Hlow Hfr] Hlen. unfold build_step, region_entries in *.
  assert (Hpush : forall l' e, (length l' < 31)%nat ->
    set_region (region_array l') (Z.of_nat (length l')) e = Ret (region_array (l' ++ [e])) /\
    Z.of_nat (length l') + 1 = Z.of_nat (length (l' ++ [e])) /\
    assert_true (Z.of_nat (length (l' ++ [e])) <? Z.of_nat (length (region_array (l' ++ [e])))) = Ret tt).
  { intros l' e Hl'. rewrite region_array_push by lia. split; [reflexivity|].
    assert (Hl1 : length (l' ++ [e]) = S (length l')) by (rewrite length_app; cbn; lia).
    rewrite region_array_length by lia. rewrite Hl1. split; [lia|].
    unfold assert_true. change (Z.of_nat 32) with 32. rewrite (proj2 (Z.ltb_lt (Z.of_nat (S (length l'))) 32)) by lia. reflexivity. }
  destruct (region_is_usable r) eqn:Eu; cbn [andb negb].
  - destruct (Z.eqb_spec (region_start r) 0) as [E0|_]; [now destruct (Hlow eq_refl)|].
    assert (Ec : region_contains r (frame_address f) = Ret (contains_frame r)).
    { unfold contains_frame. destruct r as [s z t x]. cbn in *. destruct (s <=? frame_address f); [|reflexivity].
      unfold uadd. now rewrite checked_ok by lia. }
    rewrite Ec. cbn [mbind outcome_bind]. cbn [andb] in Hlen. destruct (contains_frame r) eqn:Ecf.
    + assert (Hin : region_start r <= frame_address f <= r_end r) by (unfold contains_frame in Ecf; lia).
      specialize (Hfr eq_refl Hin). unfold frame_end, frame_start, frame_size, uadd, usub. cbn [SIZE].
      change 0x1000 with 4096. rewrite checked_ok by lia. cbn [mbind outcome_bind]. rewrite checked_ok by lia.
      cbn [mbind outcome_bind].
      assert (Ere : region_end r = Ret (r_end r)).
      { destruct r as [s z t x]. cbn in *. unfold uadd. now rewrite checked_ok by lia. }
      destruct (Hpush l (PhysicalMemoryRegion_new (region_start r) (frame_address f + 4096 - region_start r) Reserved))
        as (-> & -> & Ha); [cbn [length] in Hlen; lia|]. cbn [mbind outcome_bind]. rewrite Ere. cbn [mbind outcome_bind].
      destruct (Z.eqb_spec (frame_address f + 4096) (r_end r)) as [E|E]; cbn [negb].
      * cbn [mbind outcome_bind]. rewrite Ha. reflexivity.
      * rewrite checked_ok by lia. cbn [mbind outcome_bind].
        edestruct (Hpush (l ++ [PhysicalMemoryRegion_new (region_start r) (frame_address f + 4096 - region_start r) Reserved]))
          as (-> & -> & Ha2); [rewrite length_app; cbn [length] in Hlen |- *; lia|]. cbn [mbind outcome_bind].
        rewrite Ha2. cbn [mbind outcome_bind]. now rewrite <- app_assoc.
    + destruct (Hpush l (e820_into r)) as (-> & -> & Ha); [cbn [length] in Hlen; lia|]. cbn [mbind outcome_bind].
      now rewrite Ha.
  - cbn [andb] in Hlen. destruct (Hpush l (e820_into r)) as (-> & -> & Ha); [cbn [length] in Hlen; lia|].
    cbn [mbind outcome_bind]. now rewrite Ha.
Qed.

Lemma build_steps_spec regions l :
  0 <= frame_address f -> Forall region_fits regions ->
  (length (l ++ mjoin (region_entries <$> regions)) < 32)%nat ->
  fold_outcome (build_step f) regions (region_array l, Z.of_nat (length l))
  = Ret (region_array (l ++ mjoin (region_entries <$> regions)),
         Z.of_nat (length (l ++ mjoin (region_entries <$> regions)))).
Proof.
  intros Hf. revert l. induction regions as [|r regions IH]; intros l Hfit Hlen.
  - cbn. now rewrite app_nil_r.
  - apply Forall_cons in Hfit as [Hr Hfit]. rewrite fmap_cons in *. cbn [mjoin list_join] in *.
    rewrite app_assoc in Hlen |- *. cbn [fold_outcome].
    rewrite build_step_spec by (try assumption; rewrite !length_app in Hlen; lia).
    exact (IH (l ++ region_entries r) Hfit Hlen).
Qed.

Lemma build_memory_map_spec regions :
  0 <= frame_address f -> Forall region_fits regions -> (length (mjoin (region_entries <$> regions)) < 32)%nat ->
  build_memory_map regions f = Ret (region_array (mjoin (region_entries <$> regions))).
Proof.
  intros Hf Hfit Hlen. unfold build_memory_map.
  change (replicate 32 None, 0) with (region_array [], Z.of_nat (length (@nil PhysicalMemoryRegion))).
  rewrite (build_steps_spec regions []) by assumption. reflexivity.
Qed.

(** An address in an entry that is reported free. *)
Definition reported_free (map : list (option PhysicalMemoryRegion)) (x : Z) : Prop :=
  exists e, e ∈ present_regions map /\ region_is_usable e = true /\ region_start e <= x < region_start e + region_size e.

Lemma region_entries_free r x :
  region_fits r ->
  (exists e, e ∈ region_entries r /\ region_is_usable e = true /\ region_start e <= x < region_start e + region_size e) <->
  (region_is_usable r = true /\ region_start r <= x < r_end r /\ (contains_frame r = true -> frame_address f + 4096 <= x)).
Proof.
  intros [Hs [Hz He] Hlow Hfr]. unfold region_entries.
  destruct (region_is_usable r) eqn:Eu; [destruct (contains_frame r) eqn:Ec|]; cbn [andb].
  - assert (Hin : region_start r <= frame_address f <= r_end r) by (unfold contains_frame in Ec; lia).
    specialize (Hfr eq_refl Hin). split.
    + intros (e & [->|Hin']%elem_of_cons & Hu & Hx); [discriminate|].
      destruct (Z.eqb_spec (frame_address f + 4096) (r_end r)); [now apply not_elem_of_nil in Hin'|].
      apply list_elem_of_singleton in Hin' as ->. cbn [PhysicalMemoryRegion_MemoryRegion Memory.region_start Memory.region_size
        pmr_start pmr_size PhysicalMemoryRegion_new] in Hx. split; [reflexivity|]. split; [lia | intros _; lia].
    + intros (_ & Hx & Hge). specialize (Hge eq_refl).
      destruct (Z.eqb_spec (frame_address f + 4096) (r_end r)); [lia|].
      eexists. split; [right; left|]. split; [reflexivity|].
      cbn [PhysicalMemoryRegion_MemoryRegion Memory.region_start Memory.region_size
        pmr_start pmr_size PhysicalMemoryRegion_new]. lia.
  - split.
    + intros (e & ->%list_elem_of_singleton & Hu & Hx). split; [reflexivity|]. split; [exact Hx | discriminate].
    + intros (_ & Hx & _). exists (e820_into r). split; [left|]. rewrite e820_into_usable. split; [exact Eu | exact Hx].
  - split; [|intros [Hd _]; discriminate].
    intros (e & ->%list_elem_of_singleton & Hu & _). rewrite e820_into_usable, Eu in Hu. discriminate.
Qed.

(** What the map reports as free. *)
Lemma reported_free_spec regions x :
  Forall region_fits regions ->
  reported_free (region_array (mjoin (region_entries <$> regions))) x <->
  exists r, r ∈ regions /\ region_is_usable r = true /\ region_start r <= x < r_end r /\
    (contains_frame r = true -> frame_address f + 4096 <= x).
Proof.
  intros Hfit. unfold reported_free. rewrite present_region_array. rewrite Forall_forall in Hfit. split.
  - intros (e & (l & He & (r & -> & Hr)%list_elem_of_fmap)%list_elem_of_join & Hu & Hx). exists r.
    split; [assumption|]. apply (region_entries_free r x); [auto | eauto].
  - intros (r & Hr & Hd). apply (region_entries_free r x) in Hd as (e & He & Hu & Hx); [|auto]. exists e.
    split; [|auto]. apply list_elem_of_join. exists (region_entries r). split; [assumption|].
    apply list_elem_of_fmap. eauto.
Qed.
End MemoryMap.

(** A usable region that starts at address 0 is meant to be listed as reserved,
    but its entry is overwritten by the one of the next region: the map is the
    same as without it. *)
Theorem low_region_overwritten (f : PhysicalFrame Size4KiB) r0 r1 regions :
  region_is_usable r0 = true -> region_start r0 = 0 ->
  build_memory_map (r0 :: r1 :: regions) f = build_memory_map (r1 :: regions) f.
Proof.
  intros Hu H0. unfold build_memory_map. cbn [fold_outcome].
  assert (E0 : forall e, build_step f r1 (<[0%nat := Some e]> (replicate 32 None), 0)
                         = build_step f r1 (replicate 32 None, 0)).
  { intros e. unfold build_step, set_region. rewrite length_insert, length_replicate.
    cbn [Z.leb Z.ltb Z.compare andb]. change (Z.to_nat 0) with 0%nat.
    destruct (region_is_usable r1 && (region_start r1 =? 0)); cbn [Z.of_nat]; [reflexivity|].
    destruct (negb (region_is_usable r1)); [reflexivity|].
    destruct (region_contains r1 (frame_address f)) as [[]|]; [|reflexivity|reflexivity]. cbn [mbind outcome_bind].
    destruct (frame_end f); [|reflexivity]. cbn [mbind outcome_bind].
    destruct (usub 64 a (region_start r1)); [|reflexivity]. reflexivity. }
  set (e := PhysicalMemoryRegion_new (region_start r0) (region_size r0) Reserved).
  assert (E1 : build_step f r0 (replicate 32 None, 0) = Ret (<[0%nat := Some e]> (replicate 32 None), 0)).
  { unfold build_step. rewrite Hu, H0. cbn [andb Z.eqb]. unfold e. rewrite H0. unfold e820_into, region_start in *. cbn in H0.
    cbn. rewrite H0. reflexivity. }
  rewrite E1. cbn [mbind outcome_bind]. rewrite E0. reflexivity.
Qed.

(** A usable region at 0 that comes first is overwritten by the next one. *)
Definition kept_regions (map : list E820MemoryRegion) : list E820MemoryRegion :=
  match map with
  | r0 :: (_ :: _) as rest => if region_is_usable r0 && (region_start r0 =? 0) then rest else map
  | _ => map
  end.

Lemma build_memory_map_kept (f : PhysicalFrame Size4KiB) map : build_memory_map map f = build_memory_map (kept_regions map) f.
Proof.
  destruct map as [|r0 [|r1 map]]; [reflexivity..|]. cbn [kept_regions].
  destruct (region_is_usable r0 && (region_start r0 =? 0)) eqn:E; [|reflexivity].
  apply andb_true_iff in E as [Hu H0%Z.eqb_eq]. now apply low_region_overwritten.
Qed.

Lemma kept_sub r map : r ∈ kept_regions map -> r ∈ map.
Proof. destruct map as [|r0 [|r1 map]]; [easy..|]. cbn [kept_regions]. destruct (_ && _); [now right | easy]. Qed.

Lemma kept_in r map : r ∈ map -> region_start r <> 0 -> r ∈ kept_regions map.
Proof.
  destruct map as [|r0 [|r1 map]]; [easy..|]. intros Hr Hn. cbn [kept_regions].
  destruct (region_is_usable r0 && (region_start r0 =? 0)) eqn:E; [|exact Hr]. apply elem_of_cons in Hr as [->|Hr]; [lia | exact Hr].
Qed.

(** C16: the memory map built for the kernel reports as free exactly the usable memory
    of the firmware's regions that do not start at address 0 less, in the region that
    holds the last frame used, everything up to the end of that frame.  Of the regions
    only the first, with another one behind it, may be usable and start at 0; a usable
    region holds the last frame completely or not at all, and there is room in the
    array. *)
Theorem memory_map_correct (f : PhysicalFrame Size4KiB) regions :
  0 <= frame_address f -> Forall (region_fits f) (kept_regions regions) ->
  (length (mjoin (region_entries f <$> kept_regions regions)) < 32)%nat ->
  exists map, build_memory_map regions f = Ret map /\
    forall x, reported_free map x <->
      exists r, r ∈ regions /\ region_is_usable r = true /\ region_start r <> 0 /\
        region_start r <= x < region_start r + region_size r /\
        (contains_frame f r = true -> frame_address f + 4096 <= x).
Proof.
  intros Hf Hfit Hlen. rewrite build_memory_map_kept. eexists. split; [now apply build_memory_map_spec|].
  intros x. rewrite reported_free_spec by assumption. split.
  - intros (r & Hr & Hu & Hx). exists r. split; [now apply kept_sub|]. split; [exact Hu|]. split; [|exact Hx].
    rewrite Forall_forall in Hfit. now apply (rf_low f r (Hfit r Hr)).
  - intros (r & Hr & Hu & Hn & Hx). exists r. split; [now apply kept_in | auto].
Qed.

(** Frames of one region are handed out in ascending order. *)
Lemma usable_addrs_ascending `{MR : MemoryRegion D} (map : list D) i j x y r :
  map_ok map -> usable_addrs map !! i = Some x -> usable_addrs map !! j = Some y -> (i < j)%nat ->
  r ∈ map -> region_is_usable r = true ->
  region_start r <= x < region_start r + region_size r ->
  region_start r <= y < region_start r + region_size r -> x < y.
Proof.
  revert i j. induction map as [|r0 map IH]; intros i j Hok Hx Hy Hij Hr Hu Hxr Hyr; [now apply not_elem_of_nil in Hr|].
  cbn [map_ok usable_addrs] in *. destruct Hok as [H0 Hok]. destruct (region_is_usable r0) eqn:E0.
  2: { apply elem_of_cons in Hr as [->|Hr]; [congruence|]. now apply (IH i j). }
  destruct (H0 eq_refl) as [Hr0 Hdisj]. set (block := page_addrs (region_start r0) (region_size r0)) in *.
  assert (Hblock : forall k z, block !! k = Some z ->
    z = region_start r0 + Z.of_nat k * 4096 /\ region_start r0 <= z < region_start r0 + region_size r0).
  { intros k z E. pose proof (list_elem_of_lookup_2 _ _ _ E) as (u & Hu0 & -> & Hlt)%elem_of_page_addrs.
    unfold block, page_addrs in E. rewrite list_lookup_fmap in E.
    destruct (seqZ _ _ !! k) eqn:Ek; [|discriminate]. injection E as E. apply lookup_seqZ in Ek as [-> _]. lia. }
  assert (Hrest : forall k z, (length block <= k)%nat -> (block ++ usable_addrs map) !! k = Some z ->
    usable_addrs map !! (k - length block)%nat = Some z /\ ~ (region_start r0 <= z < region_start r0 + region_size r0)).
  { intros k z Hk E. rewrite lookup_app_r in E by assumption. split; [exact E|].
    apply list_elem_of_lookup_2, elem_of_usable_addrs in E as (r' & Hr' & Hu' & u & ? & -> & ?).
    destruct (Hdisj r' Hr' Hu'); lia. }
  assert (Hr0r : forall z, region_start r0 <= z < region_start r0 + region_size r0 ->
    region_start r <= z < region_start r + region_size r -> r = r0).
  { intros z Hz0 Hz. apply elem_of_cons in Hr as [->|Hr]; [reflexivity|]. destruct (Hdisj r Hr Hu); lia. }
  destruct (Nat.lt_ge_cases i (length block)) as [Hi|Hi].
  - rewrite lookup_app_l in Hx by assumption. destruct (Hblock i x Hx) as [Ex Hx0].
    destruct (Nat.lt_ge_cases j (length block)) as [Hj|Hj].
    + rewrite lookup_app_l in Hy by assumption. destruct (Hblock j y Hy) as [Ey _]. lia.
    + destruct (Hrest j y Hj Hy) as [_ Hn]. rewrite (Hr0r x Hx0 Hxr) in Hyr. contradiction.
  - destruct (Hrest i x Hi Hx) as [Ex Hnx]. destruct (Hrest j y ltac:(lia) Hy) as [Ey _].
    apply elem_of_cons in Hr as [->|Hr]; [contradiction|].
    now apply (IH (i - length block)%nat (j - length block)%nat); try lia.
Qed.

(** A frame that is allocated after the one the map was built for is reported
    to the kernel as free.  Stage 4 allocates such frames: the tables that map the
    boot information and all of physical memory. *)
Theorem later_frames_reported_free (b : BumpFrameAllocator E820MemoryRegion) f g b' :
  bump_ok b -> allocate_frames 2 b = Ret ([f; g], b') ->
  Forall (region_fits f) (memory_map b) ->
  (length (mjoin (region_entries f <$> memory_map b)) < 32)%nat ->
  exists map, build_memory_map (memory_map b) f = Ret map /\ reported_free map (frame_address g).
Proof.
  intros Hok Ealloc Hfit Hlen. pose proof Hok as [Hmap _].
  assert (Hlast : exists rest, bump_left b = frame_address f :: frame_address g :: rest).
  { cbn [allocate_frames] in Ealloc. change (allocate_frame b) with (bump_allocate_frame b) in Ealloc.
    destruct (bump_step b Hok) as (b1 & E1 & _ & Hl1 & Hok1). rewrite E1 in Ealloc.
    destruct (bump_left b) as [|x l]; [discriminate|]. cbn [head fmap option_fmap option_map mbind outcome_bind unwrap] in Ealloc.
    change (allocate_frame b1) with (bump_allocate_frame b1) in Ealloc.
    destruct (bump_step b1) as (b2 & E2 & _ & _ & _); [now apply Hok1|]. rewrite E2, Hl1 in Ealloc. cbn [tail] in Ealloc.
    destruct l as [|y l]; [discriminate|]. cbn in Ealloc. injection Ealloc as <- <- _. exists l. reflexivity. }
  destruct Hlast as [rest Hlast]. unfold bump_left in Hlast. set (n := Z.to_nat (bump_next b)) in *.
  assert (Ef : usable_addrs (memory_map b) !! n = Some (frame_address f)).
  { pose proof (f_equal (fun l => l !! 0%nat) Hlast) as E. cbn beta in E. now rewrite lookup_drop, Nat.add_0_r in E. }
  assert (Eg : usable_addrs (memory_map b) !! S n = Some (frame_address g)).
  { pose proof (f_equal (fun l => l !! 1%nat) Hlast) as E. cbn beta in E. now rewrite lookup_drop, Nat.add_1_r in E. }
  pose proof (list_elem_of_lookup_2 _ _ _ Ef) as Hf. pose proof (list_elem_of_lookup_2 _ _ _ Eg) as Hg.
  destruct (usable_addrs_valid _ _ Hmap Hf) as [Hf0 Hfal]. destruct (usable_addrs_valid _ _ Hmap Hg) as [_ Hgal].
  eexists. split; [apply build_memory_map_spec; [lia | assumption..]|].
  apply reported_free_spec; [assumption|].
  apply elem_of_usable_addrs in Hg as (r & Hr & Hu & i & Hi & Eg' & Hlt). exists r.
  split; [assumption|]. split; [assumption|]. split; [lia|]. intros Hc.
  rewrite Forall_forall in Hfit. destruct (Hfit r Hr) as [_ _ _ Hfr].
  assert (Hin : region_start r <= frame_address f <= region_start r + region_size r) by (unfold contains_frame in Hc; lia).
  specialize (Hfr Hu Hin).
  assert (frame_address f < frame_address g).
  { eapply (usable_addrs_ascending (memory_map b) n (S n)); eauto; lia. }
  Z.to_euclidean_division_equations; lia.
Qed.

(** ** Concrete runs *)

Section Witnesses.
#[local] Existing Instances ref_bit_field ref_bitflags ref_bit_field_ok ref_bitflags_ok.

Lemma allocate_and_map_stack_correct_witness :
  exists fs m' a', allocate_and_map_stack 34 ex_table (ex_tables, ex_frames) = Ret (KERNEL_STACK_TOP, (m', a')) /\
    ms_inv ex_table m' a' /\ keeps ex_table ex_tables ex_frames m' a' /\ NoDup fs /\
    (forall f, f ∈ fs -> fa_free ex_frames f) /\
    Forall2 (fun p f => ms_lookup (A := BumpFrameAllocator PhysicalMemoryRegion) ex_table m' p
               = Some (mkFrame Size4KiB f, flags_union (flags_union PRESENT WRITABLE) NO_EXECUTE)) stack_pages fs.
Proof.
  destruct (allocate_and_map_stack_correct 34 ex_table ex_tables ex_frames)
    as (fs & m' & a' & E & H1 & H2 & H3 & H4 & H5 & _).
  - exact ex_table_inv.
  - lia.
  - vm_compute. discriminate.
  - apply Forall_forall. intros p Hp.
    assert (Hw : in_width 64 (page_address p)).
    { apply elem_of_cons in Hp as [->|(i & -> & Hi%elem_of_seqZ)%list_elem_of_fmap].
      - vm_compute. intuition congruence.
      - cbn [page_address SIZE]. change stack_bottom with 0xfffffffefffe0000. unfold in_width. lia. }
    destruct (empty_lookup (mkPhysicalOffset 0) 0x1000 ex_tables) as (L1 & _ & L2); [reflexivity|].
    split; [exact Hw|]. split; [exact (L2 _ Hw) | exact (L1 p Hw)].
  - exists fs, m', a'. auto 10.
Defined.

Definition ex_e820 : list E820MemoryRegion :=
  [mkE820 0x1000 0x9e000 E820_Normal 1; mkE820 0x9f000 0x1000 E820_Reserved 1; mkE820 0x100000 0x700000 E820_Normal 1].
Definition ex_boot_frame : PhysicalFrame Size4KiB := mkFrame Size4KiB 0x1000.

Lemma ex_regions_fit : Forall (region_fits ex_boot_frame) ex_e820.
Proof.
  apply Forall_forall. intros r Hr%list_elem_of_In.
  destruct Hr as [<-|[<-|[<-|[]]]]; split; vm_compute; intuition congruence.
Qed.

Definition ex_low_e820 : list E820MemoryRegion := mkE820 0 0x9fc00 E820_Normal 1 :: ex_e820.

Lemma memory_map_correct_witness :
  exists map, build_memory_map ex_low_e820 ex_boot_frame = Ret map /\
    forall x, reported_free map x <->
      exists r, r ∈ ex_low_e820 /\ region_is_usable r = true /\ region_start r <> 0 /\
        region_start r <= x < region_start r + region_size r /\
        (contains_frame ex_boot_frame r = true -> frame_address ex_boot_frame + 4096 <= x).
Proof.
  apply (memory_map_correct ex_boot_frame ex_low_e820); [vm_compute; discriminate | exact ex_regions_fit | vm_compute; lia].
Defined.

Lemma low_region_overwritten_witness :
  build_memory_map ex_low_e820 ex_boot_frame = build_memory_map ex_e820 ex_boot_frame.
Proof.
  exact (low_region_overwritten ex_boot_frame (mkE820 0 0x9fc00 E820_Normal 1)
           (mkE820 0x1000 0x9e000 E820_Normal 1) (tail ex_e820) eq_refl eq_refl).
Defined.

Definition ex_e820_frames : BumpFrameAllocator E820MemoryRegion := bump_new ex_e820.

Lemma ex_e820_frames_ok : bump_ok ex_e820_frames.
Proof.
  split; [|cbn [ex_e820_frames bump_new bump_next]; lia]. cbn [ex_e820_frames bump_new memory_map ex_e820 map_ok].
  split; [intros _; split|split; [discriminate|split; [intros _; split|exact I]]].
  - split; vm_compute; intuition congruence.
  - intros r Hr%list_elem_of_In Hu. destruct Hr as [<-|[<-|[]]]; [discriminate|].
    left. vm_compute. discriminate.
  - split; vm_compute; intuition congruence.
  - intros r []%not_elem_of_nil.
Qed.

Lemma later_frames_reported_free_witness :
  exists map, build_memory_map ex_e820 ex_boot_frame = Ret map /\ reported_free map 0x2000.
Proof.
  apply (later_frames_reported_free ex_e820_frames ex_boot_frame (mkFrame Size4KiB 0x2000) (mkBump ex_e820 2)).
  - exact ex_e820_frames_ok.
  - lazy. reflexivity.
  - exact ex_regions_fit.
  - vm_compute. lia.
Defined.
End Witnesses.
