(* ===== verification/SelfTest.v ===== *)
(** The kernel's own tests of its heap: [test_buddy_allocator] and
    [test_heap_allocations] in [kernel/src/main.rs].

    They run at every start; a failed assertion stops the kernel. *)
From Stdlib Require Import ZArith Lia.
From stdpp Require Import base tactics numbers list.
From S2P Require Import Prelude Memory Buddy BuddyHeap KernelHeap VecHeap HeapSetup.
#[local] Open Scope Z_scope.

(** [test_buddy_allocator] up to its message: three chunks and the address the
    first of them should have.  [c.as_ref().start()] of a chunk is its address. *)
Definition merge_test (fuel : nat) (b : BuddyAllocator) : outcome (Z * Z * Z * Z * BuddyAllocator) :=
  let layout_x100 := mkLayout 0x100 8 in
  let layout_x200 := mkLayout 0x200 8 in
  '(o, b) ← buddy_alloc b layout_x100; c1 ← unwrap o;
  '(o, b) ← buddy_alloc b layout_x100; c2 ← unwrap o;
  let addr := Z.min c1 c2 in
  b ← buddy_dealloc fuel b c1;
  b ← buddy_dealloc fuel b c2;
  '(o, b) ← buddy_alloc b layout_x200; c3 ← unwrap o;
  _ ← assert_true (c3 =? addr);
  let addr := c3 in
  b ← buddy_dealloc fuel b c3;
  '(o, b) ← buddy_alloc b layout_x100; c1 ← unwrap o;
  '(o, b) ← buddy_alloc b layout_x100; c2 ← unwrap o;
  _ ← assert_true (Z.min c1 c2 =? addr);
  '(o, b) ← buddy_alloc b layout_x200; c3 ← unwrap o;
  Ret (c1, c2, c3, addr, b).

(** The rest of it. *)
Definition multistage_merge_test (fuel : nat) (c1 c2 c3 : Z) (b : BuddyAllocator) : outcome BuddyAllocator :=
  let layout_x400 := mkLayout 0x400 8 in
  let addr := Z.min c3 (Z.min c1 c2) in
  b ← buddy_dealloc fuel b c1;
  b ← buddy_dealloc fuel b c2;
  b ← buddy_dealloc fuel b c3;
  '(o, b) ← buddy_alloc b layout_x400; c4 ← unwrap o;
  _ ← assert_true (c4 =? addr);
  _ ← assert_true (c4 =? addr);
  buddy_dealloc fuel b c4.

(** What the test does to the heap. *)
Definition test_buddy_heap (fuel : nat) (b : BuddyAllocator) : outcome BuddyAllocator :=
  '(c1, c2, c3, _, b) ← merge_test fuel b;
  multistage_merge_test fuel c1 c2 c3 b.

(** The block at the beginning of [test_heap_allocations]; what it allocates is
    dropped in reverse order. *)
Definition heap_values_test (fuel : nat) (b : BuddyAllocator) : outcome BuddyAllocator :=
  '(heap_value_1, b) ← box_i32 41 b;
  '(heap_value_2, b) ← box_i32 13 b;
  _ ← assert_true (load_le (bmem b) heap_value_1 4 =? 41);
  _ ← assert_true (load_le (bmem b) heap_value_2 4 =? 13);
  let n := 1000 in
  '(vec, b) ← fold_outcome (fun i '(v, b) => vec_push fuel v i b) (seqZ 0 n) (vec_new, b);
  sum ← vec_sum vec (bmem b);
  k ← usub 64 n 1; k ← umul 64 k n;
  _ ← assert_true (sum =? k / 2);
  b ← vec_drop fuel vec b;
  b ← global_dealloc fuel b heap_value_2 i32_layout;
  global_dealloc fuel b heap_value_1 i32_layout.

(** [Box::new(i)], the comparison, and the drop at the end of the iteration. *)
Definition usize_layout : Layout := mkLayout 8 8.

Definition box_iteration (fuel : nat) (i : Z) (b : BuddyAllocator) : outcome BuddyAllocator :=
  '(x, b) ← global_alloc b usize_layout;
  let b := mkBuddy (store64 (bmem b) x i) (buddies b) in
  _ ← assert_true (load64 (bmem b) x =? i);
  global_dealloc fuel b x usize_layout.

(** [for i in 0..HEAP_SIZE] *)
Definition test_heap_loop (fuel : nat) (b : BuddyAllocator) : outcome BuddyAllocator :=
  fold_outcome (box_iteration fuel) (seqZ 0 HEAP_SIZE) b.

Definition test_heap_allocations (fuel : nat) (b : BuddyAllocator) : outcome BuddyAllocator :=
  b ← heap_values_test fuel b;
  test_heap_loop fuel b.

(** ** The fresh heap *)

(** The three blocks that [init] cuts the heap into: 64, 32 and 4 KiB. *)
Definition kernel_blocks : list Z := [0x444444458000; 0x444444450000; 0x444444440000].
Definition kernel_buddies : list (option Z) :=
  replicate 12 None ++ [Some 0x444444458000; None; None; Some 0x444444450000; Some 0x444444440000; None; None; None].
Definition kernel_lists : list (list Z) :=
  replicate 12 [] ++ [[0x444444458000]; []; []; [0x444444450000]; [0x444444440000]; []; []; []].

(** The free lists are those, one block each. *)
Definition fresh_lists (b : BuddyAllocator) : bool :=
  bool_decide (buddies b = kernel_buddies) && forallb (fun p => bool_decide (chunk_next (bmem b) p = None)) kernel_blocks.

Lemma fresh_lists_rep b : fresh_lists b = true -> rep b kernel_lists.
Proof.
  intros [Hb Hn]%andb_prop. apply bool_decide_eq_true in Hb. cbn [forallb kernel_blocks] in Hn.
  apply andb_prop in Hn as [H1 [H2 [H3 _]%andb_prop]%andb_prop].
  apply bool_decide_eq_true in H1, H2, H3. unfold rep. rewrite Hb. cbn [kernel_buddies kernel_lists replicate app].
  repeat (apply Forall2_cons_2; [first [reflexivity | split; [reflexivity | split; [lia | assumption]]]|]). apply Forall2_nil_2.
Qed.

Lemma fresh_heap_lists n hm :
  match buddy_init (24 + n) (Buddy_new hm) HEAP_START HEAP_SIZE with Ret b => fresh_lists b | Panic _ => false end = true.
Proof. vm_compute. reflexivity. Qed.

(** The chunks and the address that the test's message shows. *)
Definition merge_chunks : Z * Z * Z * Z := (75059993874176, 75059993873920, 75059993873408, 75059993873920).

Lemma self_test_lists n hm :
  match (b ← buddy_init (24 + n) (Buddy_new hm) HEAP_START HEAP_SIZE; merge_test (24 + n) b) with
  | Ret (c1, c2, c3, addr, b) =>
      bool_decide ((c1, c2, c3, addr) = merge_chunks) &&
      match multistage_merge_test (24 + n) c1 c2 c3 b with Ret b => fresh_lists b | Panic _ => false end
  | Panic _ => false
  end = true.
Proof. vm_compute. reflexivity. Qed.

Lemma lseg_functional m h l l' : lseg m h l None -> lseg m h l' None -> l = l'.
Proof.
  revert h l'. induction l as [|p l IH]; intros h [|p' l']; cbn; [reflexivity | | |].
  - intros -> (? & _). discriminate.
  - intros (-> & _) ?. discriminate.
  - intros (-> & _ & H1) (E & _ & H2). injection E as <-. f_equal. eauto.
Qed.

Lemma rep_functional b fl fl' : rep b fl -> rep b fl' -> fl = fl'.
Proof.
  unfold rep. generalize (buddies b). intros hs H. revert fl'. induction H as [|h l hs fl H _ IH]; intros fl' H'.
  - now inversion H'.
  - inversion H' as [|? l' ? fl1 H1 H2]. subst. f_equal; [eapply lseg_functional; eauto | auto].
Qed.

Lemma enough_fuel fuel : HEAP_SIZE / 16 < Z.of_nat fuel -> fuel = (24 + (fuel - 24))%nat.
Proof. change (HEAP_SIZE / 16) with 6400. lia. Qed.

(** Any allocator with the fresh lists is a heap in order with nothing allocated. *)
Lemma fresh_lists_inv_at fuel b : HEAP_SIZE / 16 < Z.of_nat fuel ->
  fresh_lists b = true -> heap_inv_at HEAP_START HEAP_SIZE kernel_lists (mkHeap b []).
Proof.
  intros Hf Hb. destruct (heap_init HEAP_START HEAP_SIZE fuel (fun _ => 0) (kernel_heap_ok fuel Hf)) as (b0 & E & [fl Hi] & _).
  pose proof (fresh_heap_lists (fuel - 24) (fun _ => 0)) as H0. rewrite <- enough_fuel, E in H0 by exact Hf.
  apply fresh_lists_rep in H0, Hb. rewrite (rep_functional _ _ _ (hi_rep _ _ _ _ Hi) H0) in Hi.
  destruct Hi as [_ Hw _ _ Hc]. split; [exact Hb | exact Hw | | constructor | exact Hc].
  intros a []%not_elem_of_nil.
Qed.

Lemma fresh_lists_inv fuel b : HEAP_SIZE / 16 < Z.of_nat fuel ->
  fresh_lists b = true -> heap_inv HEAP_START HEAP_SIZE (mkHeap b []).
Proof. intros Hf Hb. exists kernel_lists. now apply (fresh_lists_inv_at fuel). Qed.

Lemma self_test_spec fuel hm : HEAP_SIZE / 16 < Z.of_nat fuel ->
  exists b c1 c2 c3 addr b1 b', buddy_init fuel (Buddy_new hm) HEAP_START HEAP_SIZE = Ret b /\
    merge_test fuel b = Ret (c1, c2, c3, addr, b1) /\ (c1, c2, c3, addr) = merge_chunks /\
    multistage_merge_test fuel c1 c2 c3 b1 = Ret b' /\
    buddies b' = buddies b /\ heap_inv_at HEAP_START HEAP_SIZE kernel_lists (mkHeap b' []).
Proof.
  intros Hf. pose proof (fresh_heap_lists (fuel - 24) hm) as H0. pose proof (self_test_lists (fuel - 24) hm) as H1.
  rewrite <- enough_fuel in H0, H1 by exact Hf.
  destruct (buddy_init fuel (Buddy_new hm) HEAP_START HEAP_SIZE) as [b|]; [|discriminate]. cbn [mbind outcome_bind] in H1.
  destruct (merge_test fuel b) as [[[[[c1 c2] c3] addr] b1]|] eqn:E; [|discriminate]. apply andb_prop in H1 as [Hm H1].
  apply bool_decide_eq_true in Hm.
  destruct (multistage_merge_test fuel c1 c2 c3 b1) as [b'|] eqn:E'; [|discriminate].
  exists b, c1, c2, c3, addr, b1, b'. split; [reflexivity|]. split; [exact E|]. split; [exact Hm|]. split; [exact E'|].
  split; [|now apply (fresh_lists_inv_at fuel)].
  apply andb_prop in H0 as [H0 _], H1 as [H1 _]. apply bool_decide_eq_true in H0, H1. congruence.
Qed.

(** The kernel's self test of its allocator passes: on the heap that [init_heap]
    sets up, over any memory contents, [test_buddy_allocator] returns without a
    failed assertion, all its blocks are merged back into the blocks they came
    from, and the heap is in order with nothing allocated. *)
Theorem kernel_self_test_passes fuel hm :
  HEAP_SIZE / 16 < Z.of_nat fuel ->
  exists b b', buddy_init fuel (Buddy_new hm) HEAP_START HEAP_SIZE = Ret b /\
    test_buddy_heap fuel b = Ret b' /\ buddies b' = buddies b /\ heap_inv HEAP_START HEAP_SIZE (mkHeap b' []).
Proof.
  intros Hf. destruct (self_test_spec fuel hm Hf) as (b & c1 & c2 & c3 & addr & b1 & b' & E & E1 & _ & E2 & Hb & Hi).
  exists b, b'. split; [exact E|]. unfold test_buddy_heap. rewrite E1. cbn [mbind outcome_bind]. split; [exact E2|].
  split; [exact Hb | now exists kernel_lists].
Qed.

(** ** The loop over boxes *)

Section Boxes.
Context (start size : Z) (fuel : nat) (Hh : heap_ok start size fuel) (Hne : 16 <= size).

Lemma usize_layout_ok : layout_ok usize_layout.
Proof. split; [cbn; lia|]. exists 3. cbn. lia. Qed.

Lemma usize_class : layout_class usize_layout = 4%nat.
Proof. reflexivity. Qed.

(** With nothing allocated there is a block for a word. *)
Lemma box_iteration_spec i b :
  in_width 64 i -> heap_inv start size (mkHeap b []) ->
  exists b', box_iteration fuel i b = Ret b' /\ heap_inv start size (mkHeap b' []).
Proof.
  intros Hi [fl Hinv].
  destruct (heap_alloc start size fl b [] usize_layout Hinv usize_layout_ok) as [(p & b1 & fl1 & E & Hi1 & _)|[_ Hnone]].
  - apply Nat.ltb_lt. reflexivity.
  - unfold box_iteration. rewrite E. cbn [mbind outcome_bind bmem buddies]. rewrite load64_store64_same by exact Hi.
    rewrite Z.eqb_refl. cbn [assert_true mbind outcome_bind].
    assert (Hw : heap_inv_at start size fl1 (mkHeap (mkBuddy (store64 (bmem b1) p i) (buddies b1)) [(p, usize_layout)])).
    { apply (heap_write start size fl1 b1 [(p, usize_layout)] _ (p, usize_layout) Hi1); [now left|].
      intros x Hx. unfold store64. apply store_le_outside. unfold in_alloc in Hx. cbn [fst snd] in Hx.
      rewrite usize_class in Hx. change (2 ^ Z.of_nat 4) with 16 in Hx. change (Z.of_nat 8) with 8. lia. }
    destruct (heap_dealloc start size fuel fl1 _ [] [] p usize_layout Hh Hw) as (b2 & fl2 & E2 & Hi2 & _).
    exists b2. split; [exact E2 | now exists fl2].
  - exfalso. destruct Hinv as [_ Hwf _ _ Hc]. destruct (proj1 (Hc start)) as [(j & q & Hq & _)|(a & []%not_elem_of_nil & _)].
    { unfold in_heap. lia. }
    pose proof (bo_class _ _ (wf_block _ Hwf j q Hq)). pose proof (Hnone j q Hq) as H'. rewrite usize_class in H'. lia.
Qed.

Lemma box_loop_spec l b :
  Forall (in_width 64) l -> heap_inv start size (mkHeap b []) ->
  exists b', fold_outcome (box_iteration fuel) l b = Ret b' /\ heap_inv start size (mkHeap b' []).
Proof.
  intros Hl. revert b. induction Hl as [|i l Hi _ IH]; intros b Hb; [now exists b|].
  destruct (box_iteration_spec i b Hi Hb) as (b1 & E & Hb1). cbn [fold_outcome]. rewrite E. cbn [mbind outcome_bind]. auto.
Qed.
End Boxes.

Lemma heap_loop_spec fuel b :
  HEAP_SIZE / 16 < Z.of_nat fuel -> heap_inv HEAP_START HEAP_SIZE (mkHeap b []) ->
  exists b', test_heap_loop fuel b = Ret b' /\ heap_inv HEAP_START HEAP_SIZE (mkHeap b' []).
Proof.
  intros Hf. unfold test_heap_loop. apply (box_loop_spec HEAP_START HEAP_SIZE fuel (kernel_heap_ok fuel Hf)); [apply Z.leb_le; reflexivity|].
  apply Forall_forall. intros i Hi%elem_of_seqZ. change (0 + HEAP_SIZE) with 102400 in Hi. unfold in_width. lia.
Qed.

(** ** The block with the vector *)

(** Its run on the lists of free blocks: nine times the vector moves to a block of
    twice the size, and in the end everything is merged back. *)
Lemma heap_values_lists : exists p1 fl1 p2 fl2 fl3 v,
  alloc_lists kernel_lists 4 = (Some p1, fl1) /\ alloc_lists fl1 4 = (Some p2, fl2) /\
  pushes_lists 1000 (fl2, vec_new) = Some (fl3, v) /\ vec_cap v = 1024 /\
  freed_lists (freed_lists (freed_lists fl3 (vec_ptr v) (vec_layout (vec_cap v))) p2 i32_layout) p1 i32_layout = kernel_lists.
Proof.
  let r := eval vm_compute in (alloc_lists kernel_lists 4) in
  match r with (Some ?p1, ?fl1) =>
    let r := eval vm_compute in (alloc_lists fl1 4) in
    match r with (Some ?p2, ?fl2) =>
      let r := eval vm_compute in (pushes_lists 1000 (fl2, vec_new)) in
      match r with Some (?fl3, ?v) => exists p1, fl1, p2, fl2, fl3, v end
    end
  end.
  repeat split; vm_compute; reflexivity.
Qed.

Section Values.
Context (fuel : nat) (Hf : HEAP_SIZE / 16 < Z.of_nat fuel).

Lemma seqZ_width n : 0 <= n <= 2 ^ 64 -> Forall (in_width 64) (seqZ 0 n).
Proof. intros Hn. apply Forall_forall. intros i Hi%elem_of_seqZ. unfold in_width. lia. Qed.

Lemma heap_values_spec b :
  heap_inv_at HEAP_START HEAP_SIZE kernel_lists (mkHeap b []) ->
  exists b', heap_values_test fuel b = Ret b' /\ heap_inv_at HEAP_START HEAP_SIZE kernel_lists (mkHeap b' []).
Proof.
  intros Hi. pose proof (kernel_heap_ok fuel Hf) as Hh.
  destruct heap_values_lists as (p1 & fl1 & p2 & fl2 & fl3 & v & E1 & E2 & E3 & Ec & Ef).
  unfold heap_values_test.
  destruct (box_i32_spec _ _ kernel_lists b [] 41 p1 fl1 Hi ltac:(unfold in_width; lia) E1) as (b1 & -> & Hi1 & Hx1 & _).
  cbn [mbind outcome_bind].
  destruct (box_i32_spec _ _ fl1 b1 _ 13 p2 fl2 Hi1 ltac:(unfold in_width; lia) E2) as (b2 & -> & Hi2 & Hx2 & Hkeep).
  cbn [mbind outcome_bind]. rewrite (Hkeep p1), Hx1, Hx2 by constructor. change (41 =? 41) with true. change (13 =? 13) with true.
  cbn [assert_true mbind outcome_bind].
  destruct (vec_pushes_spec _ _ fuel Hh (seqZ 0 1000) fl2 b2 vec_new [] _ fl3 v (vec_new_at _ _ _ _ _ Hi2) (seqZ_width 1000 ltac:(lia)))
    as (b3 & E & Hv); [apply Z.leb_le; reflexivity | rewrite length_seqZ; exact E3 |].
  rewrite E. cbn [mbind outcome_bind app] in *.
  rewrite (vec_sum_spec _ _ fl3 b3 v _ _ Hv (seqZ_width 1000 ltac:(lia))) by (vm_compute; reflexivity). cbn [mbind outcome_bind].
  replace (sum_of (seqZ 0 1000)) with 499500 by (vm_compute; reflexivity).
  change (usub 64 1000 1) with (@Ret Z 999). cbn [mbind outcome_bind]. change (umul 64 999 1000) with (@Ret Z 999000).
  cbn [mbind outcome_bind]. change (499500 =? 999000 / 2) with true. cbn [assert_true mbind outcome_bind].
  destruct (vec_drop_spec _ _ fuel Hh fl3 b3 v _ _ Hv) as (b4 & -> & Hi4); [lia|]. cbn [mbind outcome_bind].
  destruct (heap_dealloc_lists _ _ fuel _ b4 [] _ p2 i32_layout Hh Hi4) as (b5 & -> & Hi5 & _). cbn [mbind outcome_bind app] in *.
  destruct (heap_dealloc_lists _ _ fuel _ b5 [] [] p1 i32_layout Hh Hi5) as (b6 & -> & Hi6 & _). cbn [app] in Hi6.
  rewrite Ef in Hi6. eauto.
Qed.

Lemma heap_allocations_spec b :
  heap_inv_at HEAP_START HEAP_SIZE kernel_lists (mkHeap b []) ->
  exists b', test_heap_allocations fuel b = Ret b' /\ heap_inv HEAP_START HEAP_SIZE (mkHeap b' []).
Proof.
  intros Hi. destruct (heap_values_spec b Hi) as (b1 & E1 & Hi1). unfold test_heap_allocations. rewrite E1. cbn [mbind outcome_bind].
  apply heap_loop_spec; [exact Hf | now exists kernel_lists].
Qed.
End Values.

(** C32: [test_heap_allocations] runs through: from a heap in order with nothing
    allocated that consists of the blocks [init_heap] makes, the two boxes keep
    their values; the vector keeps all 1000 numbers through nine reallocations,
    so that their sum is right; everything is freed; and all [HEAP_SIZE] rounds of
    allocating a word, writing it, reading the same value back and freeing it
    return, with the heap in order and nothing allocated in the end. *)
Theorem heap_allocations_pass fuel b :
  HEAP_SIZE / 16 < Z.of_nat fuel -> heap_inv_at HEAP_START HEAP_SIZE kernel_lists (mkHeap b []) ->
  exists b', test_heap_allocations fuel b = Ret b' /\ heap_inv HEAP_START HEAP_SIZE (mkHeap b' []).
Proof. intros Hf. now apply heap_allocations_spec. Qed.

(** ** Witnesses *)

Lemma kernel_self_test_passes_witness :
  exists b b', buddy_init (Z.to_nat 6401) (Buddy_new (fun _ => 7)) HEAP_START HEAP_SIZE = Ret b /\
    test_buddy_heap (Z.to_nat 6401) b = Ret b' /\ buddies b' = buddies b /\
    heap_inv HEAP_START HEAP_SIZE (mkHeap b' []).
Proof. apply (kernel_self_test_passes (Z.to_nat 6401) (fun _ => 7)). rewrite Z2Nat.id by lia. reflexivity. Defined.

(** The fresh heap over zeroed memory. *)
Definition zero_heap : BuddyAllocator :=
  match buddy_init 24 (Buddy_new (fun _ => 0)) HEAP_START HEAP_SIZE with Ret b => b | Panic _ => Buddy_new (fun _ => 0) end.

Lemma zero_heap_inv : heap_inv_at HEAP_START HEAP_SIZE kernel_lists (mkHeap zero_heap []).
Proof.
  apply (fresh_lists_inv_at (Z.to_nat 6401)); [rewrite Z2Nat.id by lia; reflexivity | vm_compute; reflexivity].
Qed.

Lemma heap_allocations_pass_witness :
  exists b', test_heap_allocations (Z.to_nat 6401) zero_heap = Ret b' /\ heap_inv HEAP_START HEAP_SIZE (mkHeap b' []).
Proof.
  apply (heap_allocations_pass (Z.to_nat 6401) zero_heap); [rewrite Z2Nat.id by lia; reflexivity | exact zero_heap_inv].
Defined.
