(* ===== verification/KernelMain.v ===== *)
(** Bringing the kernel up: [kernel/src/paging.rs], [kernel_init] of
    [kernel/src/lib.rs], and the memory map the kernel reads.

    [kernel_init] is a client of everything below it: the interrupt tables, the
    page table the boot loader left in [cr3], the frame allocator over the memory
    map, and the heap. *)
From Stdlib Require Import ZArith Lia.
From stdpp Require Import base tactics numbers list strings.
From S2P Require Import Prelude Crates Memory Paging BumpAlloc AddressSpace MapperClient Buddy BuddyHeap KernelHeap HeapSetup FrameSupply.
From S2P Require Import BootInfo Descriptors Processor SpinLock Ports Fmt Serial Pic8259 KernelInterrupts Stage4 SelfTest.
#[local] Open Scope Z_scope.

(** ** The memory map in the boot information *)

Definition region_type_of (bits : Z) : PhysicalMemoryRegionType :=
  if bits =? 1 then Free else if bits =? 2 then Used else Reserved.

Definition load_region (m : mem) (a : Z) : PhysicalMemoryRegion :=
  PhysicalMemoryRegion_new (load64 m a) (load64 m (a + 8)) (region_type_of (load_le m (a + 16) 4)).

Fixpoint load_region_list (m : mem) (a : Z) (n : nat) : list PhysicalMemoryRegion :=
  match n with
  | O => []
  | S n => load_region m a :: load_region_list m (a + REGION_SIZE) n
  end.

(** [PhysicalMemoryRegions::deref] *)
Definition memory_regions_deref (m : mem) (r : PhysicalMemoryRegions) : list PhysicalMemoryRegion :=
  load_region_list m (regions_ptr r) (Z.to_nat (regions_len r)).

(** ** [paging::init] and [kernel_init] *)

Section KernelInit.
Context `{BF : BitField} `{FL : Bitflags} `{IO : IoPorts W}.
Context (stub_address : stub -> Z) (tss_address idt_address : Z).

Definition paging_init (info : BootInfo) (c : cpu) : outcome VirtualAddress :=
  '(pml4t, _) ← Cr3_read c;
  uadd 64 (frame_start pml4t) (physical_memory_offset info).

Record kernel_state := mkKernelState {
  ks_machine : @kernel_machine W;
  ks_tables : mem;
  ks_frames : BumpFrameAllocator PhysicalMemoryRegion;
  ks_page_table : OffsetPageTable PhysicalOffset;
  ks_heap : BuddyAllocator;
}.

Definition kernel_init (fuel : nat) (boot_info : BootInfo) (st : @kernel_machine W) (m : mem) (allocator : BuddyAllocator) :
    outcome kernel_state :=
  st ← machine_println fuel [text "Initializing kernel"] st;
  st ← interrupts_init stub_address tss_address idt_address fuel st;
  pml4t ← paging_init boot_info (km_cpu st);
  let pt_offset := mkPhysicalOffset (physical_memory_offset boot_info) in
  let page_table := OffsetPageTable_new pml4t pt_offset in
  let frame_allocator := bump_new (memory_regions_deref m (memory_regions boot_info)) in
  '((m, frame_allocator), allocator) ← init_heap fuel page_table (m, frame_allocator) allocator;
  Ret (mkKernelState st m frame_allocator page_table allocator).
End KernelInit.

(** ** Reading back what stage 4 wrote *)

Definition region_in_width (r : PhysicalMemoryRegion) : Prop := in_width 64 (pmr_start r) /\ in_width 64 (pmr_size r).

Lemma load_le_bytes m a bs :
  (forall i b, bs !! i = Some b -> load8 m (a + Z.of_nat i) = b) -> load_le m a (length bs) = from_le_bytes bs.
Proof.
  revert a. induction bs as [|b bs IH]; intros a H; [reflexivity|]. cbn [load_le length from_le_bytes].
  replace (load8 m a) with b by (rewrite <- (H 0%nat b eq_refl); f_equal; lia). rewrite IH; [reflexivity|].
  intros i c Hi. rewrite <- (H (S i) c Hi). f_equal. lia.
Qed.

(** An integer that lies in a list of bytes written to memory. *)
Lemma load_le_write_list m a l1 n v l2 :
  0 <= v < 256 ^ Z.of_nat n ->
  load_le (write_list m a (l1 ++ to_le_bytes n v ++ l2)) (a + Z.of_nat (length l1)) n = v.
Proof.
  intros Hv. rewrite <- (length_to_le_bytes n v) at 2. rewrite load_le_bytes; [now apply from_to_le_bytes|].
  intros i b Hi. pose proof (lookup_lt_Some _ _ _ Hi) as Hlt. rewrite length_to_le_bytes in Hlt.
  unfold load8. rewrite <- Z.add_assoc, <- Nat2Z.inj_add. rewrite (write_list_inside _ _ _ _ b).
  - rewrite lookup_to_le_bytes in Hi by exact Hlt. injection Hi as <-. apply Z.mod_mod. lia.
  - lia.
  - rewrite Nat2Z.id, lookup_app_r by lia. replace (length l1 + i - length l1)%nat with i by lia. now apply lookup_app_l_Some.
Qed.

Lemma load_store_region m a r : region_in_width r -> load_region (store_region m a r) a = r.
Proof.
  intros [Hs Hz]. destruct r as [s z t]. cbn [pmr_start pmr_size] in *. unfold load_region, store_region, PhysicalMemoryRegion_new.
  cbn [pmr_start pmr_size pmr_typ]. f_equal.
  - rewrite <- (Z.add_0_r a) at 2. apply (load_le_write_list m a [] 8 s). exact Hs.
  - apply (load_le_write_list m a (to_le_bytes 8 s) 8 z). exact Hz.
  - pose proof (load_le_write_list m a (to_le_bytes 8 s ++ to_le_bytes 8 z) 4 (region_type_bits t) []) as E.
    rewrite length_app, !length_to_le_bytes, app_nil_r, <- app_assoc in E. change (Z.of_nat (8 + 8)) with 16 in E.
    rewrite E by (destruct t; cbn; lia). now destruct t.
Qed.

Lemma store_region_outside m a r x : x < a \/ a + REGION_SIZE <= x -> store_region m a r x = m x.
Proof.
  intros Hx. unfold store_region. apply write_list_outside. rewrite !length_app, !length_to_le_bytes.
  unfold REGION_SIZE in Hx. lia.
Qed.

Lemma store_regions_below m a rs x : x < a -> store_regions m a rs x = m x.
Proof.
  revert m a. induction rs as [|r rs IH]; intros m a Hx; [reflexivity|]. cbn [store_regions].
  rewrite IH by (unfold REGION_SIZE; lia). apply store_region_outside. lia.
Qed.

Lemma load_region_agree m m' a : (forall x, a <= x < a + REGION_SIZE -> m x = m' x) -> load_region m a = load_region m' a.
Proof.
  intros H. assert (E : forall n b, a <= b -> b + Z.of_nat n <= a + REGION_SIZE -> load_le m b n = load_le m' b n).
  { induction n as [|n IH]; intros b Ha Hb; [reflexivity|]. cbn [load_le]. unfold load8 at 1 2.
    rewrite H, IH by lia. reflexivity. }
  unfold load_region, load64. unfold REGION_SIZE in E. now rewrite !E by lia.
Qed.

Lemma load_region_list_agree m m' a n :
  (forall x, a <= x < a + REGION_SIZE * Z.of_nat n -> m x = m' x) -> load_region_list m a n = load_region_list m' a n.
Proof.
  revert a. induction n as [|n IH]; intros a H; [reflexivity|]. cbn [load_region_list]. unfold REGION_SIZE in *.
  f_equal; [apply load_region_agree; unfold REGION_SIZE; intros x Hx | apply IH; intros x Hx]; apply H; lia.
Qed.

Lemma load_store_regions m a rs :
  Forall region_in_width rs -> load_region_list (store_regions m a rs) a (length rs) = rs.
Proof.
  intros Hrs. revert m a. induction Hrs as [|r rs Hr _ IH]; intros m a; [reflexivity|]. cbn [store_regions load_region_list length].
  f_equal; [|apply IH]. rewrite (load_region_agree _ (store_region m a r)); [now apply load_store_region|].
  intros x Hx. now apply store_regions_below.
Qed.

(** The kernel sees the memory map that stage 4 wrote: reading the array of
    regions of the boot information gives back, in order, the regions that
    [allocate_and_map_boot_info] stored, whatever was in memory. *)
Theorem memory_regions_roundtrip m ptr rs :
  Forall region_in_width rs ->
  memory_regions_deref (store_regions m ptr rs) (mkPhysicalMemoryRegions ptr (Z.of_nat (length rs))) = rs.
Proof.
  intros Hrs. unfold memory_regions_deref. cbn [regions_ptr regions_len]. rewrite Nat2Z.id. now apply load_store_regions.
Qed.

(** ** [kernel_init] *)

Section KernelInitTheorem.
Context `{BF : BitField} `{BFS : !BitFieldSpec BF} `{FL : Bitflags} `{FLS : !BitflagsSpec FL} `{MW : MachineWorld W}.
Context (stub_address : stub -> Z) (tss_address idt_address : Z).

Lemma paging_init_spec info c root :
  cpu_cr3 c = root -> in_width 52 root -> root mod 4096 = 0 -> 0 <= physical_memory_offset info ->
  root + physical_memory_offset info < 2 ^ 64 ->
  paging_init info c = Ret (root + physical_memory_offset info).
Proof.
  intros E Hr Hr0 Ho Hlt. unfold paging_init, Cr3_read, Cr3_read_raw. rewrite E. unfold in_width in Hr.
  assert (Em : Z.land root 0x000f_ffff_ffff_f000 = root).
  { change 0x000f_ffff_ffff_f000 with (unot 52 (2 ^ 12 - 1)). rewrite land_unot_mask by lia. change (2 ^ 12) with 4096. lia. }
  rewrite Em, frame_containing_eq by (unfold in_width; lia). cbn [mbind outcome_bind frame_start frame_address SIZE].
  rewrite Hr0, Z.sub_0_r. unfold uadd. now rewrite checked_ok by lia.
Qed.

(** The page table, and the frames the kernel may hand out. *)
Definition kernel_table (info : BootInfo) (root : Z) : OffsetPageTable PhysicalOffset :=
  OffsetPageTable_new (root + physical_memory_offset info) (mkPhysicalOffset (physical_memory_offset info)).
Definition kernel_frames (m : mem) (info : BootInfo) : BumpFrameAllocator PhysicalMemoryRegion :=
  bump_new (memory_regions_deref m (memory_regions info)).

(** What the boot loader hands over: the root table in [cr3], a memory map whose first
    regions, [used], hold enough frames and none of the page tables, the heap's
    addresses not mapped, and the controllers idle.  What is in the frames of the
    regions behind does not matter: they are not reached. *)
Record handed_over (info : BootInfo) (root : Z) (used : list PhysicalMemoryRegion) (st : @kernel_machine W) (m : mem) : Prop := {
  ho_protected : Z.testbit (cpu_cr0 (km_cpu st)) 0 = true;
  ho_cr3 : cpu_cr3 (km_cpu st) = root;
  ho_root : in_width 52 root /\ root mod 4096 = 0;
  ho_window : 0 <= physical_memory_offset info /\ root + physical_memory_offset info < 2 ^ 64;
  ho_pics : km_pics st = Mutex_new ChainedPics_new;
  ho_console : console_ok (km_console st);
  ho_chips : stage (chips (km_world st)).1 = Ready /\ stage (chips (km_world st)).2 = Ready;
  ho_map : map_ok (memory_regions_deref m (memory_regions info));
  ho_used : used `prefix_of` memory_regions_deref m (memory_regions info);
  ho_tables : ms_inv (kernel_table info root) m (bump_new used);
  ho_memory : 104 <= fa_avail (bump_new used);
  ho_mappable : Forall (mappable (kernel_table info root) m) (heap_pages ++ [guard_page]);
}.

(** The text of the kernel until it is initialised. *)
Definition init_text : list (list Z) :=
  [text "Initializing kernel"; newline; text "Idt addr: "; fmt_hex idt_address; newline].

(** The kernel is up: what [kernel_init] leaves behind. *)
Record kernel_up (info : BootInfo) (root : Z) (used : list PhysicalMemoryRegion) (st : @kernel_machine W) (m : mem) (ks : @kernel_state W) : Prop := {
  ku_interrupts : cpu_interrupts (km_cpu (ks_machine ks)) = true;
  ku_selectors : CS_read (km_cpu (ks_machine ks)) = 0x18 /\ seg_selector (cpu_ss (km_cpu (ks_machine ks))) = 0x20;
  ku_gates v : 0 <= v < 256 -> exists d, km_idt (ks_machine ks) !! Z.to_nat v = Some d /\ kernel_gate_ok stub_address v d;
  ku_pics : km_pics (ks_machine ks) = Mutex_new ChainedPics_new;
  ku_console : console_ok (km_console (ks_machine ks));
  ku_sent : sent (km_world (ks_machine ks)) = sent (km_world st) ++ (char_byte <$> concat init_text);
  ku_page_table : ks_page_table ks = kernel_table info root;
  ku_frames : memory_map (ks_frames ks) = memory_regions_deref m (memory_regions info);
  ku_tables : ms_inv (ks_page_table ks) (ks_tables ks) (mkBump used (bump_next (ks_frames ks)));
  ku_heap_pages : exists fs, NoDup fs /\
    (forall f, f ∈ fs -> fa_free (kernel_frames m info) f /\ ~ fa_free (ks_frames ks) f) /\
    Forall2 (fun p f => ms_lookup (ks_page_table ks) (ks_tables ks) p
               = Some (mkFrame Size4KiB f, flags_union (flags_union PRESENT WRITABLE) NO_EXECUTE)) heap_pages fs;
  ku_guard : ms_lookup (ks_page_table ks) (ks_tables ks) guard_page = None;
  ku_other q : in_width 64 (page_address q) -> vpn (page_address q) ∉ seqZ (HEAP_START / 4096) 26 ->
    ms_lookup (ks_page_table ks) (ks_tables ks) q = ms_lookup (kernel_table info root) m q;
  ku_heap : heap_inv HEAP_START HEAP_SIZE (mkHeap (ks_heap ks) []);
}.

Lemma kernel_init_spec fuel info root used st m hm :
  handed_over info root used st m -> HEAP_SIZE / 16 < Z.of_nat fuel -> (polls_bound < fuel)%nat ->
  in_width 64 tss_address -> (forall s, in_width 64 (stub_address s)) ->
  exists ks, kernel_init stub_address tss_address idt_address fuel info st m (Buddy_new hm) = Ret ks /\
    buddy_init fuel (Buddy_new hm) HEAP_START HEAP_SIZE = Ret (ks_heap ks) /\ kernel_up info root used st m ks.
Proof.
  intros [H0 H3 [Hr Hr0] [Ho Hlt] Hp Hcon [Hm Hs] Hmapok [rest Hrest] Ht Hav Hmap] Hf Hpoll Htss Hstub.
  unfold kernel_init. destruct (machine_println_spec fuel [text "Initializing kernel"] st Hpoll Hcon)
    as (st0 & -> & Hcpu & _ & Hpics & Hok & Hsent & Hchips). cbn [mbind outcome_bind].
  rewrite <- Hcpu in H0, H3. rewrite <- Hpics in Hp. rewrite <- Hchips in Hm, Hs.
  destruct (interrupts_init_spec stub_address tss_address 0 idt_address fuel st0 H0 Hp Hpoll Hok
    Hm Hs Htss Hstub ltac:(lia) ltac:(reflexivity))
    as (st' & low & high & code & data & tss & df & E1 & E3 & Hi & Hp' & Hok' & Hsent' & _ & [Hcs _] & (_ & _ & Hss & _) & _ & Hg & _).
  destruct (init_heap_spec fuel (kernel_table info root) m (bump_new used) hm Ht Hf Hav Hmap)
    as (fs & m' & a0 & b & E4 & Eb & Hinv & Hheap & Hnd & Hfs & Hlook & Hgp & Hother).
  assert (Hx0 : extends used rest (bump_new used) (kernel_frames m info))
    by (unfold kernel_frames; rewrite Hrest in *; now apply extends_new).
  destruct (init_heap_follows _ (extends_follows used rest) fuel (kernel_table info root) m _ _ _ _ _ _ Hx0 E4) as (a' & E4' & Hx).
  rewrite E1. cbn [mbind outcome_bind].
  rewrite (paging_init_spec info (km_cpu st') root) by (congruence || assumption). cbn [mbind outcome_bind].
  fold (kernel_table info root). fold (kernel_frames m info). cbv zeta. rewrite E4'. cbn [mbind outcome_bind].
  eexists. split; [reflexivity|]. split; [exact Eb|].
  split; cbn [ks_machine ks_page_table ks_tables ks_frames ks_heap]; try assumption; try reflexivity.
  - now split.
  - congruence.
  - rewrite Hsent', Hsent, <- app_assoc, <- fmap_app, <- concat_app. reflexivity.
  - now rewrite Hrest, (ex_all _ _ _ _ Hx).
  - now rewrite <- (extends_shorter _ _ _ _ Hx).
  - exists fs. split; [assumption|]. split; [|assumption]. intros f Hin. destruct (Hfs f Hin) as [Hfree Hn].
    split; [exact (extends_free _ _ _ _ _ Hx0 Hfree)|]. apply (extends_taken _ _ _ _ _ Hx); [|exact Hfree | exact Hn].
    exact (inv_alloc _ _ _ _ (proj2 Hinv)).
Qed.

(** C7: the kernel comes up: from the state the boot loader hands over, with idle
    controllers, the heap's addresses not mapped, and 104 frames that hold no page table
    in the first regions of the memory map,
    [kernel_init] returns with interrupts on, every gate of the interrupt table
    leading to the right stub, and its two messages on the serial line; the page
    table is the one in [cr3] seen through the window; the 25 heap pages are
    mapped writable and not executable, each to a frame of its own that the
    memory map called free and that will not be handed out again, the guard page
    behind them is not mapped and no other page changed; the heap is in order with
    nothing allocated. *)
Theorem kernel_init_correct fuel info root used st m hm :
  handed_over info root used st m -> HEAP_SIZE / 16 < Z.of_nat fuel -> (polls_bound < fuel)%nat ->
  in_width 64 tss_address -> (forall s, in_width 64 (stub_address s)) ->
  exists ks, kernel_init stub_address tss_address idt_address fuel info st m (Buddy_new hm) = Ret ks /\
    kernel_up info root used st m ks.
Proof.
  intros. destruct (kernel_init_spec fuel info root used st m hm) as (ks & E & _ & H'); [assumption..|]. now exists ks.
Qed.
End KernelInitTheorem.

(** ** A small machine: an empty root table, 256 free frames, and the memory map
    in between *)

Section Witnesses.
#[local] Existing Instances ref_bit_field ref_bit_field_ok ref_bitflags ref_bitflags_ok chip_ports chip_machine.

Definition ex_region : PhysicalMemoryRegion := PhysicalMemoryRegion_new 0x10000 0x100000 Free.
Definition ex_memory : mem := store_regions (fun _ => 0) 0x3000 [ex_region].
Definition ex_info : BootInfo :=
  mkBootInfo ex_region (mkFramebufferInfo ex_region 0 0 0 0 Rgb) (mkPhysicalMemoryRegions 0x3000 1) 0.
Definition ex_machine : @kernel_machine (chip * chip * line) :=
  mkKernel (set_cr3 (set_cr0 real_mode_cpu 0x80000011) 0x1000) [] (Mutex_new ChainedPics_new) (mkConsole None (ex_chips, ex_line)).

Lemma memory_regions_roundtrip_witness :
  memory_regions_deref ex_memory (mkPhysicalMemoryRegions 0x3000 1) = [ex_region].
Proof.
  apply (memory_regions_roundtrip (fun _ => 0) 0x3000 [ex_region]). constructor; [|constructor]. split; split; cbn; lia.
Defined.

Lemma ex_root_empty i : idx_ok i -> load64 ex_memory (0x1000 + 8 * i) = 0.
Proof.
  intros Hi. unfold idx_ok in Hi. apply (load_le_zero _ _ 8). intros x Hx. unfold ex_memory. rewrite store_regions_below by lia.
  reflexivity.
Qed.

Lemma ex_handed_over : handed_over ex_info 0x1000 [ex_region] ex_machine ex_memory.
Proof.
  split.
  - reflexivity.
  - reflexivity.
  - split; [split; cbn; lia | reflexivity].
  - split; [cbn; lia | reflexivity].
  - reflexivity.
  - exact I.
  - split; reflexivity.
  - change (map_ok [ex_region]). split; [|exact I]. intros _. split.
    + apply ex_region_ok; (lia || reflexivity).
    + intros r []%not_elem_of_nil.
  - now exists [].
  - change (ms_inv (kernel_table ex_info 0x1000) ex_memory ex_frames). split; [apply ex_table_inv|].
    destruct ex_table_inv as [_ Hi]. apply empty_inv with 0x1000; [exact ex_root_empty | apply (inv_alloc _ _ _ _ Hi) | split; [lia | reflexivity] | reflexivity |].
    cbn [fa_free Bump_FrameAllocatorSpec].
    intros (r & ->%list_elem_of_singleton & _ & i & Hx & E & _)%elem_of_usable_addrs. cbn in E. lia.
  - vm_compute. discriminate.
  - apply Forall_forall. intros p Hp.
    pose proof (proj1 (Forall_forall _ _) ex_pages_mappable p Hp) as (Hw & _ & _).
    destruct (empty_lookup (mkPhysicalOffset 0) 0x1000 ex_memory) as (H1 & _ & H2); [exact ex_root_empty|].
    split; [exact Hw|]. split; [exact (H2 _ Hw) | exact (H1 p Hw)].
Qed.

Lemma kernel_init_correct_witness :
  exists ks, kernel_init (fun _ => 0xffff800000001000) 0x5000 0x7000 (Z.to_nat 6401) ex_info ex_machine ex_memory (Buddy_new (fun _ => 0)) = Ret ks /\
    cpu_interrupts (km_cpu (ks_machine ks)) = true /\ heap_inv HEAP_START HEAP_SIZE (mkHeap (ks_heap ks) []) /\
    sent (km_world (ks_machine ks)) = text "Initializing kernel" ++ newline ++ text "Idt addr: 7000" ++ newline.
Proof.
  destruct (kernel_init_correct (fun _ => 0xffff800000001000) 0x5000 0x7000 (Z.to_nat 6401) ex_info 0x1000 [ex_region] ex_machine ex_memory (fun _ => 0)
    ex_handed_over) as (ks & E & Hup);
    [rewrite Z2Nat.id by lia; reflexivity | apply Nat.ltb_lt; reflexivity | unfold in_width; lia | unfold in_width; lia |].
  exists ks. exact (conj E (conj (ku_interrupts _ _ _ _ _ _ _ _ Hup) (conj (ku_heap _ _ _ _ _ _ _ _ Hup) (ku_sent _ _ _ _ _ _ _ _ Hup)))).
Defined.
End Witnesses.
