(* ===== verification/KernelStart.v ===== *)
(** The kernel from its entry point to its idle loop: [kernel/src/main.rs], and the
    kernel of the unit tests: [tests/test_kernel_unittests/src/main.rs].

    [start] composes [kernel_init], the self tests of the heap, the serial line
    and the interrupt table.  Its theorem gives the complete text that appears on
    the serial line. *)
From Stdlib Require Import ZArith Lia.
From stdpp Require Import base tactics numbers list strings.
From S2P Require Import Prelude Crates Memory Paging BumpAlloc AddressSpace MapperClient Buddy BuddyHeap KernelHeap HeapSetup.
From S2P Require Import BootInfo Descriptors Processor SpinLock Ports Fmt Serial Pic8259 KernelInterrupts Exceptions Stage4 SelfTest KernelMain.
#[local] Open Scope Z_scope.

(** Where the kernel ends up: halting until the next interrupt, or in the loop of
    an exception handler, or at an exception no gate leads away from. *)
Inductive stop := Halting | InHandler | Unhandled.

Section Start.
Context `{BF : BitField} `{FL : Bitflags} `{IO : IoPorts W}.
Context (stub_address : stub -> Z) (tss_address idt_address : Z).
Context (error_text : Z -> list Z) (code_at : Z -> option stub).

(** One line of the memory map. *)
Definition region_line (region : PhysicalMemoryRegion) : list (list Z) :=
  [text "Memory region, start: "; fmt_hex_alt (pmr_start region); text ", length: "; fmt_hex_alt (pmr_size region);
   text ", usable: "; fmt_bool (region_is_usable region)].

Definition print_memory_map (fuel : nat) (map : list PhysicalMemoryRegion) (st : @kernel_machine W) : outcome kernel_machine :=
  fold_outcome (fun region st => machine_println fuel (region_line region) st) map st.

Definition chunk_line (c3 addr : Z) : list (list Z) :=
  [text "C3 address: "; fmt_hex_alt c3; text ", min address before: "; fmt_hex_alt addr].

Definition test_buddy_allocator (fuel : nat) (st : @kernel_machine W) (b : BuddyAllocator) : outcome (@kernel_machine W * BuddyAllocator) :=
  '(c1, c2, c3, addr, b) ← merge_test fuel b;
  st ← machine_println fuel (chunk_line c3 addr) st;
  b ← multistage_merge_test fuel c1 c2 c3 b;
  Ret (st, b).

(** [int3]; the frame is what the processor pushes. *)
Definition trigger_int3 (fuel : nat) (frame : ExceptionStackFrame) (st : @kernel_machine W) : outcome (stop * kernel_machine) :=
  match deliver error_text code_at fuel 3 frame 0 st with
  | Some r => '(f, st) ← r; Ret (match f with Returns => Halting | Spins => InHandler end, st)
  | None => Ret (Unhandled, st)
  end.

(** [hlt_loop] is entered in the state that is returned. *)
Definition kernel_start (fuel : nat) (info : BootInfo) (frame : ExceptionStackFrame) (st : @kernel_machine W) (m : mem)
    (allocator : BuddyAllocator) : outcome (stop * @kernel_state W) :=
  st ← machine_println fuel [text "Hello from kernel <3"] st;
  st ← print_memory_map fuel (memory_regions_deref m (memory_regions info)) st;
  ks ← kernel_init stub_address tss_address idt_address fuel info st m allocator;
  st ← machine_println fuel [text "Kernel initialized"] (ks_machine ks);
  '(st, b) ← test_buddy_allocator fuel st (ks_heap ks);
  st ← machine_println fuel [text "Buddy allocator tested"] st;
  b ← test_heap_allocations fuel b;
  st ← machine_println fuel [text "Heap tested"] st;
  '(s, st) ← trigger_int3 fuel frame st;
  Ret (s, mkKernelState st (ks_tables ks) (ks_frames ks) (ks_page_table ks) b).

(** ** The kernel of the unit tests *)

(** The emulator is told to stop with the write to its exit device. *)
Definition test_kernel_start (fuel : nat) (info : BootInfo) (st : @kernel_machine W) (m : mem) (allocator : BuddyAllocator) :
    outcome (W * outcome unit) :=
  ks ← kernel_init stub_address tss_address idt_address fuel info st m allocator;
  st ← machine_println fuel [text "Hello from test kernel"] (ks_machine ks);
  Ret (qemu_exit Success (km_world st)).
End Start.

(** ** Reading the memory map off the serial line *)

(** One line: start, length, and whether it is usable. *)
Definition read_region_line (l : list Z) : option (Z * Z * bool * list Z) :=
  l ← strip (text "Memory region, start: 0x") l;
  let '(s, l) := read_digits 16 0 l in
  l ← strip (text ", length: 0x") l;
  let '(n, l) := read_digits 16 0 l in
  l ← strip (text ", usable: ") l;
  match strip (text "true" ++ newline) l with
  | Some l => Some (s, n, true, l)
  | None => l ← strip (text "false" ++ newline) l; Some (s, n, false, l)
  end.

(** As many lines as there are, at most [n]. *)
Fixpoint read_memory_map (n : nat) (l : list Z) : list (Z * Z * bool) :=
  match n with
  | O => []
  | S n =>
      match read_region_line l with
      | Some (r, l) => r :: read_memory_map n l
      | None => []
      end
  end.

Definition region_summary (r : PhysicalMemoryRegion) : Z * Z * bool := (pmr_start r, pmr_size r, region_is_usable r).

(** The text of a map. *)
Definition map_text (map : list PhysicalMemoryRegion) : list (list Z) := concat ((fun r => region_line r ++ [newline]) <$> map).

Lemma region_line_printable r : printable (concat (region_line r ++ [newline])).
Proof.
  unfold region_line, fmt_hex_alt, fmt_hex, fmt_bool. cbn [concat app].
  assert (Hd : forall n, printable (digits 16 n)) by (intros; apply digits_printable; lia).
  unfold printable in *. rewrite !Forall_app.
  repeat split; try apply Hd; try (apply printable_dec; vm_compute; reflexivity).
  destruct (region_is_usable r); apply printable_dec; vm_compute; reflexivity.
Qed.

Lemma map_text_printable map : printable (concat (map_text map)).
Proof.
  unfold map_text. induction map as [|r map IH]; [constructor|]. rewrite fmap_cons. cbn [concat]. rewrite concat_app.
  apply Forall_app. split; [apply region_line_printable | exact IH].
Qed.

Lemma read_region_line_spec r rest :
  region_in_width r ->
  read_region_line (concat (region_line r ++ [newline]) ++ rest) = Some (pmr_start r, pmr_size r, region_is_usable r, rest).
Proof.
  intros [Hs Hn]. unfold read_region_line, region_line, fmt_hex_alt, fmt_hex. cbn [concat app]. rewrite app_nil_r, <- !app_assoc.
  change (text "Memory region, start: 0x") with (text "Memory region, start: " ++ text "0x").
  change (text ", length: 0x") with (text ", length: " ++ text "0x").
  rewrite (app_assoc (text "Memory region, start: ")), strip_app. cbn [mbind option_bind].
  rewrite read_digits_digits by (lia || assumption || reflexivity).
  rewrite (app_assoc (text ", length: ")), strip_app. cbn [mbind option_bind].
  rewrite read_digits_digits by (lia || assumption || reflexivity). rewrite strip_app. cbn [mbind option_bind].
  destruct (region_is_usable r); reflexivity.
Qed.

Lemma read_memory_map_spec map rest :
  Forall region_in_width map -> read_memory_map (length map) (concat (map_text map) ++ rest) = region_summary <$> map.
Proof.
  induction 1 as [|r map Hr _ IH]; [reflexivity|]. unfold map_text. rewrite !fmap_cons. cbn [length read_memory_map concat].
  rewrite concat_app, <- app_assoc, read_region_line_spec by exact Hr. cbv beta iota zeta. f_equal. exact IH.
Qed.

Section Theorems.
Context `{BF : BitField} `{BFS : !BitFieldSpec BF} `{FL : Bitflags} `{FLS : !BitflagsSpec FL} `{MW : MachineWorld W}.
Context (stub_address : stub -> Z) (tss_address idt_address : Z).
Context (error_text : Z -> list Z) (code_at : Z -> option stub).
Implicit Types (st : @kernel_machine W).

Lemma machine_printed_nil st : console_ok (km_console st) -> machine_printed [] st st.
Proof. intros Hc. unfold machine_printed. rewrite app_nil_r. auto 10. Qed.

Lemma print_memory_map_spec fuel map st :
  (polls_bound < fuel)%nat -> console_ok (km_console st) ->
  exists st', print_memory_map fuel map st = Ret st' /\ machine_printed (map_text map) st st'.
Proof.
  intros Hf. unfold print_memory_map, map_text. revert st. induction map as [|r map IH]; intros st Hc.
  - exists st. split; [reflexivity | now apply machine_printed_nil].
  - cbn [fold_outcome]. destruct (machine_println_spec fuel (region_line r) st Hf Hc) as (st1 & -> & H1). cbn [mbind outcome_bind].
    pose proof H1 as (_ & _ & _ & Hc1 & _). destruct (IH st1 Hc1) as (st2 & -> & H2). exists st2. split; [reflexivity|].
    rewrite fmap_cons. exact (machine_printed_trans _ _ _ _ _ H1 H2).
Qed.

(** C33: the memory map can be read off the serial line: printing it returns, and
    from the bytes that went out, whatever follows them, the start, the length and
    the usability of every region are read back in order. *)
Theorem memory_map_printed_readable fuel map st rest :
  (polls_bound < fuel)%nat -> console_ok (km_console st) -> Forall region_in_width map ->
  exists st' line, print_memory_map fuel map st = Ret st' /\ sent (km_world st') = sent (km_world st) ++ line /\
    read_memory_map (length map) (line ++ rest) = region_summary <$> map.
Proof.
  intros Hf Hc Hmap. destruct (print_memory_map_spec fuel map st Hf Hc) as (st' & E & _ & _ & _ & _ & Hs & _).
  exists st', (concat (map_text map)). split; [exact E|]. split; [|now apply read_memory_map_spec].
  rewrite Hs, sent_printable by apply map_text_printable. reflexivity.
Qed.

(** ** [start] *)

(** The text of the kernel from its first line to its idle loop. *)
Definition kernel_log (info : BootInfo) (m : mem) (frame : ExceptionStackFrame) : list (list Z) :=
  ([text "Hello from kernel <3"; newline] ++ map_text (memory_regions_deref m (memory_regions info)) ++ init_text idt_address ++
   [text "Kernel initialized"; newline] ++
   [text "C3 address: 0x444444458c00, min address before: 0x444444458e00"; newline] ++
   [text "Buddy allocator tested"; newline; text "Heap tested"; newline]) ++
  text "Int3 triggered: " :: fmt_frame frame ++ [newline].

Lemma handed_over_printed info root used st st' m args :
  machine_printed args st st' -> handed_over info root used st m -> handed_over info root used st' m.
Proof.
  intros (Hcpu & _ & Hp & Hc & _ & Hch) [H1 H2 H3 H4 H5 _ H7 H8 H9 H10 H11 H12]. split; try assumption.
  - now rewrite Hcpu.
  - now rewrite Hcpu.
  - now rewrite Hp.
  - now rewrite Hch.
Qed.

Lemma test_buddy_allocator_spec fuel hm b st :
  HEAP_SIZE / 16 < Z.of_nat fuel -> (polls_bound < fuel)%nat -> console_ok (km_console st) ->
  buddy_init fuel (Buddy_new hm) HEAP_START HEAP_SIZE = Ret b ->
  exists st' b', test_buddy_allocator fuel st b = Ret (st', b') /\
    machine_printed [text "C3 address: 0x444444458c00, min address before: 0x444444458e00"; newline] st st' /\
    heap_inv_at HEAP_START HEAP_SIZE kernel_lists (mkHeap b' []).
Proof.
  intros Hf Hpoll Hc Eb. destruct (self_test_spec fuel hm Hf) as (b0 & c1 & c2 & c3 & addr & b1 & b' & Eb0 & E1 & [= -> -> -> ->] & E2 & _ & Hi).
  rewrite Eb in Eb0. injection Eb0 as <-. unfold test_buddy_allocator. rewrite E1. cbn [mbind outcome_bind].
  destruct (machine_println_spec fuel (chunk_line 75059993873408 75059993873920) st Hpoll Hc) as (st' & -> & Hp). cbn [mbind outcome_bind].
  rewrite E2. cbn [mbind outcome_bind]. exists st', b'. split; [reflexivity|]. split; [|exact Hi].
  exact Hp.
Qed.

Lemma trigger_int3_spec fuel frame st :
  (polls_bound < fuel)%nat -> traps_ready stub_address code_at st ->
  exists st', trigger_int3 error_text code_at fuel frame st = Ret (Halting, st') /\
    reported (text "Int3 triggered: " :: fmt_frame frame ++ [newline]) Returns st st'.
Proof.
  intros Hf Ht.
  destruct (deliver_reported error_text stub_address code_at fuel 3 frame 0 st (without_error_code breakpoint_handler)
    (exception_text error_text breakpoint_handler frame 0 ++ [newline]) Returns Ht ltac:(lia) eq_refl) as (st' & E & Hr).
  { intros st0 Hc. destruct (call_exception_handler error_text fuel breakpoint_handler frame 0 st0 Hf Hc)
      as (f & st1 & E & Ef & Hp); [discriminate..|]. exists st1. rewrite Ef in E. exact (conj E Hp). }
  unfold trigger_int3. rewrite E. exists st'. split; [reflexivity | exact Hr].
Qed.

Lemma kernel_start_spec fuel info root used frame st m hm :
  handed_over info root used st m -> HEAP_SIZE / 16 < Z.of_nat fuel -> (polls_bound < fuel)%nat ->
  in_width 64 tss_address -> (forall s, in_width 64 (stub_address s) /\ code_at (stub_address s) = Some s) ->
  exists ks, kernel_start stub_address tss_address idt_address error_text code_at fuel info frame st m (Buddy_new hm) = Ret (Halting, ks) /\
    sent (km_world (ks_machine ks)) = sent (km_world st) ++ (char_byte <$> concat (kernel_log info m frame)) /\
    cpu_interrupts (km_cpu (ks_machine ks)) = true /\ traps_ready stub_address code_at (ks_machine ks) /\
    ks_page_table ks = kernel_table info root /\ ms_inv (ks_page_table ks) (ks_tables ks) (mkBump used (bump_next (ks_frames ks))) /\
    heap_inv HEAP_START HEAP_SIZE (mkHeap (ks_heap ks) []).
Proof.
  intros Hho Hf Hpoll Htss Hstub. unfold kernel_start. pose proof (ho_console _ _ _ _ _ Hho) as Hc.
  destruct (machine_println_spec fuel [text "Hello from kernel <3"] st Hpoll Hc) as (st1 & -> & P1). cbn [mbind outcome_bind].
  pose proof P1 as (_ & _ & _ & Hc1 & S1 & _).
  destruct (print_memory_map_spec fuel (memory_regions_deref m (memory_regions info)) st1 Hpoll Hc1) as (st2 & -> & P2). cbn [mbind outcome_bind].
  pose proof P2 as (_ & _ & _ & _ & S2 & _).
  pose proof (handed_over_printed _ _ _ _ _ _ _ P2 (handed_over_printed _ _ _ _ _ _ _ P1 Hho)) as Hho2.
  destruct (kernel_init_spec stub_address tss_address idt_address fuel info root used st2 m hm Hho2 Hf Hpoll Htss (fun s => proj1 (Hstub s)))
    as (ks & -> & Eb & Hup). cbn [mbind outcome_bind].
  destruct (machine_println_spec fuel [text "Kernel initialized"] (ks_machine ks) Hpoll (ku_console _ _ _ _ _ _ _ _ Hup)) as (st3 & -> & P3).
  cbn [mbind outcome_bind]. pose proof P3 as (_ & _ & _ & Hc3 & _).
  destruct (test_buddy_allocator_spec fuel hm (ks_heap ks) st3 Hf Hpoll Hc3 Eb) as (st4 & b1 & -> & P4 & Hi). cbn [mbind outcome_bind].
  pose proof P4 as (_ & _ & _ & Hc4 & _).
  destruct (machine_println_spec fuel [text "Buddy allocator tested"] st4 Hpoll Hc4) as (st5 & -> & P5). cbn [mbind outcome_bind].
  pose proof P5 as (_ & _ & _ & Hc5 & _).
  destruct (heap_allocations_spec fuel Hf b1 Hi) as (b2 & -> & Hi2). cbn [mbind outcome_bind].
  destruct (machine_println_spec fuel [text "Heap tested"] st5 Hpoll Hc5) as (st6 & -> & P6). cbn [mbind outcome_bind].
  pose proof (machine_printed_trans _ _ _ _ _ (machine_printed_trans _ _ _ _ _ P3 P4) (machine_printed_trans _ _ _ _ _ P5 P6))
    as (C6 & I6 & Q6 & O6 & S6 & _).
  assert (Ht : traps_ready stub_address code_at st6).
  { split; [| |exact O6|].
    - rewrite I6. exact (ku_gates _ _ _ _ _ _ _ _ Hup).
    - exact (fun s => proj2 (Hstub s)).
    - rewrite Q6. exact (ku_pics _ _ _ _ _ _ _ _ Hup). }
  destruct (trigger_int3_spec fuel frame st6 Hpoll Ht) as (st7 & -> & O7 & I7 & Q7 & S7 & _ & C7). cbn [mbind outcome_bind].
  eexists. split; [reflexivity|]. cbn [ks_machine ks_tables ks_frames ks_page_table ks_heap]. split.
  { rewrite S7, S6, (ku_sent _ _ _ _ _ _ _ _ Hup), S2, S1, <- !app_assoc, <- !fmap_app, <- !concat_app. unfold kernel_log.
    rewrite <- !app_assoc. reflexivity. }
  split; [rewrite C7, C6; exact (ku_interrupts _ _ _ _ _ _ _ _ Hup)|].
  split; [split; [rewrite I7; apply Ht | apply Ht | exact O7 | rewrite Q7; apply Ht]|].
  split; [exact (ku_page_table _ _ _ _ _ _ _ _ Hup)|]. split; [exact (ku_tables _ _ _ _ _ _ _ _ Hup) | exact Hi2].
Qed.

(** C8: the kernel runs: from such a state of the boot loader as in [handed_over], [start] reaches
    its idle loop with interrupts on, having brought up interrupts, page tables and
    heap; its own tests of the allocator and of the heap pass; the breakpoint it
    triggers is reported and returned from; the heap is in order with nothing
    allocated; and what it wrote on the serial line is exactly its log: the memory
    map it was given, the messages of each step, and the frame of the breakpoint. *)
Theorem kernel_start_correct fuel info root used frame st m hm :
  handed_over info root used st m -> HEAP_SIZE / 16 < Z.of_nat fuel -> (polls_bound < fuel)%nat ->
  in_width 64 tss_address -> (forall s, in_width 64 (stub_address s) /\ code_at (stub_address s) = Some s) ->
  exists ks, kernel_start stub_address tss_address idt_address error_text code_at fuel info frame st m (Buddy_new hm) = Ret (Halting, ks) /\
    sent (km_world (ks_machine ks)) = sent (km_world st) ++ (char_byte <$> concat (kernel_log info m frame)) /\
    cpu_interrupts (km_cpu (ks_machine ks)) = true /\ traps_ready stub_address code_at (ks_machine ks) /\
    ks_page_table ks = kernel_table info root /\ ms_inv (ks_page_table ks) (ks_tables ks) (mkBump used (bump_next (ks_frames ks))) /\
    heap_inv HEAP_START HEAP_SIZE (mkHeap (ks_heap ks) []).
Proof. exact (kernel_start_spec fuel info root used frame st m hm). Qed.

(** The test kernel runs to its last line: after [kernel_init] and its greeting on
    the serial line it writes [Success] to the exit device, which is what the host
    waits for. *)
Theorem test_kernel_start_correct fuel info root used st m hm :
  handed_over info root used st m -> HEAP_SIZE / 16 < Z.of_nat fuel -> (polls_bound < fuel)%nat ->
  in_width 64 tss_address -> (forall s, in_width 64 (stub_address s)) ->
  exists w, test_kernel_start stub_address tss_address idt_address fuel info st m (Buddy_new hm) =
      Ret (Port_write (Port_new 0xf4 : Port u32) (exit_code_bits Success) w, Panic ExplicitPanic) /\
    sent w = sent (km_world st) ++
      (char_byte <$> concat (init_text idt_address ++ [text "Hello from test kernel"; newline])).
Proof.
  intros Hho Hf Hpoll Htss Hstub. unfold test_kernel_start.
  destruct (kernel_init_spec stub_address tss_address idt_address fuel info root used st m hm Hho Hf Hpoll Htss Hstub) as (ks & -> & _ & Hup).
  cbn [mbind outcome_bind].
  destruct (machine_println_spec fuel [text "Hello from test kernel"] (ks_machine ks) Hpoll (ku_console _ _ _ _ _ _ _ _ Hup)) as (st3 & -> & P3).
  destruct P3 as (_ & _ & _ & _ & S3 & _). exists (km_world st3). split; [reflexivity|].
  rewrite S3, (ku_sent _ _ _ _ _ _ _ _ Hup), <- app_assoc, <- fmap_app, <- concat_app. reflexivity.
Qed.
End Theorems.

(** ** The small machine of [KernelMain] and the code of [Exceptions] *)

Section Witnesses.
#[local] Existing Instances ref_bit_field ref_bit_field_ok ref_bitflags ref_bitflags_ok chip_ports chip_machine.

Lemma memory_map_printed_readable_witness : exists st' line,
  print_memory_map 4 [ex_region] ex_machine = Ret st' /\ sent (km_world st') = sent (km_world ex_machine) ++ line /\
  read_memory_map 1 (line ++ text "Kernel initialized") = [(0x10000, 0x100000, true)].
Proof.
  apply (memory_map_printed_readable 4 [ex_region] ex_machine (text "Kernel initialized")).
  - apply Nat.ltb_lt. reflexivity.
  - exact I.
  - constructor; [|constructor]. split; split; cbn; lia.
Defined.

Lemma kernel_start_correct_witness : exists ks,
  kernel_start ex_stub_address 0x5000 0x7000 (fun _ => text "(empty)") ex_code_at (Z.to_nat 6401) ex_info ex_frame ex_machine ex_memory
    (Buddy_new (fun _ => 0)) = Ret (Halting, ks) /\
  sent (km_world (ks_machine ks)) = sent (km_world ex_machine) ++ (char_byte <$> concat (kernel_log 0x7000 ex_info ex_memory ex_frame)) /\
  cpu_interrupts (km_cpu (ks_machine ks)) = true /\ heap_inv HEAP_START HEAP_SIZE (mkHeap (ks_heap ks) []).
Proof.
  destruct (kernel_start_correct ex_stub_address 0x5000 0x7000 (fun _ => text "(empty)") ex_code_at (Z.to_nat 6401) ex_info 0x1000 [ex_region] ex_frame
    ex_machine ex_memory (fun _ => 0) ex_handed_over) as (ks & E & Hs & Hi & _ & _ & _ & Hh);
    [rewrite Z2Nat.id by lia; reflexivity | apply Nat.ltb_lt; reflexivity | unfold in_width; lia
    | exact (fun s => conj (ex_stub_width s) (ex_code s)) |].
  exists ks. exact (conj E (conj Hs (conj Hi Hh))).
Defined.
End Witnesses.
