(* ===== verification/Stage4Start.v ===== *)
(** Stage 4 as a whole: the address space the kernel is entered in.

    The steps of [start] are proved one by one against the contract of the
    mapper; [grows] says what a step may change.  The theorem composes them with
    loading the kernel, the stack and the physical memory window, on the page
    table of [start]. *)
From Stdlib Require Import ZArith Lia.
From stdpp Require Import base tactics numbers list sets.
From S2P Require Import Prelude Crates Memory Paging BumpAlloc AddressSpace.
From S2P Require Import MapperClient WindowMapper BootInfo KernelLoader KernelImage KernelLoad Descriptors Processor.
From S2P Require Import InterruptStubs KernelInterrupts Stage4 Stage4Theorems KernelMain.
#[local] Open Scope Z_scope.

(** ** Steps *)

Section Steps.
Context `{BF : BitField} `{BFS : !BitFieldSpec BF} `{FL : Bitflags} `{FLS : !BitflagsSpec FL} `{MS : MapperSpec M A} (pt : M).
Context (Hid : forall f, valid_frame f -> ms_frame_va pt f = f).
Implicit Types (m : mem) (a : A) (c : cpu).

(** At most [k] frames are taken, the mappings of pages with a number in [P] may
    change, and memory that the tables do not own is left alone. *)
Record grows m a m' a' (k : Z) (P : Z -> Prop) : Prop := {
  gr_inv : ms_inv pt m' a';
  gr_consumed : consumed k a a';
  gr_keeps : keeps pt m a m' a';
  gr_plain va : in_width 64 va -> ms_plain pt m va -> ms_plain pt m' va;
  gr_other q : in_width 64 (page_address q) -> ~ P (vpn (page_address q)) -> ms_lookup pt m' q = ms_lookup pt m q;
}.

Lemma grows_trans m1 a1 m2 a2 m3 a3 k1 k2 (P1 P2 P : Z -> Prop) :
  (forall n, P1 n \/ P2 n -> P n) ->
  grows m1 a1 m2 a2 k1 P1 -> grows m2 a2 m3 a3 k2 P2 -> grows m1 a1 m3 a3 (k1 + k2) P.
Proof.
  intros HP [I1 C1 K1 L1 O1] [I2 C2 K2 L2 O2].
  split; [assumption | eapply consumed_trans; eauto | eapply keeps_trans; eauto | auto |].
  intros q Hq Hn. rewrite O2, O1; auto 6.
Qed.

(** The pages at addresses in [ok] with a number outside [P] can be mapped. *)
Definition clear m (ok P : Z -> Prop) : Prop :=
  forall q, in_width 64 (page_address q) -> ok (page_address q) -> ~ P (vpn (page_address q)) -> mappable pt m q.

Lemma clear_grows m a m' a' k ok P P' :
  grows m a m' a' k P -> (forall n, P n -> P' n) -> clear m ok P' -> clear m' ok P'.
Proof.
  intros G HP Hc q Hq Hok Hn. destruct (Hc q Hq Hok Hn) as (_ & Hpl & Hl).
  split; [assumption|]. split; [now apply (gr_plain _ _ _ _ _ _ G)|]. rewrite (gr_other _ _ _ _ _ _ G); auto.
Qed.

Lemma clear_weaken m (ok P P' : Z -> Prop) : (forall n, P n -> P' n) -> clear m ok P -> clear m ok P'.
Proof. intros HP Hc q Hq Hok Hn. apply Hc; auto. Qed.

(** A page is mapped. *)
Lemma map_to_grows m a f p flags :
  ms_inv pt m a -> mappable pt m p -> valid_flags flags -> Z.testbit flags 0 = true -> valid_frame f -> 3 <= fa_avail a ->
  exists r m' a', map_to pt (mkFrame Size4KiB f) p flags (m, a) = Ret (Ok r, (m', a')) /\
    grows m a m' a' 3 (eq (vpn (page_address p))) /\ ms_lookup pt m' p = Some (mkFrame Size4KiB f, flags).
Proof.
  intros Hi Hp Hfl Hb Hf Hav. pose proof (proj1 Hp) as Hw.
  destruct (map_to_mappable pt m a f flags p Hi Hp Hfl Hf Hav) as (r & m' & a' & E & Hi' & Hc & Hk & Hpl & Hl).
  exists r, m', a'. split; [exact E|]. split; [|now rewrite Hl, Z.eqb_refl, Hb].
  split; [assumption..|]. intros q Hq Hn. rewrite Hl by assumption. now rewrite (proj2 (Z.eqb_neq _ _)) by congruence.
Qed.

(** A new frame is filled with what a client writes, and mapped at its own address. *)
Lemma new_frame_grows m a :
  ms_inv pt m a -> 1 <= fa_avail a ->
  exists f a1, allocate_frame a = Ret (Some (mkFrame Size4KiB f), a1) /\ valid_frame f /\ fa_free a f /\ ~ fa_free a1 f /\
    forall m1, (forall x, ~ (f <= x < f + 4096) -> m1 x = m x) ->
      grows m a m1 a1 1 (fun _ => False) /\ forall x, f <= x < f + 4096 -> ~ ms_owned pt m1 a1 x.
Proof.
  intros Hi Hav.
  destruct (new_frame_spec pt m a Hi Hav) as (f & a1 & E & Hf & Hfree & Hnf & Hi' & Hc & Hk & Hb).
  rewrite (Hid f Hf) in Hb. exists f, a1. split; [exact E|]. do 3 (split; [assumption|]). intros m1 Hm1.
  destruct (ms_write pt m m1 a1 Hi') as (Hi1 & Ho1 & Hp1 & Hl1).
  { intros x Hx. apply Hm1. intros Hxf. now destruct (Hb x Hxf). }
  split; [|intros x Hx; rewrite Ho1; now destruct (Hb x Hx)].
  split; [assumption | assumption | | assumption | intros q Hq _; auto].
  intros x Hx. rewrite Ho1. split; [|now apply Hk]. apply Hm1. intros Hxf. now destruct (Hb x Hxf).
Qed.

Lemma new_frame_mapped m a :
  ms_inv pt m a -> 4 <= fa_avail a -> (forall f, fa_free a f -> mappable pt m (mkPage Size4KiB f)) ->
  exists f a1, allocate_frame a = Ret (Some (mkFrame Size4KiB f), a1) /\ valid_frame f /\ fa_free a f /\
    forall m1, (forall x, ~ (f <= x < f + 4096) -> m1 x = m x) ->
      exists r m' a', map_to pt (mkFrame Size4KiB f) (mkPage Size4KiB f) PRESENT (m1, a1) = Ret (Ok r, (m', a')) /\
        grows m a m' a' 4 (eq (vpn f)) /\ ms_lookup pt m' (mkPage Size4KiB f) = Some (mkFrame Size4KiB f, PRESENT) /\
        ~ fa_free a' f /\ forall x, f <= x < f + 4096 -> m' x = m1 x /\ ~ ms_owned pt m' a' x.
Proof.
  intros Hi Hav Hmap. destruct (new_frame_grows m a Hi ltac:(lia)) as (f & a1 & E & Hf & Hfree & Hnf & Hw).
  exists f, a1. split; [exact E|]. do 2 (split; [assumption|]). intros m1 Hm1. destruct (Hw m1 Hm1) as [G1 Hown].
  pose proof (gr_consumed _ _ _ _ _ _ G1) as [Hc1 _].
  destruct (Hmap f Hfree) as (Hfw & Hpl & Hl).
  destruct (map_to_grows m1 a1 f (mkPage Size4KiB f) PRESENT) as (r & m' & a' & Em & G2 & Hl');
    [apply G1 | | reflexivity | reflexivity | assumption | lia |].
  { split; [assumption|]. split; [now apply (gr_plain _ _ _ _ _ _ G1)|]. rewrite (gr_other _ _ _ _ _ _ G1); auto. }
  exists r, m', a'. split; [exact Em|].
  split; [eapply (grows_trans _ _ _ _ _ _ 1 3); [|exact G1 | exact G2]; cbn; tauto|]. split; [assumption|].
  split; [intros Hf'; apply Hnf, (proj2 (gr_consumed _ _ _ _ _ _ G2)), Hf'|].
  intros x Hx. apply (gr_keeps _ _ _ _ _ _ G2). auto.
Qed.

(** *** [identity_map_context_switch_function] *)

Lemma identity_map_context_switch_spec address m a :
  ms_inv pt m a -> 0 <= address < 2 ^ 48 -> mappable pt m (page_of address) -> 3 <= fa_avail a ->
  exists m' a', identity_map_context_switch_function pt address (m, a) = Ret (m', a') /\
    grows m a m' a' 3 (eq (vpn (page_address (page_of address)))) /\
    ms_lookup pt m' (page_of address) = Some (mkFrame Size4KiB (address - address mod 4096), PRESENT).
Proof.
  intros Hi Ha Hm Hav. pose proof (Z.mod_pos_bound address 4096 ltac:(lia)). pose proof (Z.mod_le address 4096).
  set (f := address - address mod 4096).
  assert (Hf : valid_frame f).
  { split; [unfold f; lia|]. unfold f. Z.to_euclidean_division_equations; lia. }
  destruct (map_to_grows m a f (page_of address) PRESENT Hi Hm) as (r & m' & a' & E & G & Hl);
    [reflexivity | reflexivity | assumption | assumption|].
  exists m', a'. split; [|auto]. unfold identity_map_context_switch_function.
  rewrite frame_containing_eq by (unfold in_width; lia). cbn [mbind outcome_bind SIZE]. change 0x1000 with 4096. fold f.
  unfold identity_map. cbn [frame_address]. rewrite page_containing_eq by (unfold in_width; destruct Hf; lia).
  cbn [mbind outcome_bind SIZE]. change 0x1000 with 4096. rewrite (proj2 Hf), Z.sub_0_r.
  change (mkPage Size4KiB f) with (page_of address). rewrite E. reflexivity.
Qed.

(** *** [initialize_and_map_gdt] *)

Lemma gdt_store_outside m f t x :
  length (gdt_entries t) = 8%nat -> ~ (f <= x < f + 4096) -> gdt_store m f t x = m x.
Proof.
  intros Hl Hx. unfold gdt_store. apply write_list_outside.
  assert (E : forall l : list Z, length (concat (to_le_bytes 8 <$> l)) = (8 * length l)%nat).
  { induction l as [|z l IH]; [reflexivity|]. rewrite fmap_cons. cbn [concat length].
    rewrite length_app, length_to_le_bytes, IH. lia. }
  rewrite length_app, E, length_to_le_bytes, Hl. lia.
Qed.

Lemma kernel_segments_steps :
  exists code data, kernel_code_segment = Ret (UserSegment code) /\
    add_entry Gdt_new (UserSegment code) = Ret (8, mkGdt [0; code; 0; 0; 0; 0; 0; 0] 2) /\
    kernel_data_segment = Ret (UserSegment data) /\
    add_entry (mkGdt [0; code; 0; 0; 0; 0; 0; 0] 2) (UserSegment data) = Ret (16, mkGdt [0; code; data; 0; 0; 0; 0; 0] 3) /\
    Z.testbit code 53 = true.
Proof.
  unfold kernel_code_segment, kernel_data_segment, long_mode_code_segment, long_mode_data_segment, flags_of. cbn [fold_left].
  rewrite !flags_union_spec. set (fc := Z.lor _ _). set (fd := Z.lor _ _).
  destruct (two_segments_steps fc 0 fd 0) as (code & data & E1 & E2 & E3 & E4 & (_ & _ & C3) & _);
    try reflexivity; try lia; [split; [discriminate | reflexivity]..|].
  exists code, data. split; [exact E1|]. split; [exact E2|]. split; [exact E3|]. split; [exact E4|].
  pose proof (f_equal (fun z => Z.testbit z 1) C3) as T. cbn beta in T. rewrite !field_bits in T by lia. exact T.
Qed.

(** The new table: in a new frame that is mapped at its own address, and loaded. *)
Lemma initialize_and_map_gdt_spec c m a :
  ms_inv pt m a -> 4 <= fa_avail a -> (forall f, fa_free a f -> mappable pt m (mkPage Size4KiB f)) ->
  exists f code data m1 m' a',
    initialize_and_map_gdt pt c (m, a) = Ret (set_gdt c [0; code; data], (m', a')) /\ Z.testbit code 53 = true /\
    valid_frame f /\ fa_free a f /\ ~ fa_free a' f /\ grows m a m' a' 4 (eq (vpn f)) /\
    ms_lookup pt m' (mkPage Size4KiB f) = Some (mkFrame Size4KiB f, PRESENT) /\
    forall x, f <= x < f + 4096 ->
      m' x = gdt_store m1 f (mkGdt [0; code; data; 0; 0; 0; 0; 0] 3) x /\ ~ ms_owned pt m' a' x.
Proof.
  intros Hi Hav Hmap. destruct (new_frame_mapped m a Hi Hav Hmap) as (f & a1 & E & Hf & Hfree & Hrun).
  destruct kernel_segments_steps as (code & data & E1 & E2 & E3 & E4 & Hcode).
  set (g1 := mkGdt [0; code; 0; 0; 0; 0; 0; 0] 2) in *. set (g2 := mkGdt [0; code; data; 0; 0; 0; 0; 0] 3) in *.
  set (m1 := gdt_store (gdt_store m f Gdt_new) f g1).
  destruct (Hrun (gdt_store m1 f g2)) as (r & m' & a' & Em & G & Hl & Hn & Hx).
  { intros x Hx. unfold m1. now rewrite !gdt_store_outside. }
  exists f, code, data, m1, m', a'. split; [|auto 10].
  unfold initialize_and_map_gdt. rewrite E. cbn [mbind outcome_bind unwrap frame_address].
  rewrite E1. cbn [mbind outcome_bind]. rewrite E2. cbn [mbind outcome_bind]. rewrite E3. cbn [mbind outcome_bind].
  rewrite E4. cbn [mbind outcome_bind]. fold m1.
  change (gdt_load g2 c) with (Ret (set_gdt c [0; code; data]) : outcome cpu). cbn [mbind outcome_bind].
  unfold identity_map. cbn [frame_address]. destruct Hf as [Hf0 Hf1].
  rewrite page_containing_eq by (unfold in_width; lia). cbn [mbind outcome_bind SIZE]. change 0x1000 with 4096.
  rewrite Hf1, Z.sub_0_r, Em. reflexivity.
Qed.

(** *** [allocate_and_map_boot_info] *)

Section BootInformation.
Context (boot_info_size : Z) (store_boot_info : mem -> Z -> BootInfo -> mem).
Context (read_boot_info : mem -> Z -> BootInfo) (representable : BootInfo -> Prop).

(** The layout of [BootInfo]: storing writes [boot_info_size] bytes, and reading
    those gives back what was stored. *)
Record layout_ok : Prop := {
  lo_size : 0 <= boot_info_size;
  lo_outside m address b x : ~ (address <= x < address + boot_info_size) -> store_boot_info m address b x = m x;
  lo_inside m m' address : (forall x, address <= x < address + boot_info_size -> m' x = m x) ->
    read_boot_info m' address = read_boot_info m address;
  lo_read m address b : representable b -> read_boot_info (store_boot_info m address b) address = b;
}.
Context (Hlo : layout_ok) (info : BiosInfo) (e820 : list E820MemoryRegion).

(** The boot information in the frame [f], with [n] memory regions behind it. *)
Definition boot_info_at (f : Z) (n : nat) : BootInfo :=
  mkBootInfo (bios_kernel info) (bios_framebuffer info) (mkPhysicalMemoryRegions (f + boot_info_size) (Z.of_nat n))
    PHYSICAL_MEMORY_OFFSET.

(** The memory map for the last frame [f] can be built and fits the page. *)
Definition map_fits (f : Z) (map : list (option PhysicalMemoryRegion)) : Prop :=
  build_memory_map e820 (mkFrame Size4KiB f) = Ret map /\
  boot_info_size + REGION_SIZE * Z.of_nat (length (present_regions map)) <= 4096 /\
  Forall region_in_width (present_regions map) /\ representable (boot_info_at f (length (present_regions map))).

(** What the kernel finds in the page. *)
Definition boot_info_stored m (f : Z) (map : list (option PhysicalMemoryRegion)) : Prop :=
  boot_info_size + REGION_SIZE * Z.of_nat (length (present_regions map)) <= 4096 /\
  read_boot_info m f = boot_info_at f (length (present_regions map)) /\
  memory_regions_deref m (memory_regions (boot_info_at f (length (present_regions map)))) = present_regions map.

Lemma store_regions_above m p rs x : p + REGION_SIZE * Z.of_nat (length rs) <= x -> store_regions m p rs x = m x.
Proof.
  revert m p. induction rs as [|r rs IH]; intros m p Hx; [reflexivity|]. cbn [store_regions length] in *.
  unfold REGION_SIZE in *. rewrite IH by lia. apply store_region_outside. unfold REGION_SIZE. lia.
Qed.

Lemma boot_page_stored m m' f map :
  map_fits f map ->
  (forall x, f <= x < f + 4096 ->
     m' x = store_boot_info (store_regions m (f + boot_info_size) (present_regions map)) f
              (boot_info_at f (length (present_regions map))) x) ->
  boot_info_stored m' f map.
Proof.
  intros (_ & Hfit & Hrs & Hrep) Hm. split; [exact Hfit|]. pose proof (lo_size Hlo). unfold REGION_SIZE in Hfit. split.
  - erewrite (lo_inside Hlo); [now apply (lo_read Hlo)|]. intros x Hx. apply Hm. lia.
  - unfold memory_regions_deref. cbn [boot_info_at memory_regions regions_ptr regions_len]. rewrite Nat2Z.id.
    rewrite <- (load_store_regions m (f + boot_info_size) (present_regions map) Hrs) at 2.
    apply load_region_list_agree. unfold REGION_SIZE. intros x Hx. rewrite Hm by lia. apply (lo_outside Hlo). lia.
Qed.

Lemma boot_info_stored_keep m m' f map :
  (forall x, f <= x < f + 4096 -> m' x = m x) -> boot_info_stored m f map -> boot_info_stored m' f map.
Proof.
  intros Hm (Hfit & Hr & Hd). split; [exact Hfit|]. pose proof (lo_size Hlo). unfold REGION_SIZE in Hfit. split.
  - rewrite <- Hr. apply (lo_inside Hlo). intros x Hx. apply Hm. lia.
  - etransitivity; [|exact Hd]. apply load_region_list_agree. cbn [boot_info_at memory_regions regions_ptr regions_len].
    rewrite Nat2Z.id.
    unfold REGION_SIZE. intros x Hx. apply Hm. lia.
Qed.

Lemma allocate_and_map_boot_info_spec m a :
  ms_inv pt m a -> 4 <= fa_avail a -> (forall f, fa_free a f -> mappable pt m (mkPage Size4KiB f)) ->
  (forall f a1, allocate_frame a = Ret (Some (mkFrame Size4KiB f), a1) -> exists map, map_fits f map) ->
  exists f map m' a',
    allocate_and_map_boot_info pt boot_info_size store_boot_info info e820 (m, a) = Ret (f, (m', a')) /\
    build_memory_map e820 (mkFrame Size4KiB f) = Ret map /\
    valid_frame f /\ fa_free a f /\ ~ fa_free a' f /\ grows m a m' a' 4 (eq (vpn f)) /\
    ms_lookup pt m' (mkPage Size4KiB f) = Some (mkFrame Size4KiB f, PRESENT) /\
    boot_info_stored m' f map /\ forall x, f <= x < f + 4096 -> ~ ms_owned pt m' a' x.
Proof.
  intros Hi Hav Hmap Hfits. destruct (new_frame_mapped m a Hi Hav Hmap) as (f & a1 & E & Hf & Hfree & Hrun).
  destruct (Hfits f a1 E) as [map Hfit]. pose proof Hfit as (Eb & Hlen & _ & _). pose proof (lo_size Hlo).
  set (rs := present_regions map) in *. set (ptr := f + boot_info_size).
  destruct (Hrun (store_boot_info (store_regions m ptr rs) f (boot_info_at f (length rs))))
    as (r & m' & a' & Em & G & Hl & Hn & Hx).
  { intros x Hx. unfold REGION_SIZE in Hlen. rewrite (lo_outside Hlo) by lia.
    destruct (Z.lt_ge_cases x f); [apply store_regions_below; unfold ptr; lia|].
    apply store_regions_above. unfold ptr, REGION_SIZE. lia. }
  exists f, map, m', a'. split; [|do 6 (split; [assumption|]); split].
  - unfold allocate_and_map_boot_info. rewrite E. cbn [mbind outcome_bind unwrap frame_address]. rewrite Eb.
    cbn [mbind outcome_bind]. fold rs. rewrite (proj2 (Z.leb_le _ _)) by (cbn [SIZE]; exact Hlen).
    cbn [assert_true mbind outcome_bind]. unfold REGION_SIZE in Hlen. destruct Hf as [Hf0 Hf1].
    unfold phys_add, uadd. rewrite checked_ok by lia. cbn [mbind outcome_bind]. fold ptr.
    change (mkBootInfo _ _ _ _) with (boot_info_at f (length rs)).
    unfold page_for_address, virt_is_aligned. change (usub 64 (SIZE Size4KiB) 1) with (Ret (Z.ones 12) : outcome Z).
    cbn [mbind outcome_bind]. rewrite Z.land_ones by lia. change (2 ^ 12) with 4096. rewrite Hf1.
    cbn [Z.eqb assert_true mbind outcome_bind]. rewrite Em. reflexivity.
  - eapply boot_page_stored; [exact Hfit|]. intros x Hx'. apply Hx, Hx'.
  - intros x Hx'. now apply Hx.
Qed.

(** *** The steps between loading the kernel and mapping physical memory *)

Definition stack_vpn (n : Z) : Prop := n ∈ seqZ (vpn stack_bottom - 1) 34.

(** Low addresses, the stack and the kernel image are apart. *)
Lemma zones :
  PHYSICAL_MEMORY_OFFSET / 4096 <= vpn stack_bottom - 1 /\ vpn stack_bottom - 1 + 34 <= vpn KERNEL_VIRTUAL_BASE.
Proof. split; vm_compute; discriminate. Qed.

Lemma vpn_low va : 0 <= va < PHYSICAL_MEMORY_OFFSET -> vpn va = va / 4096 /\ vpn va < PHYSICAL_MEMORY_OFFSET / 4096.
Proof.
  intros Hva. change PHYSICAL_MEMORY_OFFSET with 0xa0000000000 in *. unfold vpn. rewrite Z.mod_small by lia.
  split; [reflexivity|]. apply Z.div_lt_upper_bound; [lia|]. change (4096 * (0xa0000000000 / 4096)) with 0xa0000000000. lia.
Qed.

(** The pages these steps map, besides those of the stack. *)
Record boot_pages (address g bf : Z) m : Prop := {
  bp_switch : ms_lookup pt m (page_of address) = Some (mkFrame Size4KiB (address - address mod 4096), PRESENT);
  bp_gdt : ms_lookup pt m (mkPage Size4KiB g) = Some (mkFrame Size4KiB g, PRESENT);
  bp_boot : ms_lookup pt m (mkPage Size4KiB bf) = Some (mkFrame Size4KiB bf, PRESENT);
}.

Record stack_mapped (fs : list Z) m : Prop := {
  sm_frames : NoDup fs;
  sm_pages : Forall2 (fun p f => ms_lookup pt m p
    = Some (mkFrame Size4KiB f, flags_union (flags_union PRESENT WRITABLE) NO_EXECUTE)) stack_pages fs;
  sm_guard : ms_lookup pt m stack_guard = None;
}.

Definition step_vpn (address g bf n : Z) : Prop :=
  stack_vpn n \/ vpn (page_address (page_of address)) = n \/ vpn g = n \/ vpn bf = n.

Lemma stack_page_vpn p : p ∈ stack_guard :: stack_pages -> in_width 64 (page_address p) /\ stack_vpn (vpn (page_address p)) /\
  2 ^ 64 - 2 ^ 39 <= page_address p < 2 ^ 64.
Proof.
  intros Hp. assert (Hr : 2 ^ 64 - 2 ^ 39 <= page_address p < 2 ^ 64).
  { apply elem_of_cons in Hp as [->|(i & -> & Hi%elem_of_seqZ)%list_elem_of_fmap]; [vm_compute; intuition congruence|].
    cbn [page_address SIZE]. change stack_bottom with 0xfffffffefffe0000. lia. }
  split; [unfold in_width; lia|]. split; [|exact Hr]. unfold stack_vpn.
  apply elem_of_cons in Hp as [->|Hp]; [rewrite stack_guard_vpn; apply elem_of_seqZ; lia|].
  assert (Hin : vpn (page_address p) ∈ seqZ (vpn stack_bottom) 33).
  { rewrite <- stack_pages_vpns. apply list_elem_of_fmap. eauto. }
  apply elem_of_seqZ in Hin. apply elem_of_seqZ. lia.
Qed.

Lemma stack_mapped_same fs m m' :
  (forall p, p ∈ stack_guard :: stack_pages -> ms_lookup pt m' p = ms_lookup pt m p) -> stack_mapped fs m -> stack_mapped fs m'.
Proof.
  intros Hk [Hnd Hp Hg]. split; [assumption | | rewrite Hk by left; assumption].
  rewrite Forall2_lookup in Hp |- *. intros i. specialize (Hp i).
  destruct (stack_pages !! i) as [p|] eqn:Ep; inversion Hp; subst; constructor.
  rewrite Hk by (right; now apply list_elem_of_lookup_2 in Ep). assumption.
Qed.

Lemma stack_mapped_grows m a m' a' k fs P :
  grows m a m' a' k P -> (forall n, stack_vpn n -> ~ P n) -> stack_mapped fs m -> stack_mapped fs m'.
Proof.
  intros G HP. apply stack_mapped_same. intros p Hin. destruct (stack_page_vpn p Hin) as (Hw & Hv & _).
  apply (gr_other _ _ _ _ _ _ G); auto.
Qed.

Lemma switch_page_low address : 0 <= address < PHYSICAL_MEMORY_OFFSET ->
  0 <= page_address (page_of address) < PHYSICAL_MEMORY_OFFSET.
Proof.
  intros Ha. cbn [page_of page_address]. pose proof (Z.mod_pos_bound address 4096 ltac:(lia)).
  pose proof (Z.mod_le address 4096). lia.
Qed.

Lemma vpn_low_inj va vb : 0 <= va < PHYSICAL_MEMORY_OFFSET -> 0 <= vb < PHYSICAL_MEMORY_OFFSET ->
  va mod 4096 = 0 -> vb mod 4096 = 0 -> vpn va = vpn vb -> va = vb.
Proof. intros Ha Hb. rewrite (proj1 (vpn_low va Ha)), (proj1 (vpn_low vb Hb)). intros. Z.to_euclidean_division_equations; lia. Qed.

Section Between.
Context (ok K : Z -> Prop) (fuel : nat) (address : Z).
Context (HK : forall n, K n -> vpn KERNEL_VIRTUAL_BASE <= n).
Context (Hlow : forall va, 0 <= va < PHYSICAL_MEMORY_OFFSET -> ok va).
Context (Hhigh : forall va, 2 ^ 64 - 2 ^ 39 <= va < 2 ^ 64 -> ok va).
Context (Hfuel : (33 < fuel)%nat) (Haddr : 0 <= address < PHYSICAL_MEMORY_OFFSET).

(** A low page that is none of the low pages mapped so far. *)
Lemma low_mappable m va P : clear m ok (fun n => K n \/ stack_vpn n \/ P n) ->
  0 <= va < PHYSICAL_MEMORY_OFFSET -> ~ P (vpn va) -> mappable pt m (mkPage Size4KiB va).
Proof.
  intros Hc Hva HP. destruct (vpn_low va Hva) as [_ Hv]. destruct zones as [Z1 Z2].
  apply Hc; cbn [page_address]; [change PHYSICAL_MEMORY_OFFSET with 0xa0000000000 in Hva; unfold in_width; lia | auto |].
  intros [Hk%HK|[Hs%elem_of_seqZ|HP']]; [lia.. | auto].
Qed.

(** The stack and the page of the switch function. *)
Lemma stack_and_switch_spec m a :
  ms_inv pt m a -> clear m ok K -> 139 <= fa_avail a ->
  exists fs st m' a', allocate_and_map_stack fuel pt (m, a) = Ret (KERNEL_STACK_TOP, st) /\
    identity_map_context_switch_function pt address st = Ret (m', a') /\
    grows m a m' a' 139 (fun n => stack_vpn n \/ vpn (page_address (page_of address)) = n) /\
    stack_mapped fs m' /\
    ms_lookup pt m' (page_of address) = Some (mkFrame Size4KiB (address - address mod 4096), PRESENT).
Proof.
  intros Hi Hc Hav. pose proof zones as [Z1 Z2]. pose proof (switch_page_low address Haddr) as Hsw. pose proof (vpn_low _ Hsw) as [_ Hvs].
  destruct (allocate_and_map_stack_spec fuel pt m a Hi Hfuel ltac:(lia))
    as (fs & m1 & a1 & E1 & Hi1 & Hk1 & Hnd & _ & Hp & Hg & Ho & Hco & Hpl).
  { apply Forall_forall. intros p Hp. destruct (stack_page_vpn p Hp) as (Hw & Hv & Hr). apply Hc; [assumption | auto|].
    intros Hkn%HK. apply elem_of_seqZ in Hv. lia. }
  assert (G1 : grows m a m1 a1 136 stack_vpn) by now split.
  assert (Hc1 : clear m1 ok (fun n => K n \/ stack_vpn n \/ False)).
  { eapply clear_grows; [exact G1 | tauto |]. eapply clear_weaken; [|exact Hc]. tauto. }
  destruct (identity_map_context_switch_spec address m1 a1 Hi1) as (m2 & a2 & E2 & G2 & Hl2).
  { change PHYSICAL_MEMORY_OFFSET with 0xa0000000000 in Haddr. lia. }
  { apply (low_mappable m1 _ (fun _ => False) Hc1 Hsw). tauto. }
  { destruct Hco. lia. }
  exists fs, (m1, a1), m2, a2. split; [exact E1|]. split; [exact E2|].
  split; [eapply (grows_trans _ _ _ _ _ _ 136 3); [|exact G1 | exact G2]; tauto|]. split; [|exact Hl2].
  eapply stack_mapped_grows; [exact G2 | | now split]. intros n Hn%elem_of_seqZ E. lia.
Qed.

(** All four steps. *)
Lemma between_spec c m a :
  ms_inv pt m a -> clear m ok K -> 147 <= fa_avail a ->
  ~ fa_free a (address - address mod 4096) -> (forall f, fa_free a f -> f < PHYSICAL_MEMORY_OFFSET) ->
  (forall a0 f a1, fa_ok a0 -> consumed 143 a a0 -> allocate_frame a0 = Ret (Some (mkFrame Size4KiB f), a1) ->
     exists map, map_fits f map) ->
  exists fs st1 st2 code data g st3 bf map m' a',
    allocate_and_map_stack fuel pt (m, a) = Ret (KERNEL_STACK_TOP, st1) /\
    identity_map_context_switch_function pt address st1 = Ret st2 /\
    initialize_and_map_gdt pt c st2 = Ret (set_gdt c [0; code; data], st3) /\
    allocate_and_map_boot_info pt boot_info_size store_boot_info info e820 st3 = Ret (bf, (m', a')) /\
    build_memory_map e820 (mkFrame Size4KiB bf) = Ret map /\ Z.testbit code 53 = true /\
    0 <= g < PHYSICAL_MEMORY_OFFSET /\ 0 <= bf < PHYSICAL_MEMORY_OFFSET /\
    grows m a m' a' 147 (step_vpn address g bf) /\ stack_mapped fs m' /\ boot_pages address g bf m' /\
    boot_info_stored m' bf map /\
    (forall x, bf <= x < bf + 4096 -> ~ ms_owned pt m' a' x) /\ fa_free a bf /\ ~ fa_free a' bf.
Proof.
  intros Hi Hc Hav Hnf Hfl Hfits. pose proof zones as [Z1 Z2]. pose proof (switch_page_low address Haddr) as Hsw. pose proof (vpn_low _ Hsw) as [_ Hvs].
  destruct (stack_and_switch_spec m a Hi Hc ltac:(lia)) as (fs & st1 & m2 & a2 & E1 & E2 & G2 & Hst2 & Hsw2).
  pose proof (gr_consumed _ _ _ _ _ _ G2) as [Hav2 Hsh2].
  set (sw := page_address (page_of address)) in *.
  assert (Hal : sw mod 4096 = 0) by (unfold sw; cbn [page_of page_address]; Z.to_euclidean_division_equations; lia).
  assert (Hc2 : clear m2 ok (fun n => K n \/ stack_vpn n \/ vpn sw = n)).
  { eapply clear_grows; [exact G2 | tauto |]. eapply clear_weaken; [|exact Hc]. tauto. }
  assert (Hok : forall a0, consumed 143 a a0 -> forall f, fa_free a0 f -> 0 <= f < PHYSICAL_MEMORY_OFFSET /\ f mod 4096 = 0 /\ vpn sw <> vpn f).
  { intros a0 [_ Hs] f Hf%Hs. pose proof (fa_valid a f (ms_frames _ _ _ Hi) Hf) as [Hf0 Hf1]. pose proof (Hfl f Hf).
    split; [lia|]. split; [assumption|]. intros E%vpn_low_inj; try assumption; try lia. apply Hnf. now rewrite <- E in Hf. }
  destruct (initialize_and_map_gdt_spec c m2 a2 (gr_inv _ _ _ _ _ _ G2)) as (g & code & data & mg & m3 & a3 & E3 & Hcode & Hg & Hgf & Hgn & G3 & Hl3 & _);
    [lia | |].
  { intros f Hf. destruct (Hok a2 ltac:(split; [lia | assumption]) f Hf) as (Hf0 & _ & Hne).
    exact (low_mappable m2 f (eq (vpn sw)) Hc2 Hf0 Hne). }
  destruct (Hok a2 ltac:(split; [lia | assumption]) g Hgf) as (Hg0 & Hgal & Hgne).
  pose proof (gr_consumed _ _ _ _ _ _ G3) as [Hav3 Hsh3].
  assert (Hc3 : clear m3 ok (fun n => K n \/ stack_vpn n \/ (vpn sw = n \/ vpn g = n))).
  { eapply clear_grows; [exact G3 | tauto |]. eapply clear_weaken; [|exact Hc2]. tauto. }
  assert (Hok3 : forall f, fa_free a3 f -> 0 <= f < PHYSICAL_MEMORY_OFFSET /\ ~ (vpn sw = vpn f \/ vpn g = vpn f)).
  { intros f Hf. destruct (Hok a3 ltac:(split; [lia | auto]) f Hf) as (Hf0 & Hfal & Hne). split; [assumption|].
    intros [E|E%vpn_low_inj]; [contradiction | subst f; contradiction | assumption..]. }
  destruct (allocate_and_map_boot_info_spec m3 a3 (gr_inv _ _ _ _ _ _ G3))
    as (bf & map & m4 & a4 & E4 & Emap & Hbv & Hbf & Hbn & G4 & Hl4 & Hstored & Hown); [lia | | |].
  { intros f Hf. destruct (Hok3 f Hf) as (Hf0 & Hne). exact (low_mappable m3 f _ Hc3 Hf0 Hne). }
  { intros f a1'. apply Hfits; [apply (ms_frames pt m3), G3 | split; [lia | auto]]. }
  destruct (Hok3 bf Hbf) as (Hb0 & Hbne).
  exists fs, st1, (m2, a2), code, data, g, (m3, a3), bf, map, m4, a4. do 8 (split; [assumption|]).
  destruct (vpn_low g Hg0) as [_ Hvg]. destruct (vpn_low bf Hb0) as [_ Hvb].
  split; [|split; [|split; [split|auto 7]]].
  - eapply (grows_trans _ _ _ _ _ _ 143 4); [|eapply (grows_trans _ _ _ _ _ _ 139 4); [intros n Hn; exact Hn | exact G2 | exact G3] | exact G4].
    unfold step_vpn. tauto.
  - eapply stack_mapped_grows; [exact G4 | intros n Hn%elem_of_seqZ E; lia|].
    eapply stack_mapped_grows; [exact G3 | intros n Hn%elem_of_seqZ E; lia | exact Hst2].
  - rewrite (gr_other _ _ _ _ _ _ G4), (gr_other _ _ _ _ _ _ G3); fold sw; auto;
      change PHYSICAL_MEMORY_OFFSET with 0xa0000000000 in *; unfold in_width; lia.
  - rewrite (gr_other _ _ _ _ _ _ G4); cbn [page_address]; auto;
      change PHYSICAL_MEMORY_OFFSET with 0xa0000000000 in *; unfold in_width; lia.
  - exact Hl4.
Qed.
End Between.
End BootInformation.
End Steps.

(** ** The allocator and the page table of [start] *)

(** The frame allocator, with its memory map fixed. *)
Section Pinned.
Context `{MR : MemoryRegion D} (map : list D).
#[local] Obligation Tactic := idtac.

#[program] Definition Pinned : FrameAllocatorSpec (BumpFrameAllocator D) := {|
  fa_ok b := bump_ok b /\ memory_map b = map;
  fa_free b f := f ∈ bump_left b;
  fa_avail b := Z.of_nat (length (bump_left b));
|}.
Next Obligation.
  intros b [Hok Hm]. destruct (bump_step b Hok) as (b' & E & Hm' & Hl & Hok').
  exists (mkFrame Size4KiB <$> head (bump_left b)), b'. split; [exact E|].
  destruct (bump_left b) as [|x l] eqn:El; cbn; [reflexivity|].
  split; [split; [now apply Hok' | congruence]|]. rewrite Hl. cbn. lia.
Qed.
Next Obligation. intros b f b' [Hok _] E. exact (fa_unique b f b' Hok E). Qed.
Next Obligation. intros b r b' g [Hok _] E Hg. exact (fa_shrinks b r b' g Hok E Hg). Qed.
Next Obligation. intros b g [Hok _] Hg. exact (fa_valid b g Hok Hg). Qed.
End Pinned.

(** The root entries set aside for the physical memory window: those from
    [PHYSICAL_MEMORY_OFFSET] to the end of the lower half. *)
Definition window_entry (i : Z) : Prop := 20 <= i < 256.

Lemma window_entry_low `{BF : BitField} `{BFS : !BitFieldSpec BF} va :
  0 <= va < PHYSICAL_MEMORY_OFFSET -> ~ window_entry (l4_index va).
Proof.
  change PHYSICAL_MEMORY_OFFSET with 0xa0000000000. intros Hva. rewrite l4_index_eq by (unfold in_width; lia).
  unfold window_entry. Z.to_euclidean_division_equations; lia.
Qed.

Lemma window_entry_high `{BF : BitField} `{BFS : !BitFieldSpec BF} va :
  2 ^ 64 - 2 ^ 39 <= va < 2 ^ 64 -> ~ window_entry (l4_index va).
Proof.
  intros Hva. rewrite l4_index_eq by (unfold in_width; lia). unfold window_entry. Z.to_euclidean_division_equations; lia.
Qed.

Lemma window_entry_window `{BF : BitField} `{BFS : !BitFieldSpec BF} va :
  PHYSICAL_MEMORY_OFFSET <= va < 2 ^ 47 -> window_entry (l4_index va).
Proof.
  change PHYSICAL_MEMORY_OFFSET with 0xa0000000000. intros Hva. rewrite l4_index_eq by (unfold in_width; lia).
  unfold window_entry. Z.to_euclidean_division_equations; lia.
Qed.
