(* ===== verification/Stage4Complete.v ===== *)
(** Stage 4 from its start to the entry of the kernel: the composition of the
    steps of [Stage4Start] on the page table and the allocator of [start]. *)
From Stdlib Require Import ZArith Lia.
From stdpp Require Import base tactics numbers list sets strings.
From S2P Require Import Prelude Crates Memory Paging BumpAlloc AddressSpace.
From S2P Require Import MapperClient WindowMapper BootInfo Ports SpinLock Fmt Serial KernelLoader KernelImage KernelLoad Descriptors Processor.
From S2P Require Import InterruptStubs KernelInterrupts Stage4 Stage4Theorems KernelMain Stage4Start.
#[local] Open Scope Z_scope.

(** Physical memory is mapped one to one. *)
Abbreviation one_to_one := (mkPhysicalOffset 0).
Abbreviation window_flags := (Z.lor (flags_union (flags_union PRESENT WRITABLE) NO_EXECUTE) HUGE_PAGE).

(** ** The physical memory window *)

Section Window.
Context `{BF : BitField} `{BFS : !BitFieldSpec BF} `{FL : Bitflags} `{FLS : !BitflagsSpec FL}.
Context `{FAS : FrameAllocatorSpec A} `{UW : UartWorld W 0x3F8} (fuel : nat) (root : Z).
Implicit Types (m : mem) (a : A) (con : console W).

Definition window_log : list (list Z) :=
  [text "Mapping complete physical address space to offset: "; fmt_hex_alt PHYSICAL_MEMORY_OFFSET; newline].

Definition window_page (f : PhysicalFrame Size2MiB) : Page Size2MiB :=
  mkPage Size2MiB (PHYSICAL_MEMORY_OFFSET + frame_address f).

Lemma window_vpn2m x : 0 <= x -> x mod SIZE Size2MiB = 0 -> PHYSICAL_MEMORY_OFFSET + x < 2 ^ 47 ->
  vpn2m (PHYSICAL_MEMORY_OFFSET + x) = (PHYSICAL_MEMORY_OFFSET + x) / 2 ^ 21.
Proof.
  intros Hx _ Hlt. change PHYSICAL_MEMORY_OFFSET with 0xa0000000000 in *. unfold vpn2m, vpn.
  rewrite Z.mod_small, Z.div_div by lia. reflexivity.
Qed.

(** The root entries of the window up to an address of physical memory. *)
Definition window_up_to (max i : Z) : Prop := 20 <= i <= (PHYSICAL_MEMORY_OFFSET + max) / 2 ^ 39.

Lemma window_up_to_entry max i : PHYSICAL_MEMORY_OFFSET + max < 2 ^ 47 -> window_up_to max i -> window_entry i.
Proof. unfold window_up_to, window_entry. intros. Z.to_euclidean_division_equations; lia. Qed.

(** The frames from 0 to the one of the highest address. *)
Lemma window_frames max f : 0 <= max ->
  f ∈ frames_from Size2MiB 0 (max / 2 ^ 21 + 1) <->
  exists j, 0 <= j <= max / 2 ^ 21 /\ f = mkFrame Size2MiB (j * 2 ^ 21).
Proof.
  intros Hmax. unfold frames_from. rewrite list_elem_of_fmap. cbn [SIZE]. change 0x200000 with (2 ^ 21). split.
  - intros (j & -> & Hj%elem_of_seqZ). exists j. split; [lia | f_equal; lia].
  - intros (j & Hj & ->). exists j. split; [f_equal; lia | apply elem_of_seqZ; lia].
Qed.

(** Each of them has its page in the window. *)
Lemma window_page_facts max f : 0 <= max -> PHYSICAL_MEMORY_OFFSET + max + 2 ^ 21 < 2 ^ 47 -> f ∈ frames_from Size2MiB 0 (max / 2 ^ 21 + 1) ->
  0 <= frame_address f <= max /\ frame_address f mod 2 ^ 21 = 0 /\ in_width 64 (page_address (window_page f)) /\
  vpn2m (page_address (window_page f)) = (PHYSICAL_MEMORY_OFFSET + frame_address f) / 2 ^ 21 /\
  window_up_to max (l4_index (page_address (window_page f))) /\ window_entry (l4_index (page_address (window_page f))).
Proof.
  intros Hmax Hfit (j & Hj & ->)%window_frames; [|assumption]. unfold window_page. cbn [page_address frame_address].
  assert (Hle : j * 2 ^ 21 <= max) by (Z.to_euclidean_division_equations; lia).
  assert (Hup : window_up_to max (l4_index (PHYSICAL_MEMORY_OFFSET + j * 2 ^ 21))).
  { unfold window_up_to. change PHYSICAL_MEMORY_OFFSET with 0xa0000000000 in *. rewrite l4_index_eq by (unfold in_width; lia).
    Z.to_euclidean_division_equations; lia. }
  split; [lia|]. split; [apply Z.mod_mul; lia|]. split.
  { unfold in_width. change PHYSICAL_MEMORY_OFFSET with 0xa0000000000 in *. lia. }
  split; [apply window_vpn2m; [lia | apply Z.mod_mul; easy | lia]|]. split; [exact Hup|]. apply (window_up_to_entry max); [lia | exact Hup].
Qed.

Lemma window_pages_distinct max : 0 <= max -> PHYSICAL_MEMORY_OFFSET + max + 2 ^ 21 < 2 ^ 47 ->
  NoDup ((fun f => vpn2m (page_address (window_page f))) <$> frames_from Size2MiB 0 (max / 2 ^ 21 + 1)).
Proof.
  intros Hmax Hfit. apply NoDup_fmap_2_strong.
  - intros f g Hf Hg. destruct (window_page_facts max f Hmax Hfit Hf) as (F0 & F1 & _ & -> & _).
    destruct (window_page_facts max g Hmax Hfit Hg) as (G0 & G1 & _ & -> & _). destruct f as [f], g as [g]. cbn [frame_address] in *.
    change PHYSICAL_MEMORY_OFFSET with 0xa0000000000. intros Ev. f_equal. Z.to_euclidean_division_equations; lia.
  - unfold frames_from. apply NoDup_fmap_2_strong; [|apply NoDup_seqZ]. intros i j _ _ [= Eij]. lia.
Qed.

(** The body of the loop maps the frame at its page. *)
Lemma map_physical_frame_eq f (st : mem * A) :
  0 <= frame_address f -> frame_address f mod 2 ^ 21 = 0 -> in_width 64 (PHYSICAL_MEMORY_OFFSET + frame_address f) ->
  map_physical_frame (A := A) (OffsetPageTable_new root one_to_one) PHYSICAL_MEMORY_OFFSET f st
  = '(r, st) ← map_to (OffsetPageTable_new root one_to_one) f (window_page f) (flags_union (flags_union PRESENT WRITABLE) NO_EXECUTE) st;
    _ ← expect r;
    Ret st.
Proof.
  intros H0 H1 Hw. unfold map_physical_frame, frame_start, virt_add, uadd, window_page.
  change PHYSICAL_MEMORY_OFFSET with 0xa0000000000 in *.
  rewrite checked_ok by exact Hw. cbn [mbind outcome_bind]. rewrite page_containing_eq by exact Hw.
  cbn [mbind outcome_bind SIZE]. change 0x200000 with (2 ^ 21).
  replace ((0xa0000000000 + frame_address f) mod 2 ^ 21) with 0 by (rewrite Z.add_mod, H1 by lia; reflexivity).
  now rewrite Z.sub_0_r.
Qed.

Lemma map_physical_memory_spec m a max con :
  pt_inv one_to_one root m a -> root_reserved window_entry one_to_one root m ->
  0 <= max -> PHYSICAL_MEMORY_OFFSET + max + 2 ^ 21 < 2 ^ 47 -> max / 2 ^ 21 + 1 < Z.of_nat fuel ->
  2 * (max / 2 ^ 21 + 1) <= fa_avail a -> (polls_bound < fuel)%nat -> console_ok con ->
  exists m' a' con', map_complete_physical_memory_space_into_kernel fuel (OffsetPageTable_new root one_to_one) max
      PHYSICAL_MEMORY_OFFSET (m, a, con) = Ret (m', a', con') /\
    printed window_log con con' /\
    pt_inv one_to_one root m' a' /\ consumed (2 * (max / 2 ^ 21 + 1)) a a' /\ footprint one_to_one root m a m' a' /\
    (forall j, 0 <= j <= max / 2 ^ 21 ->
       lookup2m one_to_one root m' (mkPage Size2MiB (PHYSICAL_MEMORY_OFFSET + j * 2 ^ 21))
       = Some (mkFrame Size2MiB (j * 2 ^ 21), window_flags)) /\
    (forall p, in_width 64 (page_address p) ->
       (forall j, 0 <= j <= max / 2 ^ 21 -> vpn2m (page_address p) <> vpn2m (PHYSICAL_MEMORY_OFFSET + j * 2 ^ 21)) ->
       lookup2m one_to_one root m' p = lookup2m one_to_one root m p) /\
    (forall p, in_width 64 (page_address p) -> lookup4k one_to_one root m' p = lookup4k one_to_one root m p) /\
    kept_outside (window_up_to max) one_to_one root m m'.
Proof.
  intros Hi Hres Hmax Hfit Hfuel Hav Hpoll Hcon. set (n := max / 2 ^ 21 + 1) in *. set (fs := frames_from Size2MiB 0 n).
  assert (Hn : 0 <= n /\ (n - 1) * 2 ^ 21 = max - max mod 2 ^ 21) by (unfold n; Z.to_euclidean_division_equations; lia).
  assert (Hlen : length fs = Z.to_nat n) by (unfold fs, frames_from; now rewrite length_fmap, length_seqZ).
  pose proof (fun f => window_page_facts max f Hmax Hfit) as Hpage. fold n fs in Hpage.
  set (fl := flags_union (flags_union PRESENT WRITABLE) NO_EXECUTE).
  assert (Hfl : fl = 2 ^ 63 + 3) by (unfold fl; now rewrite !flags_union_spec).
  assert (Hw : pm_ok one_to_one) by (split; [|split]; vm_compute; congruence).
  destruct (map_window one_to_one root Hw fl) with (pg := window_page)
    (body := map_physical_frame (A := A) (OffsetPageTable_new root one_to_one) PHYSICAL_MEMORY_OFFSET) (fs := fs) (m := m) (a := a)
    as (m' & a' & E & Hi' & Hco & Hfoot & Hnew & Hother & H4 & Hk).
  - now rewrite Hfl.
  - now rewrite Hfl.
  - exact Hi.
  - apply Forall_forall. intros f Hf st. destruct (Hpage f Hf) as (H0 & H1 & H2 & _). apply map_physical_frame_eq; [lia | assumption..].
  - apply Forall_forall. intros f Hf. destruct (Hpage f Hf) as (H0 & H1 & H2 & _ & _ & H3).
    change PHYSICAL_MEMORY_OFFSET with 0xa0000000000 in Hfit.
    split; [split; [lia | Z.to_euclidean_division_equations; lia]|split; [exact H1|split; [exact H2|]]].
    now apply (reserved_unused one_to_one root window_entry m _ H2).
  - exact (window_pages_distinct max Hmax Hfit).
  - rewrite Hlen. lia.
  - destruct (println_spec fuel [text "Mapping complete physical address space to offset: "; fmt_hex_alt PHYSICAL_MEMORY_OFFSET] con
      Hpoll Hcon) as (con' & Ep & Hprint).
    exists m', a', con'. split; [|split; [exact Hprint|split; [exact Hi'|split; [|split; [exact Hfoot|split; [|split; [|split; [exact H4|]]]]]]]].
    + unfold map_complete_physical_memory_space_into_kernel. rewrite Ep, bind_Ret. change PHYSICAL_MEMORY_OFFSET with 0xa0000000000 in *.
      rewrite !frame_containing_eq by (unfold in_width; lia). cbn [mbind outcome_bind SIZE].
      change (0xa0000000000 mod 0x200000 =? 0) with true. cbn [assert_true mbind outcome_bind].
      change (0 - 0 mod 0x200000) with 0. change 0x200000 with (2 ^ 21).
      rewrite (for_loop_yields _ _ fs); [rewrite E; reflexivity | | rewrite Hlen; lia].
      replace (max - max mod 2 ^ 21) with (0 + (n - 1) * SIZE Size2MiB) by (cbn [SIZE]; lia).
      apply frame_range_yields; cbn [SIZE]; Z.to_euclidean_division_equations; lia.
    + rewrite Hlen, Z2Nat.id in Hco by lia. exact Hco.
    + intros j Hj. apply (Hnew (mkFrame Size2MiB (j * 2 ^ 21))). apply window_frames; eauto.
    + intros p Hp Hn'. apply Hother; [assumption|]. intros (f & Ef & (j & Hj & ->)%window_frames)%list_elem_of_fmap; [|assumption].
      exact (Hn' j Hj Ef).
    + apply Hk, Forall_forall. intros f Hf. apply (Hpage f Hf).
Qed.

(** What is mapped in the window has a table under the first root entry of the window. *)
Lemma window_table m p r :
  in_width 64 (page_address p) -> lookup2m one_to_one root m p = Some r ->
  exists t, walk one_to_one m root 4 [l4_index (page_address p)] = Some t.
Proof.
  intros Hp E. unfold lookup2m in E. destruct (walk one_to_one m root 4 [l4_index (page_address p)]) as [t|] eqn:Et; [eauto|].
  pose proof (entry_below_none one_to_one root m [l4_index (page_address p)] [l3_index (page_address p)]
    (l2_index (page_address p)) Et) as E0. cbn [app] in E0. unfold dir_path in E. rewrite E0 in E. discriminate.
Qed.
End Window.

(** ** From the start of stage 4 to the entry of the kernel *)

Section Start.
Context `{BF : BitField} `{BFS : !BitFieldSpec BF} `{FL : Bitflags} `{FLS : !BitflagsSpec FL}.
Context `{EBS : ElfBinarySpec B Er} (b : B).
Context (fuel : nat) (boot_info_size : Z) (store_boot_info : mem -> Z -> BootInfo -> mem).
Context (read_boot_info : mem -> Z -> BootInfo) (representable : BootInfo -> Prop).
Context (Hlo : layout_ok boot_info_size store_boot_info read_boot_info representable).
Context (stub_address : stub -> Z) (context_switch_address : Z).
Context (info : BiosInfo) (e820 : list E820MemoryRegion).
(** The allocator [start] creates. *)
Context (frames : BumpFrameAllocator E820MemoryRegion).
Context `{UW : UartWorld W 0x3F8} (display_flags : ProgramHeader -> list Z) (Hpoll : (polls_bound < fuel)%nat).

(** What stage 4 prints; the interrupt table is at [idt_address]. *)
Context (idt_address : Z).
Definition stage4_log (root : Z) : list (list Z) :=
  [text "Stage4"; newline] ++ [text "Idt addr: "; fmt_hex idt_address; newline] ++ loader_log KERNEL_VIRTUAL_BASE display_flags b ++ window_log ++
  [text "Switching to kernel entry point at "; fmt_hex_alt (KERNEL_VIRTUAL_BASE + elf_entry_point b);
   text ", kernel page table at address: "; fmt_hex_alt root; newline].

Definition stage4_frames : FrameAllocatorSpec (BumpFrameAllocator E820MemoryRegion) := Pinned (memory_map frames).
#[local] Existing Instance stage4_frames.
Definition stage4_mapper : MapperSpec (OffsetPageTable PhysicalOffset) (BumpFrameAllocator E820MemoryRegion) :=
  Reserving window_entry.
#[local] Existing Instance stage4_mapper.

Abbreviation table root := (OffsetPageTable_new root one_to_one).
Abbreviation base := KERNEL_VIRTUAL_BASE.
Abbreviation kernel_start := (pmr_start (bios_kernel info)).

(** A byte of a frame that may be handed out. *)
Definition in_free (x : Z) : Prop := exists f, fa_free frames f /\ f <= x < f + 4096.

(** A segment of the kernel: as [segment_ok], before there is a page table. *)
Record segment_fits (h : ProgramHeader) : Prop := {
  sf_file : 0 < file_size h <= mem_size h;
  sf_virt : 0 <= virtual_addr h /\ seg_start base h + mem_size h + 4096 < 2 ^ 64;
  sf_phys : 0 <= kernel_start /\ 0 <= ph_offset h /\ seg_image info h + file_size h + 4096 <= 2 ^ 48;
  sf_congruent : seg_image info h mod 4096 = seg_start base h mod 4096;
  sf_data x : seg_image info h - seg_image info h mod 4096 <= x
      < seg_image info h - seg_image info h mod 4096 + seg_file_pages base h * 4096 -> ~ in_free x;
}.

(** What stage 4 is started with: a kernel file that can be loaded, in memory that
    the allocator does not hand out; usable frames below the window, enough of
    them; a memory map that fits the page of the boot information. *)
Record stage4_ok (m : mem) (max : Z) : Prop := {
  s4_last : 0 <= last_physical_address info /\ last_physical_address info + 8192 < 2 ^ 64;
  s4_frames : bump_new_starting_at
      (mkFrame Size4KiB (last_physical_address info - last_physical_address info mod 4096 + 4096)) e820 = Ret frames;
  s4_bump : bump_ok frames;
  s4_low f : fa_free frames f -> f < PHYSICAL_MEMORY_OFFSET;
  s4_max : max_physical_address frames = Ret max /\ 0 <= max /\ PHYSICAL_MEMORY_OFFSET + max + 2 ^ 21 < 2 ^ 47;
  s4_enough : 148 + frames_needed base (elf_headers b) + 2 * (max / 2 ^ 21 + 1) <= fa_avail frames;
  s4_fuel : (33 < fuel)%nat /\ max / 2 ^ 21 + 1 < Z.of_nat fuel /\
    Forall (fun h => seg_pages base h < Z.of_nat fuel) (elf_headers b);
  s4_code : 0 <= context_switch_address < PHYSICAL_MEMORY_OFFSET /\
    ~ fa_free frames (context_switch_address - context_switch_address mod 4096);
  s4_map f : f ∈ take (Z.to_nat (145 + frames_needed base (elf_headers b))) (bump_left frames) ->
    exists map, map_fits boot_info_size representable info e820 f map;
  s4_file : elf_new (read_list m kernel_start (Z.to_nat (pmr_size (bios_kernel info)))) = Ok b;
  s4_image x : kernel_start <= x < kernel_start + pmr_size (bios_kernel info) -> ~ in_free x;
  s4_loadable : elf_loadable b;
  s4_segments : Forall segment_fits (elf_headers b);
  s4_apart : ForallOrdPairs (segments_apart base) (elf_headers b);
  s4_calls : Forall segment_call_ok (elf_segments b);
  s4_relocs : Forall (reloc_in_segment base b) (elf_relocations b);
  s4_entry : 0 <= elf_entry_point b /\ base + elf_entry_point b < 2 ^ 64;
}.

(** Where 4 KiB pages may be mapped. *)
Definition outside_window (va : Z) : Prop := ~ window_entry (l4_index va).

(** The allocator hands out its frames in order. *)
Lemma frame_in_order a f a' k n :
  bump_next frames = 0 -> fa_ok a -> Z.of_nat (length (bump_left frames)) - k <= Z.of_nat (length (bump_left a)) ->
  allocate_frame a = Ret (Some (mkFrame Size4KiB f), a') -> n = k + 1 -> f ∈ take (Z.to_nat n) (bump_left frames).
Proof.
  intros H0' [Hok Hm] Hk Ea ->. destruct (bump_step a Hok) as (a1 & E1 & _).
  pose proof (eq_trans (eq_sym E1) Ea) as E2. injection E2 as E2 _. unfold bump_left in *. rewrite H0', Hm in *.
  change (Z.to_nat 0) with 0%nat in *. rewrite drop_0 in *. set (l := usable_addrs (memory_map frames)) in *.
  rewrite head_lookup, lookup_drop, Nat.add_0_r in E2. destruct (l !! Z.to_nat (bump_next a)) as [x|] eqn:Ex; [|discriminate].
  injection E2 as ->. pose proof (lookup_lt_Some _ _ _ Ex) as Hlt. rewrite length_drop in Hk.
  apply (list_elem_of_lookup_2 _ (Z.to_nat (bump_next a))). rewrite lookup_take_lt by lia. exact Ex.
Qed.

Lemma starting_at_next m max : stage4_ok m max -> bump_next frames = 0.
Proof.
  intros Hok. pose proof (s4_frames _ _ Hok) as Ef. unfold bump_new_starting_at in Ef.
  destruct (advance_to _ e820) as [l|]; [|discriminate]. now injection Ef as <-.
Qed.

(** *** The empty page table *)

Lemma root_spec m max :
  stage4_ok m max ->
  exists root a, allocate_frame frames = Ret (Some (mkFrame Size4KiB root), a) /\
    initialize_empty_at_address m root = Ret (write_bytes m root 0 4096) /\
    valid_frame root /\ fa_free frames root /\ consumed 1 frames a /\
    ms_inv (table root) (write_bytes m root 0 4096) a /\
    (forall va, in_width 64 va -> outside_window va -> ms_plain (table root) (write_bytes m root 0 4096) va) /\
    (forall p, in_width 64 (page_address p) -> ms_lookup (table root) (write_bytes m root 0 4096) p = None) /\
    (forall x, ms_owned (table root) (write_bytes m root 0 4096) a x -> in_free x).
Proof.
  intros Hok. assert (Hfok : fa_ok frames) by (split; [apply Hok | reflexivity]).
  assert (Hneed : 0 <= frames_needed base (elf_headers b)).
  { apply frames_needed_nonneg. eapply Forall_impl; [exact (s4_segments _ _ Hok)|]. intros h [Hf _ _ _ _]. lia. }
  destruct (fa_total frames Hfok) as ([[root]|] & a & E & Hr).
  2: { pose proof (s4_enough _ _ Hok). destruct (s4_max _ _ Hok) as (_ & Hm & _). pose proof (Z.div_pos max (2 ^ 21)). lia. }
  destruct Hr as [Hoka Hav]. destruct (fa_unique _ _ _ Hfok E) as [Hfree Hnf]. cbn [frame_address] in *.
  pose proof (fa_valid _ _ Hfok Hfree) as Hv. pose proof Hv as [Hv0 Hv1].
  set (m0 := write_bytes m root 0 4096).
  assert (Hz : forall i, idx_ok i -> load64 m0 (root + 8 * i) = 0).
  { unfold idx_ok. intros i Hi. apply load64_write_zero; lia. }
  destruct (empty_lookup one_to_one root m0 Hz) as (L4 & _ & Lh).
  assert (Hc : consumed 1 frames a) by (split; [lia | intros g; eapply fa_shrinks; eauto]).
  exists root, a. split; [exact E|]. split.
  { unfold initialize_empty_at_address. change PageTable_SIZE with 4096. now rewrite Hv1. }
  do 3 (split; [assumption|]). split; [|split; [|split]].
  - split; [split; [|split]; vm_compute; congruence|]. split.
    + apply (empty_inv one_to_one root m0 a root); try assumption. cbn. lia.
    + intros i Hi _. exact (Hz i Hi).
  - intros va Hva Ho. split; [now apply Lh | exact Ho].
  - exact L4.
  - intros x [(q & t & Hq & Ht & Hx)|(f & Hf & Hx)].
    + apply empty_walk_nil in Ht as [_ ->]; [|assumption..]. exists root. auto.
    + exists f. split; [now apply Hc|]. exact Hx.
Qed.

Lemma one_to_one_frames root f : valid_frame f ->
  ms_frame_va (A := BumpFrameAllocator E820MemoryRegion) (table root) f = f.
Proof. intros _. cbn. lia. Qed.

(** *** The kernel *)

(** The pages of the kernel image. *)
Definition kernel_vpn (n : Z) : Prop :=
  exists h j, h ∈ elf_headers b /\ 0 <= j < seg_pages base h /\ n = vpn (page_address (nth_page (seg_base base h) j)).

Lemma segment_page_high h j : segment_fits h -> 0 <= j < seg_pages base h ->
  base <= page_address (nth_page (seg_base base h) j) < 2 ^ 64.
Proof.
  intros [Hf (Hv & Hs) _ _ _] Hj. cbn [nth_page page_address]. unfold seg_base, seg_pages, seg_start in *.
  change base with 0xffffffff80000000 in *. Z.to_euclidean_division_equations; lia.
Qed.

Lemma vpn_high va : base <= va < 2 ^ 64 -> vpn base <= vpn va.
Proof.
  change base with 0xffffffff80000000. intros Hva. change (vpn 0xffffffff80000000) with 0xffff80000 in *. unfold vpn.
  Z.to_euclidean_division_equations; lia.
Qed.

Lemma kernel_vpn_high n : Forall segment_fits (elf_headers b) -> kernel_vpn n -> vpn base <= n.
Proof.
  intros Hs (h & j & Hh & Hj & ->). rewrite Forall_forall in Hs. now apply vpn_high, segment_page_high; auto.
Qed.

Lemma segment_ready root m a h :
  segment_fits h ->
  (forall va, in_width 64 va -> outside_window va -> ms_plain (table root) m va) ->
  (forall p, in_width 64 (page_address p) -> ms_lookup (table root) m p = None) ->
  (forall x, ms_owned (table root) m a x -> in_free x) ->
  segment_ok (table root) base info h m a.
Proof.
  intros Hfit Hpl Hl Ho. pose proof Hfit as [Hf (Hv & Hs) Hp Hc Hd]. unfold seg_start in Hs.
  change base with 0xffffffff80000000 in *.
  split; [assumption | unfold seg_start; lia | lia | assumption | assumption | intros x Hx Hx'; apply (Hd x Hx), Ho, Hx' |].
  intros j Hj. pose proof (segment_page_high h j Hfit Hj) as Hr. change base with 0xffffffff80000000 in Hr.
  assert (Hw : in_width 64 (page_address (nth_page (seg_base 0xffffffff80000000 h) j))) by (unfold in_width; lia).
  split; [exact Hw|]. split; [|now apply Hl]. apply Hpl; [exact Hw|]. apply window_entry_high. lia.
Qed.

Lemma kernel_loaded_image root m0 m0' m a :
  (forall h i, h ∈ elf_headers b -> 0 <= i < file_size h -> m0' (seg_image info h + i) = m0 (seg_image info h + i)) ->
  kernel_loaded (table root) base info b m0' m a -> kernel_loaded (table root) base info b m0 m a.
Proof.
  intros Himg [Hb Hr]. split; [|exact Hr]. intros h i Hh Hi. destruct (Hb h i Hh Hi) as (f & fl & Hl & Hfl & Ho & Hv).
  exists f, fl. do 3 (split; [assumption|]). intros Hn. rewrite (Hv Hn).
  destruct (Z.ltb_spec i (file_size h)); [|reflexivity]. unfold load8. now rewrite Himg by (assumption || lia).
Qed.

(** The kernel is loaded into the empty table. *)
Lemma kernel_step m max (con : console W) :
  stage4_ok m max -> console_ok con ->
  exists root a0 m1 a1 con1, allocate_frame frames = Ret (Some (mkFrame Size4KiB root), a0) /\
    initialize_empty_at_address m root = Ret (write_bytes m root 0 4096) /\ valid_frame root /\ fa_free frames root /\
    load_kernel fuel base info (table root) display_flags (write_bytes m root 0 4096, a0, con)
      = Ret (base + elf_entry_point b, (m1, a1, con1)) /\ printed (loader_log base display_flags b) con con1 /\
    ms_inv (table root) m1 a1 /\ consumed (1 + frames_needed base (elf_headers b)) frames a1 /\
    kernel_loaded (table root) base info b m m1 a1 /\
    (forall va, in_width 64 va -> outside_window va -> ms_plain (table root) m1 va) /\
    (forall p, in_width 64 (page_address p) -> ~ kernel_vpn (vpn (page_address p)) -> ms_lookup (table root) m1 p = None) /\
    (forall x, ~ in_free x -> ~ ms_owned (table root) m1 a1 x).
Proof.
  intros Hok Hcon. destruct (root_spec m max Hok) as (root & a0 & E & Einit & Hroot & Hfree & Hc & Hi & Hpl & Hl & Ho).
  set (m0 := write_bytes m root 0 4096) in *. pose proof (proj1 Hc) as Hav. pose proof (s4_segments _ _ Hok) as Hsegs.
  assert (Hsame : forall x, ~ in_free x -> m0 x = m x).
  { intros x Hx. apply write_bytes_outside. destruct (decide (root <= x < root + 4096)) as [Hin|]; [|lia].
    destruct Hx. exists root. auto. }
  destruct (load_kernel_spec (table root) (one_to_one_frames root) fuel base info display_flags b m0 a0 con)
    as (m1 & a1 & con1 & El & Hprint & Hi1 & Hc1 & Hk & Hpl1 & Hfree1 & Hother).
  - destruct (s4_fuel _ _ Hok) as (Hf1 & _ & Hf2). split; try apply Hok; try assumption.
    + rewrite <- (s4_file _ _ Hok). apply f_equal, read_list_agree. intros y Hy. apply Hsame.
      destruct (Z.lt_ge_cases 0 (pmr_size (bios_kernel info))); [apply (s4_image _ _ Hok)|]; lia.
    + eapply Forall_impl; [exact Hsegs|]. intros h Hh. now apply segment_ready.
    + split; [lia | exact Hf2].
    + split; [vm_compute; discriminate | apply Hok].
  - exact Hi.
  - pose proof (s4_enough _ _ Hok). destruct (s4_max _ _ Hok) as (_ & Hm & _). pose proof (Z.div_pos max (2 ^ 21)). lia.
  - exact Hpoll.
  - exact Hcon.
  - exists root, a0, m1, a1, con1. split; [exact E|]. split; [exact Einit|]. split; [exact Hroot|]. split; [exact Hfree|]. split; [exact El|].
    split; [exact Hprint|].
    split; [exact Hi1|]. split; [eapply consumed_trans; eauto|]. split; [|split; [auto|split]].
    + eapply kernel_loaded_image; [|exact Hk]. intros h i Hh Hi'. apply Hsame.
      rewrite Forall_forall in Hsegs. destruct (Hsegs h Hh) as [Hf _ Hp _ Hd]. apply Hd.
      unfold seg_file_pages. pose proof (sf_congruent _ (Hsegs h Hh)). Z.to_euclidean_division_equations; lia.
    + intros p Hp Hn. rewrite Hother, Hl; [reflexivity | assumption | assumption |].
      intros h j Hh Hj Eq. apply Hn. exists h, j. auto.
    + intros x Hx. apply Hfree1. intros Hox. now apply Hx, Ho.
Qed.

(** A loaded kernel stays loaded while its pages stay mapped. *)
Lemma kernel_loaded_keep root m0 m a m' a' :
  Forall segment_fits (elf_headers b) -> Forall (reloc_in_segment base b) (elf_relocations b) ->
  keeps (table root) m a m' a' ->
  (forall p, in_width 64 (page_address p) -> kernel_vpn (vpn (page_address p)) ->
     ms_lookup (table root) m' p = ms_lookup (table root) m p) ->
  kernel_loaded (table root) base info b m0 m a -> kernel_loaded (table root) base info b m0 m' a'.
Proof.
  intros Hsegs Hrels Hk Hl [Hb Hr]. rewrite Forall_forall in Hsegs. rewrite Forall_forall in Hrels.
  assert (Hpage : forall h i, h ∈ elf_headers b -> 0 <= i < mem_size h ->
    ms_lookup (table root) m' (page_of (seg_start base h + i)) = ms_lookup (table root) m (page_of (seg_start base h + i))).
  { intros h i Hh Hi. pose proof (Hsegs h Hh) as Hfit. pose proof Hfit as [Hf (Hv & Hs) _ _ _]. unfold seg_start in Hs.
    destruct (seg_page_of base h i Hf) as (j & Hj & ->); [change base with 0xffffffff80000000 in Hs; lia | lia |].
    pose proof (segment_page_high h j Hfit Hj) as Hr'. change base with 0xffffffff80000000 in Hr' at 1.
    apply Hl; [unfold in_width; lia | exists h, j; auto]. }
  assert (Hpl : forall r x, r ∈ elf_relocations b ->
    reloc_place (table root) base m' r x <-> reloc_place (table root) base m r x).
  { intros r x Hin. split; intros (i & f & fl & Hi & Hlk & ->); exists i, f, fl; (split; [assumption|]);
      destruct (reloc_in_byte base b r i (Hrels r Hin)) as (h & k & Hh & Hk' & Eq); try lia;
      rewrite Eq in *; rewrite Hpage in * by assumption; auto. }
  split.
  - intros h i Hh Hi. destruct (Hb h i Hh Hi) as (f & fl & Hlk & Hfl & Ho & Hv). destruct (Hk _ Ho) as [Em Ho'].
    exists f, fl. rewrite Hpage by assumption. do 3 (split; [assumption|]). intros Hn. unfold load8 in *. rewrite Em.
    apply Hv. intros r Hin. rewrite <- Hpl by assumption. auto.
  - intros rs1 r rs2 Ers Hap. assert (Hin : forall q, q ∈ r :: rs2 -> q ∈ elf_relocations b).
    { intros q Hq. rewrite Ers. apply elem_of_app. now right. }
    assert (Hold : reloc_applied (table root) base m a r).
    { apply (Hr rs1 r rs2 Ers). rewrite Forall_forall in *. intros r' Hr' x Hx1 Hx2.
      apply (Hap r' Hr' x); apply Hpl; auto; apply Hin; [left | now right]. }
    intros d i Hd Hi. destruct (Hold d i Hd Hi) as (fl & Hrd). exists fl. eapply reads_keep; [exact Hk | | exact Hrd].
    destruct (reloc_in_byte base b r i (Hrels r (Hin r (list_elem_of_here _ _)))) as (h & k & Hh & Hk' & ->); [lia|].
    now apply Hpage.
Qed.

(** *** The whole stage *)

(** The most frames stage 4 takes. *)
Definition frames_used max : Z := 148 + frames_needed base (elf_headers b) + 2 * (max / 2 ^ 21 + 1).

(** The address space handed to the kernel, in memory [m'], for the memory [m]
    stage 4 was started in: the kernel, its stack on the frames [fs], the page of
    the switch function, the descriptor table in the frame [g] and the boot
    information in [bf]; physical memory up to [max] in the window; nothing else.
    The table of the window is in a frame taken after the one of the boot information.
    The tables are well formed and in frames of the allocator; the root entries behind
    those of the window are unused. *)
Record kernel_space root m m' a fs g bf max : Prop := {
  ks_root : fa_free frames root;
  ks_kernel : kernel_loaded (table root) base info b m m' a;
  ks_stack : stack_mapped (table root) fs m';
  ks_boot : boot_pages (table root) context_switch_address g bf m';
  ks_none p : in_width 64 (page_address p) -> ~ kernel_vpn (vpn (page_address p)) ->
    ~ step_vpn context_switch_address g bf (vpn (page_address p)) -> lookup4k one_to_one root m' p = None;
  ks_window j : 0 <= j <= max / 2 ^ 21 ->
    lookup2m one_to_one root m' (mkPage Size2MiB (PHYSICAL_MEMORY_OFFSET + j * 2 ^ 21))
    = Some (mkFrame Size2MiB (j * 2 ^ 21), window_flags);
  ks_no_other p : in_width 64 (page_address p) ->
    (forall j, 0 <= j <= max / 2 ^ 21 -> vpn2m (page_address p) <> vpn2m (PHYSICAL_MEMORY_OFFSET + j * 2 ^ 21)) ->
    lookup2m one_to_one root m' p = None;
  ks_window_table : exists t (i j : nat), walk one_to_one m' root 4 [20] = Some t /\
    bump_left frames !! i = Some bf /\ bump_left frames !! j = Some t /\
    (i < j)%nat /\ Z.of_nat j < frames_used max;
  ks_tables : pt_inv one_to_one root m' a;
  ks_owned x : ~ in_free x -> ~ owned one_to_one root m' a x;
  ks_taken : fa_avail frames - frames_used max <= fa_avail a;
  ks_unused i : (PHYSICAL_MEMORY_OFFSET + max) / 2 ^ 39 < i < 256 -> entry_at one_to_one m' root [] i = 0;
}.

Lemma space_inv root m a : ms_inv (table root) m a -> pt_inv one_to_one root m a /\ root_reserved window_entry one_to_one root m.
Proof. now intros (_ & Hi & Hr). Qed.

(** No huge page is mapped before the window is. *)
Lemma no_huge root m a p :
  ms_inv (table root) m a -> (forall va, in_width 64 va -> outside_window va -> ms_plain (table root) m va) ->
  in_width 64 (page_address p) -> lookup2m one_to_one root m p = None.
Proof.
  intros [_ Hr]%space_inv Hpl Hp.
  assert (Hn : not_huge one_to_one root m (page_address p)).
  { destruct (decide (20 <= l4_index (page_address p) < 256)) as [Hw|Hw].
    - now apply (reserved_unused one_to_one root window_entry).
    - now apply (Hpl (page_address p)). }
  unfold lookup2m. unfold not_huge in Hn. now rewrite Hn, andb_false_r.
Qed.

(** A frame that is no longer free comes before one that still is. *)
Lemma taken_before a a' f g k :
  bump_next frames = 0 -> memory_map a = memory_map frames -> memory_map a' = memory_map frames ->
  fa_free frames f -> ~ fa_free a f -> fa_free a g -> ~ fa_free a' g -> fa_avail frames - k <= fa_avail a' ->
  exists i j : nat, bump_left frames !! i = Some f /\ bump_left frames !! j = Some g /\ (i < j)%nat /\ Z.of_nat j < k.
Proof.
  cbn [fa_free fa_avail stage4_frames Pinned]. unfold bump_left. intros -> -> ->. change (Z.to_nat 0) with 0%nat. rewrite drop_0.
  set (l := usable_addrs (memory_map frames)). set (n := Z.to_nat (bump_next a)). set (n' := Z.to_nat (bump_next a')).
  intros [i Ei]%list_elem_of_lookup_1 Hf [j Ej]%list_elem_of_lookup_1 Hg Hk.
  rewrite lookup_drop in Ej. exists i, (n + j)%nat. split; [exact Ei|]. split; [exact Ej|].
  assert (Hout : forall u x, l !! u = Some x -> forall v, ~ x ∈ drop v l -> (u < v)%nat).
  { intros u x Eu v Hn. destruct (Nat.lt_ge_cases u v) as [|Hge]; [assumption|]. destruct Hn.
    apply (list_elem_of_lookup_2 _ (u - v)). rewrite lookup_drop. now replace (v + (u - v))%nat with u by lia. }
  pose proof (Hout _ _ Ei n Hf). pose proof (Hout _ _ Ej n' Hg). pose proof (lookup_lt_Some _ _ _ Ej).
  rewrite length_drop in Hk. lia.
Qed.

(** The table of the window is in a frame taken after [f]. *)
Lemma window_table_last root m5 (a5 : BumpFrameAllocator E820MemoryRegion) m' (a' : BumpFrameAllocator E820MemoryRegion) f max :
  bump_next frames = 0 -> pt_inv one_to_one root m5 a5 -> root_reserved window_entry one_to_one root m5 ->
  pt_inv one_to_one root m' a' -> footprint one_to_one root m5 a5 m' a' -> kept_outside window_entry one_to_one root m5 m' ->
  fa_free frames f -> ~ fa_free a5 f -> fa_avail frames - frames_used max <= fa_avail a' ->
  lookup2m one_to_one root m' (mkPage Size2MiB (PHYSICAL_MEMORY_OFFSET + 0 * 2 ^ 21)) <> None ->
  exists t (i j : nat), walk one_to_one m' root 4 [20] = Some t /\ bump_left frames !! i = Some f /\ bump_left frames !! j = Some t /\
    (i < j)%nat /\ Z.of_nat j < frames_used max.
Proof.
  intros H0' Hi Hr Hi' Hfoot Hk Hf Hn Hav Hl. change PHYSICAL_MEMORY_OFFSET with 0xa0000000000 in *.
  destruct (lookup2m _ _ _ _) as [r|] eqn:El; [clear Hl|easy].
  assert (Hw : pm_ok one_to_one) by (split; [|split]; vm_compute; congruence).
  destruct (fun Hp => window_table root m' _ r Hp El) as [t Ht]; [split; vm_compute; congruence|].
  assert (E20 : l4_index (page_address (mkPage Size2MiB (0xa0000000000 + 0 * 2 ^ 21))) = 20).
  { rewrite l4_index_eq by (split; vm_compute; congruence). reflexivity. }
  rewrite E20 in Ht.
  destruct (new_root_table window_entry one_to_one root m5 a5 m' a' 20 t) as (g & Hg & -> & Hfree); try assumption;
    [exact (fun g => decide (g ∈ bump_left a5)) | unfold idx_ok; lia | unfold window_entry; lia|].
  change (frame_va one_to_one g) with g in *.
  assert (Htaken : ~ fa_free a' g).
  { destruct (inv_tables one_to_one root m' a' Hi' [20] g) as (g' & _ & -> & Hn'); [|assumption | exact Hn'].
    split; [apply Forall_singleton; unfold idx_ok; lia | cbn; lia]. }
  destruct (taken_before a5 a' f g (frames_used max)) as (i & j & Hij); try assumption;
    [apply (inv_alloc _ _ _ _ Hi) | apply (inv_alloc _ _ _ _ Hi')|].
  exists g, i, j. auto.
Qed.

(** Root entries of the window behind all of physical memory stay unused. *)
Lemma window_rest_unused max root m m' i :
  root_reserved window_entry one_to_one root m -> kept_outside (window_up_to max) one_to_one root m m' ->
  0 <= max -> (PHYSICAL_MEMORY_OFFSET + max) / 2 ^ 39 < i < 256 -> entry_at one_to_one m' root [] i = 0.
Proof.
  intros Hres Hkept Hmax Hi. change PHYSICAL_MEMORY_OFFSET with 0xa0000000000 in Hi.
  assert (Hio : idx_ok i /\ window_entry i) by (unfold idx_ok, window_entry; Z.to_euclidean_division_equations; lia).
  rewrite (kept_entry _ _ _ _ _ i Hkept) by (apply Hio || (unfold window_up_to; change PHYSICAL_MEMORY_OFFSET with 0xa0000000000; lia)).
  apply Hres; apply Hio.
Qed.

(** The address space after all steps. *)
Lemma kernel_space_built c m max (con : console W) :
  stage4_ok m max -> console_ok con ->
  exists root a0 st1 st2 st3 st4 fs code data g bf map m5 a5 m' a' con1 con2,
    allocate_frame frames = Ret (Some (mkFrame Size4KiB root), a0) /\
    initialize_empty_at_address m root = Ret (write_bytes m root 0 4096) /\ valid_frame root /\
    load_kernel fuel base info (table root) display_flags (write_bytes m root 0 4096, a0, con)
      = Ret (base + elf_entry_point b, (st1, con1)) /\
    allocate_and_map_stack fuel (table root) st1 = Ret (KERNEL_STACK_TOP, st2) /\
    identity_map_context_switch_function (table root) context_switch_address st2 = Ret st3 /\
    initialize_and_map_gdt (table root) c st3 = Ret (set_gdt c [0; code; data], st4) /\ Z.testbit code 53 = true /\
    allocate_and_map_boot_info (table root) boot_info_size store_boot_info info e820 st4 = Ret (bf, (m5, a5)) /\
    build_memory_map e820 (mkFrame Size4KiB bf) = Ret map /\
    max_physical_address a5 = Ret max /\
    map_complete_physical_memory_space_into_kernel fuel (table root) max PHYSICAL_MEMORY_OFFSET (m5, a5, con1)
      = Ret (m', a', con2) /\
    printed (loader_log base display_flags b ++ window_log) con con2 /\
    kernel_space root m m' a' fs g bf max /\ boot_info_stored boot_info_size read_boot_info info m' bf map.
Proof.
  intros Hok Hcon. destruct (kernel_step m max con Hok Hcon) as (root & a0 & m1 & a1 & con1 & E0 & Ei & Hroot & Hrfree & E1 & Hprint1 & Hi1 & [Hav1 Hsh1] & Hk1 & Hpl1 & Hl1 & Hfree1).
  destruct (s4_fuel _ _ Hok) as (Hf1 & Hf2 & _). destruct (s4_code _ _ Hok) as (Hcs & Hncs).
  destruct (s4_max _ _ Hok) as (Emax & Hmax & Hwin). pose proof (s4_enough _ _ Hok) as Henough.
  assert (Hq : 0 <= max / 2 ^ 21) by (apply Z.div_pos; lia). pose proof (s4_segments _ _ Hok) as Hsegs.
  destruct (between_spec (table root) (one_to_one_frames root) boot_info_size store_boot_info read_boot_info representable
      Hlo info e820 outside_window kernel_vpn fuel context_switch_address (fun n => kernel_vpn_high n Hsegs)
      window_entry_low window_entry_high Hf1 Hcs c m1 a1 Hi1)
    as (fs & st2 & st3 & code & data & g & st4 & bf & map & m5 & a5 & E2 & E3 & E4 & E5 & Emap & Hcode & Hg & Hbf & G & Hst & Hbp & Hbi & Hbo & Hbfree & Hbtaken).
  { intros q Hw Ho Hn. split; [assumption|]. split; [now apply Hpl1 | now apply Hl1]. }
  { lia. }
  { intros Hf%Hsh1. contradiction. }
  { intros f Hf%Hsh1. now apply (s4_low _ _ Hok). }
  { intros a2 f a3 Hf2' [Hav2 _] E'. apply (s4_map _ _ Hok). apply (frame_in_order a2 f a3 (144 + frames_needed base (elf_headers b)));
      [now apply (starting_at_next m max) | exact Hf2' | | exact E' | lia].
    change (fa_avail frames - (144 + frames_needed base (elf_headers b)) <= fa_avail a2). lia. }
  pose proof (gr_consumed _ _ _ _ _ _ _ G) as [Hav5 Hsh5]. pose proof (gr_inv _ _ _ _ _ _ _ G) as Hi5.
  assert (Hpl5 : forall va, in_width 64 va -> outside_window va -> ms_plain (table root) m5 va).
  { intros va Hva Ho. apply (gr_plain _ _ _ _ _ _ _ G); auto. }
  destruct (space_inv root m5 a5 Hi5) as [Hpt5 Hres5].
  destruct (map_physical_memory_spec fuel root m5 a5 max con1 Hpt5 Hres5 Hmax Hwin Hf2 ltac:(lia) Hpoll (proj1 Hprint1))
    as (m' & a' & con2 & E6 & Hprint2 & Hpt' & Hco' & Hfoot & Hwdw & Hnw & H4k & Hkept).
  pose proof (fun i => window_up_to_entry max i ltac:(lia)) as Hup.
  assert (Hav' : fa_avail frames - frames_used max <= fa_avail a') by (unfold frames_used; destruct Hco' as [Hco' _]; lia).
  assert (Hmap5 : memory_map a5 = memory_map frames) by apply (inv_alloc _ _ _ _ Hpt5).
  exists root, a0, (m1, a1), st2, st3, st4, fs, code, data, g, bf, map, m5, a5, m', a', con1, con2.
  do 10 (split; [assumption|]). split; [unfold max_physical_address in *; now rewrite Hmap5|]. split; [exact E6|].
  split; [exact (printed_trans _ _ _ _ _ Hprint1 Hprint2)|].
  assert (Hlk : forall p, in_width 64 (page_address p) -> ms_lookup (table root) m' p = ms_lookup (table root) m5 p) by exact H4k.
  split; [split|].
  - exact Hrfree.
  - apply (kernel_loaded_keep root m m1 a1); [assumption | apply Hok | | | exact Hk1].
    + eapply keeps_trans; [apply G | exact Hfoot].
    + intros p Hp Hkv%kernel_vpn_high; [|assumption]. rewrite Hlk by assumption. apply (gr_other _ _ _ _ _ _ _ G); [assumption|].
      pose proof zones as [Z1 Z2]. destruct (vpn_low g Hg) as [_ Hvg]. destruct (vpn_low bf Hbf) as [_ Hvb].
      destruct (vpn_low _ (switch_page_low context_switch_address Hcs)) as [_ Hvs].
      intros [Hs%elem_of_seqZ|[Hs|[Hs|Hs]]]; lia.
  - apply (stack_mapped_same (table root) fs m5); [|exact Hst]. intros p (Hp & _ & _)%stack_page_vpn. now apply Hlk.
  - destruct Hbp as [B1 B2 B3]. pose proof (switch_page_low context_switch_address Hcs) as Hsw.
    change PHYSICAL_MEMORY_OFFSET with 0xa0000000000 in *.
    split; rewrite Hlk; try assumption; cbn [page_address]; unfold in_width; lia.
  - intros p Hp Hn1 Hn2. rewrite H4k by assumption. rewrite <- (Hl1 p Hp Hn1). now apply (gr_other _ _ _ _ _ _ _ G).
  - exact Hwdw.
  - intros p Hp Hn. rewrite Hnw by assumption. eapply no_huge; eauto.
  - apply (window_table_last root m5 a5 m' a' bf max); try assumption; [now apply (starting_at_next m max) | | now apply Hsh1 |].
    + exact (kept_outside_weaken _ _ _ _ _ _ Hup Hkept).
    + rewrite (Hwdw 0) by lia. discriminate.
  - assumption.
  - intros x Hx. apply Hfoot, (gr_keeps _ _ _ _ _ _ _ G). auto.
  - assumption.
  - intros i Hi. exact (window_rest_unused max root m5 m' i Hres5 Hkept Hmax Hi).
  - eapply boot_info_stored_keep; [exact Hlo | | exact Hbi]. intros x Hx. apply Hfoot, Hbo, Hx.
Qed.

Lemma next_free_frame : 0 <= last_physical_address info -> last_physical_address info + 8192 < 2 ^ 64 ->
  (f ← frame_containing_address Size4KiB (last_physical_address info); frame_add f 1)
  = Ret (mkFrame Size4KiB (last_physical_address info - last_physical_address info mod 4096 + 4096)).
Proof.
  intros H0' H1'. set (l := last_physical_address info) in *. pose proof (Z.mod_pos_bound l 4096 ltac:(lia)).
  pose proof (Z.mod_le l 4096 H0' ltac:(lia)).
  rewrite frame_containing_eq by (unfold in_width; lia). cbn [mbind outcome_bind SIZE]. unfold frame_add, phys_add, uadd.
  change (umul 64 1 (SIZE Size4KiB)) with (Ret 4096 : outcome Z). cbn [mbind outcome_bind frame_address].
  change 0x1000 with 4096. rewrite checked_ok by lia. cbn [mbind outcome_bind].
  rewrite frame_containing_eq by (unfold in_width; lia). cbn [SIZE]. change 0x1000 with 4096.
  replace ((l - l mod 4096 + 4096) mod 4096) with 0 by (Z.to_euclidean_division_equations; lia). now rewrite Z.sub_0_r.
Qed.

(** What [start] leaves in the processor. *)
Lemma switched_cpu c root l :
  let c' := (context_switch root KERNEL_STACK_TOP 0 0 (set_gdt (enable_write_protect_bit (enable_nxe_bit c)) l)).1 in
  cpu_cr3 c' = root /\ cpu_gdt c' = l /\
  Efer_read_raw c' = Z.lor (Z.land (Efer_read_raw c) EferFlags_all) EFER_NO_EXECUTE_ENABLE /\
  cpu_cr0 c' = Z.lor (Z.land (cpu_cr0 c) Cr0Flags_all) CR0_WRITE_PROTECT.
Proof.
  split; [reflexivity|]. split; [reflexivity|]. split.
  - change (Efer_read_raw (enable_nxe_bit c) = Z.lor (Z.land (Efer_read_raw c) EferFlags_all) EFER_NO_EXECUTE_ENABLE).
    unfold enable_nxe_bit. rewrite Efer_update_spec; [apply flags_union_spec|]. rewrite flags_union_spec.
    assert (0 <= Z.land (Efer_read_raw c) EferFlags_all < 2 ^ 16).
    { split; [apply Z.land_nonneg; right; vm_compute; discriminate|].
      replace EferFlags_all with (Z.land EferFlags_all (Z.ones 16)) by reflexivity.
      rewrite Z.land_assoc, Z.land_ones by lia. apply Z.mod_pos_bound. lia. }
    apply lor_bound; [lia | lia | split; [discriminate | reflexivity]].
  - cbn. unfold enable_write_protect_bit, Cr0_update, Cr0_write, Cr0_write_raw, Cr0_read. cbn.
    now rewrite flags_union_spec, flags_from_bits_truncate_spec.
Qed.

(** The run of [start]. *)
Lemma start_run c m max (con : console W) :
  stage4_ok m max -> console_ok con ->
  exists c' idt root fs g bf map m' a' code data con',
    start fuel display_flags boot_info_size store_boot_info stub_address idt_address context_switch_address info e820 c m con
      = Ret ((c', mkEntered (base + elf_entry_point b) (KERNEL_STACK_TOP - 8) bf), idt, (m', a'), con') /\
    printed (stage4_log root) con con' /\
    cpu_cr3 c' = root /\ cpu_gdt c' = [0; code; data] /\ Z.testbit code 53 = true /\
    Efer_read_raw c' = Z.lor (Z.land (Efer_read_raw c) EferFlags_all) EFER_NO_EXECUTE_ENABLE /\
    cpu_cr0 c' = Z.lor (Z.land (cpu_cr0 c) Cr0Flags_all) CR0_WRITE_PROTECT /\
    stage4_idt stub_address (CS_read c) = Ret idt /\ build_memory_map e820 (mkFrame Size4KiB bf) = Ret map /\
    kernel_space root m m' a' fs g bf max /\ boot_info_stored boot_info_size read_boot_info info m' bf map.
Proof.
  intros Hok Hcon. set (c1 := enable_write_protect_bit (enable_nxe_bit c)).
  destruct (println_spec fuel [text "Stage4"] con Hpoll Hcon) as (con0 & Ep & Hprint0).
  destruct (println_spec fuel [text "Idt addr: "; fmt_hex idt_address] con0 Hpoll (proj1 Hprint0)) as (con0' & Ep' & Hprint0').
  destruct (kernel_space_built c1 m max con0' Hok (proj1 Hprint0')) as (root & a0 & st1 & st2 & st3 & st4 & fs & code & data & g & bf & map &
    m5 & a5 & m' & a' & con1 & con2 & E0 & Ei & Hroot & E1 & E2 & E3 & E4 & Hcode & E5 & Emap & Emax & E6 & Hprint2 & Hspace & Hboot).
  destruct (println_spec fuel [text "Switching to kernel entry point at "; fmt_hex_alt (base + elf_entry_point b);
    text ", kernel page table at address: "; fmt_hex_alt root] con2 Hpoll (proj1 Hprint2)) as (con3 & Ep3 & Hprint3).
  destruct (switched_cpu c root [0; code; data]) as (P1 & P2 & P3 & P4).
  destruct (s4_last _ _ Hok) as [Hl0 Hl1]. pose proof (next_free_frame Hl0 Hl1) as En.
  exists (context_switch root KERNEL_STACK_TOP 0 0 (set_gdt c1 [0; code; data])).1.
  eexists. exists root, fs, g, bf, map, m', a', code, data, con3.
  split; [|split; [|split; [exact P1|split; [exact P2|split; [exact Hcode|split; [exact P3|split; [exact P4|split; [apply stage4_idt_spec|auto]]]]]]]].
  2: { pose proof (printed_trans _ _ _ _ _ Hprint0 (printed_trans _ _ _ _ _ Hprint0'
         (printed_trans _ _ _ _ _ Hprint2 Hprint3))) as Hprint.
       unfold stage4_log. rewrite <- !app_assoc in Hprint. exact Hprint. }
  unfold start, stage4_interrupts_init, InterruptDescriptorTable_load.
  rewrite Ep, bind_Ret. rewrite stage4_idt_spec, bind_Ret, Ep', !bind_Ret. fold c1.
  destruct (frame_containing_address Size4KiB (last_physical_address info)) as [f|]; [|discriminate].
  cbn [mbind outcome_bind] in *. rewrite En. cbn [mbind outcome_bind]. rewrite (s4_frames _ _ Hok). cbn [mbind outcome_bind].
  rewrite E0. cbn [mbind outcome_bind unwrap frame_start frame_address]. rewrite Ei. cbn [mbind outcome_bind].
  rewrite E1, bind_Ret. rewrite E2. cbn [mbind outcome_bind]. rewrite E3. cbn [mbind outcome_bind].
  rewrite E4. cbn [mbind outcome_bind]. rewrite E5. cbn [mbind outcome_bind snd]. rewrite Emax. cbn [mbind outcome_bind].
  rewrite E6, bind_Ret. rewrite Ep3, bind_Ret. reflexivity.
Qed.

(** C3: stage 4 brings the kernel up.  From a loadable kernel file and a memory map
    with enough usable frames it enters the kernel's entry point with the new page
    table in [cr3], no-execute and write protection on, a 64-bit code segment
    in the new descriptor table, the stack pointer one word below the stack top and the
    boot information in [rdi].  In that address space the kernel is loaded and
    relocated, its stack and guard page are set up, the page executing the switch,
    the descriptor table and the boot information are mapped at their own
    addresses, all of physical memory is in the window, and nothing else is
    mapped; the table of the window is in a frame taken after the one of the boot
    information; the boot information reads back as the kernel file, the framebuffer
    and the memory map built from the firmware's; the messages are on the serial line. *)
Theorem stage4_start_correct c m max (con : console W) :
  stage4_ok m max -> console_ok con ->
  exists c' idt root fs g bf map m' a' code data con',
    start fuel display_flags boot_info_size store_boot_info stub_address idt_address context_switch_address info e820 c m con
      = Ret ((c', mkEntered (base + elf_entry_point b) (KERNEL_STACK_TOP - 8) bf), idt, (m', a'), con') /\
    printed (stage4_log root) con con' /\
    cpu_cr3 c' = root /\ cpu_gdt c' = [0; code; data] /\ Z.testbit code 53 = true /\
    Efer_read_raw c' = Z.lor (Z.land (Efer_read_raw c) EferFlags_all) EFER_NO_EXECUTE_ENABLE /\
    cpu_cr0 c' = Z.lor (Z.land (cpu_cr0 c) Cr0Flags_all) CR0_WRITE_PROTECT /\
    stage4_idt stub_address (CS_read c) = Ret idt /\ build_memory_map e820 (mkFrame Size4KiB bf) = Ret map /\
    kernel_space root m m' a' fs g bf max /\ boot_info_stored boot_info_size read_boot_info info m' bf map.
Proof. exact (start_run c m max con). Qed.
End Start.
