(* ===== verification/Stage4Example.v ===== *)
(** Stage 4 on a small machine: the kernel of [KernelExample], eight MiB of memory
    and a layout of the boot information. *)
From Stdlib Require Import ZArith Lia.
From stdpp Require Import base tactics numbers list sets strings.
From S2P Require Import Prelude Crates Memory Paging BumpAlloc AddressSpace.
From S2P Require Import MapperClient WindowMapper BootInfo Ports SpinLock Fmt Serial KernelLoader KernelImage KernelLoad KernelExample.
From S2P Require Import Descriptors Processor InterruptStubs KernelInterrupts Stage4 Stage4Theorems KernelMain.
From S2P Require Import Stage4Start Stage4Complete.
#[local] Open Scope Z_scope.

(** ** A layout of the boot information: seventeen words *)

Definition format_words (f : PixelFormat) : list Z :=
  match f with Rgb => [0; 0; 0; 0] | Bgr => [1; 0; 0; 0] | Unknown r g b => [2; r; g; b] end.
Definition format_of (t r g b : Z) : PixelFormat :=
  if t =? 0 then Rgb else if t =? 1 then Bgr else Unknown r g b.

Definition region_words (r : PhysicalMemoryRegion) : list Z := [pmr_start r; pmr_size r; region_type_bits (pmr_typ r)].

Definition boot_info_words (b : BootInfo) : list Z :=
  region_words (boot_kernel b) ++ region_words (fb_region (boot_framebuffer b)) ++
  [fb_width (boot_framebuffer b); fb_height (boot_framebuffer b); bytes_per_pixel (boot_framebuffer b);
   stride (boot_framebuffer b)] ++ format_words (pixel_format (boot_framebuffer b)) ++
  [regions_ptr (memory_regions b); regions_len (memory_regions b); physical_memory_offset b].

Definition ex_size : Z := 17 * 8.
Definition ex_store (m : mem) (address : Z) (b : BootInfo) : mem :=
  write_list m address (concat (to_le_bytes 8 <$> boot_info_words b)).
Definition ex_read (m : mem) (address : Z) : BootInfo :=
  let word i := load64 m (address + 8 * i) in
  let region i := PhysicalMemoryRegion_new (word i) (word (i + 1)) (region_type_of (word (i + 2))) in
  mkBootInfo (region 0)
    (mkFramebufferInfo (region 3) (word 6) (word 7) (word 8) (word 9) (format_of (word 10) (word 11) (word 12) (word 13)))
    (mkPhysicalMemoryRegions (word 14) (word 15)) (word 16).
Definition ex_representable (b : BootInfo) : Prop := Forall (in_width 64) (boot_info_words b).

Lemma words_length ws : length (concat (to_le_bytes 8 <$> ws)) = (8 * length ws)%nat.
Proof.
  induction ws as [|w ws IH]; [reflexivity|]. rewrite fmap_cons. cbn [concat length].
  rewrite length_app, length_to_le_bytes, IH. lia.
Qed.

Lemma boot_info_words_length b : length (boot_info_words b) = 17%nat.
Proof. destruct b as [k [fr ? ? ? ? []] ? ?]; reflexivity. Qed.

(** A word that was stored is read back. *)
Lemma load_word m address ws i w :
  0 <= i -> ws !! Z.to_nat i = Some w -> in_width 64 w ->
  load64 (write_list m address (concat (to_le_bytes 8 <$> ws))) (address + 8 * i) = w.
Proof.
  intros Hi Hw Hr. pose proof (lookup_lt_Some _ _ _ Hw) as Hlt. rewrite <- (take_drop_middle _ _ _ Hw).
  rewrite fmap_app, fmap_cons, concat_app. cbn [concat].
  pose proof (words_length (take (Z.to_nat i) ws)) as Hl. rewrite length_take, Nat.min_l in Hl by lia.
  replace (address + 8 * i) with (address + Z.of_nat (length (concat (to_le_bytes 8 <$> take (Z.to_nat i) ws)))) by lia.
  apply (load_le_write_list m address _ 8 w _). exact Hr.
Qed.

Lemma ex_boot_layout_ok : layout_ok ex_size ex_store ex_read ex_representable.
Proof.
  split.
  - vm_compute. discriminate.
  - intros m address b x Hx. apply write_list_outside. rewrite words_length, boot_info_words_length. unfold ex_size in Hx. lia.
  - intros m m' address Hm.
    assert (Hw : forall i, 0 <= i < 17 -> load64 m' (address + 8 * i) = load64 m (address + 8 * i)).
    { intros i Hi. apply load64_agree. intros x Hx. apply Hm. unfold ex_size. lia. }
    unfold ex_read. now rewrite !Hw by lia.
  - intros m address b Hb. set (m' := ex_store m address b).
    assert (Hw : forall i w, 0 <= i -> boot_info_words b !! Z.to_nat i = Some w -> load64 m' (address + 8 * i) = w).
    { intros i w Hi Hl. apply load_word; [assumption..|]. unfold ex_representable in Hb. rewrite Forall_forall in Hb.
      apply Hb. now apply list_elem_of_lookup_2 in Hl. }
    clearbody m'. clear Hb. destruct b as [[ks kz kt] [[fs fz ft] w h bpp st fmt] [p n] o]. unfold ex_read.
    rewrite !(Hw 0 ks), !(Hw (0 + 1) kz), !(Hw (0 + 2) (region_type_bits kt)), !(Hw 3 fs), !(Hw (3 + 1) fz),
      !(Hw (3 + 2) (region_type_bits ft)), !(Hw 6 w), !(Hw 7 h), !(Hw 8 bpp), !(Hw 9 st),
      !(Hw 14 p), !(Hw 15 n), !(Hw 16 o) by (lia || (destruct fmt; reflexivity)).
    destruct fmt;
      [rewrite (Hw 10 0) by (lia || reflexivity) | rewrite (Hw 10 1) by (lia || reflexivity)
       | rewrite (Hw 10 2), (Hw 11 red_position), (Hw 12 green_position), (Hw 13 blue_position) by (lia || reflexivity)];
      destruct kt, ft; reflexivity.
Qed.

(** ** The machine *)

(** Low memory and memory from 1 MiB on, with whatever attributes the firmware reports;
    the kernel file at 2 MiB, behind which the frames of the allocator begin. *)
Definition ex_map_with (x y z : Z) : list E820MemoryRegion :=
  [mkE820 0x1000 0x9e000 E820_Normal x; mkE820 0x9f000 0x1000 E820_Reserved y; mkE820 0x100000 0x700000 E820_Normal z].
Definition ex_frames_from (next z : Z) : BumpFrameAllocator E820MemoryRegion := bump_new [mkE820 next 0x700000 E820_Normal z].
Definition ex_switch : Z := 0x121234.

Section Machine.
#[local] Existing Instances ref_bit_field ref_bitflags ref_bit_field_ok ref_bitflags_ok.
#[local] Instance kernel_elf : ElfBinary toy_binary unit := toy_elf 0x2800 ex_kernel_file.
#[local] Instance kernel_elf_ok : ElfBinarySpec toy_binary unit := toy_elf_ok 0x2800 ex_kernel_file.
Context (x y z : Z).

(** The entries of the memory map when [f] is the last frame used. *)
Lemma ex_entries f : 0x203000 <= f < 0x700000 -> f mod 4096 = 0 ->
  mjoin (region_entries (mkFrame Size4KiB f) <$> ex_map_with x y z)
  = [PhysicalMemoryRegion_new 0x1000 0x9e000 Free; PhysicalMemoryRegion_new 0x9f000 0x1000 Reserved;
     PhysicalMemoryRegion_new 0x100000 (f + 4096 - 0x100000) Reserved;
     PhysicalMemoryRegion_new (f + 4096) (0x800000 - (f + 4096)) Free].
Proof.
  intros Hf Hal. unfold ex_map_with, region_entries, contains_frame.
  cbn -[Z.add Z.sub Z.leb Z.eqb].
  replace (f <=? 0x1000 + 0x9e000) with false by lia. replace (0x100000 <=? f) with true by lia.
  replace (f <=? 0x100000 + 0x700000) with true by lia. replace (f + 4096 =? 0x100000 + 0x700000) with false by lia.
  rewrite andb_false_r. reflexivity.
Qed.

(** All regions fit, whatever the last frame is. *)
Lemma ex_regions_ok f : 0x203000 <= f < 0x700000 -> f mod 4096 = 0 ->
  Forall (region_fits (mkFrame Size4KiB f)) (ex_map_with x y z) /\
  (length (mjoin (region_entries (mkFrame Size4KiB f) <$> ex_map_with x y z)) < 32)%nat.
Proof.
  intros Hf Hal. split; [|rewrite ex_entries by assumption; cbn; lia].
  apply Forall_forall. intros r Hr%list_elem_of_In. destruct Hr as [<-|[<-|[<-|[]]]]; split; cbn; lia || discriminate.
Qed.

Context (info : BiosInfo) (next : Z).
Context (Hkernel : pmr_start (bios_kernel info) = 0x200000 /\ pmr_size (bios_kernel info) = 0x2800).
Context (Hnext : last_physical_address info - last_physical_address info mod 4096 + 4096 = next) (Hn : next = 0x203000 \/ next = 0x204000).
Context (Hrep : forall p n, in_width 64 p -> in_width 64 n ->
  ex_representable (mkBootInfo (bios_kernel info) (bios_framebuffer info) (mkPhysicalMemoryRegions p n) PHYSICAL_MEMORY_OFFSET)).

Lemma ex_free f : f ∈ bump_left (ex_frames_from next z) -> next <= f < next + 0x700000 /\ f mod 4096 = 0.
Proof.
  intros (r & ->%list_elem_of_singleton & _ & i & Hi & -> & Hlt)%elem_of_usable_addrs.
  cbn [region_start region_size E820_MemoryRegion e820_start e820_size] in *.
  split; [lia | destruct Hn; subst; Z.to_euclidean_division_equations; lia].
Qed.

Lemma ex_map_fits f : 0x203000 <= f < 0x700000 -> f mod 4096 = 0 ->
  exists map, map_fits ex_size ex_representable info (ex_map_with x y z) f map.
Proof.
  intros Hf Hal. destruct (ex_regions_ok f Hf Hal). eexists. split; [apply build_memory_map_spec; cbn [frame_address]; (lia || assumption)|].
  - rewrite present_region_array, ex_entries by assumption. cbn [length]. split; [vm_compute; discriminate|]. split.
    + repeat (apply Forall_cons_2; [split; split; cbn; lia|]). constructor.
    + apply Hrep; unfold in_width, ex_size; lia.
Qed.

Lemma ex_first_frames f : f ∈ take 169 (bump_left (ex_frames_from next z)) -> 0x203000 <= f < 0x700000 /\ f mod 4096 = 0.
Proof.
  intros Hf. assert (Hall : forallb (fun f => (0x203000 <=? f) && (f <? 0x700000) && (f mod 4096 =? 0))
    (take 169 (bump_left (ex_frames_from next z))) = true) by (destruct Hn as [->| ->]; vm_compute; reflexivity).
  rewrite forallb_forall in Hall. apply list_elem_of_In, Hall in Hf. lia.
Qed.

Lemma ex_segments_fit : Forall (segment_fits info (ex_frames_from next z)) (elf_headers ex_kernel_file).
Proof.
  apply Forall_forall. intros h Hh%list_elem_of_In. pose proof (proj1 Hkernel) as Ek.
  assert (H0 : 0 < file_size h <= mem_size h /\
    (0 <= virtual_addr h /\ seg_start KERNEL_VIRTUAL_BASE h + mem_size h + 4096 < 2 ^ 64) /\
    0 <= ph_offset h /\ 0x200000 + ph_offset h + file_size h + 4096 <= 2 ^ 48 /\
    (0x200000 + ph_offset h) mod 4096 = seg_start KERNEL_VIRTUAL_BASE h mod 4096 /\
    0x200000 + ph_offset h - (0x200000 + ph_offset h) mod 4096 + seg_file_pages KERNEL_VIRTUAL_BASE h * 4096 <= 0x203000)
    by (destruct Hh as [<-|[<-|[]]]; vm_compute; intuition congruence).
  destruct H0 as (N1 & N2 & N3 & N4 & N5 & N6).
  split; unfold seg_image in *; rewrite ?Ek; try assumption; [lia|].
  intros b Hb (f & [Hf _]%ex_free & Hx). lia.
Qed.

Context (fuel : nat) (Hfuel : (40 <= fuel)%nat).

Lemma ex_ready m :
  stage4_ok ex_kernel_file fuel ex_size ex_representable ex_switch info (ex_map_with x y z) (ex_frames_from next z) m (next + 0x700000).
Proof.
  assert (Hfree : forall b, in_free (ex_frames_from next z) b -> next <= b) by (intros b (f & [Hf _]%ex_free & Hx); lia).
  pose proof Hkernel as [Ek Es]. split.
  - destruct Hn; subst; Z.to_euclidean_division_equations; lia.
  - rewrite Hnext. destruct Hn as [->| ->]; vm_compute; reflexivity.
  - split; [|destruct Hn as [->| ->]; vm_compute; intuition congruence].
    cbn [ex_frames_from bump_new memory_map map_ok]. split; [|exact I]. intros _.
    split; [destruct Hn as [->| ->]; split; vm_compute; intuition congruence | intros r []%not_elem_of_nil].
  - intros f [Hf _]%ex_free. change PHYSICAL_MEMORY_OFFSET with 0xa0000000000. lia.
  - destruct Hn as [->| ->]; vm_compute; intuition congruence.
  - destruct Hn as [->| ->]; vm_compute; discriminate.
  - split; [lia|]. split; [destruct Hn as [->| ->]; Z.to_euclidean_division_equations; lia|].
    assert (Hpages : forall h, In h (elf_headers ex_kernel_file) -> seg_pages KERNEL_VIRTUAL_BASE h <= 3)
      by (intros h [<-|[<-|[]]]; vm_compute; discriminate).
    apply Forall_forall. intros h Hh%list_elem_of_In%Hpages. lia.
  - split; [vm_compute; intuition congruence|]. intros [[Hf _] _]%ex_free. destruct Hn as [->| ->]; vm_compute in Hf; now apply Hf.
  - intros f Hf. assert (f ∈ take 169 (bump_left (ex_frames_from next z))) as [Hb Hal]%ex_first_frames; [|now apply ex_map_fits].
    replace (Z.to_nat _) with 169%nat in Hf by (vm_compute; reflexivity). exact Hf.
  - unfold elf_new, kernel_elf, toy_elf. rewrite Es. unfold read_list. rewrite length_fmap, length_seqZ. reflexivity.
  - intros b Hb Hf%Hfree. rewrite Ek, Es in Hb. lia.
  - exact I.
  - exact ex_segments_fit.
  - exact ex_segments_apart.
  - repeat constructor; vm_compute; intuition congruence.
  - constructor; [|constructor]. exists 0x1234, ex_text. split; [reflexivity|]. split; [reflexivity|].
    split; [lia|]. split; [reflexivity|]. split; [left|]. vm_compute. intuition congruence.
  - vm_compute. intuition congruence.
Qed.
End Machine.

(** The information of [KernelExample]: the loaded files end at [0x203000]. *)
Abbreviation info := KernelExample.ex_info.
Definition ex_map : list E820MemoryRegion := ex_map_with 1 1 1.
Definition ex_start_frames : BumpFrameAllocator E820MemoryRegion := ex_frames_from 0x204000 1.

Lemma ex_info_representable p n : in_width 64 p -> in_width 64 n ->
  ex_representable (mkBootInfo (bios_kernel info) (bios_framebuffer info) (mkPhysicalMemoryRegions p n) PHYSICAL_MEMORY_OFFSET).
Proof.
  intros Hp Hw. unfold ex_representable. cbn.
  repeat (apply Forall_cons_2; [first [exact Hp | exact Hw | unfold in_width; first [lia | split; [discriminate | reflexivity]]]|]). constructor.
Qed.

Section Example.
#[local] Existing Instances ref_bit_field ref_bitflags ref_bit_field_ok ref_bitflags_ok line_ports line_uart kernel_elf kernel_elf_ok.

Lemma ex_stage4_ok :
  stage4_ok ex_kernel_file 40 ex_size ex_representable ex_switch info ex_map ex_start_frames ex_image 0x904000.
Proof. exact (ex_ready 1 1 1 info 0x204000 (conj eq_refl eq_refl) eq_refl (or_intror eq_refl) ex_info_representable 40 (le_n 40) ex_image). Qed.

Lemma ex_polls : (polls_bound (W := line) < 40)%nat.
Proof. cbn. lia. Qed.

Lemma stage4_start_correct_witness :
  exists c' idt fs g bf map m' a' code data con',
    start 40 ex_display ex_size ex_store (fun _ => 0x120000) 0x128000 ex_switch info ex_map real_mode_cpu ex_image ex_console
      = Ret ((c', mkEntered 0xffffffff80000100 0xfffffffefffffff8 bf), idt, (m', a'), con') /\
    cpu_gdt c' = [0; code; data] /\ Z.testbit code 53 = true /\
    kernel_space ex_kernel_file ex_switch info ex_start_frames (cpu_cr3 c') ex_image m' a' fs g bf 0x904000 /\
    boot_info_stored ex_size ex_read info m' bf map /\
    printed (stage4_log ex_kernel_file ex_display 0x128000 (cpu_cr3 c')) ex_console con'.
Proof.
  destruct (stage4_start_correct ex_kernel_file 40 ex_size ex_store ex_read ex_representable ex_boot_layout_ok (fun _ => 0x120000)
      ex_switch info ex_map ex_start_frames ex_display ex_polls 0x128000 real_mode_cpu ex_image 0x904000 ex_console ex_stage4_ok I)
    as (c' & idt & root & fs & g & bf & map & m' & a' & code & data & con' & E & Hp & <- & Hg & Hc & _ & _ & _ & _ & Hs & Hb).
  exists c', idt, fs, g, bf, map, m', a', code, data, con'. auto 10.
Defined.
End Example.
