(* ===== verification/HandOver.v ===== *)
(** What stage 4 hands over to the kernel's frame allocator.

    The memory map for the kernel is built while frames are still taken: every frame
    behind the one of the boot information is reported as free, and the table of
    the physical memory window is such a frame.  The kernel's own bump allocator,
    made from the regions in the boot information, hands this live table out. *)
From Stdlib Require Import ZArith Lia.
From stdpp Require Import base tactics numbers list sets strings.
From S2P Require Import Prelude Crates Memory Paging BumpAlloc AddressSpace.
From S2P Require Import MapperClient WindowMapper BootInfo Ports SpinLock Fmt Serial KernelLoader KernelImage KernelLoad KernelExample.
From S2P Require Import Descriptors Processor InterruptStubs KernelInterrupts Stage4 Stage4Theorems KernelMain.
From S2P Require Import Stage4Start Stage4Complete Stage4Example.
#[local] Open Scope Z_scope.

(** ** The regions of the memory map *)

Section Regions.
Context (f : PhysicalFrame Size4KiB) (Hf : frame_address f mod 4096 = 0).
Implicit Types (r : E820MemoryRegion) (e : PhysicalMemoryRegion).

(** A usable entry is part of a usable region, from a page boundary on. *)
Lemma usable_entry r e :
  region_fits f r -> e ∈ region_entries f r -> region_is_usable e = true ->
  region_is_usable r = true /\ region_start r <= region_start e /\ 0 <= region_size e /\
  region_start e + region_size e = region_start r + region_size r /\
  (region_start e = region_start r \/ region_start e = frame_address f + 4096).
Proof.
  intros [Hs [Hz _] _ Hfr] He Hu. unfold region_entries in He. destruct (region_is_usable r) eqn:Er; cbn [andb] in He.
  - destruct (contains_frame f r) eqn:Ec.
    + apply elem_of_cons in He as [->|He]; [discriminate|].
      destruct (_ =? _); [now apply not_elem_of_nil in He|]. apply list_elem_of_singleton in He as ->.
      assert (frame_address f + 4096 <= region_start r + region_size r) by (apply Hfr; [reflexivity | unfold contains_frame in Ec; lia]).
      unfold contains_frame in Ec.
      cbn [region_start region_size PhysicalMemoryRegion_MemoryRegion pmr_start pmr_size PhysicalMemoryRegion_new]. lia.
    + apply list_elem_of_singleton in He as ->. split; [reflexivity|]. cbn. destruct r. cbn in *. lia.
  - apply list_elem_of_singleton in He as ->. rewrite e820_into_usable in Hu. congruence.
Qed.

Lemma usable_entry_ok r e :
  region_fits f r -> (region_is_usable r = true -> region_ok r) -> e ∈ region_entries f r -> region_is_usable e = true ->
  region_ok e.
Proof.
  intros Hfit Hr He Hu. destruct (usable_entry r e Hfit He Hu) as (Hur & Hs & Hz & Hend & Hst).
  destruct (Hr Hur) as [R1 R2 R3 _ R5]. split; [lia | | assumption | | lia].
  - destruct Hst as [->| ->]; [assumption|]. Z.to_euclidean_division_equations; lia.
  - change (uadd 64 (region_start e) (region_size e) = Ret (region_start e + region_size e)).
    unfold uadd. now rewrite checked_ok by lia.
Qed.
Lemma map_ok_app es1 es2 :
  map_ok es1 -> map_ok es2 ->
  (forall e1 e2, e1 ∈ es1 -> e2 ∈ es2 -> region_is_usable e1 = true -> region_is_usable e2 = true -> regions_disjoint e1 e2) ->
  map_ok (es1 ++ es2).
Proof.
  induction es1 as [|e es1 IH]; cbn [app map_ok]; intros H1 H2 Hd; [assumption|].
  destruct H1 as [He H1]. split.
  - intros Hu. split; [now apply He|]. intros e' [He'|He']%elem_of_app Hu'; [now apply He|].
    apply Hd; try assumption. apply list_elem_of_here.
  - apply IH; [assumption..|]. intros e1 e2 He1. apply Hd. now right.
Qed.

(** At most the last entry of a region is usable. *)
Lemma region_entries_ok r :
  region_fits f r -> (region_is_usable r = true -> region_ok r) -> map_ok (region_entries f r).
Proof.
  intros Hfit Hr.
  assert (Hok : forall e, e ∈ region_entries f r -> region_is_usable e = true -> region_ok e) by eauto using usable_entry_ok.
  assert (H1 : forall e, e ∈ region_entries f r -> map_ok [e]).
  { intros e He. split; [|exact I]. intros Hu. split; [now apply Hok | intros r' []%not_elem_of_nil]. }
  unfold region_entries in *. destruct (region_is_usable r && contains_frame f r); [|apply H1; left].
  destruct (frame_address f + 4096 =? region_start r + region_size r); [apply H1; left|].
  split; [discriminate|]. apply H1. right. left.
Qed.

(** The map built from a well-formed one is well formed. *)
Lemma entries_map_ok regions :
  map_ok regions -> Forall (region_fits f) regions -> map_ok (mjoin (region_entries f <$> regions)).
Proof.
  induction regions as [|r regions IH]; intros Hok Hfit; [exact I|].
  apply Forall_cons in Hfit as [Hr Hfit]. destruct Hok as [Hro Hok]. rewrite fmap_cons. cbn [mjoin list_join].
  apply map_ok_app; [apply region_entries_ok; [assumption | intros Hu; now apply Hro] | now apply IH|].
  intros e1 e2 He1 (l & He2 & (r2 & -> & Hr2)%list_elem_of_fmap)%list_elem_of_join Hu1 Hu2.
  rewrite Forall_forall in Hfit.
  destruct (usable_entry r e1 Hr He1 Hu1) as (Hur & ? & ? & ? & _).
  destruct (usable_entry r2 e2 (Hfit r2 Hr2) He2 Hu2) as (Hur2 & ? & ? & ? & _).
  destruct (proj2 (Hro Hur) r2 Hr2 Hur2); [left | right]; lia.
Qed.

(** A page behind the frame, in the region of the frame, is handed out by an allocator
    made from the map. *)
Lemma page_behind_usable regions r x :
  Forall (region_fits f) regions -> r ∈ regions -> region_is_usable r = true -> contains_frame f r = true ->
  x mod 4096 = 0 -> frame_address f + 4096 <= x < region_start r + region_size r ->
  x ∈ usable_addrs (mjoin (region_entries f <$> regions)).
Proof.
  intros Hfit Hr Hu Hc Hx Hb. apply elem_of_usable_addrs.
  exists (PhysicalMemoryRegion_new (frame_address f + 4096) (region_start r + region_size r - (frame_address f + 4096)) Free).
  split; [|split; [reflexivity|]].
  - apply list_elem_of_join. exists (region_entries f r). split; [|apply list_elem_of_fmap; eauto].
    unfold region_entries. rewrite Hu, Hc. cbn [andb]. rewrite (proj2 (Z.eqb_neq _ _)) by lia. right. left.
  - exists ((x - (frame_address f + 4096)) / 4096).
    cbn [region_start region_size PhysicalMemoryRegion_MemoryRegion pmr_start pmr_size PhysicalMemoryRegion_new].
    Z.to_euclidean_division_equations; lia.
Qed.
End Regions.

(** Memory that is also visible [d] bytes higher. *)
Lemma load_le_shift (m mk : mem) d a n :
  (forall x, a <= x < a + Z.of_nat n -> mk (d + x) = m x) -> load_le mk (d + a) n = load_le m a n.
Proof.
  revert a. induction n as [|n IH]; intros a H; [reflexivity|]. cbn [load_le]. unfold load8. rewrite H by lia.
  replace (d + a + 1) with (d + (a + 1)) by lia. rewrite IH; [reflexivity|]. intros x Hx. apply H. lia.
Qed.

Lemma kept_ok map : map_ok map -> map_ok (kept_regions map).
Proof. destruct map as [|r0 [|r1 map]]; [easy..|]. intros Hok. cbn [kept_regions]. destruct (_ && _); [apply Hok | exact Hok]. Qed.

(** ** The frames stage 4 takes *)

(** The region of the first frame comes first, with its start moved. *)
Lemma advance_to_cases (f : PhysicalFrame Size4KiB) (map l : list E820MemoryRegion) :
  advance_to f map = Ret l ->
  l = [] \/ exists r rest, r ∈ map /\ region_is_usable r = true /\ contains_frame f r = true /\
              l = region_set_start r (frame_address f) :: rest.
Proof.
  induction map as [|r map IH]; cbn [advance_to]; intros E; [injection E as <-; now left|].
  destruct (region_contains r (frame_address f)) as [c|] eqn:Ec; [|discriminate]. cbn [mbind outcome_bind] in E. destruct c.
  - destruct (region_is_usable r) eqn:Eu; cbn [negb] in E; [|discriminate]. injection E as <-. right.
    exists r, map. split; [left|]. split; [assumption|]. split; [|reflexivity].
    unfold contains_frame. destruct r as [s z ty x]. cbn in *. destruct (s <=? frame_address f); [|discriminate].
    unfold uadd, checked in Ec. destruct (fits _ _); [|discriminate]. cbn in Ec |- *. congruence.
  - destruct (IH E) as [->|(r' & rest & Hr' & ?)]; [now left|]. right. exists r', rest. split; [now right | assumption].
Qed.

Section HandOver.
Context `{BF : BitField} `{BFS : !BitFieldSpec BF} `{FL : Bitflags} `{FLS : !BitflagsSpec FL}.
Context `{EBS : ElfBinarySpec B Er} (b : B).
Context (fuel : nat) (boot_info_size : Z) (store_boot_info : mem -> Z -> BootInfo -> mem).
Context (read_boot_info : mem -> Z -> BootInfo) (representable : BootInfo -> Prop).
Context (Hlo : layout_ok boot_info_size store_boot_info read_boot_info representable).
Context (stub_address : stub -> Z) (context_switch_address : Z).
Context (info : BiosInfo) (e820 : list E820MemoryRegion) (frames : BumpFrameAllocator E820MemoryRegion).

Abbreviation ready := (stage4_ok b fuel boot_info_size representable context_switch_address info e820 frames).
Abbreviation next_frame := (last_physical_address info - last_physical_address info mod 4096 + 4096).

(** A well-formed map of the firmware, whose region behind the loaded files holds the
    frames stage 4 takes; what is kept of it can be split at any of these frames. *)
Record room_ok (max : Z) : Prop := {
  ro_map : map_ok e820;
  ro_room r : r ∈ e820 -> region_is_usable r = true -> contains_frame (mkFrame Size4KiB next_frame) r = true ->
    region_start r <> 0 /\ next_frame + 4096 * frames_used b max <= region_start r + region_size r;
  ro_fits f : next_frame <= f < next_frame + 4096 * frames_used b max -> f mod 4096 = 0 ->
    Forall (region_fits (mkFrame Size4KiB f)) (kept_regions e820) /\
    (length (mjoin (region_entries (mkFrame Size4KiB f) <$> kept_regions e820)) < 32)%nat;
}.

Lemma taken_frame m max i x :
  ready m max -> room_ok max -> bump_left frames !! i = Some x -> Z.of_nat i < frames_used b max ->
  x = next_frame + 4096 * Z.of_nat i /\ x mod 4096 = 0 /\
  exists r, r ∈ kept_regions e820 /\ region_is_usable r = true /\ region_start r <= next_frame /\
    next_frame + 4096 * frames_used b max <= region_start r + region_size r.
Proof.
  intros Hok [_ Hroom _] Hx Hi. destruct (s4_last _ _ _ _ _ _ _ _ _ _ Hok) as [Hl0 Hl1].
  pose proof (s4_frames _ _ _ _ _ _ _ _ _ _ Hok) as E. unfold bump_new_starting_at in E.
  destruct (advance_to _ e820) as [l|] eqn:Ea; [|discriminate]. injection E as E.
  unfold bump_left in Hx. rewrite <- E in Hx. cbn [bump_next memory_map] in Hx. change (Z.to_nat 0) with 0%nat in Hx. rewrite drop_0 in Hx.
  destruct (advance_to_cases _ _ _ Ea) as [->|(r & rest & Hr & Hu & Hc & ->)]; [discriminate|].
  destruct (Hroom r Hr Hu Hc) as [Hnz Hfit]. pose proof (kept_in r e820 Hr Hnz) as Hkept. unfold contains_frame in Hc. cbn [frame_address] in *.
  assert (Hx' : page_addrs next_frame (region_size r) !! i = Some (next_frame + Z.of_nat i * 4096)).
  { unfold page_addrs. rewrite list_lookup_fmap, lookup_seqZ_lt; [reflexivity|].
    Z.to_euclidean_division_equations; lia. }
  destruct r as [s z ty xa]. cbn [usable_addrs region_set_start E820_MemoryRegion region_is_usable region_start region_size
    e820_start e820_size e820_typ acpi_extended_attributes] in *.
  rewrite Hu in Hx. rewrite (lookup_app_l_Some _ _ _ _ Hx') in Hx. injection Hx as <-.
  split; [lia|]. split; [Z.to_euclidean_division_equations; lia|].
  exists (mkE820 s z ty xa). cbn [region_start region_size E820_MemoryRegion e820_start e820_size]. split; [assumption|]. split; [assumption|]. lia.
Qed.
(** The kernel's allocator, made from the regions that the boot information in the
    frame [f] refers to. *)
Definition handed_regions m f : list PhysicalMemoryRegion :=
  memory_regions_deref m (memory_regions (read_boot_info m f)).

(** What an allocator made from the map for the frame [f] hands out. *)
Lemma behind_handed_out m max f g i j r :
  ready m max -> room_ok max -> bump_left frames !! i = Some f -> bump_left frames !! j = Some g ->
  (i < j)%nat -> Z.of_nat j < frames_used b max -> build_memory_map e820 (mkFrame Size4KiB f) = Ret r ->
  map_ok (present_regions r) /\ g ∈ usable_addrs (present_regions r).
Proof.
  intros Hok Hroom Hf Hg Hij Hj Emap.
  destruct (taken_frame m max i f Hok Hroom Hf ltac:(lia)) as (Ef & Hfal & _).
  destruct (taken_frame m max j g Hok Hroom Hg Hj) as (Eg & Hgal & reg & Hr & Hu & Hlow & Hhigh).
  destruct (s4_last _ _ _ _ _ _ _ _ _ _ Hok) as [Hl0 Hl1]. pose proof (Z.mod_le (last_physical_address info) 4096 Hl0 ltac:(lia)).
  destruct (ro_fits _ Hroom f) as [Hfit Hlen]; [lia | assumption|].
  rewrite build_memory_map_kept, build_memory_map_spec in Emap by (try assumption; cbn [frame_address]; lia). injection Emap as <-.
  rewrite present_region_array. split; [apply entries_map_ok; [assumption | apply kept_ok, Hroom | assumption]|].
  apply (page_behind_usable (mkFrame Size4KiB f) Hfal (kept_regions e820) reg g); try assumption; cbn [frame_address]; [|lia].
  unfold contains_frame. cbn [frame_address]. lia.
Qed.

(** The memory as the kernel sees it: physical memory in the window, and the boot
    information at its own address. *)
Record kernel_view (m mk : mem) (f max : Z) : Prop := {
  kv_window x : 0 <= x < (max / 2 ^ 21 + 1) * 2 ^ 21 -> mk (PHYSICAL_MEMORY_OFFSET + x) = m x;
  kv_boot x : f <= x < f + 4096 -> mk x = m x;
}.

Lemma max_end_above (map : list E820MemoryRegion) acc max :
  max_end map acc = Ret (Some max) ->
  (forall x, acc = Some x -> x <= max) /\ forall r e, r ∈ map -> region_end r = Ret e -> e <= max.
Proof.
  revert acc. induction map as [|r map IH]; intros acc E; cbn [max_end] in E.
  - injection E as ->. split; [intros x [= ->]; lia | intros r e []%not_elem_of_nil].
  - destruct (region_end r) as [e|] eqn:Ee; [|discriminate]. cbn [mbind outcome_bind] in E. destruct (IH _ E) as [Ha Hr].
    specialize (Ha _ eq_refl). split; [intros x ->; lia|].
    intros r' e' [->|Hin]%elem_of_cons Ee'; [|eauto]. rewrite Ee in Ee'. injection Ee' as <-. destruct acc; lia.
Qed.

(** A frame of the allocator is in the window. *)
Lemma frame_in_window m max f :
  ready m max -> f ∈ bump_left frames -> 0 <= f /\ f + 4096 <= (max / 2 ^ 21 + 1) * 2 ^ 21.
Proof.
  intros Hok Hf. destruct (s4_max _ _ _ _ _ _ _ _ _ _ Hok) as (Emax & Hmax & _). destruct (s4_bump _ _ _ _ _ _ _ _ _ _ Hok) as [Hmap _].
  pose proof (elem_of_sublist _ _ _ Hf (sublist_drop _ _)) as Hin. pose proof (usable_addrs_valid _ _ Hmap Hin) as [Hf0 Hfal].
  apply elem_of_usable_addrs in Hin as (r & Hr & Hu & i & Hi & Ef & Hlt). pose proof (map_ok_region _ r Hmap Hr Hu) as Hro.
  unfold max_physical_address in Emax. destruct (max_end _ _) as [[mx|]|] eqn:Em; try discriminate. injection Emax as ->.
  pose proof (proj2 (max_end_above _ _ _ Em) r _ Hr (ro_end _ Hro)). Z.to_euclidean_division_equations; lia.
Qed.

(** The window shows the root table with its entries. *)
Lemma window_walk root (m mk : mem) f max t :
  kernel_view m mk f max -> 0 <= root -> root + 4096 <= (max / 2 ^ 21 + 1) * 2 ^ 21 ->
  walk one_to_one m root 4 [20] = Some t ->
  walk (mkPhysicalOffset PHYSICAL_MEMORY_OFFSET) mk (root + PHYSICAL_MEMORY_OFFSET) 4 [20] = Some (PHYSICAL_MEMORY_OFFSET + t).
Proof.
  intros Hv H0' H1' E. cbn [walk] in *. unfold next_table in *.
  replace (root + PHYSICAL_MEMORY_OFFSET + 8 * 20) with (PHYSICAL_MEMORY_OFFSET + (root + 8 * 20)) by lia.
  unfold load64 in *. rewrite (load_le_shift m) by (intros x Hx; apply (kv_window _ _ _ _ Hv); lia).
  unfold next_of_entry in *. destruct (_ =? 0); [discriminate|]. cbn [Nat.eqb andb] in *. now injection E as <-.
Qed.

Context `{UW : UartWorld W 0x3F8} (display_flags : ProgramHeader -> list Z) (Hpoll : (polls_bound < fuel)%nat) (idt_address : Z).

(** C40: stage 4 gives the kernel's frame allocator a page table that is in use.  When
    the kernel is entered, the root entry for the physical memory window leads to a
    table, through which the first 2 MiB of memory are mapped; a bump allocator made
    from the memory regions of the boot information hands out the frame of that
    table.  In the kernel's view of this memory, its page table is therefore not
    apart from the frames of its allocator, which is what the mapper relies on. *)
Theorem live_table_handed_out c m max (con : console W) :
  ready m max -> room_ok max -> console_ok con ->
  exists c' e idt m' a' con' t k fs a2,
    start fuel display_flags boot_info_size store_boot_info stub_address idt_address context_switch_address info e820 c m con
      = Ret ((c', e), idt, (m', a'), con') /\
    walk one_to_one m' (cpu_cr3 c') 4 [l4_index PHYSICAL_MEMORY_OFFSET] = Some t /\
    lookup2m one_to_one (cpu_cr3 c') m' (mkPage Size2MiB PHYSICAL_MEMORY_OFFSET) = Some (mkFrame Size2MiB 0, window_flags) /\
    allocate_frames k (bump_new (handed_regions m' (at_rdi e))) = Ret (fs, a2) /\ mkFrame Size4KiB t ∈ fs /\
    forall mk, kernel_view m' mk (at_rdi e) max ->
      let info := read_boot_info mk (at_rdi e) in
      ~ ms_inv (kernel_table info (cpu_cr3 c')) mk (kernel_frames mk info).
Proof.
  intros Hok Hroom Hcon.
  destruct (start_run b fuel boot_info_size store_boot_info read_boot_info representable Hlo stub_address context_switch_address
    info e820 frames display_flags Hpoll idt_address c m max con Hok Hcon) as (c' & idt & root & fs & g & bf & map & m' & a' & code & data & con' &
    E & _ & <- & _ & _ & _ & _ & _ & Emap & Hspace & Hstored).
  pose proof Hstored as (_ & Hread & Hregs).
  destruct (ks_window_table _ _ _ _ _ _ _ _ _ _ _ _ Hspace) as (t & i & j & Ht & Ei & Ej & Hij & Hj).
  destruct (behind_handed_out m max bf t i j map Hok Hroom Ei Ej Hij Hj Emap) as [Hmap Hin].
  assert (Hleft : bump_left (bump_new (present_regions map)) = usable_addrs (present_regions map)) by reflexivity.
  destruct (bump_allocate_frames_left (length (usable_addrs (present_regions map))) (bump_new (present_regions map)))
    as (a2 & E2 & _); [split; [assumption | cbn [bump_new bump_next]; lia] | now rewrite Hleft|].
  eexists c', _, idt, m', a', con', t, _, _, a2. split; [exact E|].
  rewrite l4_index_eq by (split; vm_compute; congruence). split; [exact Ht|]. split.
  - destruct (s4_max _ _ _ _ _ _ _ _ _ _ Hok) as (_ & Hmax & _).
    apply (ks_window _ _ _ _ _ _ _ _ _ _ _ _ Hspace 0). pose proof (Z.div_pos max (2 ^ 21)). lia.
  - unfold handed_regions. cbn [at_rdi]. rewrite Hread, Hregs. split; [exact E2|].
    rewrite Hleft, take_ge by lia. split; [apply list_elem_of_fmap; eauto|]. intros mk Hv.
    destruct (boot_info_stored_keep boot_info_size store_boot_info read_boot_info representable Hlo info m' mk bf map
      (kv_boot _ _ _ _ Hv) Hstored) as (_ & Hread' & Hregs').
    rewrite Hread'. cbn zeta. unfold kernel_frames. rewrite Hregs'. intros (_ & Hinv).
    destruct (frame_in_window m max _ Hok (ks_root _ _ _ _ _ _ _ _ _ _ _ _ Hspace)) as [Hr0 Hr1].
    pose proof (window_walk _ _ _ _ _ _ Hv Hr0 Hr1 Ht) as Hwalk.
    destruct (inv_tables _ _ _ _ Hinv [20] _ ltac:(split; [apply Forall_singleton; unfold idx_ok; lia | cbn; lia]) Hwalk)
      as (f & _ & Ef & Hn).
    apply Hn. replace f with t by (change (PHYSICAL_MEMORY_OFFSET + t = PHYSICAL_MEMORY_OFFSET + f) in Ef; lia). exact Hin.
Qed.
End HandOver.

(** ** A concrete run *)

Section Example.
#[local] Existing Instances ref_bit_field ref_bitflags ref_bit_field_ok ref_bitflags_ok line_ports line_uart kernel_elf kernel_elf_ok.

Lemma ex_map_ok x y z : map_ok (ex_map_with x y z).
Proof.
  assert (Hok : forall r, r ∈ ex_map_with x y z -> region_is_usable r = true -> region_ok r).
  { intros r Hr%list_elem_of_In _. destruct Hr as [<-|[<-|[<-|[]]]]; split; vm_compute; intuition congruence. }
  assert (Hd : forall r', In r' (ex_map_with x y z) -> region_start r' <> 0x1000 -> 0x1000 + 0x9e000 <= region_start r').
  { intros r' [<-|[<-|[<-|[]]]]; vm_compute; intuition congruence. }
  split; [|split; [discriminate|split; [|exact I]]]; intros Hu; (split; [apply Hok; [|exact Hu]|]).
  - left.
  - intros r' Hr' _. left. apply Hd; [right; now apply list_elem_of_In|].
    apply list_elem_of_In in Hr' as [<-|[<-|[]]]; discriminate.
  - right. right. left.
  - intros r' []%not_elem_of_nil.
Qed.

Lemma ex_room info x y z next :
  last_physical_address info - last_physical_address info mod 4096 + 4096 = next -> next = 0x203000 \/ next = 0x204000 ->
  room_ok ex_kernel_file info (ex_map_with x y z) (next + 0x700000).
Proof.
  intros Hnext Hn. assert (Eu : frames_used ex_kernel_file (next + 0x700000) = 182) by (destruct Hn as [->| ->]; vm_compute; reflexivity).
  split; rewrite ?Hnext, ?Eu.
  - apply ex_map_ok.
  - intros r Hr%list_elem_of_In. destruct Hn as [->| ->]; destruct Hr as [<-|[<-|[<-|[]]]]; vm_compute; intuition congruence.
  - intros f Hf. apply ex_regions_ok. lia.
Qed.

Lemma ex_room_ok : room_ok ex_kernel_file KernelExample.ex_info ex_map 0x904000.
Proof. exact (ex_room KernelExample.ex_info 1 1 1 0x204000 eq_refl (or_intror eq_refl)). Qed.

Lemma live_table_handed_out_witness :
  exists c' e idt m' a' con' t k fs a2,
    start 40 ex_display ex_size ex_store (fun _ => 0x120000) 0x128000 ex_switch KernelExample.ex_info ex_map real_mode_cpu ex_image ex_console
      = Ret ((c', e), idt, (m', a'), con') /\
    walk one_to_one m' (cpu_cr3 c') 4 [20] = Some t /\
    allocate_frames k (bump_new (handed_regions ex_read m' (at_rdi e))) = Ret (fs, a2) /\ mkFrame Size4KiB t ∈ fs /\
    forall mk, kernel_view m' mk (at_rdi e) 0x904000 ->
      ~ ms_inv (kernel_table (ex_read mk (at_rdi e)) (cpu_cr3 c')) mk (kernel_frames mk (ex_read mk (at_rdi e))).
Proof.
  destruct (live_table_handed_out ex_kernel_file 40 ex_size ex_store ex_read ex_representable ex_boot_layout_ok (fun _ => 0x120000)
      ex_switch KernelExample.ex_info ex_map ex_start_frames ex_display ex_polls 0x128000 real_mode_cpu ex_image 0x904000 ex_console ex_stage4_ok ex_room_ok I)
    as (c' & e & idt & m' & a' & con' & t & k & fs & a2 & E & Hw & _ & Ea & Hin & Hview).
  exists c', e, idt, m', a', con', t, k, fs, a2. auto 10.
Defined.
End Example.
