(* ===== verification/Boot.v ===== *)
(** From the start of stage 4 to the idle loop of the kernel.

    The kernel runs on the page table, the memory map and the processor state that
    stage 4 leaves.  [HandOver] shows that stage 4 reports frames as free that
    hold page tables; they are behind the files that were loaded.  Where the
    memory in front of them has enough frames, the kernel takes its own from
    there, and reaches its idle loop. *)
From Stdlib Require Import ZArith Lia.
From stdpp Require Import base tactics numbers list sets strings.
From S2P Require Import Prelude Crates Memory Paging BumpAlloc AddressSpace.
From S2P Require Import MapperClient WindowMapper Buddy BuddyHeap KernelHeap HeapSetup FrameSupply BootInfo Ports SpinLock Fmt Serial Pic8259.
From S2P Require Import KernelLoader KernelImage KernelLoad KernelExample Descriptors Processor InterruptStubs KernelInterrupts Exceptions.
From S2P Require Import Stage4 Stage4Theorems SelfTest KernelMain KernelStart Stage4Start Stage4Complete Stage4Example HandOver.
#[local] Open Scope Z_scope.

(** ** Page tables seen through the window *)

Section Seen.
Context `{BF : BitField} `{BFS : !BitFieldSpec BF} `{FA1 : FrameAllocatorSpec A} (D root : Z) (m mk : mem).

(** The tables that are reached without the window, [D] bytes higher. *)
Definition tables_seen : Prop :=
  forall q t x, path_ok q -> walk one_to_one m root 4 q = Some t -> t <= x < t + 4096 -> mk (D + x) = m x.
Context (Hseen : tables_seen).

Lemma seen_entry q : path_ok q -> walk (mkPhysicalOffset D) mk (root + D) 4 q = (fun t => D + t) <$> walk one_to_one m root 4 q ->
  forall i, idx_ok i -> entry_at (mkPhysicalOffset D) mk (root + D) q i = entry_at one_to_one m root q i.
Proof.
  intros Hq E i Hi. unfold entry_at. rewrite E. destruct (walk one_to_one m root 4 q) as [t|] eqn:Et; [|reflexivity]. cbn [fmap option_fmap option_map].
  unfold load64, idx_ok in *. replace (D + t + 8 * i) with (D + (t + 8 * i)) by lia. apply load_le_shift.
  intros x Hx. apply (Hseen q t); [assumption..|lia].
Qed.

Lemma seen_walk q : path_ok q -> walk (mkPhysicalOffset D) mk (root + D) 4 q = (fun t => D + t) <$> walk one_to_one m root 4 q.
Proof.
  induction q as [|i q IH] using rev_ind; intros Hq; [cbn; f_equal; lia|].
  pose proof (path_ok_init _ _ Hq) as Hq0. pose proof Hq as (_ & Hi & _)%path_ok_snoc. specialize (IH Hq0).
  rewrite !walk_snoc, (seen_entry q Hq0 IH i Hi). unfold next_of_entry.
  destruct (_ =? 0); [reflexivity|]. destruct (_ && _); reflexivity.
Qed.

Lemma seen_inv a `{FA2 : FrameAllocatorSpec A2} (a2 : A2) :
  pt_inv one_to_one root m a -> fa_ok a2 ->
  (forall q f, path_ok q -> walk one_to_one m root 4 q = Some f -> ~ fa_free a2 f) ->
  pt_inv (mkPhysicalOffset D) (root + D) mk a2.
Proof.
  intros [_ I2 I3 I4] Hok Hfree. split; [exact Hok | | |].
  - intros q t Hq. rewrite seen_walk by exact Hq. intros (u & Hu & ->)%fmap_Some.
    destruct (I2 q u Hq Hu) as (f & Hf & Ef & _). cbn in Ef. exists f. split; [exact Hf|]. split; [now rewrite Ef|].
    rewrite Ef in Hu. exact (Hfree q f Hq Hu).
  - intros q q' t Hq Hq'. rewrite !seen_walk by assumption. intros (u & Hu & ->)%fmap_Some (u' & Hu' & E)%fmap_Some.
    apply (I3 q q' u); [assumption..|]. now replace u with u' by lia.
  - intros q i Hq. pose proof (path_ok_init _ _ Hq) as Hq0. pose proof Hq as (_ & Hi & _)%path_ok_snoc.
    rewrite seen_walk by exact Hq. rewrite (seen_entry q Hq0 (seen_walk q Hq0) i Hi). intros Hw. apply I4; [exact Hq|].
    intros E. now rewrite E in Hw.
Qed.

(** Below an unused root entry nothing is mapped. *)
Lemma seen_unused va : in_width 64 va -> entry_at one_to_one m root [] (l4_index va) = 0 ->
  not_huge (mkPhysicalOffset D) (root + D) mk va /\ lookup4k (mkPhysicalOffset D) (root + D) mk (mkPage Size4KiB va) = None.
Proof.
  intros Hva E. destruct (paths_ok _ Hva) as (_ & _ & H4p & H4 & _).
  assert (Hnone : walk (mkPhysicalOffset D) mk (root + D) 4 [l4_index va] = None).
  { rewrite seen_walk by exact H4p. change [l4_index va] with ([] ++ [l4_index va]). now rewrite walk_snoc, E. }
  unfold not_huge, lookup4k, dir_path, table_path. cbn [page_address].
  pose proof (entry_below_none (mkPhysicalOffset D) (root + D) mk [l4_index va] [l3_index va] (l2_index va) Hnone) as E2.
  pose proof (entry_below_none (mkPhysicalOffset D) (root + D) mk [l4_index va] [l3_index va; l2_index va] (l1_index va) Hnone) as E1.
  cbn [app] in E1, E2. now rewrite E1, E2.
Qed.
End Seen.

(** ** The regions in front of the loaded files *)

(** The regions of a map before the one with the frame [f]. *)
Fixpoint regions_before (f : PhysicalFrame Size4KiB) (map : list E820MemoryRegion) : list E820MemoryRegion :=
  match map with
  | [] => []
  | r :: map => if region_is_usable r && contains_frame f r then [] else r :: regions_before f map
  end.

Lemma regions_before_spec f map r : r ∈ regions_before f map -> r ∈ map /\ region_is_usable r && contains_frame f r = false.
Proof.
  induction map as [|r0 map IH]; cbn [regions_before]; [intros []%not_elem_of_nil|].
  destruct (region_is_usable r0 && contains_frame f r0) eqn:E; [intros []%not_elem_of_nil|].
  intros [->|Hr]%elem_of_cons; [split; [left | exact E]|]. destruct (IH Hr). split; [now right | assumption].
Qed.

(** Usable regions with a common address are the same. *)
Lemma same_usable_region (map : list E820MemoryRegion) r r' x :
  map_ok map -> r ∈ map -> r' ∈ map -> region_is_usable r = true -> region_is_usable r' = true ->
  region_start r <= x < region_start r + region_size r -> region_start r' <= x < region_start r' + region_size r' -> r = r'.
Proof.
  induction map as [|r0 map IH]; [intros _ []%not_elem_of_nil|]. intros [H0 Hok] [->|Hr]%elem_of_cons [->|Hr']%elem_of_cons Hu Hu' Hx Hx';
    [reflexivity | | | now apply IH].
  - destruct (proj2 (H0 Hu) r' Hr' Hu'); lia.
  - destruct (proj2 (H0 Hu') r Hr Hu); lia.
Qed.

(** The map for the kernel starts with them, unchanged. *)
Lemma entries_before (f g : PhysicalFrame Size4KiB) map :
  (forall r, r ∈ regions_before f map -> region_is_usable r && contains_frame g r = false) ->
  (e820_into <$> regions_before f map) `prefix_of` mjoin (region_entries g <$> map).
Proof.
  induction map as [|r map IH]; cbn [regions_before]; intros Hg; [apply prefix_nil|].
  destruct (region_is_usable r && contains_frame f r) eqn:E; [apply prefix_nil|].
  rewrite !fmap_cons. cbn [mjoin list_join]. unfold region_entries at 1. rewrite (Hg r) by left.
  apply prefix_cons, IH. intros r' Hr'. apply Hg. now right.
Qed.

Section Boot.
Context `{BF : BitField} `{BFS : !BitFieldSpec BF} `{FL : Bitflags} `{FLS : !BitflagsSpec FL}.
Context `{EBS : ElfBinarySpec B Er} (b : B).
Context (fuel : nat) (boot_info_size : Z) (store_boot_info : mem -> Z -> BootInfo -> mem).
Context (read_boot_info : mem -> Z -> BootInfo) (representable : BootInfo -> Prop).
Context (Hlo : layout_ok boot_info_size store_boot_info read_boot_info representable).
Context (stub_address : stub -> Z) (stage4_idt_address context_switch_address : Z).
Context (info : BiosInfo) (e820 : list E820MemoryRegion) (frames : BumpFrameAllocator E820MemoryRegion).

Abbreviation ready := (stage4_ok b fuel boot_info_size representable context_switch_address info e820 frames).
Abbreviation room := (room_ok b info e820).
Abbreviation next_frame := (last_physical_address info - last_physical_address info mod 4096 + 4096).

(** The regions the kernel takes its frames from. *)
Definition kernel_used : list PhysicalMemoryRegion := e820_into <$> regions_before (mkFrame Size4KiB next_frame) (kept_regions e820).

Lemma kernel_used_frame x : x ∈ usable_addrs kernel_used ->
  exists r, r ∈ kept_regions e820 /\ region_is_usable r = true /\ contains_frame (mkFrame Size4KiB next_frame) r = false /\
    region_start r <= x < region_start r + region_size r.
Proof.
  intros (e & (r & -> & Hr)%list_elem_of_fmap & Hu & i & Hi & -> & Hlt)%elem_of_usable_addrs.
  destruct (regions_before_spec _ _ _ Hr) as [Hin Hn]. rewrite e820_into_usable in Hu. rewrite Hu in Hn.
  exists r. split; [exact Hin|]. split; [exact Hu|]. split; [exact Hn|]. destruct r. cbn in *. lia.
Qed.

(** The frames that stage 4 takes are in none of them. *)
Lemma taken_not_used m max i x :
  ready m max -> room max -> bump_left frames !! i = Some x -> Z.of_nat i < frames_used b max -> x ∉ usable_addrs kernel_used.
Proof.
  intros Hok Hroom Hx Hi (r & Hr & Hu & Hn & Hxr)%kernel_used_frame.
  destruct (taken_frame b fuel boot_info_size representable context_switch_address info e820 frames m max i x Hok Hroom Hx Hi)
    as (Ex & _ & r' & Hr' & Hu' & Hlow & Hhigh).
  assert (r = r') as -> by (apply (same_usable_region (kept_regions e820) r r' x); (assumption || lia || apply kept_ok, Hroom)).
  unfold contains_frame in Hn. cbn [frame_address] in Hn. lia.
Qed.

(** The map the kernel reads is well formed, and starts with these regions. *)
Lemma kernel_regions m max bf i map :
  ready m max -> room max -> bump_left frames !! i = Some bf -> Z.of_nat i < frames_used b max ->
  build_memory_map e820 (mkFrame Size4KiB bf) = Ret map ->
  map_ok (present_regions map) /\ kernel_used `prefix_of` present_regions map.
Proof.
  intros Hok Hroom Hbf Hi Emap.
  destruct (taken_frame b fuel boot_info_size representable context_switch_address info e820 frames m max i bf Hok Hroom Hbf Hi)
    as (Ef & Hal & r' & Hr' & Hu' & Hlow & Hhigh).
  destruct (s4_last _ _ _ _ _ _ _ _ _ _ Hok) as [Hl0 _]. pose proof (Z.mod_le (last_physical_address info) 4096 Hl0 ltac:(lia)).
  destruct (ro_fits _ _ _ _ Hroom bf) as [Hfit Hlen]; [lia | assumption|].
  rewrite build_memory_map_kept, build_memory_map_spec in Emap by (try assumption; cbn [frame_address]; lia). injection Emap as <-.
  rewrite present_region_array. split; [apply entries_map_ok; [assumption | apply kept_ok, Hroom | assumption]|].
  apply entries_before. intros r Hr. destruct (regions_before_spec _ _ _ Hr) as [Hin Hn].
  destruct (region_is_usable r) eqn:Hu; [|reflexivity]. cbn [andb] in *. apply not_true_is_false. intros Hc.
  unfold contains_frame in *. cbn [frame_address] in *. rewrite Forall_forall in Hfit.
  assert (Hend : bf + 4096 <= region_start r + region_size r) by (apply (rf_frame _ _ (Hfit r Hin) Hu); cbn [frame_address]; lia).
  assert (r = r') as -> by (apply (same_usable_region (kept_regions e820) r r' bf); (assumption || lia || apply kept_ok, Hroom)). lia.
Qed.

(** A frame that was taken, in the order in which frames are taken. *)
Lemma taken_index (a : BumpFrameAllocator E820MemoryRegion) f k :
  bump_next frames = 0 -> memory_map a = memory_map frames -> f ∈ bump_left frames -> f ∉ bump_left a ->
  Z.of_nat (length (bump_left frames)) - k <= Z.of_nat (length (bump_left a)) ->
  exists i : nat, bump_left frames !! i = Some f /\ Z.of_nat i < k.
Proof.
  unfold bump_left. intros -> ->. change (Z.to_nat 0) with 0%nat. rewrite drop_0. set (l := usable_addrs (memory_map frames)).
  intros [i Ei]%list_elem_of_lookup_1 Hf Hk. exists i. split; [exact Ei|]. pose proof (lookup_lt_Some _ _ _ Ei). rewrite length_drop in Hk.
  destruct (Nat.lt_ge_cases i (Z.to_nat (bump_next a))) as [|Hge]; [lia|]. destruct Hf.
  apply (list_elem_of_lookup_2 _ (i - Z.to_nat (bump_next a))). rewrite lookup_drop. now replace (_ + _)%nat with i by lia.
Qed.

Section Space.
Context (root max g bf : Z) (m m' : mem) (a' : BumpFrameAllocator E820MemoryRegion) (fs : list Z).
Context (Hok : ready m max) (Hroom : room max).
Context (Hspace : kernel_space b context_switch_address info frames root m m' a' fs g bf max).

(** Every table is in a frame that stage 4 took. *)
Lemma table_taken q t : path_ok q -> walk one_to_one m' root 4 q = Some t ->
  exists i : nat, bump_left frames !! i = Some t /\ Z.of_nat i < frames_used b max.
Proof.
  intros Hq Ht. pose proof (ks_tables _ _ _ _ _ _ _ _ _ _ _ _ Hspace) as Hinv.
  destruct (inv_tables _ _ _ _ Hinv q t Hq Ht) as (f & [Hf0 Hfal] & Ef & Hn). cbn in Ef. subst t.
  apply (taken_index a').
  - now apply (starting_at_next b fuel boot_info_size representable context_switch_address info e820 frames m max).
  - apply (inv_alloc _ _ _ _ Hinv).
  - destruct (decide (Exists (fun h => h <= f < h + 4096) (bump_left frames))) as [(h & Hh & Hx)%Exists_exists|He].
    + destruct (s4_bump _ _ _ _ _ _ _ _ _ _ Hok) as [Hmap _].
      pose proof (usable_addrs_valid _ _ Hmap (elem_of_sublist _ _ _ Hh (sublist_drop _ _))) as [_ Hhal].
      replace f with h by (Z.to_euclidean_division_equations; lia). exact Hh.
    + exfalso. apply (ks_owned _ _ _ _ _ _ _ _ _ _ _ _ Hspace f).
      * intros (h & Hh & Hx). apply He, Exists_exists. exists h. exact (conj Hh Hx).
      * left. exists q, f. split; [assumption|]. split; [assumption | lia].
  - exact Hn.
  - exact (ks_taken _ _ _ _ _ _ _ _ _ _ _ _ Hspace).
Qed.

Lemma tables_in_window mk : kernel_view m' mk bf max -> tables_seen PHYSICAL_MEMORY_OFFSET root m' mk.
Proof.
  intros Hv q t x Hq Ht Hx. destruct (table_taken q t Hq Ht) as (i & Hi & _). apply (kv_window _ _ _ _ Hv).
  destruct (frame_in_window b fuel boot_info_size representable context_switch_address info e820 frames m max t Hok
    (list_elem_of_lookup_2 _ _ _ Hi)). lia.
Qed.

(** For the allocator over the regions in front, the tables are apart from the free
    frames. *)
Lemma kernel_table_inv mk :
  kernel_view m' mk bf max -> map_ok kernel_used ->
  pt_inv (mkPhysicalOffset PHYSICAL_MEMORY_OFFSET) (root + PHYSICAL_MEMORY_OFFSET) mk (bump_new kernel_used).
Proof.
  intros Hv Hmap. apply (seen_inv (FA1 := stage4_frames frames) _ root m' mk (tables_in_window mk Hv) a').
  - exact (ks_tables _ _ _ _ _ _ _ _ _ _ _ _ Hspace).
  - split; [exact Hmap | cbn [bump_new bump_next]; lia].
  - intros q f Hq Hf. destruct (table_taken q f Hq Hf) as (i & Hi & Hlt). exact (taken_not_used m max i f Hok Hroom Hi Hlt).
Qed.

(** The heap's pages are below a root entry that stage 4 left unused. *)
Lemma heap_mappable mk :
  kernel_view m' mk bf max -> PHYSICAL_MEMORY_OFFSET + max < 136 * 2 ^ 39 ->
  Forall (fun p => in_width 64 (page_address p) /\
    not_huge (mkPhysicalOffset PHYSICAL_MEMORY_OFFSET) (root + PHYSICAL_MEMORY_OFFSET) mk (page_address p) /\
    lookup4k (mkPhysicalOffset PHYSICAL_MEMORY_OFFSET) (root + PHYSICAL_MEMORY_OFFSET) mk p = None) (heap_pages ++ [guard_page]).
Proof.
  intros Hv Hmax. apply Forall_forall. intros [va] Hp. cbn [page_address].
  assert (Hva : HEAP_START <= va <= HEAP_START + HEAP_SIZE).
  { apply elem_of_app in Hp as [(i & [= ->] & Hi%elem_of_seqZ)%list_elem_of_fmap|Hp].
    - cbn [SIZE]. unfold HEAP_SIZE. lia.
    - apply list_elem_of_singleton in Hp as [= ->]. unfold HEAP_SIZE. lia. }
  unfold HEAP_START, HEAP_SIZE in Hva. assert (Hw : in_width 64 va) by (unfold in_width; lia). split; [exact Hw|].
  apply (seen_unused _ root m' mk (tables_in_window mk Hv) va Hw).
  rewrite l4_index_eq by exact Hw. replace (va / 2 ^ 39 mod 512) with 136 by (Z.to_euclidean_division_equations; lia).
  apply (ks_unused _ _ _ _ _ _ _ _ _ _ _ _ Hspace). change PHYSICAL_MEMORY_OFFSET with 0xa0000000000 in *. Z.to_euclidean_division_equations; lia.
Qed.
End Space.

Context `{MW : MachineWorld W} (display_flags : ProgramHeader -> list Z) (Hpoll : (polls_bound < fuel)%nat).

(** ** The kernel, entered by stage 4 *)

(** The kernel's machine when [_start] is called: the processor as stage 4 left it,
    and the statics of the kernel with their initial values. *)
Definition kernel_entered (c : cpu) (w : W) : @kernel_machine W := mkKernel c [] (Mutex_new ChainedPics_new) (mkConsole None w).

Lemma kernel_handed_over m max (con con' : console W) c c' root fs g bf map m' a' mk :
  ready m max -> room max -> Z.testbit (cpu_cr0 c) 0 = true ->
  stage (chips (c_world con)).1 = Ready /\ stage (chips (c_world con)).2 = Ready ->
  PHYSICAL_MEMORY_OFFSET + max < 136 * 2 ^ 39 -> 104 <= fa_avail (bump_new kernel_used) ->
  printed (stage4_log b display_flags stage4_idt_address root) con con' -> cpu_cr3 c' = root ->
  cpu_cr0 c' = Z.lor (Z.land (cpu_cr0 c) Cr0Flags_all) CR0_WRITE_PROTECT ->
  build_memory_map e820 (mkFrame Size4KiB bf) = Ret map ->
  kernel_space b context_switch_address info frames root m m' a' fs g bf max ->
  boot_info_stored boot_info_size read_boot_info info m' bf map -> kernel_view m' mk bf max ->
  handed_over (read_boot_info mk bf) root kernel_used (kernel_entered c' (c_world con')) mk.
Proof.
  intros Hok Hroom Hc Hchips Hmax Hav (_ & _ & Hblind) Hcr3 Hcr0 Emap Hspace Hstored Hv.
  destruct (ks_window_table _ _ _ _ _ _ _ _ _ _ _ _ Hspace) as (_ & i & j & _ & Hi & _ & Hij & Hj).
  destruct (kernel_regions m max bf i map Hok Hroom Hi ltac:(lia) Emap) as [Hmap Hused].
  pose proof Hused as [rest Hrest]. pose proof Hmap as Hmap0. rewrite Hrest in Hmap0. apply map_ok_prefix in Hmap0.
  destruct (boot_info_stored_keep boot_info_size store_boot_info read_boot_info representable Hlo info m' mk bf map
    (kv_boot _ _ _ _ Hv) Hstored) as (_ & Hread & Hregs).
  pose proof (frame_in_window b fuel boot_info_size representable context_switch_address info e820 frames m max root Hok
    (ks_root _ _ _ _ _ _ _ _ _ _ _ _ Hspace)) as [Hr0 Hr1].
  destruct (s4_bump _ _ _ _ _ _ _ _ _ _ Hok) as [Hbmap _]. destruct (s4_max _ _ _ _ _ _ _ _ _ _ Hok) as (_ & Hmax0 & Hwin).
  pose proof (usable_addrs_valid _ _ Hbmap (elem_of_sublist _ _ _ (ks_root _ _ _ _ _ _ _ _ _ _ _ _ Hspace) (sublist_drop _ _))) as [Hrv Hral].
  change PHYSICAL_MEMORY_OFFSET with 0xa0000000000 in Hwin.
  rewrite Hread. split; cbn [kernel_entered km_cpu km_pics km_console km_world c_world boot_info_at physical_memory_offset].
  - rewrite Hcr0, Z.lor_spec, Z.land_spec, Hc. reflexivity.
  - exact Hcr3.
  - split; [unfold in_width; lia | exact Hral].
  - change PHYSICAL_MEMORY_OFFSET with 0xa0000000000. lia.
  - reflexivity.
  - exact I.
  - unfold km_world. cbn [km_console c_world]. now rewrite (Hblind _ chips mw_uart_pics).
  - now rewrite Hregs.
  - now rewrite Hregs.
  - split; [split; [|split]; vm_compute; congruence|]. exact (kernel_table_inv root max g bf m m' a' fs Hok Hroom Hspace mk Hv Hmap0).
  - exact Hav.
  - exact (heap_mappable root max g bf m m' a' fs Hok Hspace mk Hv Hmax).
Qed.

(** Physical memory, with the window onto it. *)
Definition kernel_memory (m : mem) : mem := fun x => if x <? PHYSICAL_MEMORY_OFFSET then m x else m (x - PHYSICAL_MEMORY_OFFSET).

Lemma kernel_memory_view m m' max bf : ready m max -> bf ∈ bump_left frames -> kernel_view m' (kernel_memory m') bf max.
Proof.
  intros Hok Hbf. pose proof (s4_low _ _ _ _ _ _ _ _ _ _ Hok bf Hbf) as Hlow.
  destruct (s4_bump _ _ _ _ _ _ _ _ _ _ Hok) as [Hmap _].
  pose proof (usable_addrs_valid _ _ Hmap (elem_of_sublist _ _ _ Hbf (sublist_drop _ _))) as [_ Hal].
  change PHYSICAL_MEMORY_OFFSET with 0xa0000000000 in *. unfold kernel_memory. change PHYSICAL_MEMORY_OFFSET with 0xa0000000000.
  split; intros x Hx; change PHYSICAL_MEMORY_OFFSET with 0xa0000000000.
  - rewrite (proj2 (Z.ltb_ge _ _)) by lia. f_equal. lia.
  - rewrite (proj2 (Z.ltb_lt _ _)) by (Z.to_euclidean_division_equations; lia). reflexivity.
Qed.

(** What the kernel is linked with: its stubs at their addresses, and its tables. *)
Context (kernel_stub : stub -> Z) (tss_address idt_address : Z) (error_text : Z -> list Z) (code_at : Z -> option stub) (kernel_fuel : nat).
Context (Hstub : forall s, in_width 64 (kernel_stub s) /\ code_at (kernel_stub s) = Some s) (Htss : in_width 64 tss_address).
Context (Hheap : HEAP_SIZE / 16 < Z.of_nat kernel_fuel) (Hkpoll : (polls_bound < kernel_fuel)%nat).

(** Stage 4, started as for [stage4_start_correct] in protected mode with idle interrupt controllers, on a map
    whose regions in front of the loaded files hold 104 frames, enters the kernel; and
    the kernel, run on the processor state, the page table and the memory map that
    stage 4 left, with physical memory in the window, reaches its idle loop with
    interrupts on, its heap in order and its self tests passed.  On the serial line is
    the text of stage 4 followed by that of the kernel, with the map built from the
    firmware's.  The live page tables among the kernel's free frames do no harm then,
    because the kernel takes its frames from the regions in front. *)
Theorem kernel_reached c m max (con : console W) frame hm :
  ready m max -> room max -> console_ok con -> Z.testbit (cpu_cr0 c) 0 = true ->
  stage (chips (c_world con)).1 = Ready /\ stage (chips (c_world con)).2 = Ready ->
  PHYSICAL_MEMORY_OFFSET + max < 136 * 2 ^ 39 -> 104 <= fa_avail (bump_new kernel_used) ->
  exists c' e idt m' a' con' map,
    start fuel display_flags boot_info_size store_boot_info stub_address stage4_idt_address context_switch_address info e820 c m con
      = Ret ((c', e), idt, (m', a'), con') /\
    at_rip e = KERNEL_VIRTUAL_BASE + elf_entry_point b /\ kernel_view m' (kernel_memory m') (at_rdi e) max /\
    build_memory_map e820 (mkFrame Size4KiB (at_rdi e)) = Ret map /\
    forall mk, kernel_view m' mk (at_rdi e) max ->
      let boot_info := read_boot_info mk (at_rdi e) in
      exists ks, kernel_start kernel_stub tss_address idt_address error_text code_at kernel_fuel boot_info frame
          (kernel_entered c' (c_world con')) mk (Buddy_new hm) = Ret (Halting, ks) /\
        memory_regions_deref mk (memory_regions boot_info) = present_regions map /\
        sent (km_world (ks_machine ks)) = sent (c_world con) ++
          (char_byte <$> concat (stage4_log b display_flags stage4_idt_address (cpu_cr3 c') ++ kernel_log idt_address boot_info mk frame)) /\
        cpu_interrupts (km_cpu (ks_machine ks)) = true /\ traps_ready kernel_stub code_at (ks_machine ks) /\
        ks_page_table ks = kernel_table boot_info (cpu_cr3 c') /\
        heap_inv HEAP_START HEAP_SIZE (mkHeap (ks_heap ks) []).
Proof.
  intros Hok Hroom Hcon Hc Hchips Hmax Hav.
  destruct (start_run b fuel boot_info_size store_boot_info read_boot_info representable Hlo stub_address context_switch_address
    info e820 frames display_flags Hpoll stage4_idt_address c m max con Hok Hcon) as (c' & idt & root & fs & g & bf & map & m' & a' & code & data & con' &
    E & Hprint & Hcr3 & _ & _ & _ & Hcr0 & _ & Emap & Hspace & Hstored).
  eexists c', _, idt, m', a', con', map. split; [exact E|]. split; [reflexivity|]. cbn [at_rdi]. split.
  { destruct (ks_window_table _ _ _ _ _ _ _ _ _ _ _ _ Hspace) as (_ & i & _ & _ & Hi & _).
    apply (kernel_memory_view m m' max bf Hok), (list_elem_of_lookup_2 _ _ _ Hi). }
  split; [exact Emap|]. intros mk Hv. cbv zeta.
  pose proof (kernel_handed_over m max con con' c c' root fs g bf map m' a' mk Hok Hroom Hc Hchips Hmax Hav Hprint Hcr3 Hcr0 Emap Hspace Hstored Hv)
    as Hho.
  destruct (boot_info_stored_keep boot_info_size store_boot_info read_boot_info representable Hlo info m' mk bf map
    (kv_boot _ _ _ _ Hv) Hstored) as (_ & Hread & Hregs).
  destruct (kernel_start_spec kernel_stub tss_address idt_address error_text code_at kernel_fuel (read_boot_info mk bf) root kernel_used frame
    (kernel_entered c' (c_world con')) mk hm Hho Hheap Hkpoll Htss Hstub) as (ks & Eks & Hsent & Hint & Htraps & Hpt & _ & Hh).
  exists ks. split; [exact Eks|]. split; [now rewrite Hread|]. split; [|rewrite Hcr3; auto].
  rewrite Hsent. unfold km_world. cbn [kernel_entered km_console c_world]. rewrite (proj1 (proj2 Hprint)), Hcr3.
  now rewrite <- app_assoc, <- fmap_app, <- concat_app.
Qed.
End Boot.
