(* ===== verification/Disk.v ===== *)
(** Disk access in stage 2: [stage2/src/disk.rs] and [stage2/src/dap.rs].

    The BIOS is not part of the repository: interrupt 0x13, function 0x42, is the
    operation of a class, and what its documentation promises the laws of a
    second one.  Buffers are ranges of memory below 1 MiB, as the transfer
    needs real-mode addresses.  [usize] is 32 bits wide in stage 2. *)
From Stdlib Require Import ZArith Lia.
From stdpp Require Import base tactics numbers list.
From S2P Require Import Prelude.
#[local] Open Scope Z_scope.

Definition DEFAULT_SECTOR_SIZE : Z := 512.

(** ** [DiskAddressPacket] *)

Record DiskAddressPacket := mkDap {
  dap_size : Z;
  dap_zero : Z;
  dap_sector_count : Z;
  dap_offset : Z;
  dap_segment : Z;
  dap_start_lba : Z;
}.

(** [x.try_into()] to an unsigned type of width [w]. *)
Definition try_into (w x : Z) : option Z := if fits w x then Some x else None.

Definition dap_new (buffer_address sector_count start_lba : Z) : outcome DiskAddressPacket :=
  s ← ushr 32 buffer_address 4;
  segment ← unwrap (try_into 16 s);
  Ret {| dap_size := 0x10; dap_zero := 0; dap_sector_count := sector_count;
         dap_offset := ucast 16 (Z.land buffer_address 15); dap_segment := segment;
         dap_start_lba := start_lba |}.

(** ** The BIOS *)

Class Bios := {
  (** [int 0x13] with [ah = 0x42], the drive in [dx] and the packet at [ds:si]; a
      set carry flag ends in [fail]. *)
  int13_read : Z -> DiskAddressPacket -> mem -> outcome mem;
}.

(** [n] bytes of an image from [off] on, transferred to [a]. *)
Definition transfer (m : mem) (a : Z) (image : Z -> Z) (off n : Z) : mem := fun x =>
  if (a <=? x) && (x <? a + n) then image (off + (x - a)) else m x.

Class BiosSpec (B : Bios) := {
  disk_image : Z -> Z -> Z;
  disk_sectors : Z -> Z;
  image_byte d off : 0 <= disk_image d off < 256;
  (** up to 127 sectors of 512 bytes go to [segment * 16 + offset] *)
  int13_read_spec d p m :
    dap_size p = 0x10 -> 0 < dap_sector_count p <= 127 -> 0 <= dap_start_lba p ->
    dap_start_lba p + dap_sector_count p <= disk_sectors d ->
    int13_read d p m =
      Ret (transfer m (dap_segment p * 16 + dap_offset p) (disk_image d)
             (dap_start_lba p * 512) (dap_sector_count p * 512));
}.

(** ** A BIOS that serves an image

    It keeps the documented laws, so they can hold. *)

Definition byte_image (f : Z -> Z) : Z -> Z := fun off => f off mod 256.

Definition image_bios (f : Z -> Z) : Bios := {|
  int13_read d p m := Ret (transfer m (dap_segment p * 16 + dap_offset p) (byte_image f)
                             (dap_start_lba p * 512) (dap_sector_count p * 512))
|}.

#[program] Definition image_bios_spec (f : Z -> Z) : BiosSpec (image_bios f) := {|
  disk_image _ := byte_image f;
  disk_sectors _ := 2 ^ 40
|}.
Next Obligation. intros f d off. apply Z.mod_pos_bound. lia. Qed.
Next Obligation. reflexivity. Qed.

(** [DiskAddressPacket::load] *)
Definition dap_load `{Bios} (p : DiskAddressPacket) (disk_number : Z) (m : mem) : outcome mem :=
  int13_read disk_number p m.

(** ** [DiskAccess] *)

Inductive SeekFrom := Start (off : Z) | StartInSectors (off : Z) | End_ (off : Z) | Current (off : Z).

Record DiskAccess := mkDisk {
  disk_number : Z;
  base_offset : Z;
  d_offset : Z;
  d_sector_size : Z;
  d_cluster_size : Z;
}.

Definition DiskAccess_new (disk_number base_lba offset : Z) : outcome DiskAccess :=
  base ← umul 64 base_lba DEFAULT_SECTOR_SIZE;
  off ← umul 64 offset DEFAULT_SECTOR_SIZE;
  Ret {| disk_number := disk_number; base_offset := base; d_offset := off;
         d_sector_size := DEFAULT_SECTOR_SIZE; d_cluster_size := 0 |}.

Definition set_sector_size (d : DiskAccess) (size : Z) : DiskAccess :=
  {| disk_number := disk_number d; base_offset := base_offset d; d_offset := d_offset d;
     d_sector_size := size; d_cluster_size := d_cluster_size d |}.
Definition set_cluster_size (d : DiskAccess) (size : Z) : DiskAccess :=
  {| disk_number := disk_number d; base_offset := base_offset d; d_offset := d_offset d;
     d_sector_size := d_sector_size d; d_cluster_size := size |}.
Definition set_offset (d : DiskAccess) (off : Z) : DiskAccess :=
  {| disk_number := disk_number d; base_offset := base_offset d; d_offset := off;
     d_sector_size := d_sector_size d; d_cluster_size := d_cluster_size d |}.

Definition disk_sectors_per_cluster (d : DiskAccess) : outcome Z :=
  udiv (d_cluster_size d) (d_sector_size d).

(** [Seek::seek]; the negation of [i64::MIN] overflows. *)
Definition seek (d : DiskAccess) (pos : SeekFrom) : outcome DiskAccess :=
  match pos with
  | Start off => Ret (set_offset d off)
  | StartInSectors off => o ← umul 64 off (d_sector_size d); Ret (set_offset d o)
  | Current off =>
      if 0 <? off then Ret (set_offset d (Z.min (d_offset d + off) (2 ^ 64 - 1)))
      else
        n ← (if fits 63 (- off) then Ret (- off) else Panic ArithOverflow);
        Ret (set_offset d (Z.max (d_offset d - n) 0))
  | End_ _ => Panic ExplicitPanic
  end.

Section Read.
Context `{BIOS : Bios}.

(** [while remaining_sector_count > 0]: at most 0x20 sectors per packet. *)
Fixpoint read_loop (fuel : nat) (d : DiskAccess) (remaining_sector_count buffer_address start_lba : Z)
    (m : mem) : outcome mem :=
  match fuel with
  | O => Panic FuelExhausted
  | S fuel =>
      if 0 <? remaining_sector_count then
        let sector_count := ucast 16 (Z.min remaining_sector_count 0x20) in
        packet ← dap_new buffer_address sector_count start_lba;
        m ← dap_load packet (disk_number d) m;
        r ← usub 64 remaining_sector_count sector_count;
        lba ← uadd 64 start_lba sector_count;
        n ← umul 32 sector_count (ucast 32 (d_sector_size d));
        a ← uadd 32 buffer_address n;
        read_loop fuel d r a lba m
      else Ret m
  end.

(** [read_sectors] into the buffer of [buf_len] bytes at [buf]. *)
Definition read_sectors (d : DiskAccess) (sectors_amount buf buf_len : Z) (m : mem) :
    outcome (mem * DiskAccess) :=
  r ← urem buf_len (d_sector_size d);
  _ ← assert_true (r =? 0);
  q ← udiv buf_len (d_sector_size d);
  _ ← assert_true (sectors_amount <=? q);
  pos ← uadd 64 (base_offset d) (d_offset d);
  start_lba ← udiv pos (d_sector_size d);
  bytes ← umul 32 sectors_amount (d_sector_size d);
  end_addr ← uadd 64 pos bytes;
  m ← read_loop (S (Z.to_nat sectors_amount)) d sectors_amount (ucast 32 buf) start_lba m;
  Ret (m, set_offset d end_addr).

Definition disk_read (d : DiskAccess) (buf buf_len : Z) (m : mem) : outcome (mem * DiskAccess) :=
  n ← udiv buf_len (d_sector_size d);
  read_sectors d n buf buf_len m.

(** [read_bytes] through the static buffer [TMP_BUF] of two sectors. *)
Definition read_bytes (tmp_buf : Z) (d : DiskAccess) (len : Z) (m : mem) :
    outcome (list Z * (mem * DiskAccess)) :=
  current_sector_offset ← urem (ucast 32 (d_offset d)) (d_sector_size d);
  s ← uadd 32 current_sector_offset len;
  _ ← assert_true (s <=? DEFAULT_SECTOR_SIZE * 2);
  '(m, d) ← disk_read d tmp_buf (DEFAULT_SECTOR_SIZE * 2) m;
  Ret (read_list m (tmp_buf + current_sector_offset) (Z.to_nat len), (m, d)).
End Read.

(** ** Theorems *)

Lemma transfer_app m a image off n k :
  0 <= n -> 0 <= k ->
  forall x, transfer (transfer m a image off n) (a + n) image (off + n) k x = transfer m a image off (n + k) x.
Proof.
  intros Hn Hk x. unfold transfer.
  destruct (Z.leb_spec a x), (Z.ltb_spec x (a + n)), (Z.leb_spec (a + n) x),
    (Z.ltb_spec x (a + n + k)), (Z.ltb_spec x (a + (n + k))); cbn; try lia; try reflexivity.
  f_equal. lia.
Qed.

(** The real-mode address of a packet is the address of the buffer. *)
Lemma dap_new_spec a n lba :
  0 <= a < 2 ^ 20 ->
  exists p, dap_new a n lba = Ret p /\ dap_size p = 0x10 /\ dap_sector_count p = n /\
    dap_start_lba p = lba /\ dap_segment p * 16 + dap_offset p = a.
Proof.
  intros Ha. unfold dap_new, ushr. cbn [andb Z.leb Z.ltb Z.compare Pos.compare Pos.compare_cont mbind outcome_bind].
  rewrite Z.shiftr_div_pow2 by lia. unfold try_into.
  assert (Hs : 0 <= a / 2 ^ 4 < 2 ^ 16).
  { split; [apply Z.div_pos; lia | apply Z.div_lt_upper_bound; lia]. }
  rewrite (proj2 (fits_spec 16 (a / 2 ^ 4)) Hs). cbn [unwrap mbind outcome_bind].
  eexists. split; [reflexivity|]. cbn [dap_size dap_sector_count dap_start_lba dap_segment dap_offset].
  repeat split. change 15 with (2 ^ 4 - 1). rewrite land_ones_mod by lia.
  pose proof (Z.mod_pos_bound a (2 ^ 4)). unfold ucast. rewrite Z.mod_small by lia.
  pose proof (Z.div_mod a (2 ^ 4)). lia.
Qed.

Section ReadSpec.
Context `{BS : BiosSpec}.
Implicit Types (d : DiskAccess) (m : mem).

(** A disk with the sectors of the BIOS. *)
Record disk_ok d : Prop := {
  dk_sector : d_sector_size d = 512;
  dk_base : 0 <= base_offset d;
  dk_base512 : base_offset d mod 512 = 0;
  dk_offset : 0 <= d_offset d;
}.

Lemma read_loop_spec fuel d n a lba m :
  d_sector_size d = 512 -> 0 <= n -> (Z.to_nat n < fuel)%nat ->
  0 <= a -> a + n * 512 <= 2 ^ 20 -> 0 <= lba -> lba + n <= disk_sectors (disk_number d) ->
  lba + n < 2 ^ 64 ->
  exists m', read_loop fuel d n a lba m = Ret m' /\
    forall x, m' x = transfer m a (disk_image (disk_number d)) (lba * 512) (n * 512) x.
Proof.
  intros Hss. revert n a lba m. induction fuel as [|fuel IH]; intros n a lba m Hn Hf Ha Hend Hlba Hds Hw; [lia|].
  cbn [read_loop]. destruct (Z.ltb_spec 0 n) as [Hpos|Hz].
  2:{ exists m. split; [reflexivity|]. intros x. unfold transfer.
      destruct (Z.leb_spec a x), (Z.ltb_spec x (a + n * 512)); cbn; lia || reflexivity. }
  set (c := Z.min n 0x20). assert (Hc : 0 < c <= 32 /\ c <= n) by lia.
  replace (ucast 16 c) with c by (unfold ucast; rewrite Z.mod_small; lia).
  destruct (dap_new_spec a c lba) as (p & -> & E1 & E2 & E3 & E4); [lia|]. cbn [mbind outcome_bind].
  unfold dap_load. rewrite int13_read_spec by lia. cbn [mbind outcome_bind].
  unfold usub. rewrite (checked_ok 64 (n - c)) by lia. cbn [mbind outcome_bind].
  unfold uadd. rewrite (checked_ok 64 (lba + c)) by lia. cbn [mbind outcome_bind].
  rewrite Hss. replace (ucast 32 512) with 512 by reflexivity. unfold umul.
  rewrite (checked_ok 32 (c * 512)) by lia. cbn [mbind outcome_bind].
  rewrite (checked_ok 32 (a + c * 512)) by lia. cbn [mbind outcome_bind].
  rewrite E2, E3, E4.
  destruct (IH (n - c) (a + c * 512) (lba + c)
    (transfer m a (disk_image (disk_number d)) (lba * 512) (c * 512))) as (m' & -> & Hm'); [lia..|].
  exists m'. split; [reflexivity|]. intros x. rewrite Hm'.
  replace ((lba + c) * 512) with (lba * 512 + c * 512) by lia.
  rewrite transfer_app by lia. do 2 f_equal. lia.
Qed.

(** Reading sectors transfers the image from the current position on. *)
Lemma read_sectors_spec d n buf len m :
  disk_ok d -> 0 <= n -> n * 512 <= len -> len mod 512 = 0 -> 0 <= buf -> buf + len <= 2 ^ 20 ->
  base_offset d + d_offset d + n * 512 < 2 ^ 64 ->
  (base_offset d + d_offset d) / 512 + n <= disk_sectors (disk_number d) ->
  exists m', read_sectors d n buf len m =
      Ret (m', set_offset d (base_offset d + d_offset d + n * 512)) /\
    forall x, m' x = transfer m buf (disk_image (disk_number d))
                       ((base_offset d + d_offset d) / 512 * 512) (n * 512) x.
Proof.
  intros [Hss Hb Hb5 Ho] Hn Hlen Hm Hbuf Hend Hpos Hds. unfold read_sectors, urem, udiv. rewrite Hss.
  cbn [Z.eqb mbind outcome_bind]. rewrite Hm. cbn [Z.eqb assert_true mbind outcome_bind].
  rewrite (proj2 (Z.leb_le n (len / 512))) by (apply Z.div_le_lower_bound; lia).
  cbn [assert_true mbind outcome_bind]. unfold uadd, umul.
  rewrite (checked_ok 64 (base_offset d + d_offset d)) by lia. cbn [mbind outcome_bind].
  rewrite (checked_ok 32 (n * 512)) by lia. cbn [mbind outcome_bind].
  rewrite (checked_ok 64 (base_offset d + d_offset d + n * 512)) by lia. cbn [mbind outcome_bind].
  pose proof (Z.div_pos (base_offset d + d_offset d) 512). pose proof (Z.mul_div_le (base_offset d + d_offset d) 512).
  replace (ucast 32 buf) with buf by (unfold ucast; rewrite Z.mod_small; lia).
  destruct (read_loop_spec (S (Z.to_nat n)) d n buf ((base_offset d + d_offset d) / 512) m) as (m' & -> & Hm');
    [assumption | lia..|].
  exists m'. split; [reflexivity | exact Hm'].
Qed.

(** The bytes of the partition from [off] on. *)
Definition partition_bytes d (off len : Z) : list Z :=
  (fun i => disk_image (disk_number d) (base_offset d + off + i)) <$> seqZ 0 len.

Lemma read_bytes_spec tmp d len m :
  disk_ok d -> 0 <= len -> d_offset d mod 512 + len <= 1024 -> 0 <= tmp -> tmp + 1024 <= 2 ^ 20 ->
  base_offset d + d_offset d + 1024 < 2 ^ 64 ->
  (base_offset d + d_offset d) / 512 + 2 <= disk_sectors (disk_number d) ->
  exists m', read_bytes tmp d len m =
      Ret (partition_bytes d (d_offset d) len, (m', set_offset d (base_offset d + d_offset d + 1024))) /\
    forall x, ~ (tmp <= x < tmp + 1024) -> m' x = m x.
Proof.
  intros Hd Hlen Hfit Ht Hte Hpos Hds. pose proof Hd as [Hss Hb Hb5 Ho]. unfold read_bytes, urem.
  rewrite Hss. cbn [Z.eqb mbind outcome_bind].
  replace (ucast 32 (d_offset d) mod 512) with (d_offset d mod 512).
  2:{ unfold ucast. change (2 ^ 32) with (512 * 8388608). now rewrite Z.rem_mul_r, Z.mul_comm, Z.mod_add, Z.mod_mod by lia. }
  pose proof (Z.mod_pos_bound (d_offset d) 512 ltac:(lia)) as Hcso. set (cso := d_offset d mod 512) in *.
  unfold uadd. rewrite checked_ok by lia. cbn [mbind outcome_bind].
  unfold DEFAULT_SECTOR_SIZE. rewrite (proj2 (Z.leb_le _ _)) by lia. cbn [assert_true mbind outcome_bind].
  unfold disk_read, udiv. rewrite Hss. change (512 * 2 / 512) with 2. cbn [Z.eqb mbind outcome_bind].
  destruct (read_sectors_spec d 2 tmp (512 * 2) m Hd) as (m' & -> & Hm'); try lia; [reflexivity|].
  cbn [mbind outcome_bind]. exists m'. split.
  - f_equal. f_equal. unfold read_list, partition_bytes. rewrite Z2Nat.id by lia.
    apply list_fmap_ext. intros _ i Hi%list_elem_of_lookup_2%elem_of_seqZ.
    unfold load8. rewrite Hm'. unfold transfer.
    replace ((tmp <=? tmp + cso + i) && (tmp + cso + i <? tmp + 2 * 512)) with true by lia.
    rewrite Z.mod_small by apply image_byte. f_equal.
    assert (E : (base_offset d + d_offset d) mod 512 = cso).
    { rewrite Z.add_mod, Hb5, Z.add_0_l by lia. apply Z.mod_mod. lia. }
    pose proof (Z.div_mod (base_offset d + d_offset d) 512). lia.
  - intros x Hx. rewrite Hm'. unfold transfer.
    destruct (Z.leb_spec tmp x), (Z.ltb_spec x (tmp + 2 * 512)); cbn; lia || reflexivity.
Qed.

(** A sector read that is not preceded by a seek reads the wrong place: the
    first read leaves behind an offset that already contains the start of the
    partition, which the second read adds again. *)
Theorem second_read_misplaced d n k buf len m m1 d1 :
  disk_ok d -> 0 <= n -> 0 <= k -> n * 512 <= len -> k * 512 <= len -> len mod 512 = 0 ->
  0 <= buf -> buf + len <= 2 ^ 20 -> d_offset d mod 512 = 0 ->
  2 * base_offset d + d_offset d + n * 512 + k * 512 < 2 ^ 64 ->
  (2 * base_offset d + d_offset d + n * 512) / 512 + k <= disk_sectors (disk_number d) ->
  read_sectors d n buf len m = Ret (m1, d1) ->
  exists m2 d2, read_sectors d1 k buf len m1 = Ret (m2, d2) /\
    forall i, 0 <= i < k * 512 ->
      m2 (buf + i) = disk_image (disk_number d)
                       (base_offset d + (base_offset d + (d_offset d + n * 512)) + i).
Proof.
  intros Hd Hn Hk Hnl Hkl Hl Hbuf Hend Ho5 Hpos Hds E.
  pose proof Hd as [Hss Hb Hb5 Ho].
  assert (Hdiv : forall a b, a mod 512 = 0 -> b mod 512 = 0 -> (a + b) mod 512 = 0)
    by (intros a b Ea Eb; now rewrite Z.add_mod, Ea, Eb by lia).
  assert (Hn5 : (n * 512) mod 512 = 0) by (apply Z.mod_mul; lia).
  assert (Hexact : forall a, a mod 512 = 0 -> a / 512 * 512 = a)
    by (intros a Ea; pose proof (Z.div_mod a 512); lia).
  destruct (read_sectors_spec d n buf len m) as (m' & E' & _); try assumption; try lia.
  { apply Z.le_trans with ((2 * base_offset d + d_offset d + n * 512) / 512); [|lia].
    rewrite <- Z.div_add by lia. apply Z.div_le_mono; lia. }
  rewrite E in E'. injection E' as <- ->. set (d1 := set_offset d _).
  destruct (read_sectors_spec d1 k buf len m1) as (m2 & -> & Hm2); try assumption; cbn [d1 set_offset base_offset d_offset disk_number]; try lia.
  { split; cbn; [assumption | lia | assumption | lia]. }
  { replace (base_offset d + (base_offset d + d_offset d + n * 512)) with (2 * base_offset d + d_offset d + n * 512) by lia.
    assumption. }
  do 2 eexists. split; [reflexivity|]. intros i Hi. rewrite Hm2. unfold transfer.
  cbn [d1 set_offset base_offset d_offset disk_number].
  replace ((buf <=? buf + i) && (buf + i <? buf + k * 512)) with true by lia.
  rewrite Hexact by auto. f_equal. lia.
Qed.
End ReadSpec.
