(* ===== verification/Mbr.v ===== *)
(** The boot sector: [bootloader/x86_64/bios/mbr].

    The boot sector finds stage 2 with the partition table behind its own code
    and loads it in packets of at most 32 sectors.  It is built without overflow
    checks, so that arithmetic wraps.  Failure is not a panic: [fail] prints a
    character and halts, and is the outcome [Fails code] here. *)
From Stdlib Require Import ZArith Lia.
From stdpp Require Import base tactics numbers list.
From S2P Require Import Prelude Memory BootInfo Disk.
#[local] Open Scope Z_scope.

(** ** [util.rs]: code that ends in [fail] *)

Inductive halts (A : Type) : Type :=
  | Runs (a : A)
  | Fails (code : Z)
  | NoFuel.            (** the loop of the model ran out of fuel *)
Arguments Runs {A} a.
Arguments Fails {A} code.
Arguments NoFuel {A}.

#[global] Instance halts_ret : MRet halts := @Runs.
#[global] Instance halts_bind : MBind halts := fun A B k c =>
  match c with Runs a => k a | Fails e => Fails e | NoFuel => NoFuel end.

(** [Option::unwrap_or_fail] *)
Definition unwrap_or_fail {A} (o : option A) (code : Z) : halts A :=
  match o with Some v => Runs v | None => Fails code end.

(** The characters [b'c'] and so on. *)
Definition CODE_c : Z := 0x63.
Definition CODE_d : Z := 0x64.
Definition CODE_e : Z := 0x65.
Definition CODE_f : Z := 0x66.
Definition CODE_h : Z := 0x68.
Definition CODE_o : Z := 0x6f.

(** ** [mbr.rs]: the partition table *)

(** [buffer.get(at..).and_then(|s| s.get(..4))] as a little-endian word. *)
Definition get_u32 (buffer : list Z) (at_ : nat) : option Z :=
  let s := take 4 (drop at_ buffer) in
  if (length s =? 4)%nat then Some (from_le_bytes s) else None.

Definition get_partition (partition_table : list Z) (idx : Z) : halts PartitionTableEntry :=
  let offset := ucast 32 (idx * 16) in
  buffer ← unwrap_or_fail (if offset <=? Z.of_nat (length partition_table)
                           then Some (drop (Z.to_nat offset) partition_table) else None) CODE_c;
  bootable_raw ← unwrap_or_fail (buffer !! 0%nat) CODE_d;
  partition_type ← unwrap_or_fail (buffer !! 4%nat) CODE_e;
  lba ← unwrap_or_fail (get_u32 buffer 8) CODE_e;
  len ← unwrap_or_fail (get_u32 buffer 12) CODE_f;
  Runs (mkPartitionTableEntry (bootable_raw =? 0x80) partition_type lba len).

(** ** [dap.rs] *)

(** [DiskAddressPacket::new] of the boot sector. *)
Definition mbr_dap_new (buffer_address sector_count start_lba : Z) : halts DiskAddressPacket :=
  segment ← unwrap_or_fail (try_into 16 (Z.shiftr buffer_address 4)) CODE_o;
  Runs {| dap_size := 0x10; dap_zero := 0; dap_sector_count := sector_count;
        dap_offset := ucast 16 (Z.land buffer_address 15); dap_segment := segment;
        dap_start_lba := start_lba |}.

Section FirstStage.
Context `{BIOS : Bios}.

(** [DiskAddressPacket::load]: a set carry flag jumps to [fail] with ['h']. *)
Definition mbr_dap_load (p : DiskAddressPacket) (disk_number : Z) (m : mem) : halts mem :=
  match int13_read disk_number p m with Ret m => Runs m | Panic _ => Fails CODE_h end.

(** ** [main.rs] *)

(** [while sector_count > 0]; the fuel is the number of sectors and one more. *)
Fixpoint load_loop (fuel : nat) (disk_index sector_count start_lba buffer_address : Z) (m : mem) :
    halts mem :=
  match fuel with
  | O => NoFuel
  | S fuel =>
      if 0 <? sector_count then
        let sectors := ucast 16 (Z.min sector_count 0x20) in
        packet ← mbr_dap_new buffer_address sectors start_lba;
        m ← mbr_dap_load packet disk_index m;
        load_loop fuel disk_index (ucast 32 (sector_count - sectors)) (ucast 64 (start_lba + sectors))
          (ucast 32 (buffer_address + sectors * 512)) m
      else Runs m
  end.

(** [first_stage]: the memory, and the arguments of stage 2, which is called at
    [second_stage_start]. *)
Definition first_stage (partition_table second_stage_start disk_index : Z) (m : mem) :
    halts (mem * (Z * Z)) :=
  pte ← get_partition (read_list m partition_table (4 * 16)) 0;
  m ← load_loop (S (Z.to_nat (sector_count pte))) disk_index (sector_count pte)
        (logical_block_address pte) second_stage_start m;
  Runs (m, (disk_index, partition_table)).
End FirstStage.

(** ** The partition table as it is laid out *)

(** One entry of 16 bytes; the fields the loader ignores are [chs1] and [chs2]. *)
Definition encode_partition (e : PartitionTableEntry) (chs1 chs2 : list Z) : list Z :=
  (if bootable e then 0x80 else 0) :: chs1 ++ partition_type e :: chs2 ++
  to_le_bytes 4 (logical_block_address e) ++ to_le_bytes 4 (sector_count e).

Record entry_ok (e : PartitionTableEntry) : Prop := {
  eo_lba : in_width 32 (logical_block_address e);
  eo_count : in_width 32 (sector_count e);
}.

Lemma get_u32_app pre v post at_ :
  in_width 32 v -> length pre = at_ -> get_u32 (pre ++ to_le_bytes 4 v ++ post) at_ = Some v.
Proof.
  intros Hv <-. unfold get_u32. rewrite drop_app_length.
  rewrite (take_app_length' (to_le_bytes 4 v)) by (symmetry; apply length_to_le_bytes).
  rewrite length_to_le_bytes. cbn [Nat.eqb]. rewrite from_to_le_bytes by exact Hv. reflexivity.
Qed.

Lemma get_partition_encoded pre e chs1 chs2 post idx :
  entry_ok e -> length chs1 = 3%nat -> length chs2 = 3%nat ->
  0 <= idx < 2 ^ 28 -> length pre = Z.to_nat (16 * idx) ->
  get_partition (pre ++ encode_partition e chs1 chs2 ++ post) idx = Runs e.
Proof.
  intros [Hl Hc] H1 H2 Hi Hpre. unfold get_partition, ucast.
  rewrite Z.mod_small, length_app by lia.
  rewrite (proj2 (Z.leb_le _ _)) by lia.
  replace (Z.to_nat (idx * 16)) with (length pre) by lia. rewrite drop_app_length.
  cbn [unwrap_or_fail mbind halts_bind]. unfold encode_partition.
  destruct chs1 as [|a1 [|a2 [|a3 [|]]]]; [discriminate H1..| |discriminate H1].
  destruct chs2 as [|b1 [|b2 [|b3 [|]]]]; [discriminate H2..| |discriminate H2].
  cbn [app lookup list_lookup unwrap_or_fail mbind halts_bind].
  rewrite <- ?app_assoc.
  set (f := if bootable e then 0x80 else 0).
  set (hdr := [f; a1; a2; a3; partition_type e; b1; b2; b3]).
  pose proof (get_u32_app hdr (logical_block_address e) (to_le_bytes 4 (sector_count e) ++ post) 8 Hl eq_refl) as E1.
  pose proof (get_u32_app (hdr ++ to_le_bytes 4 (logical_block_address e)) (sector_count e) post 12 Hc eq_refl) as E2.
  rewrite <- app_assoc in E2. cbn [hdr app] in E1, E2. rewrite E1. cbn [unwrap_or_fail mbind halts_bind].
  rewrite E2. cbn [unwrap_or_fail mbind halts_bind].
  destruct e as [[] ? ? ?]; reflexivity.
Qed.

(** The boot sector and stage 2 read a partition table alike. *)
Lemma partition_readers_agree table idx e :
  0 <= idx < 2 ^ 28 ->
  get_partition table idx = Runs e <-> get_partition_table_entry table idx = Ret e.
Proof.
  intros Hi. unfold get_partition, get_partition_table_entry, ucast, umul, get_u32, partition_u32.
  rewrite Z.mod_small, checked_ok by lia. cbn [mbind outcome_bind].
  destruct (idx * 16 <=? _); [cbn [unwrap unwrap_or_fail mbind halts_bind outcome_bind] | easy].
  set (buffer := drop _ table).
  destruct (buffer !! 0%nat); cbn; [|easy]. destruct (buffer !! 4%nat); cbn; [|easy].
  destruct (length (take 4 (drop 8 buffer)) =? 4)%nat; cbn; [|easy].
  destruct (length (take 4 (drop 12 buffer)) =? 4)%nat; cbn; [|easy].
  split; congruence.
Qed.

(** Every entry of a complete table can be read. *)
Lemma get_partition_total table idx :
  length table = 64%nat -> 0 <= idx < 4 -> exists e, get_partition table idx = Runs e.
Proof.
  intros Hl Hi. unfold get_partition, ucast. rewrite Z.mod_small by lia.
  rewrite (proj2 (Z.leb_le _ _)) by lia. cbn [unwrap_or_fail mbind halts_bind].
  set (buffer := drop _ table). assert (Hb : (16 <= length buffer)%nat) by (unfold buffer; rewrite length_drop; lia).
  assert (Hu : forall at_, (at_ <= 12)%nat -> exists v, get_u32 buffer at_ = Some v).
  { intros at_ Ha. unfold get_u32. rewrite length_take_le by (rewrite length_drop; lia). eauto. }
  destruct (lookup_lt_is_Some_2 buffer 0) as [v0 ->]; [lia|].
  destruct (lookup_lt_is_Some_2 buffer 4) as [v4 ->]; [lia|].
  destruct (Hu 8%nat) as [v8 ->]; [lia|]. destruct (Hu 12%nat) as [v12 ->]; [lia|]. cbn. eauto.
Qed.

(** ** Loading stage 2 *)

Section FirstStageSpec.
Context `{BS : BiosSpec}.
Implicit Types (m : mem).

(** Below 1 MiB the packets of the boot sector are those of stage 2. *)
Lemma mbr_dap_new_dap_new a n lba p :
  0 <= a < 2 ^ 32 -> dap_new a n lba = Ret p -> mbr_dap_new a n lba = Runs p.
Proof.
  intros Ha. unfold dap_new, mbr_dap_new, ushr. cbn [andb Z.leb Z.ltb Z.compare Pos.compare Pos.compare_cont mbind outcome_bind].
  destruct (try_into 16 (Z.shiftr a 4)); cbn; congruence.
Qed.

Lemma load_loop_spec fuel disk n a lba m :
  0 <= n < 2 ^ 32 -> (Z.to_nat n < fuel)%nat ->
  0 <= a -> a + n * 512 <= 2 ^ 20 -> 0 <= lba -> lba + n <= disk_sectors disk -> lba + n < 2 ^ 64 ->
  exists m', load_loop fuel disk n lba a m = Runs m' /\
    forall x, m' x = transfer m a (disk_image disk) (lba * 512) (n * 512) x.
Proof.
  revert n a lba m. induction fuel as [|fuel IH]; intros n a lba m Hn Hf Ha Hend Hlba Hds Hw; [lia|].
  cbn [load_loop]. destruct (Z.ltb_spec 0 n) as [Hpos|Hz].
  2:{ exists m. split; [reflexivity|]. intros x. unfold transfer.
      destruct (Z.leb_spec a x), (Z.ltb_spec x (a + n * 512)); cbn; lia || reflexivity. }
  set (c := Z.min n 0x20). assert (Hc : 0 < c <= 32 /\ c <= n) by lia.
  replace (ucast 16 c) with c by (unfold ucast; rewrite Z.mod_small; lia).
  destruct (dap_new_spec a c lba) as (p & Ep & E1 & E2 & E3 & E4); [lia|].
  rewrite (mbr_dap_new_dap_new a c lba p) by (assumption || lia). cbn [mbind halts_bind].
  unfold mbr_dap_load. rewrite int13_read_spec by lia. cbn [mbind halts_bind].
  unfold ucast. rewrite !Z.mod_small by lia. rewrite E2, E3, E4.
  destruct (IH (n - c) (a + c * 512) (lba + c)
    (transfer m a (disk_image disk) (lba * 512) (c * 512))) as (m' & -> & Hm'); [lia..|].
  exists m'. split; [reflexivity|]. intros x. rewrite Hm'.
  replace ((lba + c) * 512) with (lba * 512 + c * 512) by lia.
  rewrite transfer_app by lia. do 2 f_equal. lia.
Qed.

(** The boot sector on a table whose first entry is [e]. *)
Lemma first_stage_spec partition_table second_stage_start disk m e chs1 chs2 post :
  entry_ok e -> length chs1 = 3%nat -> length chs2 = 3%nat ->
  read_list m partition_table 64 = encode_partition e chs1 chs2 ++ post ->
  0 <= second_stage_start -> second_stage_start + sector_count e * 512 <= 2 ^ 20 ->
  logical_block_address e + sector_count e <= disk_sectors disk ->
  exists m', first_stage partition_table second_stage_start disk m = Runs (m', (disk, partition_table)) /\
    (forall i, 0 <= i < sector_count e * 512 ->
       m' (second_stage_start + i) = disk_image disk (logical_block_address e * 512 + i)) /\
    forall x, ~ (second_stage_start <= x < second_stage_start + sector_count e * 512) -> m' x = m x.
Proof.
  intros He H1 H2 Hread Hs Hend Hds. unfold first_stage.
  change (4 * 16)%nat with 64%nat. rewrite Hread.
  pose proof (get_partition_encoded [] e chs1 chs2 post 0 He H1 H2) as E. cbn [app] in E.
  rewrite E by (reflexivity || lia).
  cbn [mbind halts_bind]. destruct He as [[Hl0 Hl] [Hc0 Hc]].
  destruct (load_loop_spec (S (Z.to_nat (sector_count e))) disk (sector_count e) second_stage_start
    (logical_block_address e) m) as (m' & -> & Hm'); [lia..|].
  cbn [mbind halts_bind]. exists m'. split; [reflexivity|]. split; intros x Hx; rewrite Hm'; unfold transfer.
  - replace ((second_stage_start <=? second_stage_start + x) &&
      (second_stage_start + x <? second_stage_start + sector_count e * 512)) with true by lia.
    f_equal. lia.
  - destruct (Z.leb_spec second_stage_start x),
      (Z.ltb_spec x (second_stage_start + sector_count e * 512)); cbn; lia || reflexivity.
Qed.

(** C23: the boot sector loads stage 2: all sectors of the first partition, in
    order, from [second_stage_start] on, and nothing else is written; stage 2 is
    called with the drive and the address of the partition table. *)
Theorem first_stage_correct partition_table second_stage_start disk m e chs1 chs2 post :
  entry_ok e -> length chs1 = 3%nat -> length chs2 = 3%nat ->
  read_list m partition_table 64 = encode_partition e chs1 chs2 ++ post ->
  0 <= second_stage_start -> second_stage_start + sector_count e * 512 <= 2 ^ 20 ->
  logical_block_address e + sector_count e <= disk_sectors disk ->
  exists m', first_stage partition_table second_stage_start disk m = Runs (m', (disk, partition_table)) /\
    (forall i, 0 <= i < sector_count e * 512 ->
       m' (second_stage_start + i) = disk_image disk (logical_block_address e * 512 + i)) /\
    forall x, ~ (second_stage_start <= x < second_stage_start + sector_count e * 512) -> m' x = m x.
Proof. apply first_stage_spec. Qed.
End FirstStageSpec.

(** Stage 2 of three sectors in sectors 1 to 3, loaded at [0x7e00]. *)
Lemma first_stage_correct_witness :
  let table := encode_partition (mkPartitionTableEntry true 0x20 1 3) [0; 0; 0] [0; 0; 0] ++ replicate 48 0 in
  exists m', @first_stage (image_bios id) 0x7dbe 0x7e00 0x80 (write_list (fun _ => 0) 0x7dbe table)
      = Runs (m', (0x80, 0x7dbe)) /\
    (forall i, 0 <= i < 3 * 512 -> m' (0x7e00 + i) = (512 + i) mod 256) /\
    forall x, ~ (0x7e00 <= x < 0x7e00 + 3 * 512) -> m' x = write_list (fun _ => 0) 0x7dbe table x.
Proof.
  apply (@first_stage_correct _ (image_bios_spec id) 0x7dbe 0x7e00 0x80 _
           (mkPartitionTableEntry true 0x20 1 3) [0; 0; 0] [0; 0; 0] (replicate 48 0)).
  - split; unfold in_width; cbn [logical_block_address sector_count]; lia.
  - reflexivity.
  - reflexivity.
  - vm_compute. reflexivity.
  - lia.
  - cbn [sector_count]. lia.
  - vm_compute. discriminate.
Defined.
