(* ===== verification/MemoryMap.v ===== *)
(** The firmware's memory map: [stage2/src/memory_map.rs].

    BIOS interrupt 0x15, function 0xE820, is a parameter: one call answers for
    one continuation value and stores a region.  Its documented protocol is the
    class [E820Spec]. *)
From Stdlib Require Import ZArith Lia.
From stdpp Require Import base tactics numbers list.
From S2P Require Import Prelude Memory BootInfo.
#[local] Open Scope Z_scope.

Definition MAGIC_NUMBER : Z := 0x534D4150.

(** [int 0x15] with [eax = 0xE820]: from the continuation in [ebx] and the buffer
    at [es:di] to [eax], [ecx], [ebx] and the buffer. *)
Class BiosE820 := {
  int15_e820 : Z -> E820MemoryRegion -> Z * Z * Z * E820MemoryRegion;
}.

Record MemoryMap := mkMemoryMap { mm_map : list E820MemoryRegion; mm_size : Z }.

(** The initial value of the static [MEMORY_MAP]. *)
Definition MEMORY_MAP : MemoryMap := mkMemoryMap (replicate 0x20 E820MemoryRegion_empty) 0.

Section Get.
Context `{BIOS : BiosE820}.

(** The [loop] of [MemoryMap::get]. *)
Fixpoint e820_loop (fuel : nat) (cont_id entries_cnt : Z) (map : list E820MemoryRegion) :
    outcome (Result Z unit * list E820MemoryRegion) :=
  match fuel with
  | O => Panic FuelExhausted
  | S fuel =>
      buffer ← index map entries_cnt;
      let '(signature, len, cont_id, entry) := int15_e820 cont_id buffer in
      let map := <[Z.to_nat entries_cnt := entry]> map in
      if negb (signature =? MAGIC_NUMBER) then Ret (Err tt, map)
      else if (0x20 <? len) && (Z.land (acpi_extended_attributes entry) 0x1 =? 0) then
        e820_loop fuel cont_id entries_cnt map
      else if (cont_id =? 0) || (Z.of_nat (length map) <? entries_cnt) then
        Ret (Ok entries_cnt, map)
      else
        n ← uadd 32 entries_cnt 1;
        e820_loop fuel cont_id n map
  end.

(** [MemoryMap::get] on the contents of the static. *)
Definition memory_map_get (fuel : nat) (memory_map : MemoryMap) :
    outcome (Result unit unit * MemoryMap) :=
  '(r, map) ← e820_loop fuel 0 0 (mm_map memory_map);
  match r with
  | Err e => Ret (Err e, mkMemoryMap map (mm_size memory_map))
  | Ok entries_cnt => Ret (Ok tt, mkMemoryMap map entries_cnt)
  end.
End Get.

(** [MemoryMap::iter] *)
Definition memory_map_iter (mm : MemoryMap) : outcome (list E820MemoryRegion) :=
  if mm_size mm <=? Z.of_nat (length (mm_map mm))
  then Ret (take (Z.to_nat (mm_size mm)) (mm_map mm)) else Panic IndexOutOfBounds.

(** ** The protocol of the firmware *)

(** What a region says, leaving its extended attributes aside. *)
Definition same_region (r r' : E820MemoryRegion) : Prop :=
  e820_start r = e820_start r' /\ e820_size r = e820_size r' /\ e820_typ r = e820_typ r'.

Class E820Spec (B : BiosE820) := {
  firmware_map : list E820MemoryRegion;
  continuation : nat -> Z;
  continuation_first : continuation 0 = 0;
  continuation_nonzero i : (0 < i < length firmware_map)%nat -> continuation i <> 0;
  (** region [i] is stored for continuation [i]; 20 or 24 bytes are stored; the
      continuation returned with the last region is 0 *)
  int15_e820_spec i r buffer :
    firmware_map !! i = Some r ->
    exists len entry, int15_e820 (continuation i) buffer =
        (MAGIC_NUMBER, len, if (S i <? length firmware_map)%nat then continuation (S i) else 0, entry) /\
      len <= 24 /\ same_region entry r;
}.

Section GetSpec.
Context `{ES : E820Spec}.

(** The loop has stored the regions up to [i] and goes on from there. *)
Lemma e820_loop_spec k i fuel map :
  (i + k = length firmware_map)%nat -> (0 < k <= fuel)%nat ->
  (length firmware_map <= length map)%nat -> Z.of_nat (length map) < 2 ^ 31 ->
  (forall j r, (j < i)%nat -> firmware_map !! j = Some r -> exists e, map !! j = Some e /\ same_region e r) ->
  exists map', e820_loop fuel (continuation i) (Z.of_nat i) map
      = Ret (Ok (Z.of_nat (length firmware_map) - 1), map') /\ length map' = length map /\
    forall j r, firmware_map !! j = Some r -> exists e, map' !! j = Some e /\ same_region e r.
Proof.
  revert i fuel map. induction k as [|k IH]; intros i fuel map Hk Hf Hlen Hw Hpre; [lia|].
  destruct fuel as [|fuel]; [lia|]. cbn [e820_loop].
  destruct (lookup_lt_is_Some_2 firmware_map i) as [r Hr]; [lia|].
  destruct (lookup_lt_is_Some_2 map i) as [b Hb]; [lia|].
  unfold index. rewrite (proj2 (Z.leb_le 0 (Z.of_nat i))), Nat2Z.id, Hb by lia. cbn [mbind outcome_bind].
  destruct (int15_e820_spec i r b Hr) as (len & entry & -> & Hl & Hsame).
  rewrite Z.eqb_refl, (proj2 (Z.ltb_ge 0x20 len)) by lia. cbn [negb andb].
  set (map1 := <[i := entry]> map).
  assert (Hlen1 : length map1 = length map) by apply length_insert.
  assert (Hpre1 : forall j r, (j < S i)%nat -> firmware_map !! j = Some r ->
            exists e, map1 !! j = Some e /\ same_region e r).
  { intros j r' Hj Er. destruct (decide (j = i)) as [->|Hne].
    - exists entry. split; [apply list_lookup_insert_eq; lia|]. congruence.
    - destruct (Hpre j r') as (e & He & Hs); [lia | assumption|]. exists e.
      split; [unfold map1; now rewrite list_lookup_insert_ne by congruence | assumption]. }
  destruct (Nat.ltb_spec (S i) (length firmware_map)) as [Hmore|Hlast].
  - rewrite (proj2 (Z.eqb_neq _ _)) by (apply continuation_nonzero; lia).
    rewrite (proj2 (Z.ltb_ge _ _)) by lia. cbn [orb]. unfold uadd. rewrite checked_ok by lia. cbn [mbind outcome_bind].
    replace (Z.of_nat i + 1) with (Z.of_nat (S i)) by lia. rewrite <- Hlen1. apply IH; lia || assumption.
  - cbn [Z.eqb orb]. exists map1. split; [f_equal; f_equal; f_equal; lia|]. split; [assumption|].
    intros j r' Er. apply Hpre1; [|assumption]. apply lookup_lt_Some in Er. lia.
Qed.

(** [MemoryMap::get] stores every region and counts all but the last. *)
Lemma memory_map_get_spec fuel :
  (0 < length firmware_map <= 32)%nat -> (length firmware_map <= fuel)%nat ->
  exists map, memory_map_get fuel MEMORY_MAP = Ret (Ok tt, mkMemoryMap map (Z.of_nat (length firmware_map) - 1)) /\
    length map = 32%nat /\
    forall j r, firmware_map !! j = Some r -> exists e, map !! j = Some e /\ same_region e r.
Proof.
  intros Hn Hf. unfold memory_map_get. cbn [MEMORY_MAP mm_map].
  destruct (e820_loop_spec (length firmware_map) 0 fuel (replicate 0x20 E820MemoryRegion_empty))
    as (map & E & Hlen & Hmap); rewrite ?length_replicate; [lia.. | |].
  { intros j r Hj. lia. }
  rewrite continuation_first in E. change (Z.of_nat 0) with 0 in E. rewrite E. cbn [mbind outcome_bind].
  exists map. now rewrite length_replicate in Hlen.
Qed.

(** The regions a map of that form yields. *)
Lemma memory_map_iter_spec map :
  (0 < length firmware_map <= 32)%nat -> length map = 32%nat ->
  (forall j r, firmware_map !! j = Some r -> exists e, map !! j = Some e /\ same_region e r) ->
  exists l, memory_map_iter (mkMemoryMap map (Z.of_nat (length firmware_map) - 1)) = Ret l /\
    Forall2 same_region l (take (length firmware_map - 1) firmware_map).
Proof.
  intros Hn Hlen Hmap. unfold memory_map_iter. cbn [mm_size mm_map].
  rewrite (proj2 (Z.leb_le _ _)) by lia. eexists. split; [reflexivity|].
  apply Forall2_same_length_lookup_2.
  - rewrite !length_take. lia.
  - intros j e r He Hr. apply lookup_take_Some in He as [He _], Hr as [Hr _].
    destruct (Hmap j r Hr) as (e' & He' & Hs). congruence.
Qed.

(** A firmware map of up to 32 regions is read into the static completely, but
    its last region is not counted: the map consists of all regions but the
    last, in order. *)
Theorem memory_map_misses_last fuel :
  (0 < length firmware_map <= 32)%nat -> (length firmware_map <= fuel)%nat ->
  exists mm l, memory_map_get fuel MEMORY_MAP = Ret (Ok tt, mm) /\ memory_map_iter mm = Ret l /\
    Forall2 same_region l (take (length firmware_map - 1) firmware_map).
Proof.
  intros Hn Hf. destruct (memory_map_get_spec fuel Hn Hf) as (map & E & Hlen & Hmap).
  destruct (memory_map_iter_spec map Hn Hlen Hmap) as (l & El & Hl). eauto.
Qed.

(** A longer map does not fit: the index runs past the array. *)
Lemma e820_loop_overflow k i fuel map :
  (i + k = length map)%nat -> (k < fuel)%nat -> (length map < length firmware_map)%nat ->
  Z.of_nat (length map) < 2 ^ 31 ->
  e820_loop fuel (continuation i) (Z.of_nat i) map = Panic IndexOutOfBounds.
Proof.
  revert i fuel map. induction k as [|k IH]; intros i fuel map Hk Hf Hlen Hw;
    (destruct fuel as [|fuel]; [lia|]); cbn [e820_loop]; unfold index;
    rewrite (proj2 (Z.leb_le 0 (Z.of_nat i))), Nat2Z.id by lia.
  - rewrite (lookup_ge_None_2 map) by lia. reflexivity.
  - destruct (lookup_lt_is_Some_2 firmware_map i) as [r Hr]; [lia|].
    destruct (lookup_lt_is_Some_2 map i) as [b Hb]; [lia|]. rewrite Hb. cbn [mbind outcome_bind].
    destruct (int15_e820_spec i r b Hr) as (len & entry & -> & Hl & _).
    rewrite Z.eqb_refl, (proj2 (Z.ltb_ge 0x20 len)) by lia. cbn [negb andb].
    rewrite (proj2 (Nat.ltb_lt (S i) (length firmware_map))) by lia.
    rewrite (proj2 (Z.eqb_neq _ _)) by (apply continuation_nonzero; lia).
    rewrite length_insert, (proj2 (Z.ltb_ge _ _)) by lia. cbn [orb].
    unfold uadd. rewrite checked_ok by lia. cbn [mbind outcome_bind].
    replace (Z.of_nat i + 1) with (Z.of_nat (S i)) by lia. apply IH; rewrite ?length_insert; lia.
Qed.
End GetSpec.

(** ** A firmware that reports a list of regions *)

Definition list_e820 (regions : list E820MemoryRegion) : BiosE820 := {|
  int15_e820 c buffer :=
    (MAGIC_NUMBER, 24, if (S (Z.to_nat c) <? length regions)%nat then c + 1 else 0,
     nth (Z.to_nat c) regions E820MemoryRegion_empty)
|}.

#[program] Definition list_e820_spec regions : E820Spec (list_e820 regions) := {|
  firmware_map := regions;
  continuation := Z.of_nat
|}.
Next Obligation. reflexivity. Qed.
Next Obligation. cbn. intros. lia. Qed.
Next Obligation.
  intros regions i r buffer E. cbn -[Nat.ltb]. rewrite Nat2Z.id. do 2 eexists. split; [|split; [reflexivity | now repeat split]].
  rewrite (nth_lookup_Some _ _ _ _ E). do 2 f_equal. destruct (S i <? length regions)%nat; [symmetry; exact (Nat2Z.inj_succ i) | reflexivity].
Qed.

(** Two regions. *)
Definition ex_regions : list E820MemoryRegion :=
  [mkE820 0 0x9fc00 E820_Normal 1; mkE820 0x100000 0x7ee0000 E820_Normal 1].

Lemma memory_map_misses_last_witness :
  exists mm l, @memory_map_get (list_e820 ex_regions) 2 MEMORY_MAP = Ret (Ok tt, mm) /\ memory_map_iter mm = Ret l /\
    Forall2 same_region l (take 1 ex_regions).
Proof. apply (@memory_map_misses_last _ (list_e820_spec ex_regions) 2); cbn; lia. Defined.
