(* ===== verification/Vesa.v ===== *)
(** Choosing a video mode: [stage2/src/vesa.rs].

    The VESA functions of BIOS interrupt 0x10 are parameters: each returns [ax]
    and an information block.  The list of mode numbers is in memory, at the real
    mode pointer of the controller's block.  Of the blocks, the fields that the
    code reads are kept. *)
From Stdlib Require Import ZArith Lia.
From stdpp Require Import base tactics numbers list sets.
From S2P Require Import Prelude Memory BootInfo.
#[local] Open Scope Z_scope.

Definition VESA_SUCCESS : Z := 0x004f.

Record VbeInfo := mkVbeInfo { video_mode_array_pointer : Z }.

Record VbeModeInfo := mkVbeModeInfo {
  mode_attributes : Z;
  bytes_per_scanline : Z;
  mode_width : Z;
  mode_height : Z;
  bits_per_pixel : Z;
  memory_model : Z;
  red_position : Z;
  green_position : Z;
  blue_position : Z;
  mode_framebuffer : Z;
}.

Definition VbeInfo_default : VbeInfo := mkVbeInfo 0.
Definition VbeModeInfo_default : VbeModeInfo := mkVbeModeInfo 0 0 0 0 0 0 0 0 0 0.

Class Vbe := {
  (** [ax = 0x4f00]: information on the controller *)
  vbe_controller_info : Z * VbeInfo;
  (** [ax = 0x4f01], the mode in [cx]: information on a mode *)
  vbe_mode_info : Z -> Z * VbeModeInfo;
  (** [ax = 0x4f02], the mode in [bx]: the status of setting the mode *)
  vbe_set_mode : Z -> Z;
}.

Section Vesa.
Context `{VBE : Vbe}.

(** [VbeInfo::get] *)
Definition VbeInfo_get : Result VbeInfo Z :=
  let '(ret, obj) := vbe_controller_info in
  if ret =? VESA_SUCCESS then Ok obj else Err ret.

(** [VbeModeInfo::get]; the block is at [obj_ptr], on the stack.  Its real mode
    pointer is made from the halves of the address, so the block is filled where
    that denotes the address. *)
Definition VbeModeInfo_get (obj_ptr mode : Z) : Result VbeModeInfo Z :=
  let '(ret, info) := vbe_mode_info mode in
  let obj := if realmode_segment obj_ptr * 16 + realmode_offset obj_ptr =? obj_ptr
             then info else VbeModeInfo_default in
  if ret =? VESA_SUCCESS then Ok obj else Err ret.

(** [VbeInfo::get_mode] *)
Definition get_mode (self : VbeInfo) (m : mem) (offset : Z) : outcome (option Z) :=
  let video_mode_ptr := video_mode_array_pointer self in
  s ← ushl 32 (realmode_segment video_mode_ptr) 4;
  ptr ← uadd 32 s (realmode_offset video_mode_ptr);
  let mode := load_le m (ptr + 2 * offset) 2 in
  Ret (if mode =? 0xffff then None else Some mode).

Definition abs_diff (x y : Z) : Z := if x <? y then y - x else x - y.

(** [for i in 0..] of [get_best_mode], from [i] on. *)
Fixpoint best_mode_loop (fuel : nat) (obj_ptr : Z) (self : VbeInfo) (m : mem) (width height depth i : Z)
    (best : option Z) (best_pix_diff best_depth_diff : Z) : outcome (option Z) :=
  match fuel with
  | O => Panic FuelExhausted
  | S fuel =>
      i' ← uadd 31 i 1;
      mode ← get_mode self m i;
      match mode with
      | None => Ret best
      | Some mode =>
      let continue_ := best_mode_loop fuel obj_ptr self m width height depth i' in
      match VbeModeInfo_get obj_ptr mode with
      | Err _ => continue_ best best_pix_diff best_depth_diff
      | Ok info =>
          if negb (Z.land (mode_attributes info) 0x90 =? 0x90) then
            continue_ best best_pix_diff best_depth_diff
          else if negb (memory_model info =? 4) && negb (memory_model info =? 6) then
            continue_ best best_pix_diff best_depth_diff
          else if (mode_width info =? width) && (mode_height info =? height) && (bits_per_pixel info =? depth) then
            Ret (Some mode)
          else
            p ← umul 32 (mode_width info) (mode_height info);
            q ← umul 32 width height;
            let pix_diff := abs_diff p q in
            let depth_diff := abs_diff (bits_per_pixel info) depth in
            if (pix_diff <? best_pix_diff) || ((best_pix_diff =? pix_diff) && (depth_diff <? best_depth_diff)) then
              continue_ (Some mode) pix_diff depth_diff
            else continue_ best best_pix_diff best_depth_diff
      end
      end
  end.

(** [VbeInfo::get_best_mode] *)
Definition get_best_mode (fuel : nat) (obj_ptr : Z) (self : VbeInfo) (m : mem) (width height depth : Z) :
    outcome (option Z) :=
  best_mode_loop fuel obj_ptr self m width height depth 0 None (2 ^ 32 - 1) (2 ^ 8 - 1).

(** [VbeInfo::set_mode]: with the linear frame buffer, and the screen cleared.
    [video] is the mode the display is in: the value of [bx] of the last call that
    succeeded. *)
Definition set_mode (mode : Z) (video : option Z) : Result unit Z * option Z :=
  let mode := Z.lor mode (Z.shiftl 1 14) in
  let mode := Z.land mode (unot 16 (Z.shiftl 1 15)) in
  let ret := vbe_set_mode mode in
  if ret =? VESA_SUCCESS then (Ok tt, Some mode) else (Err ret, video).
End Vesa.

(** [VbeModeInfo::get_pixel_format] *)
Definition get_pixel_format (self : VbeModeInfo) : PixelFormat :=
  if (red_position self =? 0) && (green_position self =? 8) && (blue_position self =? 16) then Rgb
  else if (red_position self =? 16) && (green_position self =? 8) && (blue_position self =? 0) then Bgr
  else Unknown (red_position self) (green_position self) (blue_position self).

(** [VbeModeInfo::to_framebuffer_info] *)
Definition to_framebuffer_info (self : VbeModeInfo) : outcome FramebufferInfo :=
  bytes_per_pixel ← udiv (bits_per_pixel self) 8;
  size ← umul 64 (mode_height self) (bytes_per_scanline self);
  let region := PhysicalMemoryRegion_new (mode_framebuffer self) size Reserved in
  stride ← udiv (bytes_per_scanline self) bytes_per_pixel;
  Ret (mkFramebufferInfo region (mode_width self) (mode_height self) bytes_per_pixel stride
         (get_pixel_format self)).

(** ** The mode that is chosen *)

Section BestMode.
Context `{VBE : Vbe}.
Context (obj_ptr : Z) (self : VbeInfo) (m : mem) (width height depth : Z).

(** Mode [n] can be used, and [info] describes it: the call succeeds, it has a
    linear frame buffer, and pixels are packed or direct colours. *)
Definition usable_mode (n : Z) (info : VbeModeInfo) : Prop :=
  vbe_mode_info n = (VESA_SUCCESS, info) /\ Z.land (mode_attributes info) 0x90 = 0x90 /\
  (memory_model info = 4 \/ memory_model info = 6).

Definition exact_mode (info : VbeModeInfo) : Prop :=
  mode_width info = width /\ mode_height info = height /\ bits_per_pixel info = depth.

(** The distance to what is asked for: in pixels, then in depth. *)
Definition pix_distance (info : VbeModeInfo) : Z :=
  Z.abs (mode_width info * mode_height info - width * height).
Definition depth_distance (info : VbeModeInfo) : Z := Z.abs (bits_per_pixel info - depth).

Definition no_closer (info info' : VbeModeInfo) : Prop :=
  pix_distance info < pix_distance info' \/
  pix_distance info = pix_distance info' /\ depth_distance info <= depth_distance info'.

Definition closer (info info' : VbeModeInfo) : Prop :=
  pix_distance info < pix_distance info' \/
  pix_distance info = pix_distance info' /\ depth_distance info < depth_distance info'.

(** What the firmware is told to set a mode: with the linear frame buffer, and
    without keeping the contents of the screen. *)
Definition mode_command (n : Z) : Z := Z.land (Z.lor n (Z.shiftl 1 14)) (unot 16 (Z.shiftl 1 15)).

(** The array of mode numbers, closed by [0xffff]. *)
Record mode_array (modes : list Z) : Prop := {
  ma_mode i n : modes !! i = Some n -> get_mode self m (Z.of_nat i) = Ret (Some n);
  ma_end : get_mode self m (Z.of_nat (length modes)) = Ret None;
  ma_length : Z.of_nat (length modes) < 2 ^ 31 - 1;
}.

(** The fields have the widths of their types. *)
Definition info_ok (info : VbeModeInfo) : Prop :=
  in_width 16 (mode_width info) /\ in_width 16 (mode_height info) /\ in_width 8 (bits_per_pixel info) /\
  in_width 16 (bytes_per_scanline info).

Context (modes : list Z) (Hm : mode_array modes) (Hptr : 0 <= obj_ptr < 2 ^ 16).
Context (Hinfo : forall n, n ∈ modes -> info_ok (vbe_mode_info n).2).
Context (Hw : in_width 16 width) (Hh : in_width 16 height).

(** The best of the modes seen, with its distances: the first of the closest. *)
Definition best_so_far (seen : list Z) (best : option Z) (bp bd : Z) : Prop :=
  (forall n info, n ∈ seen -> usable_mode n info -> ~ exact_mode info) /\
  match best with
  | None => bp = 2 ^ 32 - 1 /\ bd = 2 ^ 8 - 1 /\ forall n info, n ∈ seen -> ~ usable_mode n info
  | Some b => exists i ib, seen !! i = Some b /\ usable_mode b ib /\ bp = pix_distance ib /\ bd = depth_distance ib /\
      (forall n info, n ∈ seen -> usable_mode n info -> no_closer ib info) /\
      (forall n info, n ∈ take i seen -> usable_mode n info -> closer ib info)
  end.

(** What the loop returns: the first usable mode that matches exactly; without one,
    the first usable mode that no usable mode is closer than. *)
Definition best_result (r : option Z) : Prop :=
  match r with
  | None => forall n info, n ∈ modes -> ~ usable_mode n info
  | Some b => exists i ib, modes !! i = Some b /\ usable_mode b ib /\
      (forall n info, n ∈ modes -> usable_mode n info -> no_closer ib info) /\
      (exact_mode ib /\ (forall n info, n ∈ take i modes -> usable_mode n info -> ~ exact_mode info) \/
       (forall n info, n ∈ modes -> usable_mode n info -> ~ exact_mode info) /\
       (forall n info, n ∈ take i modes -> usable_mode n info -> closer ib info))
  end.

Lemma abs_diff_abs x y : abs_diff x y = Z.abs (x - y).
Proof. unfold abs_diff. destruct (Z.ltb_spec x y); lia. Qed.

Lemma VbeModeInfo_get_low n :
  VbeModeInfo_get obj_ptr n =
    if (vbe_mode_info n).1 =? VESA_SUCCESS then Ok (vbe_mode_info n).2 else Err (vbe_mode_info n).1.
Proof.
  unfold VbeModeInfo_get, realmode_segment, realmode_offset, ucast.
  rewrite Z.shiftr_div_pow2, (Z.div_small obj_ptr), (Z.mod_small obj_ptr) by lia.
  rewrite Z.mod_0_l by lia. cbn [Z.mul Z.add]. rewrite Z.eqb_refl. now destruct (vbe_mode_info n).
Qed.

(** A mode that is seen later changes nothing in front of an earlier one. *)
Lemma take_snoc (i : nat) (seen : list Z) b n : seen !! i = Some b -> take i (seen ++ [n]) = take i seen /\ (seen ++ [n]) !! i = Some b.
Proof.
  intros Hi. pose proof (lookup_lt_Some _ _ _ Hi). split; [apply take_app_le; lia | now apply lookup_app_l_Some].
Qed.

Lemma best_so_far_snoc_unusable seen best bp bd n :
  best_so_far seen best bp bd -> (forall info, ~ usable_mode n info) -> best_so_far (seen ++ [n]) best bp bd.
Proof.
  intros [Hne Hb] Hn. split.
  - intros k info [Hk| ->%list_elem_of_singleton]%elem_of_app Hu; [eauto | now apply Hn in Hu].
  - destruct best as [b|].
    + destruct Hb as (i & ib & Hi & ? & ? & ? & Hbest & Hfirst). destruct (take_snoc i seen b n Hi) as [Et El].
      exists i, ib. rewrite Et. do 4 (split; [assumption|]). split; [|assumption].
      intros k info [Hk| ->%list_elem_of_singleton]%elem_of_app Hu; [eauto | now apply Hn in Hu].
    + destruct Hb as (? & ? & Hno). repeat (split; [assumption|]).
      intros k info [Hk| ->%list_elem_of_singleton]%elem_of_app Hu; [now apply (Hno k info) | now apply Hn in Hu].
Qed.

Lemma usable_mode_fun n info info' : usable_mode n info -> usable_mode n info' -> info = info'.
Proof. intros [E _] [E' _]. congruence. Qed.

Lemma best_so_far_snoc_usable seen best bp bd n info :
  best_so_far seen best bp bd -> usable_mode n info -> ~ exact_mode info -> pix_distance info < 2 ^ 32 - 1 ->
  let better := (pix_distance info <? bp) || ((bp =? pix_distance info) && (depth_distance info <? bd)) in
  best_so_far (seen ++ [n]) (if better then Some n else best)
    (if better then pix_distance info else bp) (if better then depth_distance info else bd).
Proof.
  intros [Hne Hb] Hu Hex Hpix better. split.
  { intros k i [Hk| ->%list_elem_of_singleton]%elem_of_app Hk'; [eauto | now rewrite (usable_mode_fun n i info)]. }
  destruct better eqn:Hbt; unfold better in Hbt.
  - assert (Hall : forall k i, k ∈ seen -> usable_mode k i -> closer info i).
    { intros k i Hk Hi. destruct best as [b|]; [|now destruct Hb as (_ & _ & Hno); apply Hno in Hi].
      destruct Hb as (j & ib & _ & _ & -> & -> & Hbest & _). pose proof (Hbest k i Hk Hi). unfold closer, no_closer in *. lia. }
    exists (length seen), info. rewrite take_app_length. split; [now rewrite lookup_app_r, Nat.sub_diag by lia|].
    do 3 (split; [assumption || reflexivity|]). split; [|exact Hall].
    intros k i [Hk| ->%list_elem_of_singleton]%elem_of_app Hi.
    + pose proof (Hall k i Hk Hi). unfold closer, no_closer in *. lia.
    + rewrite (usable_mode_fun n i info) by assumption. right. lia.
  - destruct best as [b|]; [|lia].
    destruct Hb as (j & ib & Hj & Hub & -> & -> & Hbest & Hfirst). destruct (take_snoc j seen b n Hj) as [Et El].
    exists j, ib. rewrite Et. do 4 (split; [assumption || reflexivity|]). split; [|assumption].
    intros k i [Hk| ->%list_elem_of_singleton]%elem_of_app Hi; [eauto|].
    rewrite (usable_mode_fun n i info) by assumption. unfold no_closer. lia.
Qed.

Lemma best_so_far_result best bp bd : best_so_far modes best bp bd -> best_result best.
Proof.
  intros [Hne Hb]. destruct best as [b|]; [|exact (proj2 (proj2 Hb))].
  destruct Hb as (i & ib & Hin & Hu & _ & _ & Hbest & Hfirst). exists i, ib. auto 10.
Qed.

(** An exact mode is at distance zero. *)
Lemma exact_best i b ib :
  modes !! i = Some b -> usable_mode b ib -> exact_mode ib ->
  (forall n info, n ∈ take i modes -> usable_mode n info -> ~ exact_mode info) -> best_result (Some b).
Proof.
  intros Hin Hu Hex Hfirst. exists i, ib. repeat (split; [assumption|]). split; [|auto].
  intros n info _ _. unfold no_closer, pix_distance, depth_distance. destruct Hex as (-> & -> & ->). lia.
Qed.

Lemma best_mode_loop_spec k seen fuel best bp bd :
  (length seen + k = length modes)%nat -> (k < fuel)%nat -> seen = take (length seen) modes ->
  best_so_far seen best bp bd ->
  exists r, best_mode_loop fuel obj_ptr self m width height depth (Z.of_nat (length seen)) best bp bd = Ret r /\
    best_result r.
Proof.
  revert seen fuel best bp bd. induction k as [|k IH]; intros seen fuel best bp bd Hk Hf Hseen Hb;
    (destruct fuel as [|fuel]; [lia|]); cbn [best_mode_loop]; pose proof (ma_length _ Hm) as Hlen;
    unfold uadd at 1; rewrite checked_ok by lia; cbn [mbind outcome_bind].
  - replace (length seen) with (length modes) by lia. rewrite (ma_end _ Hm). cbn [mbind outcome_bind].
    exists best. split; [reflexivity|]. apply best_so_far_result with bp bd.
    rewrite Hseen, take_ge in Hb by lia. exact Hb.
  - destruct (lookup_lt_is_Some_2 modes (length seen)) as [n Hn]; [lia|].
    rewrite (ma_mode _ Hm _ _ Hn). cbn [mbind outcome_bind].
    pose proof (list_elem_of_lookup_2 _ _ _ Hn) as Hin. pose proof (Hinfo n Hin) as (Hiw & Hih & Hid & _).
    assert (Hsnoc : seen ++ [n] = take (length (seen ++ [n])) modes).
    { rewrite length_app, Nat.add_comm. cbn [length Nat.add]. rewrite (take_S_r _ _ _ Hn). congruence. }
    assert (Hgo : forall best bp bd, best_so_far (seen ++ [n]) best bp bd ->
      exists r, best_mode_loop fuel obj_ptr self m width height depth (Z.of_nat (length seen) + 1) best bp bd = Ret r /\
        best_result r).
    { intros best' bp' bd' Hb'. replace (Z.of_nat (length seen) + 1) with (Z.of_nat (length (seen ++ [n])))
        by (rewrite length_app; cbn; lia). apply IH; rewrite ?length_app in *; cbn [length] in *; lia || assumption. }
    rewrite VbeModeInfo_get_low. destruct (vbe_mode_info n) as [ret info] eqn:Ei. cbn [fst snd] in *.
    destruct (Z.eqb_spec ret VESA_SUCCESS) as [->|Hret].
    2:{ apply Hgo, best_so_far_snoc_unusable; [assumption|]. intros i [E _]. congruence. }
    destruct (Z.eqb_spec (Z.land (mode_attributes info) 0x90) 0x90) as [Ha|Ha]; cbn [negb].
    2:{ apply Hgo, best_so_far_snoc_unusable; [assumption|]. intros i [E [? _]]. congruence. }
    destruct (negb (memory_model info =? 4) && negb (memory_model info =? 6)) eqn:Hmm.
    { apply Hgo, best_so_far_snoc_unusable; [assumption|]. intros i [E [_ [?|?]]]; rewrite Ei in E;
        injection E as <-; lia. }
    assert (Hu : usable_mode n info) by (repeat split; [assumption | assumption | lia]).
    destruct ((mode_width info =? width) && (mode_height info =? height) && (bits_per_pixel info =? depth)) eqn:Hex.
    { exists (Some n). split; [reflexivity|]. apply exact_best with (length seen) info; [assumption..|unfold exact_mode; lia|].
      rewrite <- Hseen. apply Hb. }
    unfold in_width in *. unfold umul. rewrite !checked_ok by nia. cbn [mbind outcome_bind].
    rewrite !abs_diff_abs. fold (pix_distance info) (depth_distance info).
    pose proof (best_so_far_snoc_usable seen best bp bd n info Hb Hu) as Hnew. cbn zeta in Hnew.
    destruct ((pix_distance info <? bp) || ((bp =? pix_distance info) && (depth_distance info <? bd)));
      apply Hgo, Hnew; unfold exact_mode, pix_distance; lia || nia.
Qed.

Lemma get_best_mode_spec fuel :
  (length modes < fuel)%nat ->
  exists r, get_best_mode fuel obj_ptr self m width height depth = Ret r /\ best_result r.
Proof.
  intros Hf. apply (best_mode_loop_spec (length modes) []); [reflexivity | assumption | reflexivity|].
  split; [intros ? ? []%not_elem_of_nil|]. do 2 (split; [reflexivity|]). intros ? ? []%not_elem_of_nil.
Qed.

(** C24: the video mode chosen is the first usable mode of the controller's list that
    matches exactly what was asked for; when none does, it is the first of the usable
    modes at the least distance, in pixels and then in depth; and no mode is chosen
    only when none is usable. *)
Theorem get_best_mode_correct fuel :
  (length modes < fuel)%nat ->
  exists r, get_best_mode fuel obj_ptr self m width height depth = Ret r /\ best_result r.
Proof. apply get_best_mode_spec. Qed.
End BestMode.

(** ** A controller with two modes *)

Definition ex_mode_info (n : Z) : VbeModeInfo :=
  if n =? 0x118 then mkVbeModeInfo 0x90 3072 1024 768 24 6 16 8 0 0xfd000000
  else mkVbeModeInfo 0x90 3840 1280 1024 24 6 16 8 0 0xfd000000.

Definition ex_vbe : Vbe := {|
  vbe_controller_info := (VESA_SUCCESS, mkVbeInfo 0x09000000);
  vbe_mode_info n := (VESA_SUCCESS, ex_mode_info n);
  vbe_set_mode _ := VESA_SUCCESS
|}.

Definition ex_mode_mem : mem := write_list (fun _ => 0) 0x9000 [0x18; 0x01; 0x1b; 0x01; 0xff; 0xff].

Lemma get_best_mode_correct_witness :
  exists r, @get_best_mode ex_vbe 3 0x7000 (mkVbeInfo 0x09000000) ex_mode_mem 1280 1024 24 = Ret r /\
    @best_result ex_vbe 1280 1024 24 [0x118; 0x11b] r.
Proof.
  apply (@get_best_mode_correct ex_vbe 0x7000 (mkVbeInfo 0x09000000) ex_mode_mem 1280 1024 24 [0x118; 0x11b]).
  - split.
    + intros [|[|i]] n; [intros [= <-]; reflexivity.. | intros E; discriminate E].
    + reflexivity.
    + cbn. lia.
  - lia.
  - intros n _. cbn. unfold ex_mode_info. destruct (n =? 0x118); repeat split; cbn; lia.
  - split; lia.
  - split; lia.
  - cbn. lia.
Defined.
