(* ===== verification/Fat.v ===== *)
(** The FAT file system reader of stage 2: [stage2/src/fat.rs].

    Bytes are [Z] below 256, characters are Unicode scalar values.  The buffers
    the source puts on the stack or in statics are addresses: [tmp_buf] of
    [read_bytes], [dir_buf] of [find_file_in_root_dir] and [file_buf] of
    [try_load_file]. *)
From Stdlib Require Import ZArith Lia.
From stdpp Require Import base tactics numbers list.
From S2P Require Import Prelude Disk.
#[local] Open Scope Z_scope.

Definition ROOT_DIR_ENTRY_SIZE : Z := 0x20.

Inductive FatError := FileNotFound | DirEntryError | FileReadError.
Inductive FatType := Fat12 | Fat16 | Fat32.

#[global] Instance FatType_eq_dec : EqDecision FatType.
Proof. solve_decision. Defined.

Definition classification_threshold (t : FatType) : Z :=
  match t with Fat12 => 0xFF7 | Fat16 => 0xFFF7 | Fat32 => 0xFFFFFF7 end.

(** ** Fields *)

(** [uN::from_le_bytes(raw[a..a + n].try_into().unwrap())] *)
Definition le_field (raw : list Z) (a n : Z) : outcome Z :=
  bs ← slice raw a (a + n); Ret (from_le_bytes bs).

(** ** [BiosParameterBlock] *)

Record BiosParameterBlock := mkBpb {
  bytes_per_sector : Z;
  sectors_per_cluster : Z;
  reserved_sector_count : Z;
  fat_count : Z;
  root_entry_count : Z;
  total_sectors_16 : Z;
  total_sectors_32 : Z;
  fat16_size : Z;
  fat32_size : Z;
  root_cluster : Z;
}.

(** The fields of the first sector. *)
Definition bpb_of_sector (raw : list Z) : outcome BiosParameterBlock :=
  bytes_per_sector ← le_field raw 11 2;
  sectors_per_cluster ← index raw 13;
  reserved_sector_count ← le_field raw 14 2;
  fat_count ← index raw 16;
  root_entry_count ← le_field raw 17 2;
  fat16_size ← le_field raw 22 2;
  total_sectors_16 ← le_field raw 19 2;
  total_sectors_32 ← le_field raw 32 4;
  '(fat32_size, root_cluster) ←
    (if negb (total_sectors_16 =? 0) && (total_sectors_32 =? 0) then Ret (0, 0)
     else if negb (total_sectors_32 =? 0) && (total_sectors_16 =? 0) then
       fat32_size ← le_field raw 36 4;
       root_cluster ← le_field raw 44 4;
       Ret (fat32_size, root_cluster)
     else Panic ExplicitPanic);
  Ret (mkBpb bytes_per_sector sectors_per_cluster reserved_sector_count fat_count
         root_entry_count total_sectors_16 total_sectors_32 fat16_size fat32_size root_cluster).

Definition bpb_parse `{Bios} (tmp_buf : Z) (d : DiskAccess) (m : mem) :
    outcome (BiosParameterBlock * (mem * DiskAccess)) :=
  d ← seek d (Start 0);
  '(raw, st) ← read_bytes tmp_buf d DEFAULT_SECTOR_SIZE m;
  bpb ← bpb_of_sector raw;
  Ret (bpb, st).

(** All of the following is [u32] arithmetic. *)
Definition root_dir_sectors (b : BiosParameterBlock) : outcome Z :=
  n ← umul 32 (root_entry_count b) ROOT_DIR_ENTRY_SIZE;
  k ← usub 32 (bytes_per_sector b) 1;
  s ← uadd 32 n k;
  udiv s (bytes_per_sector b).

Definition fat_size (b : BiosParameterBlock) : Z :=
  if negb (fat16_size b =? 0) && (fat32_size b =? 0) then fat16_size b else fat32_size b.

Definition count_of_clusters (b : BiosParameterBlock) : outcome Z :=
  let total_sectors := if negb (total_sectors_16 b =? 0) then total_sectors_16 b else total_sectors_32 b in
  f ← umul 32 (fat_count b) (fat_size b);
  s ← uadd 32 (reserved_sector_count b) f;
  r ← root_dir_sectors b;
  s ← uadd 32 s r;
  data_sectors ← usub 32 total_sectors s;
  udiv data_sectors (sectors_per_cluster b).

Definition fat_type (b : BiosParameterBlock) : outcome FatType :=
  n ← count_of_clusters b;
  Ret (if n <? 4085 then Fat12 else if n <? 65525 then Fat16 else Fat32).

Definition first_data_sector (b : BiosParameterBlock) : outcome Z :=
  f ← umul 32 (fat_count b) (fat_size b);
  s ← uadd 32 (reserved_sector_count b) f;
  r ← root_dir_sectors b;
  uadd 32 s r.

Definition first_root_dir_sector (b : BiosParameterBlock) : outcome Z :=
  s ← first_data_sector b; r ← root_dir_sectors b; usub 32 s r.

(** [u16] arithmetic *)
Definition root_dir_size (b : BiosParameterBlock) : outcome Z :=
  umul 16 (root_entry_count b) ROOT_DIR_ENTRY_SIZE.

Definition first_fat_sector (b : BiosParameterBlock) : Z := reserved_sector_count b.

Definition first_cluster_sector (b : BiosParameterBlock) (cluster_number : Z) : outcome Z :=
  c ← usub 32 cluster_number 2;
  n ← umul 32 c (sectors_per_cluster b);
  s ← first_data_sector b;
  uadd 32 n s.

Definition bytes_per_cluster (b : BiosParameterBlock) : outcome Z :=
  umul 32 (bytes_per_sector b) (sectors_per_cluster b).

(** ** Directory entries *)

Definition READ_ONLY : Z := 0x1.
Definition HIDDEN : Z := 0x2.
Definition SYSTEM : Z := 0x4.
Definition VOLUME_ID : Z := 0x8.
Definition DIRECTORY : Z := 0x10.
Definition ARCHIVE : Z := 0x20.
Definition LONG_FILE_NAME : Z := Z.lor (Z.lor (Z.lor READ_ONLY HIDDEN) SYSTEM) VOLUME_ID.

Definition FileAttributes_new : Z := 0.
Definition attr_set (a flag : Z) : Z := Z.lor a flag.
Definition attr_unset (a flag : Z) : Z := Z.land a (unot 8 flag).
Definition attr_is_set (a flag : Z) : bool := negb (Z.land a flag =? 0).

(** Of a normal entry [filename] holds 11 characters, of a long-name entry 255. *)
Record DirEntryData := mkDirEntry {
  filename : list Z;
  attributes : Z;
  first_cluster_number : Z;
  size_in_bytes : Z;
}.

Inductive DirectoryEntry :=
  | Unused
  | EndOfDir
  | NormalDirEntry (e : DirEntryData)
  | LongNameDirEntry (e : DirEntryData).

Definition END_OF_DIRECTORY : Z := 0x0.
Definition UNUSED_ENTRY : Z := 0xe5.
Definition NORMAL_ENTRY_SIZE : Z := 0x20.

(** [char::decode_utf16(iter).filter_map(|c| c.ok())]: unpaired surrogates are dropped. *)
Fixpoint decode_utf16 (us : list Z) : list Z :=
  match us with
  | [] => []
  | u :: rest =>
      if (u <? 0xD800) || (0xDFFF <? u) then u :: decode_utf16 rest
      else if 0xDC00 <=? u then decode_utf16 rest
      else match rest with
           | [] => []
           | u2 :: rest' =>
               if (0xDC00 <=? u2) && (u2 <=? 0xDFFF)
               then (0x10000 + Z.shiftl (u - 0xD800) 10 + (u2 - 0xDC00)) :: decode_utf16 rest'
               else decode_utf16 rest
           end
  end.

(** [s.chunks(2)] as little-endian words; an odd tail fails the conversion. *)
Fixpoint words16 (bs : list Z) : outcome (list Z) :=
  match bs with
  | [] => Ret []
  | [_] => Panic UnwrapNone
  | a :: b :: rest => l ← words16 rest; Ret (from_le_bytes [a; b] :: l)
  end.

Fixpoint take_until_zero (l : list Z) : list Z :=
  match l with [] => [] | c :: l => if c =? 0 then [] else c :: take_until_zero l end.

(** [raw.chunks(n)] *)
Fixpoint chunks (fuel : nat) (n : nat) (raw : list Z) : list (list Z) :=
  match fuel with
  | O => []
  | S fuel => match raw with [] => [] | _ => take n raw :: chunks fuel n (drop n raw) end
  end.

(** The characters of one long-name slot. *)
Definition slot_chars (entry : list Z) : outcome (list Z) :=
  name1 ← slice entry 1 11; name2 ← slice entry 14 26; name3 ← slice entry 28 32;
  w1 ← words16 name1; w2 ← words16 name2; w3 ← words16 name3;
  Ret (decode_utf16 (take_until_zero (w1 ++ w2 ++ w3))).

(** [filename[name_idx] = c] for each character; at most 255 fit. *)
Fixpoint store_chars (cs : list Z) (name : list Z) (name_idx : nat) : outcome (list Z * nat) :=
  match cs with
  | [] => Ret (name, name_idx)
  | c :: cs =>
      if decide (name_idx < length name)%nat
      then store_chars cs (<[name_idx := c]> name) (S name_idx)
      else Panic IndexOutOfBounds
  end.

(** The high and low words of the first cluster of an entry. *)
Definition entry_cluster (entry : list Z) : outcome Z :=
  hi ← le_field entry 20 2; lo ← le_field entry 26 2;
  h ← ushl 32 hi 16; Ret (Z.lor h lo).

(** The loop over the slots of a long-name entry; [i] counts them. *)
Fixpoint parse_long (cs : list (list Z)) (i : Z) (name : list Z) (name_idx : nat) :
    outcome (Z * DirEntryData) :=
  match cs with
  | [] => Panic AssertFailed
  | entry :: cs =>
      a ← index entry 11;
      if a =? LONG_FILE_NAME then
        chars ← slot_chars entry;
        '(name, name_idx) ← store_chars chars name name_idx;
        parse_long cs (i + 1) name name_idx
      else
        c ← entry_cluster entry;
        sz ← le_field entry 28 4;
        n ← umul 32 (i + 1) NORMAL_ENTRY_SIZE;
        Ret (n, mkDirEntry name a c sz)
  end.

Definition DirectoryEntry_parse (raw : list Z) : outcome (Z * DirectoryEntry) :=
  b0 ← index raw 0;
  if b0 =? END_OF_DIRECTORY then Ret (NORMAL_ENTRY_SIZE, EndOfDir)
  else if b0 =? UNUSED_ENTRY then Ret (NORMAL_ENTRY_SIZE, Unused)
  else
    a ← index raw 11;
    if a =? LONG_FILE_NAME then
      '(n, e) ← parse_long (chunks (length raw) 0x20 raw) 0 (replicate 255 0) 0;
      Ret (n, LongNameDirEntry e)
    else
      name ← slice raw 0 11;
      c ← entry_cluster raw;
      sz ← le_field raw 28 4;
      Ret (NORMAL_ENTRY_SIZE, NormalDirEntry (mkDirEntry name a c sz)).

Definition eq_name (e : DirectoryEntry) (name : list Z) : bool :=
  match e with
  | NormalDirEntry e | LongNameDirEntry e => bool_decide (take_until_zero (filename e) = name)
  | _ => false
  end.

Definition is_dir (e : DirectoryEntry) : bool :=
  match e with
  | NormalDirEntry e | LongNameDirEntry e => attr_is_set (attributes e) DIRECTORY
  | _ => false
  end.

Definition first_cluster (e : DirectoryEntry) : Z :=
  match e with NormalDirEntry e | LongNameDirEntry e => first_cluster_number e | _ => 0 end.

Definition entry_file_size (e : DirectoryEntry) : Z :=
  match e with NormalDirEntry e | LongNameDirEntry e => size_in_bytes e | _ => 0 end.

Record File := mkFile { start_sector : Z; file_size : Z }.

Definition size_in_sectors (f : File) : outcome Z :=
  s ← uadd 32 (file_size f) (DEFAULT_SECTOR_SIZE - 1); udiv s DEFAULT_SECTOR_SIZE.

(** *** [RootDirIter] *)

Record RootDirIter := mkRootDirIter { rd_buf : list Z; rd_offset : Z }.

Definition next_entry (it : RootDirIter) : outcome (DirectoryEntry * RootDirIter) :=
  raw ← slice (rd_buf it) (rd_offset it) (Z.of_nat (length (rd_buf it)));
  '(size, entry) ← DirectoryEntry_parse raw;
  o ← uadd 32 (rd_offset it) size;
  Ret (entry, mkRootDirIter (rd_buf it) o).

(** [next]; the recursion on unused entries is fuelled. *)
Fixpoint root_dir_next (fuel : nat) (it : RootDirIter) : outcome (option DirectoryEntry * RootDirIter) :=
  match fuel with
  | O => Panic FuelExhausted
  | S fuel =>
      '(entry, it) ← next_entry it;
      match entry with
      | EndOfDir => Ret (None, it)
      | Unused => root_dir_next fuel it
      | _ => Ret (Some entry, it)
      end
  end.

(** [entries.find(|e| e.eq_name(name))] *)
Fixpoint find_entry (fuel : nat) (it : RootDirIter) (name : list Z) : outcome (option DirectoryEntry) :=
  match fuel with
  | O => Panic FuelExhausted
  | S fuel' =>
      '(e, it) ← root_dir_next fuel it;
      match e with
      | None => Ret None
      | Some e => if eq_name e name then Ret (Some e) else find_entry fuel' it name
      end
  end.

(** ** The file allocation table *)

Inductive FatEntry := EndOfFile | ClusterEntry (n : Z) | BadCluster | ReservedCluster.

Definition FatEntry_parse (val : Z) (typ : FatType) : FatEntry :=
  if (val =? 0) || (val =? 1) then ReservedCluster
  else if classification_threshold typ <? val then EndOfFile
  else if val =? classification_threshold typ then BadCluster
  else ClusterEntry val.

Record FileAllocationTable := mkFat { fat_typ : FatType; fat_start : Z }.

Definition FileAllocationTable_new (typ : FatType) (first_sector sector_size : Z) :
    outcome FileAllocationTable :=
  s ← umul 64 first_sector sector_size; Ret (mkFat typ s).

Section Fs.
Context `{BIOS : Bios} (tmp_buf dir_buf file_buf : Z).

(** The value of the entry of [cluster]. *)
Definition fat_value (fat : FileAllocationTable) (d : DiskAccess) (cluster : Z) (m : mem) :
    outcome (Z * (mem * DiskAccess)) :=
  match fat_typ fat with
  | Fat12 =>
      offset_into_fat ← uadd 32 cluster (cluster / 2);
      o ← uadd 64 (fat_start fat) offset_into_fat;
      d ← seek d (Start o);
      '(buf, st) ← read_bytes tmp_buf d 2 m;
      let value := from_le_bytes buf in
      Ret (if Z.land cluster 1 =? 1 then Z.shiftr value 4 else Z.land value 0xfff, st)
  | Fat16 =>
      offset_into_fat ← umul 32 cluster 2;
      o ← uadd 64 (fat_start fat) offset_into_fat;
      d ← seek d (Start o);
      '(buf, st) ← read_bytes tmp_buf d 2 m;
      Ret (from_le_bytes buf, st)
  | Fat32 =>
      offset_into_fat ← umul 32 cluster 4;
      o ← uadd 64 (fat_start fat) offset_into_fat;
      d ← seek d (Start o);
      '(buf, st) ← read_bytes tmp_buf d 4 m;
      Ret (Z.land (from_le_bytes buf) 0x0FFFFFFF, st)
  end.

Definition get_entry (fat : FileAllocationTable) (d : DiskAccess) (cluster : Z) (m : mem) :
    outcome (FatEntry * (mem * DiskAccess)) :=
  '(val, st) ← fat_value fat d cluster m;
  Ret (FatEntry_parse val (fat_typ fat), st).

(** *** [FileIter] *)

Record FileIter := mkFileIter {
  fi_disk : DiskAccess;
  fi_entry : FatEntry;
  fi_bpb : BiosParameterBlock;
  fi_fat : FileAllocationTable;
}.

Definition FileIter_new (d : DiskAccess) (start_cluster : Z) (bpb : BiosParameterBlock) : outcome FileIter :=
  t ← fat_type bpb;
  f ← FileAllocationTable_new t (first_fat_sector bpb) (bytes_per_sector bpb);
  Ret (mkFileIter d (ClusterEntry start_cluster) bpb f).

(** [next]; an item is the first sector of a cluster or an error. *)
Definition file_next (it : FileIter) (m : mem) :
    outcome (option (Result Z FatError) * (FileIter * mem)) :=
  match fi_entry it with
  | BadCluster | ReservedCluster => Ret (Some (Err FileReadError), (it, m))
  | EndOfFile => Ret (None, (it, m))
  | ClusterEntry n =>
      s ← first_cluster_sector (fi_bpb it) n;
      '(e, (m, d)) ← get_entry (fi_fat it) (fi_disk it) n m;
      Ret (Some (Ok s), (mkFileIter d e (fi_bpb it) (fi_fat it), m))
  end.

(** *** [FATFileSystem] *)

Record FATFileSystem := mkFs { fs_disk : DiskAccess; fs_bpb : BiosParameterBlock }.

Definition fs_parse (d : DiskAccess) (m : mem) : outcome (FATFileSystem * mem) :=
  '(bpb, (m, d)) ← bpb_parse tmp_buf d m;
  _ ← assert_true (bytes_per_sector bpb =? DEFAULT_SECTOR_SIZE);
  c ← bytes_per_cluster bpb;
  Ret (mkFs (set_cluster_size (set_sector_size d (bytes_per_sector bpb)) c) bpb, m).

(** [read_root_dir] into the buffer of [buf_len] bytes at [buf]. *)
Definition read_root_dir (fs : FATFileSystem) (buf buf_len : Z) (m : mem) :
    outcome (RootDirIter * (FATFileSystem * mem)) :=
  n ← root_dir_size (fs_bpb fs);
  _ ← assert_true (buf_len =? n);
  t ← fat_type (fs_bpb fs);
  if decide (t = Fat32) then Panic ExplicitPanic
  else
    s ← first_root_dir_sector (fs_bpb fs);
    d ← seek (fs_disk fs) (StartInSectors s);
    '(m, d) ← disk_read d buf buf_len m;
    Ret (mkRootDirIter (read_list m buf (Z.to_nat buf_len)) 0, (mkFs d (fs_bpb fs), m)).

(** The directory buffer holds 512 entries and starts out zeroed. *)
Definition DIR_BUF_SIZE : Z := DEFAULT_SECTOR_SIZE * ROOT_DIR_ENTRY_SIZE.

Definition find_file_in_root_dir (fs : FATFileSystem) (name : list Z) (m : mem) :
    outcome (option File * (FATFileSystem * mem)) :=
  '(it, (fs, m)) ← read_root_dir fs dir_buf DIR_BUF_SIZE (write_bytes m dir_buf 0 DIR_BUF_SIZE);
  e ← find_entry (S (Z.to_nat (DIR_BUF_SIZE / NORMAL_ENTRY_SIZE))) it name;
  Ret (match e with
       | None => None
       | Some e => if is_dir e then None else Some (mkFile (first_cluster e) (entry_file_size e))
       end, (fs, m)).

Definition file_clusters (fs : FATFileSystem) (file : File) : outcome FileIter :=
  FileIter_new (fs_disk fs) (start_sector file) (fs_bpb fs).

Definition FILE_BUF_SIZE : Z := DEFAULT_SECTOR_SIZE * 0x8.

(** [while sectors_left > 0]: one cluster, through the file buffer, to [dest]. *)
Fixpoint load_cluster (fuel : nat) (d : DiskAccess) (sectors_left total_sectors_read dest : Z) (m : mem) :
    outcome (Z * (mem * DiskAccess)) :=
  match fuel with
  | O => Panic FuelExhausted
  | S fuel =>
      if 0 <? sectors_left then
        q ← udiv FILE_BUF_SIZE (d_sector_size d);
        let sectors_to_read := Z.min sectors_left q in
        '(m, d) ← read_sectors d sectors_to_read file_buf FILE_BUF_SIZE m;
        off ← umul 32 total_sectors_read (d_sector_size d);
        n ← umul 32 sectors_to_read (d_sector_size d);
        let m := copy_bytes m file_buf (ucast 32 (dest + off)) n in
        total_sectors_read ← uadd 32 total_sectors_read sectors_to_read;
        sectors_left ← usub 32 sectors_left sectors_to_read;
        load_cluster fuel d sectors_left total_sectors_read dest m
      else Ret (total_sectors_read, (m, d))
  end.

(** [for cluster in self.file_clusters(&file)]; an error
    of the iterator is returned at once.  One unit of fuel per cluster. *)
Fixpoint load_clusters (fuel : nat) (it : FileIter) (d : DiskAccess) (total_sectors_read dest : Z) (m : mem) :
    outcome (Result Z FatError * (FileIter * mem)) :=
  match fuel with
  | O => Panic FuelExhausted
  | S fuel =>
      '(item, (it, m)) ← file_next it m;
      match item with
      | None => Ret (Ok total_sectors_read, (it, m))
      | Some (Err e) => Ret (Err e, (it, m))
      | Some (Ok s) =>
          d ← seek d (StartInSectors s);
          sectors_left ← disk_sectors_per_cluster d;
          '(t, (m, d)) ← load_cluster (S (Z.to_nat sectors_left)) d sectors_left total_sectors_read dest m;
          load_clusters fuel it d t dest m
      end
  end.

Definition try_load_file (fuel : nat) (fs : FATFileSystem) (name : list Z) (dest : Z) (m : mem) :
    outcome (Result Z FatError * (FATFileSystem * mem)) :=
  '(file, (fs, m)) ← find_file_in_root_dir fs name m;
  match file with
  | None => Ret (Err FileNotFound, (fs, m))
  | Some file =>
      it ← file_clusters fs file;
      '(r, (it, m)) ← load_clusters fuel it (fs_disk fs) 0 dest (write_bytes m file_buf 0 FILE_BUF_SIZE);
      let fs := mkFs (fi_disk it) (fs_bpb fs) in
      match r with
      | Err e => Ret (Err e, (fs, m))
      | Ok total_sectors_read =>
          n ← size_in_sectors file;
          Ret (if total_sectors_read <? n then Err FileReadError else Ok (file_size file), (fs, m))
      end
  end.
End Fs.
