(* ===== verification/FatSpec.v ===== *)
(** Correctness of the FAT reader: following cluster chains and loading files. *)
From Stdlib Require Import ZArith Lia.
From stdpp Require Import base tactics numbers list.
From S2P Require Import Prelude Disk Fat.
#[local] Open Scope Z_scope.

(** ** The file allocation table of an image *)

(** Where the entry of a cluster starts, and how many bytes hold it. *)
Definition fat_offset (t : FatType) (c : Z) : Z :=
  match t with Fat12 => c + c / 2 | Fat16 => c * 2 | Fat32 => c * 4 end.
Definition fat_width (t : FatType) : Z := match t with Fat32 => 4 | _ => 2 end.

(** The entry within those bytes: an odd FAT12 entry is their upper 12 bits. *)
Definition fat_extract (t : FatType) (c v : Z) : Z :=
  match t with
  | Fat12 => if Z.odd c then v / 16 else v mod 4096
  | Fat16 => v
  | Fat32 => v mod 2 ^ 28
  end.

Section Table.
Context `{BS : BiosSpec}.
Implicit Types (d : DiskAccess) (m : mem).

Definition fat_lookup d (fat : FileAllocationTable) (c : Z) : FatEntry :=
  FatEntry_parse
    (fat_extract (fat_typ fat) c
       (from_le_bytes (partition_bytes d (fat_start fat + fat_offset (fat_typ fat) c) (fat_width (fat_typ fat)))))
    (fat_typ fat).

(** The same partition; position and cluster size do not matter. *)
Definition same_partition d d' : Prop :=
  disk_number d = disk_number d' /\ base_offset d = base_offset d'.

Lemma fat_lookup_same d d' fat c : same_partition d d' -> fat_lookup d fat c = fat_lookup d' fat c.
Proof. intros [E1 E2]. unfold fat_lookup, partition_bytes. now rewrite E1, E2. Qed.

(** The entry of [c] can be read: it is inside the disk and its position fits. *)
Record entry_readable d (fat : FileAllocationTable) (c : Z) : Prop := {
  er_cluster : 0 <= c;
  er_width : fat_offset (fat_typ fat) c < 2 ^ 32;
  er_start : 0 <= fat_start fat;
  er_pos : base_offset d + (fat_start fat + fat_offset (fat_typ fat) c) + 1024 < 2 ^ 64;
  er_disk : (base_offset d + (fat_start fat + fat_offset (fat_typ fat) c)) / 512 + 2 <= disk_sectors (disk_number d);
}.

Lemma fat_offset_nonneg t c : 0 <= c -> 0 <= fat_offset t c.
Proof. intros Hc. pose proof (Z.div_pos c 2). destruct t; cbn; lia. Qed.

Lemma fat_read_spec tmp d o n m :
  disk_ok d -> 0 <= n <= 4 -> 0 <= tmp -> tmp + 1024 <= 2 ^ 20 -> 0 <= o ->
  base_offset d + o + 1024 < 2 ^ 64 -> (base_offset d + o) / 512 + 2 <= disk_sectors (disk_number d) ->
  exists m' o', (x ← seek d (Start o); read_bytes tmp x n m) = Ret (partition_bytes d o n, (m', set_offset d o')) /\
    (forall x, ~ (tmp <= x < tmp + 1024) -> m' x = m x) /\ 0 <= o'.
Proof.
  intros [H1 H2 H3 H4] Hn Ht Hte Ho Hpos Hds. cbn [seek mbind outcome_bind].
  pose proof (Z.mod_pos_bound o 512).
  destruct (read_bytes_spec tmp (set_offset d o) n m) as (m' & -> & Hm');
    cbn [set_offset d_offset base_offset disk_number]; try lia; [now split|].
  do 2 eexists. split; [reflexivity|]. split; [assumption | lia].
Qed.

(** [get_entry] reads the entry of the table in the image. *)
Lemma get_entry_spec tmp fat d c m :
  disk_ok d -> entry_readable d fat c -> 0 <= tmp -> tmp + 1024 <= 2 ^ 20 ->
  exists m' o', get_entry tmp fat d c m = Ret (fat_lookup d fat c, (m', set_offset d o')) /\
    (forall x, ~ (tmp <= x < tmp + 1024) -> m' x = m x) /\ 0 <= o'.
Proof.
  intros Hd [Hc Hw Hs Hpos Hds] Ht Hte. pose proof (fat_offset_nonneg (fat_typ fat) c Hc) as Ho.
  unfold get_entry, fat_value, fat_lookup. pose proof (dk_base _ Hd).
  destruct (fat_typ fat) eqn:Et; cbn [fat_offset fat_width fat_extract] in *.
  - unfold uadd. rewrite (checked_ok 32) by lia. cbn [mbind outcome_bind].
    rewrite (checked_ok 64) by lia. cbn [mbind outcome_bind].
    destruct (fat_read_spec tmp d (fat_start fat + (c + c / 2)) 2 m) as (m' & o' & E & ? & ?); [assumption || lia..|].
    cbn [seek mbind outcome_bind] in E |- *. rewrite E. cbn [mbind outcome_bind].
    exists m', o'. split; [|auto]. do 3 f_equal.
    change 1 with (Z.ones 1) at 1. rewrite Z.land_ones by lia. change (2 ^ 1) with 2.
    rewrite Zmod_odd. destruct (Z.odd c); cbn [Z.eqb].
    + now rewrite Z.shiftr_div_pow2 by lia.
    + change 0xfff with (Z.ones 12). now rewrite Z.land_ones by lia.
  - unfold umul, uadd. rewrite (checked_ok 32) by lia. cbn [mbind outcome_bind].
    rewrite (checked_ok 64) by lia. cbn [mbind outcome_bind].
    destruct (fat_read_spec tmp d (fat_start fat + c * 2) 2 m) as (m' & o' & E & ? & ?); [assumption || lia..|].
    cbn [seek mbind outcome_bind] in E |- *. rewrite E. cbn [mbind outcome_bind]. exists m', o'. auto.
  - unfold umul, uadd. rewrite (checked_ok 32) by lia. cbn [mbind outcome_bind].
    rewrite (checked_ok 64) by lia. cbn [mbind outcome_bind].
    destruct (fat_read_spec tmp d (fat_start fat + c * 4) 4 m) as (m' & o' & E & ? & ?); [assumption || lia..|].
    cbn [seek mbind outcome_bind] in E |- *. rewrite E. cbn [mbind outcome_bind]. exists m', o'. split; [|auto].
    do 3 f_equal. change 0x0FFFFFFF with (Z.ones 28). now rewrite Z.land_ones by lia.
Qed.
End Table.

(** ** Loading a chain of clusters *)

(** The clusters from [c] to the end of the file. *)
Inductive cluster_chain (entry : Z -> FatEntry) : Z -> list Z -> Prop :=
  | chain_last c : entry c = EndOfFile -> cluster_chain entry c [c]
  | chain_next c c' l : entry c = ClusterEntry c' -> cluster_chain entry c' l -> cluster_chain entry c (c :: l).

Section Load.
Context `{BS : BiosSpec}.
(** The partition, its table and geometry, the two buffers and the destination. *)
Context (d0 : DiskAccess) (fat : FileAllocationTable) (bpb : BiosParameterBlock).
Context (tmp_buf file_buf dest : Z) (spc : Z).
Implicit Types (d : DiskAccess) (m : mem).

Abbreviation image := (fun off => disk_image (disk_number d0) (base_offset d0 + off)).

(** A disk positioned anywhere in the partition. *)
Definition here d : Prop :=
  disk_ok d /\ same_partition d d0 /\ d_cluster_size d = spc * 512.

(** A cluster of a file: its table entry and its sectors can be read. *)
Record cluster_ok (c s : Z) : Prop := {
  co_entry : entry_readable d0 fat c;
  co_sector : first_cluster_sector bpb c = Ret s;
  co_nonneg : 0 <= s;
  co_pos : base_offset d0 + s * 512 + spc * 512 < 2 ^ 64;
  co_disk : base_offset d0 / 512 + s + spc <= disk_sectors (disk_number d0);
}.

Context (Hspc : 0 < spc <= 8).
Context (Htmp : 0 <= tmp_buf) (Htmp_end : tmp_buf + 1024 <= 2 ^ 20).
Context (Hbuf : 0 <= file_buf) (Hbuf_end : file_buf + FILE_BUF_SIZE <= 2 ^ 20).

(** An address of one of the two buffers. *)
Definition in_buffers (x : Z) : Prop :=
  tmp_buf <= x < tmp_buf + 1024 \/ file_buf <= x < file_buf + FILE_BUF_SIZE.

Lemma here_set_offset d o : here d -> 0 <= o -> here (set_offset d o).
Proof. intros ([H1 H2 H3 _] & H4 & H5) Ho. split; [now split | auto]. Qed.

(** One cluster of at most eight sectors is read in one go. *)
Lemma load_cluster_spec d s t m :
  here d -> d_offset d = s * 512 -> 0 <= s -> 0 <= t ->
  base_offset d0 + s * 512 + spc * 512 < 2 ^ 64 ->
  base_offset d0 / 512 + s + spc <= disk_sectors (disk_number d0) ->
  0 <= dest -> dest + (t + spc) * 512 <= 2 ^ 32 ->
  exists m' d', load_cluster file_buf (S (Z.to_nat spc)) d spc t dest m = Ret (t + spc, (m', d')) /\ here d' /\
    (forall j, 0 <= j < spc * 512 -> m' (dest + t * 512 + j) = image (s * 512 + j)) /\
    (forall x, ~ in_buffers x -> ~ (dest + t * 512 <= x < dest + (t + spc) * 512) -> m' x = m x).
Proof.
  intros Hh Ho Hs Ht Hpos Hds Hdest Hend. pose proof Hh as (Hd & [Hn Hb] & Hcs).
  pose proof Hd as [Hss Hbase Hb5 _].
  replace (S (Z.to_nat spc)) with (S (S (Z.to_nat (spc - 1)))) by lia.
  cbn [load_cluster]. rewrite (proj2 (Z.ltb_lt 0 spc)) by lia. unfold udiv. rewrite Hss.
  cbn [Z.eqb mbind outcome_bind]. change (FILE_BUF_SIZE / 512) with 8. rewrite Z.min_l by lia.
  unfold FILE_BUF_SIZE, DEFAULT_SECTOR_SIZE in *.
  assert (Hq : (base_offset d + d_offset d) / 512 = base_offset d0 / 512 + s)
    by (rewrite Ho, Hb, Z.div_add by lia; reflexivity).
  destruct (read_sectors_spec d spc file_buf (512 * 8) m Hd) as (m1 & -> & Hm1); try lia; [reflexivity | rewrite Hn; lia |].
  cbn [mbind outcome_bind]. unfold umul. cbn [set_offset d_sector_size]. rewrite Hss.
  rewrite (checked_ok 32 (t * 512)) by lia. cbn [mbind outcome_bind].
  rewrite (checked_ok 32 (spc * 512)) by lia. cbn [mbind outcome_bind].
  unfold uadd. rewrite (checked_ok 32 (t + spc)) by lia. cbn [mbind outcome_bind].
  unfold usub. rewrite (checked_ok 32 (spc - spc)) by lia. cbn [mbind outcome_bind].
  rewrite (proj2 (Z.ltb_ge 0 (spc - spc))) by lia.
  replace (ucast 32 (dest + t * 512)) with (dest + t * 512) by (unfold ucast; rewrite Z.mod_small; lia).
  do 2 eexists. split; [reflexivity|]. split; [apply here_set_offset; [assumption | lia]|]. split.
  - intros j Hj. unfold copy_bytes.
    replace ((dest + t * 512 <=? dest + t * 512 + j) && (dest + t * 512 + j <? dest + t * 512 + spc * 512)) with true by lia.
    rewrite Hm1. unfold transfer.
    replace ((file_buf <=? _) && (_ <? file_buf + spc * 512)) with true by lia.
    rewrite Hn, Hq. f_equal. assert (E : base_offset d0 / 512 * 512 = base_offset d0).
    { rewrite <- Hb. pose proof (Z.div_mod (base_offset d) 512). lia. }
    lia.
  - intros x Hx Hx'. unfold in_buffers, FILE_BUF_SIZE, DEFAULT_SECTOR_SIZE in Hx. unfold copy_bytes.
    replace ((dest + t * 512 <=? x) && (x <? dest + t * 512 + spc * 512)) with false by lia.
    rewrite Hm1. unfold transfer.
    destruct (Z.leb_spec file_buf x), (Z.ltb_spec x (file_buf + spc * 512)); cbn; lia || reflexivity.
Qed.

(** The state of the loop over a file: the iterator stands at [e]. *)
Definition at_entry (it : FileIter) (e : FatEntry) : Prop :=
  fi_entry it = e /\ fi_bpb it = bpb /\ fi_fat it = fat /\ here (fi_disk it).

(** One step of the iterator. *)
Lemma file_next_spec it c s m :
  at_entry it (ClusterEntry c) -> cluster_ok c s ->
  exists it' m', file_next tmp_buf it m = Ret (Some (Ok s), (it', m')) /\
    at_entry it' (fat_lookup d0 fat c) /\ forall x, ~ in_buffers x -> m' x = m x.
Proof.
  intros (He & Hb & Hf & Hh) [[H1 H2 H3 H4 H5] Hs _ _ _]. unfold file_next. rewrite He, Hb, Hs, Hf. cbn [mbind outcome_bind].
  pose proof Hh as (Hd & Hp & _). pose proof Hp as [Pn Pb].
  destruct (get_entry_spec tmp_buf fat (fi_disk it) c m) as (m' & o' & -> & Hm & Ho'); try assumption.
  { split; rewrite ?Pn, ?Pb; assumption. }
  cbn [mbind outcome_bind]. do 2 eexists. split; [reflexivity|]. split.
  - split; [cbn; now apply fat_lookup_same|]. do 2 (split; [reflexivity|]). now apply here_set_offset.
  - intros x Hx. apply Hm. unfold in_buffers in Hx. tauto.
Qed.

Lemma load_clusters_spec l ss : forall fuel it d c t m,
  cluster_chain (fat_lookup d0 fat) c l -> Forall2 cluster_ok l ss ->
  at_entry it (ClusterEntry c) -> here d -> (length l < fuel)%nat -> 0 <= t -> 0 <= dest ->
  dest + (t + Z.of_nat (length l) * spc) * 512 <= 2 ^ 32 ->
  (forall x, dest + t * 512 <= x < dest + (t + Z.of_nat (length l) * spc) * 512 -> ~ in_buffers x) ->
  exists it' m', load_clusters tmp_buf file_buf fuel it d t dest m
      = Ret (Ok (t + Z.of_nat (length l) * spc), (it', m')) /\ here (fi_disk it') /\
    (forall i s, ss !! i = Some s -> forall j, 0 <= j < spc * 512 ->
       m' (dest + (t + Z.of_nat i * spc) * 512 + j) = image (s * 512 + j)) /\
    (forall x, ~ in_buffers x ->
       ~ (dest + t * 512 <= x < dest + (t + Z.of_nat (length l) * spc) * 512) -> m' x = m x).
Proof.
  induction l as [|c0 l IH] in ss |- *; intros fuel it d c t m Hch Hok Hit Hh Hf Ht Hdest Hend Hdisj; [inversion Hch|].
  apply Forall2_cons_inv_l in Hok as (s & ss' & Hc & Hok & ->).
  assert (c0 = c) as -> by (inversion Hch; reflexivity).
  destruct fuel as [|fuel]; [cbn in Hf; lia|]. cbn [length] in *. cbn [load_clusters].
  destruct (file_next_spec it c s m Hit Hc) as (it1 & m1 & -> & Hit1 & Hm1). cbn [mbind outcome_bind].
  pose proof Hh as (Hd & [Hn Hb] & Hcs). pose proof (dk_sector _ Hd) as Hss. pose proof (dk_base _ Hd).
  destruct Hc as [_ _ Hs0 Hpos Hds]. unfold seek, umul. rewrite Hss, checked_ok by lia. cbn [mbind outcome_bind].
  unfold disk_sectors_per_cluster, udiv. cbn [set_offset d_cluster_size d_sector_size]. rewrite Hss, Hcs.
  cbn [Z.eqb mbind outcome_bind]. rewrite Z.div_mul by lia.
  destruct (load_cluster_spec (set_offset d (s * 512)) s t m1) as (m2 & d2 & -> & Hh2 & Hnew & Hold); try lia.
  { apply here_set_offset; [assumption | lia]. }
  { reflexivity. }
  cbn [mbind outcome_bind].
  assert (Hkeep : forall x, ~ in_buffers x -> ~ (dest + t * 512 <= x < dest + (t + spc) * 512) -> m2 x = m x)
    by (intros x Hx Hx'; rewrite Hold, Hm1; auto).
  inversion Hch as [? Elast | ? c' l' Enext Hch' E1 E2]; subst.
  - inversion Hok; subst. destruct fuel as [|fuel]; [cbn in Hf; lia|]. cbn [load_clusters].
    pose proof Hit1 as (He & _ & _ & Hit1f). unfold file_next. rewrite He, Elast. cbn [mbind outcome_bind].
    exists it1, m2. split; [do 3 f_equal; cbn; lia|]. split; [apply Hit1f|]. split.
    + intros [|i] s' Hi j Hj; [|destruct i; discriminate]. injection Hi as <-.
      replace (t + Z.of_nat 0 * spc) with t by lia. auto.
    + intros x Hx Hx'. apply Hkeep; [assumption|]. cbn in Hx'. lia.
  - rewrite Enext in Hit1.
    destruct (IH ss' fuel it1 d2 c' (t + spc) m2 Hch' Hok Hit1 Hh2) as (it' & m' & -> & Hit' & Hnew' & Hold'); try lia.
    { intros x Hx. apply Hdisj. lia. }
    exists it', m'. split; [do 3 f_equal; lia|]. split; [assumption|]. split.
    + intros [|i] s' Hi j Hj.
      * injection Hi as <-. replace (t + Z.of_nat 0 * spc) with t by lia.
        rewrite Hold'; [auto | apply Hdisj; nia | lia].
      * replace (t + Z.of_nat (S i) * spc) with (t + spc + Z.of_nat i * spc) by lia. now apply Hnew'.
    + intros x Hx Hx'. rewrite Hold'; [|assumption | lia]. apply Hkeep; [assumption | nia].
Qed.
End Load.
