(* ===== verification/FatDir.v ===== *)
(** Directory entries and FAT12 tables as they are laid out on disk, and what
    the reader makes of them. *)
From Stdlib Require Import ZArith Lia.
From stdpp Require Import base tactics numbers list.
From S2P Require Import Prelude Disk Fat FatSpec.
#[local] Open Scope Z_scope.

(** ** Encodings *)

Definition le2 (v : Z) : list Z := [v mod 256; v / 256].
Definition le4 (v : Z) : list Z := [v mod 256; (v / 256) mod 256; (v / 65536) mod 256; v / 16777216].

(** A VFAT slot: an order byte and 13 UTF-16 words around the attribute byte. *)
Definition lfn_slot (order : Z) (w : list Z) : list Z :=
  [order] ++ (take 5 w ≫= le2) ++ [LONG_FILE_NAME; 0; 0] ++ (take 6 (drop 5 w) ≫= le2) ++ [0; 0]
  ++ (drop 11 w ≫= le2).

(** The 8.3 entry of a file. *)
Definition short_slot (name : list Z) (attr cluster size : Z) : list Z :=
  name ++ [attr] ++ replicate 8 0 ++ le2 (cluster / 65536) ++ replicate 4 0
  ++ le2 (cluster mod 65536) ++ le4 size.

(** A name part in its slot: terminated by a zero and filled up with [0xFFFF]. *)
Definition pad13 (cs : list Z) : list Z := take 13 (cs ++ [0] ++ replicate 13 0xFFFF).

(** A character that is one UTF-16 word: no terminator and no surrogate. *)
Definition plain_char (c : Z) : Prop := 0 < c < 0xD800.

(** ** Lemmas *)

Lemma from_le2 v : 0 <= v -> from_le_bytes (le2 v) = v.
Proof. intros Hv. cbn [from_le_bytes le2]. pose proof (Z.div_mod v 256). lia. Qed.

Lemma from_le4 v : 0 <= v -> from_le_bytes (le4 v) = v.
Proof.
  intros Hv. cbn [from_le_bytes le4]. pose proof (Z.div_mod v 256).
  pose proof (Z.div_mod (v / 256) 256). pose proof (Z.div_mod (v / 256 / 256) 256).
  change 65536 with (256 * 256). change 16777216 with (256 * 256 * 256).
  rewrite <- !Z.div_div by lia. lia.
Qed.

Lemma take_until_zero_app cs l : Forall plain_char cs -> take_until_zero (cs ++ 0 :: l) = cs.
Proof.
  induction 1 as [|c cs Hc _ IH]; [reflexivity|]. cbn. unfold plain_char in Hc.
  rewrite (proj2 (Z.eqb_neq c 0)) by lia. now rewrite IH.
Qed.

Lemma take_until_zero_id cs : Forall plain_char cs -> take_until_zero cs = cs.
Proof.
  induction 1 as [|c cs Hc _ IH]; [reflexivity|]. cbn. unfold plain_char in Hc.
  rewrite (proj2 (Z.eqb_neq c 0)) by lia. now rewrite IH.
Qed.

Lemma take_until_zero_pad cs :
  Forall plain_char cs -> (length cs <= 13)%nat -> take_until_zero (pad13 cs) = cs.
Proof.
  intros Hcs Hl. unfold pad13. rewrite take_app, (take_ge cs) by assumption.
  destruct (13 - length cs)%nat eqn:E; cbn [app take].
  - rewrite app_nil_r. now apply take_until_zero_id.
  - now apply take_until_zero_app.
Qed.

Lemma decode_utf16_plain cs : Forall plain_char cs -> decode_utf16 cs = cs.
Proof.
  induction 1 as [|c cs Hc _ IH]; [reflexivity|]. cbn [decode_utf16]. unfold plain_char in Hc.
  rewrite (proj2 (Z.ltb_lt c 0xD800)) by lia. cbn [orb]. now rewrite IH.
Qed.

Lemma store_chars_spec cs name k :
  (k + length cs <= length name)%nat ->
  store_chars cs name k = Ret (take k name ++ cs ++ drop (k + length cs) name, (k + length cs)%nat).
Proof.
  revert name k. induction cs as [|c cs IH]; intros name k Hl; cbn [store_chars length] in *.
  - rewrite Nat.add_0_r. cbn [app]. now rewrite take_drop.
  - rewrite decide_True by lia. rewrite IH by (rewrite length_insert; lia).
    rewrite (take_S_r _ k c) by (apply list_lookup_insert_eq; lia).
    rewrite take_insert_ge by lia. rewrite <- app_assoc. cbn [app].
    replace (S k + length cs)%nat with (k + S (length cs))%nat by lia.
    rewrite drop_insert_lt by lia. reflexivity.
Qed.

Lemma length_pad13 cs : length (pad13 cs) = 13%nat.
Proof. unfold pad13. rewrite length_take, !length_app, length_replicate. cbn [length]. lia. Qed.

(** The words of a slot come back as they were written. *)
Lemma slot_chars_spec order cs :
  Forall plain_char cs -> (length cs <= 13)%nat -> slot_chars (lfn_slot order (pad13 cs)) = Ret cs.
Proof.
  intros Hcs Hl. rewrite <- (decode_utf16_plain cs) at 2 by assumption.
  rewrite <- (take_until_zero_pad cs) at 2 by assumption.
  assert (Hp : Forall (fun w => 0 <= w) (pad13 cs)).
  { apply Forall_take, Forall_app. split; [|repeat constructor; lia].
    eapply Forall_impl; [exact Hcs|]. unfold plain_char. lia. }
  pose proof (length_pad13 cs) as E. revert Hp E. generalize (pad13 cs) as w. clear.
  intros w Hp E. do 13 (destruct w as [|? w]; [discriminate|]). destruct w; [|discriminate].
  repeat match goal with H : Forall _ (_ :: _) |- _ => apply Forall_cons in H as [? H] end.
  cbv -[from_le_bytes Z.modulo Z.div decode_utf16 take_until_zero LONG_FILE_NAME].
  repeat match goal with |- context [from_le_bytes [?v mod 256; ?v / 256]] =>
    change (from_le_bytes [v mod 256; v / 256]) with (from_le_bytes (le2 v)); rewrite (from_le2 v) by assumption end.
  reflexivity.
Qed.

(** ** File attributes *)

Lemma attr_bit a i : 0 <= i -> attr_is_set a (2 ^ i) = Z.testbit a i.
Proof.
  intros Hi. unfold attr_is_set. destruct (Z.testbit a i) eqn:E.
  - destruct (Z.eqb_spec (Z.land a (2 ^ i)) 0) as [E0|]; [|reflexivity].
    apply (f_equal (fun z => Z.testbit z i)) in E0. rewrite Z.land_spec, E, Z.pow2_bits_true, Z.bits_0 in E0 by lia. discriminate.
  - assert (E0 : Z.land a (2 ^ i) = 0); [|now rewrite E0]. apply Z.bits_inj'. intros n Hn. rewrite Z.land_spec, Z.bits_0.
    destruct (decide (n = i)) as [->|Hne]; [now rewrite E|]. rewrite Z.pow2_bits_false by lia. apply andb_false_r.
Qed.

(** A new value has no attribute; setting and clearing one changes that one only. *)
Lemma attributes_change a i j :
  0 <= i < 8 -> 0 <= j < 8 ->
  attr_is_set FileAttributes_new (2 ^ j) = false /\
  attr_is_set (attr_set a (2 ^ i)) (2 ^ j) = (i =? j) || attr_is_set a (2 ^ j) /\
  attr_is_set (attr_unset a (2 ^ i)) (2 ^ j) = negb (i =? j) && attr_is_set a (2 ^ j).
Proof.
  intros Hi Hj. rewrite !attr_bit by lia. unfold FileAttributes_new, attr_set, attr_unset.
  assert (Enot : Z.testbit (unot 8 (2 ^ i)) j = negb (i =? j)).
  { assert (Hall : forallb (fun x => forallb (fun y => eqb (Z.testbit (unot 8 (2 ^ x)) y) (negb (x =? y))) (seqZ 0 8)) (seqZ 0 8) = true)
      by reflexivity.
    rewrite forallb_forall in Hall. specialize (Hall i ltac:(apply list_elem_of_In, elem_of_seqZ; lia)).
    rewrite forallb_forall in Hall. specialize (Hall j ltac:(apply list_elem_of_In, elem_of_seqZ; lia)). now apply eqb_prop. }
  rewrite Z.bits_0, Z.lor_spec, Z.land_spec, Enot, Z.pow2_bits_eqb by lia.
  split; [reflexivity|]. split; [apply orb_comm | apply andb_comm].
Qed.

Lemma length_lfn_slot order cs : length (lfn_slot order (pad13 cs)) = 32%nat.
Proof.
  pose proof (length_pad13 cs) as E. revert E. generalize (pad13 cs) as w. intros w E.
  do 13 (destruct w as [|? w]; [discriminate|]). destruct w; [reflexivity | discriminate].
Qed.

Lemma lfn_slot_attr order cs : index (lfn_slot order (pad13 cs)) 11 = Ret LONG_FILE_NAME.
Proof.
  pose proof (length_pad13 cs) as E. revert E. generalize (pad13 cs) as w. intros w E.
  do 13 (destruct w as [|? w]; [discriminate|]). destruct w; [reflexivity | discriminate].
Qed.

(** What an 8.3 entry says. *)
Record short_ok (name : list Z) (attr cluster size : Z) : Prop := {
  sk_name : length name = 11%nat;
  sk_attr : attr <> LONG_FILE_NAME;
  sk_cluster : 0 <= cluster < 2 ^ 32;
  sk_size : 0 <= size < 2 ^ 32;
}.

Lemma length_short_slot name attr cluster size :
  length name = 11%nat -> length (short_slot name attr cluster size) = 32%nat.
Proof. intros E. unfold short_slot. rewrite !length_app. rewrite E. reflexivity. Qed.

Lemma short_slot_fields name attr cluster size rest :
  short_ok name attr cluster size ->
  let raw := short_slot name attr cluster size ++ rest in
  slice raw 0 11 = Ret name /\ index raw 11 = Ret attr /\
  entry_cluster raw = Ret cluster /\ le_field raw 28 4 = Ret size.
Proof.
  intros [Hn _ Hc Hs] raw.
  pose proof (from_le2 (cluster / 65536)). pose proof (from_le2 (cluster mod 65536)). pose proof (from_le4 size).
  pose proof (Z.div_pos cluster 65536). pose proof (Z.mod_pos_bound cluster 65536).
  assert (cluster / 65536 < 65536) by (apply Z.div_lt_upper_bound; lia).
  do 11 (destruct name as [|? name]; [discriminate|]). destruct name; [|discriminate].
  assert (Hlen : forall k, (k <= 32)%nat -> Z.of_nat k <= Z.of_nat (length raw)).
  { intros k Hk. unfold raw. rewrite length_app. cbn. lia. }
  assert (Hsl : forall a b, 0 <= a -> a <= b -> b <= 32 ->
    slice raw a b = Ret (take (Z.to_nat (b - a)) (drop (Z.to_nat a) raw))).
  { intros a b Ha Hab Hb. unfold slice. pose proof (Hlen 32%nat ltac:(lia)).
    replace ((0 <=? a) && (a <=? b) && (b <=? Z.of_nat (length raw))) with true by lia. reflexivity. }
  split; [rewrite Hsl by lia; reflexivity|]. split; [reflexivity|]. split.
  - unfold entry_cluster, le_field. rewrite !Hsl by lia. cbn [mbind outcome_bind].
    change (take (Z.to_nat (20 + 2 - 20)) (drop (Z.to_nat 20) raw)) with (le2 (cluster / 65536)).
    change (take (Z.to_nat (26 + 2 - 26)) (drop (Z.to_nat 26) raw)) with (le2 (cluster mod 65536)).
    rewrite !from_le2 by lia. unfold ushl. cbn [Z.leb Z.ltb Z.compare Pos.compare Pos.compare_cont andb mbind outcome_bind].
    rewrite Z.shiftl_mul_pow2 by lia. change (2 ^ 16) with 65536.
    rewrite (Z.mod_small (cluster / 65536 * 65536)) by lia. f_equal.
    rewrite (lor_add_low _ _ 16) by (lia || (change (2 ^ 16) with 65536; apply Z.mod_mul; lia)).
    pose proof (Z.div_mod cluster 65536). lia.
  - unfold le_field. rewrite Hsl by lia. cbn [mbind outcome_bind].
    change (take (Z.to_nat (28 + 4 - 28)) (drop (Z.to_nat 28) raw)) with (le4 size).
    now rewrite from_le4 by lia.
Qed.

Lemma chunks_app fuel slot rest :
  length slot = 32%nat -> (0 < fuel)%nat ->
  chunks fuel 32 (slot ++ rest) = slot :: chunks (pred fuel) 32 rest.
Proof.
  intros Hs Hf. destruct fuel as [|fuel]; [lia|]. cbn [chunks pred].
  destruct (slot ++ rest) as [|x l] eqn:E; [destruct slot; discriminate|]. rewrite <- E.
  rewrite take_app_length', drop_app_length' by (symmetry; assumption). reflexivity.
Qed.

(** Reading the slots of a name: the characters are appended in disk order. *)
Lemma parse_long_slot order cs rest i name k :
  Forall plain_char cs -> (length cs <= 13)%nat -> (k + length cs <= length name)%nat ->
  parse_long (lfn_slot order (pad13 cs) :: rest) i name k
  = parse_long rest (i + 1) (take k name ++ cs ++ drop (k + length cs) name) (k + length cs).
Proof.
  intros Hcs Hl Hk. cbn [parse_long]. rewrite lfn_slot_attr. cbn [mbind outcome_bind].
  rewrite Z.eqb_refl, slot_chars_spec by assumption. cbn [mbind outcome_bind].
  rewrite store_chars_spec by assumption. reflexivity.
Qed.

Lemma parse_long_short name attr cluster size rest i lname k :
  short_ok name attr cluster size -> 0 <= i < 2 ^ 20 ->
  parse_long (short_slot name attr cluster size :: rest) i lname k
  = Ret ((i + 1) * 32, mkDirEntry lname attr cluster size).
Proof.
  intros Hok Hi. destruct (short_slot_fields name attr cluster size [] Hok) as (_ & Ha & Hc & Hs).
  rewrite app_nil_r in *. cbn [parse_long]. rewrite Ha. cbn [mbind outcome_bind].
  rewrite (proj2 (Z.eqb_neq _ _) (sk_attr _ _ _ _ Hok)), Hc. cbn [mbind outcome_bind]. rewrite Hs. cbn [mbind outcome_bind].
  unfold umul, NORMAL_ENTRY_SIZE. now rewrite checked_ok by lia.
Qed.

(** ** Theorems *)

(** An 8.3 directory entry is read back as it was written, whatever follows it. *)
Theorem short_entry_roundtrip name attr cluster size rest :
  short_ok name attr cluster size ->
  (forall c, name !! 0%nat = Some c -> c <> END_OF_DIRECTORY /\ c <> UNUSED_ENTRY) ->
  DirectoryEntry_parse (short_slot name attr cluster size ++ rest)
  = Ret (NORMAL_ENTRY_SIZE, NormalDirEntry (mkDirEntry name attr cluster size)).
Proof.
  intros Hok H0. destruct (short_slot_fields name attr cluster size rest Hok) as (Hn & Ha & Hc & Hs).
  unfold DirectoryEntry_parse.
  assert (E : exists c, name !! 0%nat = Some c /\ index (short_slot name attr cluster size ++ rest) 0 = Ret c).
  { pose proof (sk_name _ _ _ _ Hok). destruct name as [|c name]; [discriminate|]. exists c. split; reflexivity. }
  destruct E as (c & Hc0 & ->). cbn [mbind outcome_bind]. destruct (H0 c Hc0) as [H1 H2].
  rewrite (proj2 (Z.eqb_neq _ _) H1), (proj2 (Z.eqb_neq _ _) H2), Ha. cbn [mbind outcome_bind].
  rewrite (proj2 (Z.eqb_neq _ _) (sk_attr _ _ _ _ Hok)), Hn. cbn [mbind outcome_bind].
  rewrite Hc. cbn [mbind outcome_bind]. rewrite Hs. reflexivity.
Qed.

Lemma long_entry_dispatch order cs rest :
  order <> END_OF_DIRECTORY -> order <> UNUSED_ENTRY ->
  let raw := lfn_slot order (pad13 cs) ++ rest in
  DirectoryEntry_parse raw
  = ('(n, e) ← parse_long (chunks (length raw) 0x20 raw) 0 (replicate 255 0) 0; Ret (n, LongNameDirEntry e)).
Proof.
  intros H1 H2 raw. unfold DirectoryEntry_parse, raw.
  change (index (lfn_slot order (pad13 cs) ++ rest) 0) with (Ret order). cbn [mbind outcome_bind].
  rewrite (proj2 (Z.eqb_neq _ _) H1), (proj2 (Z.eqb_neq _ _) H2).
  assert (E : index (lfn_slot order (pad13 cs) ++ rest) 11 = Ret LONG_FILE_NAME).
  { rewrite <- (lfn_slot_attr order cs). unfold index. cbn [Z.leb Z.compare].
    rewrite lookup_app_l; [reflexivity|]. rewrite length_lfn_slot. apply Nat.ltb_lt. reflexivity. }
  rewrite E. cbn [mbind outcome_bind]. now rewrite Z.eqb_refl.
Qed.

(** A file with a long name of at most 13 characters is found under that name,
    with its cluster, its size and its attributes. *)
Theorem long_entry_found order cs name attr cluster size rest :
  order <> END_OF_DIRECTORY -> order <> UNUSED_ENTRY ->
  Forall plain_char cs -> (length cs <= 13)%nat -> short_ok name attr cluster size ->
  exists e, DirectoryEntry_parse (lfn_slot order (pad13 cs) ++ short_slot name attr cluster size ++ rest)
      = Ret (2 * NORMAL_ENTRY_SIZE, LongNameDirEntry e) /\
    (forall n, eq_name (LongNameDirEntry e) n = true <-> n = cs) /\
    attributes e = attr /\ first_cluster_number e = cluster /\ size_in_bytes e = size.
Proof.
  intros H1 H2 Hcs Hl Hok. rewrite long_entry_dispatch by assumption.
  rewrite chunks_app by (rewrite ?length_app, ?length_lfn_slot; lia).
  rewrite chunks_app by (rewrite ?length_app, ?length_lfn_slot, ?length_short_slot by apply Hok; lia).
  rewrite parse_long_slot by (rewrite ?length_replicate; assumption || lia).
  rewrite parse_long_short by (assumption || lia). cbn [mbind outcome_bind].
  eexists. split; [reflexivity|]. split; [|auto]. intros n. cbn [eq_name filename].
  rewrite take_0, app_nil_l. change (0 + length cs)%nat with (length cs).
  assert (E : drop (length cs) (replicate 255 0) = 0 :: replicate (254 - length cs) 0).
  { rewrite drop_replicate. replace (255 - length cs)%nat with (S (254 - length cs)) by lia. reflexivity. }
  rewrite E, take_until_zero_app by assumption. rewrite bool_decide_eq_true. split; congruence.
Qed.

(** A longer name, whose slots are stored last part first, is read with its
    parts in the wrong order, so that the file is not found under its name. *)
Theorem long_names_scrambled o1 o2 part1 part2 name attr cluster size rest :
  o2 <> END_OF_DIRECTORY -> o2 <> UNUSED_ENTRY ->
  Forall plain_char part1 -> length part1 = 13%nat ->
  Forall plain_char part2 -> (length part2 <= 13)%nat -> short_ok name attr cluster size ->
  exists e, DirectoryEntry_parse
        (lfn_slot o2 (pad13 part2) ++ lfn_slot o1 (pad13 part1) ++ short_slot name attr cluster size ++ rest)
      = Ret (3 * NORMAL_ENTRY_SIZE, LongNameDirEntry e) /\
    forall n, eq_name (LongNameDirEntry e) n = true <-> n = part2 ++ part1.
Proof.
  intros H1 H2 Hp1 Hl1 Hp2 Hl2 Hok. rewrite long_entry_dispatch by assumption.
  rewrite chunks_app by (rewrite ?length_app, ?length_lfn_slot; lia).
  rewrite chunks_app by (rewrite ?length_app, ?length_lfn_slot; lia).
  rewrite chunks_app by (rewrite ?length_app, ?length_lfn_slot, ?length_short_slot by apply Hok; lia).
  rewrite parse_long_slot by (rewrite ?length_replicate; assumption || lia).
  rewrite take_0, app_nil_l. change (0 + length part2)%nat with (length part2).
  rewrite parse_long_slot by (rewrite ?length_app, ?length_drop, ?length_replicate; assumption || lia).
  rewrite parse_long_short by (assumption || lia). cbn [mbind outcome_bind].
  eexists. split; [reflexivity|]. intros n. cbn [eq_name filename].
  rewrite take_app_length, drop_app_ge by lia.
  rewrite drop_drop, drop_replicate, app_assoc.
  replace (255 - (length part2 + (length part2 + length part1 - length part2)))%nat
    with (S (254 - length part2 - 13)) by lia.
  cbn [replicate]. rewrite take_until_zero_app by now apply Forall_app.
  rewrite bool_decide_eq_true. split; congruence.
Qed.

(** ** FAT12 tables *)

(** Two 12-bit entries share three bytes. *)
Fixpoint fat12_encode (es : list (Z * Z)) : list Z :=
  match es with
  | [] => []
  | (a, b) :: es => [a mod 256; a / 256 + 16 * (b mod 16); b / 16] ++ fat12_encode es
  end.

(** The entries, in order. *)
Fixpoint fat12_entries (es : list (Z * Z)) : list Z :=
  match es with [] => [] | (a, b) :: es => a :: b :: fat12_entries es end.

Lemma fat12_pair a b :
  0 <= a < 4096 -> 0 <= b < 4096 ->
  from_le_bytes [a mod 256; a / 256 + 16 * (b mod 16)] mod 4096 = a /\
  from_le_bytes [a / 256 + 16 * (b mod 16); b / 16] / 16 = b.
Proof.
  intros Ha Hb. cbn [from_le_bytes].
  pose proof (Z.div_mod a 256). pose proof (Z.mod_pos_bound a 256). pose proof (Z.div_mod b 16).
  pose proof (Z.mod_pos_bound b 16). pose proof (Z.div_pos a 256).
  assert (a / 256 < 16) by (apply Z.div_lt_upper_bound; lia).
  split; symmetry.
  - apply Z.mod_unique with (b mod 16); lia.
  - apply Z.div_unique with (a / 256); lia.
Qed.

(** Reading entry [c] of an encoded FAT12 table gives back entry [c]: the
    position [c + c / 2] and the choice of the half by parity are right. *)
Theorem fat12_roundtrip es c e :
  Forall (fun p => 0 <= fst p < 4096 /\ 0 <= snd p < 4096) es ->
  0 <= c -> fat12_entries es !! Z.to_nat c = Some e ->
  fat_extract Fat12 c
    (from_le_bytes (take 2 (drop (Z.to_nat (fat_offset Fat12 c)) (fat12_encode es)))) = e.
Proof.
  intros Hes. revert c. induction Hes as [|[a b] es [Ha Hb] _ IH]; intros c Hc He; [discriminate|].
  cbn [fst snd] in *. destruct (fat12_pair a b Ha Hb) as [E1 E2].
  destruct (Z.ltb_spec c 2) as [Hlt|Hge].
  - assert (c = 0 \/ c = 1) as [->| ->] by lia; cbn in He; injection He as <-; assumption.
  - specialize (IH (c - 2) ltac:(lia)).
    replace (Z.to_nat c) with (S (S (Z.to_nat (c - 2)))) in He by lia. cbn in He. specialize (IH He).
    assert (Eo : fat_offset Fat12 c = fat_offset Fat12 (c - 2) + 3).
    { cbn [fat_offset]. replace c with (c - 2 + 1 * 2) at 2 by lia. rewrite Z.div_add by lia. lia. }
    pose proof (fat_offset_nonneg Fat12 (c - 2) ltac:(lia)).
    rewrite Eo. replace (Z.to_nat (fat_offset Fat12 (c - 2) + 3))
      with (S (S (S (Z.to_nat (fat_offset Fat12 (c - 2)))))) by lia.
    cbn [fat12_encode app drop]. rewrite <- IH. unfold fat_extract.
    replace (Z.odd (c - 2)) with (Z.odd c); [reflexivity|].
    rewrite Z.odd_sub. cbn. now destruct (Z.odd c).
Qed.
