(* ===== verification/FatLoad.v ===== *)
(** Loading a file by name: [FATFileSystem::try_load_file] from the directory to
    the destination. *)
From Stdlib Require Import ZArith Lia.
From stdpp Require Import base tactics numbers list.
From S2P Require Import Prelude Disk Fat FatSpec.
#[local] Open Scope Z_scope.

(** What was transferred is what is read back. *)
Lemma read_list_transfer m' m a image off n :
  (forall x, m' x = transfer m a image off n x) -> (forall o, 0 <= image o < 256) -> 0 <= n ->
  read_list m' a (Z.to_nat n) = (fun i => image (off + i)) <$> seqZ 0 n.
Proof.
  intros Hm' Hb Hn. unfold read_list. rewrite Z2Nat.id by lia.
  apply list_fmap_ext. intros _ i Hi%list_elem_of_lookup_2%elem_of_seqZ. unfold load8. rewrite Hm'. unfold transfer.
  replace ((a <=? a + i) && (a + i <? a + n)) with true by lia.
  rewrite Z.mod_small by apply Hb. f_equal. lia.
Qed.

Section LoadFile.
Context `{BS : BiosSpec}.
Context (fs : FATFileSystem) (t : FatType) (fat : FileAllocationTable).
Context (tmp_buf dir_buf file_buf dest root_sector spc : Z).

Abbreviation d0 := (fs_disk fs).
Abbreviation bpb := (fs_bpb fs).
Abbreviation image := (fun off => disk_image (disk_number d0) (base_offset d0 + off)).

(** A FAT12 or FAT16 volume with a root directory of 512 entries. *)
Record volume_ok : Prop := {
  vo_disk : disk_ok d0;
  vo_cluster : d_cluster_size d0 = spc * 512;
  vo_root_size : root_dir_size bpb = Ret DIR_BUF_SIZE;
  vo_type : fat_type bpb = Ret t;
  vo_not32 : t <> Fat32;
  vo_table : FileAllocationTable_new t (first_fat_sector bpb) (bytes_per_sector bpb) = Ret fat;
  vo_root : first_root_dir_sector bpb = Ret root_sector;
  vo_root_pos : 0 <= root_sector;
  vo_root_limit : base_offset d0 + root_sector * 512 + DIR_BUF_SIZE < 2 ^ 64;
  vo_root_disk : base_offset d0 / 512 + root_sector + 32 <= disk_sectors (disk_number d0);
}.

(** The buffers lie below 1 MiB, where the BIOS can reach them. *)
Record buffers_ok : Prop := {
  bu_tmp : 0 <= tmp_buf;
  bu_tmp_end : tmp_buf + 1024 <= 2 ^ 20;
  bu_dir : 0 <= dir_buf;
  bu_dir_end : dir_buf + DIR_BUF_SIZE <= 2 ^ 20;
  bu_file : 0 <= file_buf;
  bu_file_end : file_buf + FILE_BUF_SIZE <= 2 ^ 20;
}.

(** The bytes of the root directory. *)
Definition root_dir : list Z := partition_bytes d0 (root_sector * 512) DIR_BUF_SIZE.

Context (Hv : volume_ok) (Hb : buffers_ok).

Lemma read_root_dir_spec m :
  exists m' d', read_root_dir fs dir_buf DIR_BUF_SIZE m
      = Ret (mkRootDirIter root_dir 0, (mkFs d' bpb, m')) /\
    here d0 spc d' /\ forall x, ~ (dir_buf <= x < dir_buf + DIR_BUF_SIZE) -> m' x = m x.
Proof.
  destruct Hv as [Hd Hcs Hrs Hty H32 _ Hr Hr0 Hrl Hrd]. destruct Hb as [_ _ Hdir Hdire _ _].
  pose proof Hd as [Hss Hbase Hb5 _].
  unfold read_root_dir. rewrite Hrs. cbn [mbind outcome_bind]. rewrite Z.eqb_refl. cbn [assert_true mbind outcome_bind].
  rewrite Hty. cbn [mbind outcome_bind]. rewrite decide_False by assumption. rewrite Hr. cbn [mbind outcome_bind seek].
  unfold umul. rewrite Hss. unfold DIR_BUF_SIZE, DEFAULT_SECTOR_SIZE, ROOT_DIR_ENTRY_SIZE in *.
  rewrite checked_ok by lia. cbn [mbind outcome_bind].
  unfold disk_read, udiv. cbn [set_offset d_sector_size]. rewrite Hss. cbn [Z.eqb mbind outcome_bind].
  change (512 * 32 / 512) with 32.
  assert (Hq : (base_offset d0 + root_sector * 512) / 512 = base_offset d0 / 512 + root_sector)
    by now rewrite Z.div_add by lia.
  destruct (read_sectors_spec (set_offset d0 (root_sector * 512)) 32 dir_buf (512 * 32) m) as (m' & -> & Hm');
    cbn [set_offset d_offset base_offset disk_number]; try lia; [split; cbn; (assumption || lia) | reflexivity |].
  cbn [mbind outcome_bind]. cbn [set_offset d_offset base_offset disk_number] in Hm'.
  do 2 eexists. split; [|split].
  - rewrite (read_list_transfer m' m dir_buf (disk_image (disk_number d0)) _ (512 * 32) Hm');
      [|apply image_byte | lia].
    replace ((base_offset d0 + root_sector * 512) / 512 * 512) with (base_offset d0 + root_sector * 512).
    { unfold root_dir, partition_bytes, DIR_BUF_SIZE, DEFAULT_SECTOR_SIZE, ROOT_DIR_ENTRY_SIZE. reflexivity. }
    rewrite Hq. pose proof (Z.div_mod (base_offset d0) 512). lia.
  - split; [split; cbn; (assumption || lia) | split; [split; reflexivity | assumption]].
  - intros x Hx. rewrite Hm'. unfold transfer.
    destruct (Z.leb_spec dir_buf x), (Z.ltb_spec x (dir_buf + 32 * 512)); cbn; lia || reflexivity.
Qed.

Definition in_any_buffer (x : Z) : Prop :=
  in_buffers tmp_buf file_buf x \/ dir_buf <= x < dir_buf + DIR_BUF_SIZE.

Lemma find_file_spec name e m :
  find_entry (S (Z.to_nat (DIR_BUF_SIZE / NORMAL_ENTRY_SIZE))) (mkRootDirIter root_dir 0) name = Ret e ->
  exists m' d', find_file_in_root_dir dir_buf fs name m
      = Ret (match e with
             | None => None
             | Some e => if is_dir e then None else Some (mkFile (first_cluster e) (entry_file_size e))
             end, (mkFs d' bpb, m')) /\
    here d0 spc d' /\ forall x, ~ in_any_buffer x -> m' x = m x.
Proof.
  intros He. unfold find_file_in_root_dir.
  destruct (read_root_dir_spec (write_bytes m dir_buf 0 DIR_BUF_SIZE)) as (m' & d' & E & Hh & Hm').
  exists m', d'. split; [eapply bind_run; [exact E|]; eapply bind_run; [exact He | reflexivity]|].
  split; [assumption|]. intros x Hx. unfold in_any_buffer in Hx. rewrite Hm' by tauto.
  apply write_bytes_outside. lia.
Qed.

(** A file of the volume: its directory entry, the clusters of its chain and
    their first sectors. *)
Record file_ok (name : list Z) (e : DirectoryEntry) (l ss : list Z) : Prop := {
  fo_entry : find_entry (S (Z.to_nat (DIR_BUF_SIZE / NORMAL_ENTRY_SIZE))) (mkRootDirIter root_dir 0) name = Ret (Some e);
  fo_file : is_dir e = false;
  fo_chain : cluster_chain (fat_lookup d0 fat) (first_cluster e) l;
  fo_clusters : Forall2 (cluster_ok d0 fat bpb spc) l ss;
  fo_size : 0 <= entry_file_size e < 2 ^ 32 - 512;
}.

(** The file's clusters at the destination. *)
Definition file_loaded (m : mem) (ss : list Z) : Prop :=
  forall i s, ss !! i = Some s -> forall j, 0 <= j < spc * 512 ->
    m (dest + Z.of_nat i * spc * 512 + j) = image (s * 512 + j).

Lemma try_load_file_spec fuel name e l ss m :
  0 < spc <= 8 -> file_ok name e l ss -> (length l < fuel)%nat -> 0 <= dest ->
  dest + Z.of_nat (length l) * spc * 512 <= 2 ^ 32 ->
  (forall x, dest <= x < dest + Z.of_nat (length l) * spc * 512 -> ~ in_any_buffer x) ->
  exists d' m', try_load_file tmp_buf dir_buf file_buf fuel fs name dest m
      = Ret (if Z.of_nat (length l) * spc <? (entry_file_size e + 511) / 512
             then Err FileReadError else Ok (entry_file_size e), (mkFs d' bpb, m')) /\
    here d0 spc d' /\ file_loaded m' ss /\
    (forall x, ~ in_any_buffer x -> ~ (dest <= x < dest + Z.of_nat (length l) * spc * 512) -> m' x = m x).
Proof.
  intros Hspc [He Hdir Hch Hok Hsz] Hf Hdest Hend Hdisj.
  destruct (find_file_spec name (Some e) m He) as (m1 & d1 & E1 & Hh1 & Hm1).
  unfold try_load_file. rewrite E1, Hdir. cbn [mbind outcome_bind].
  unfold file_clusters, FileIter_new. cbn [fs_disk fs_bpb start_sector].
  rewrite (vo_type Hv). cbn [mbind outcome_bind]. rewrite (vo_table Hv). cbn [mbind outcome_bind].
  destruct (load_clusters_spec d0 fat bpb tmp_buf file_buf dest spc Hspc (bu_tmp Hb) (bu_tmp_end Hb)
    (bu_file Hb) (bu_file_end Hb) l ss fuel (mkFileIter d1 (ClusterEntry (first_cluster e)) bpb fat) d1
    (first_cluster e) 0 (write_bytes m1 file_buf 0 FILE_BUF_SIZE)) as (it & m2 & -> & Hit & Hnew & Hold);
    try assumption; try lia.
  { repeat (split; [reflexivity|]). auto. }
  { intros x Hx Hin. apply (Hdisj x); [lia | now left]. }
  cbn [mbind outcome_bind fi_disk]. unfold size_in_sectors, uadd, udiv, DEFAULT_SECTOR_SIZE. cbn [file_size].
  rewrite checked_ok by lia. cbn [Z.eqb mbind outcome_bind]. rewrite Z.add_0_l.
  replace (entry_file_size e + (512 - 1)) with (entry_file_size e + 511) by lia.
  do 2 eexists. split; [reflexivity|]. split; [assumption|]. split.
  - intros i s Hi j Hj. specialize (Hnew i s Hi j Hj).
    replace (dest + Z.of_nat i * spc * 512 + j) with (dest + (0 + Z.of_nat i * spc) * 512 + j) by lia. exact Hnew.
  - intros x Hx Hx'. rewrite Hold; [|intros Hin; apply Hx; now left | lia].
    rewrite write_bytes_outside; [now apply Hm1|]. unfold in_any_buffer, in_buffers in Hx. lia.
Qed.

(** C5: loading a file with at least one cluster from the root directory of a FAT12 or
    FAT16 volume whose clusters have at most eight sectors: every
    cluster of its chain ends up at the destination, in order, nothing else but
    the reader's buffers changes, and the result is the size of the directory
    entry, or an error when the chain is too short for it. *)
Theorem try_load_file_correct fuel name e l ss m :
  0 < spc <= 8 -> file_ok name e l ss -> (length l < fuel)%nat -> 0 <= dest ->
  dest + Z.of_nat (length l) * spc * 512 <= 2 ^ 32 ->
  (forall x, dest <= x < dest + Z.of_nat (length l) * spc * 512 -> ~ in_any_buffer x) ->
  exists fs' m', try_load_file tmp_buf dir_buf file_buf fuel fs name dest m
      = Ret (if Z.of_nat (length l) * spc <? (entry_file_size e + 511) / 512
             then Err FileReadError else Ok (entry_file_size e), (fs', m')) /\
    (forall i s, ss !! i = Some s -> forall j, 0 <= j < spc * 512 ->
       m' (dest + Z.of_nat i * spc * 512 + j) = image (s * 512 + j)) /\
    (forall x, ~ in_any_buffer x -> ~ (dest <= x < dest + Z.of_nat (length l) * spc * 512) -> m' x = m x).
Proof.
  intros Hspc Hfile Hf Hdest Hend Hdisj.
  destruct (try_load_file_spec fuel name e l ss m Hspc Hfile Hf Hdest Hend Hdisj)
    as (d' & m' & E & _ & Hnew & Hold).
  now exists (mkFs d' bpb), m'.
Qed.

(** An empty file has no cluster, and loading it panics: the position of
    cluster 0 is computed before the end of the chain is noticed. *)
Theorem empty_file_panics fuel name e m :
  find_entry (S (Z.to_nat (DIR_BUF_SIZE / NORMAL_ENTRY_SIZE))) (mkRootDirIter root_dir 0) name = Ret (Some e) ->
  is_dir e = false -> first_cluster e = 0 -> (0 < fuel)%nat ->
  try_load_file tmp_buf dir_buf file_buf fuel fs name dest m = Panic ArithOverflow.
Proof.
  intros He Hdir H0 Hf. destruct (find_file_spec name (Some e) m He) as (m1 & d1 & E1 & _).
  unfold try_load_file. rewrite E1, Hdir. cbn [mbind outcome_bind].
  unfold file_clusters, FileIter_new. cbn [fs_disk fs_bpb start_sector].
  rewrite (vo_type Hv). cbn [mbind outcome_bind]. rewrite (vo_table Hv), H0. cbn [mbind outcome_bind].
  destruct fuel as [|fuel]; [lia|]. reflexivity.
Qed.
End LoadFile.

(** ** Parsing the volume, and loading one file after another *)

Section Volume.
Context `{BS : BiosSpec}.

(** [FATFileSystem::parse] reads the parameter block of the first sector. *)
Lemma fs_parse_spec tmp_buf d bpb m :
  disk_ok d -> 0 <= tmp_buf -> tmp_buf + 1024 <= 2 ^ 20 -> base_offset d + 1024 < 2 ^ 64 ->
  base_offset d / 512 + 2 <= disk_sectors (disk_number d) ->
  bpb_of_sector (partition_bytes d 0 512) = Ret bpb -> bytes_per_sector bpb = 512 ->
  0 <= sectors_per_cluster bpb < 2 ^ 8 ->
  exists m' o', fs_parse tmp_buf d m
      = Ret (mkFs (mkDisk (disk_number d) (base_offset d) o' 512 (sectors_per_cluster bpb * 512)) bpb, m') /\
    0 <= o' /\ forall x, ~ (tmp_buf <= x < tmp_buf + 1024) -> m' x = m x.
Proof.
  intros [Hss Hb Hb5 Ho] Ht Hte Hpos Hds Ebpb Hbps Hspc. unfold fs_parse, bpb_parse. cbn [seek mbind outcome_bind].
  destruct (read_bytes_spec tmp_buf (set_offset d 0) DEFAULT_SECTOR_SIZE m) as (m' & -> & Hm');
    unfold DEFAULT_SECTOR_SIZE; cbn [set_offset d_offset base_offset disk_number]; try lia.
  { split; cbn; assumption || lia. }
  { now rewrite Zmod_0_l. }
  { now rewrite Z.add_0_r. }
  cbn [mbind outcome_bind]. change (partition_bytes (set_offset d 0) 0 512) with (partition_bytes d 0 512).
  rewrite Ebpb. cbn [mbind outcome_bind]. rewrite Hbps, Z.eqb_refl. cbn [assert_true mbind outcome_bind].
  unfold bytes_per_cluster, umul. rewrite Hbps, checked_ok by lia. cbn [mbind outcome_bind].
  rewrite (Z.mul_comm 512). exists m'. eexists. split; [reflexivity|]. split; [cbn; lia | assumption].
Qed.

Context (fs : FATFileSystem) (t : FatType) (fat : FileAllocationTable) (root_sector spc : Z).

(** The position of the disk does not matter: every operation seeks first. *)
Lemma volume_ok_moved d' :
  volume_ok fs t fat root_sector spc -> here (fs_disk fs) spc d' ->
  volume_ok (mkFs d' (fs_bpb fs)) t fat root_sector spc.
Proof.
  intros [] (Hd & [En Eb] & Hc). split; cbn [fs_disk fs_bpb]; rewrite ?En, ?Eb; assumption.
Qed.

Lemma cluster_ok_moved d' c s :
  here (fs_disk fs) spc d' -> cluster_ok (fs_disk fs) fat (fs_bpb fs) spc c s -> cluster_ok d' fat (fs_bpb fs) spc c s.
Proof.
  intros (_ & [En Eb] & _) [[] ? ? ? ?].
  split; [split|..]; rewrite ?En, ?Eb; assumption.
Qed.

Lemma cluster_chain_ext f g c l : (forall c, f c = g c) -> cluster_chain f c l -> cluster_chain g c l.
Proof. intros E. induction 1; econstructor; rewrite <- ?E; eauto. Qed.

Lemma root_dir_moved d' :
  here (fs_disk fs) spc d' -> root_dir (mkFs d' (fs_bpb fs)) root_sector = root_dir fs root_sector.
Proof. intros (_ & [En Eb] & _). unfold root_dir, partition_bytes. cbn [fs_disk]. now rewrite En, Eb. Qed.

Lemma file_ok_moved d' name e l ss :
  here (fs_disk fs) spc d' -> file_ok fs fat root_sector spc name e l ss ->
  file_ok (mkFs d' (fs_bpb fs)) fat root_sector spc name e l ss.
Proof.
  intros Hh [He Hd Hch Hcl Hs]. constructor; cbn [fs_disk fs_bpb].
  - rewrite root_dir_moved by assumption. exact He.
  - exact Hd.
  - eapply cluster_chain_ext; [|exact Hch]. intros c. symmetry. apply fat_lookup_same. apply Hh.
  - eapply Forall2_impl; [exact Hcl|]. intros. now apply cluster_ok_moved.
  - exact Hs.
Qed.
End Volume.
