(* ===== verification/FatExample.v ===== *)
(** A concrete disk: a small FAT12 volume behind one leading sector, with a file
    of two clusters and an empty one. *)
From Stdlib Require Import ZArith Lia.
From stdpp Require Import base tactics numbers list.
From S2P Require Import Prelude Disk Fat FatSpec FatDir FatLoad.
#[local] Open Scope Z_scope.

(** ** The volume *)

(** "kernel" and "e" *)
Definition kernel_name : list Z := [107; 101; 114; 110; 101; 108].
Definition empty_name : list Z := [101].
Definition short_name : list Z := [75; 69; 82; 78; 69; 76; 32; 32; 32; 32; 32].

Definition ex_dir : list Z :=
  lfn_slot 0x41 (pad13 kernel_name) ++ short_slot short_name 0x20 2 700
  ++ lfn_slot 0x41 (pad13 empty_name) ++ short_slot short_name 0x20 0 0.

(** The table at sector 1, the directory at sector 2, the data from sector 34 on. *)
Definition ex_volume (off : Z) : Z :=
  let o := off - 512 in
  if (512 <=? o) && (o <? 1024) then nth (Z.to_nat (o - 512)) [0xF8; 0xFF; 0xFF; 0x03; 0xF0; 0xFF] 0
  else if (1024 <=? o) && (o <? 1024 + 128) then nth (Z.to_nat (o - 1024)) ex_dir 0
  else if 17408 <=? o then o else 0.

#[local] Instance ex_bios : Bios := image_bios ex_volume.
#[local] Instance ex_bios_spec : BiosSpec ex_bios := image_bios_spec ex_volume.

Definition ex_fs : FATFileSystem :=
  mkFs (mkDisk 0x80 512 0 512 512) (mkBpb 512 1 1 1 512 100 0 1 0 0).
Definition ex_fat : FileAllocationTable := mkFat Fat12 512.

Lemma ex_volume_ok : volume_ok ex_fs Fat12 ex_fat 2 1.
Proof.
  split; try reflexivity; [|discriminate | lia | vm_compute; discriminate].
  split; cbn; try reflexivity; lia.
Qed.

Lemma ex_buffers_ok : buffers_ok 0x7000 0x8000 0xD000.
Proof. split; unfold DIR_BUF_SIZE, FILE_BUF_SIZE, DEFAULT_SECTOR_SIZE, ROOT_DIR_ENTRY_SIZE; lia. Qed.

Lemma ex_find_kernel :
  exists e, find_entry (S (Z.to_nat (DIR_BUF_SIZE / NORMAL_ENTRY_SIZE))) (mkRootDirIter (root_dir ex_fs 2) 0) kernel_name
      = Ret (Some e) /\ is_dir e = false /\ first_cluster e = 2 /\ entry_file_size e = 700.
Proof. eexists. split; [lazy; reflexivity|]. repeat split. Qed.

Lemma ex_find_empty :
  exists e, find_entry (S (Z.to_nat (DIR_BUF_SIZE / NORMAL_ENTRY_SIZE))) (mkRootDirIter (root_dir ex_fs 2) 0) empty_name
      = Ret (Some e) /\ is_dir e = false /\ first_cluster e = 0.
Proof. eexists. split; [lazy; reflexivity|]. repeat split. Qed.

Lemma ex_chain : cluster_chain (fat_lookup (fs_disk ex_fs) ex_fat) 2 [2; 3].
Proof. apply chain_next with 3; [reflexivity|]. apply chain_last. reflexivity. Qed.

Lemma ex_cluster_ok c : 2 <= c <= 3 -> cluster_ok (fs_disk ex_fs) ex_fat (fs_bpb ex_fs) 1 c (c + 32).
Proof.
  intros Hc. assert (c = 2 \/ c = 3) as [->| ->] by lia;
    (split; [split; (reflexivity || (vm_compute; discriminate) || lia) | reflexivity | lia | reflexivity | vm_compute; discriminate]).
Qed.

(** Both clusters of the kernel arrive, and the load reports 700 bytes. *)
Lemma try_load_file_correct_witness :
  exists e fs' m', is_dir e = false /\ entry_file_size e = 700 /\
    try_load_file 0x7000 0x8000 0xD000 3 ex_fs kernel_name 0x200000 (fun _ => 0)
      = Ret (if Z.of_nat 2 * 1 <? (entry_file_size e + 511) / 512 then Err FileReadError
             else Ok (entry_file_size e), (fs', m')) /\
    (forall i s, [34; 35] !! i = Some s -> forall j, 0 <= j < 1 * 512 ->
       m' (0x200000 + Z.of_nat i * 1 * 512 + j) = disk_image (disk_number (fs_disk ex_fs)) (base_offset (fs_disk ex_fs) + (s * 512 + j))) /\
    (forall x, ~ in_any_buffer 0x7000 0x8000 0xD000 x ->
       ~ (0x200000 <= x < 0x200000 + Z.of_nat 2 * 1 * 512) -> m' x = 0).
Proof.
  destruct ex_find_kernel as (e & He & Hd & Hc & Hs).
  destruct (try_load_file_correct ex_fs Fat12 ex_fat 0x7000 0x8000 0xD000 0x200000 2 1 ex_volume_ok ex_buffers_ok
    3 kernel_name e [2; 3] [34; 35] (fun _ => 0)) as (fs' & m' & H1 & H2 & H3).
  - lia.
  - split; [exact He | exact Hd | rewrite Hc; exact ex_chain | | lia].
    constructor; [apply (ex_cluster_ok 2); lia|]. constructor; [apply (ex_cluster_ok 3); lia | constructor].
  - apply Nat.ltb_lt. reflexivity.
  - lia.
  - cbn [length]. lia.
  - cbn [length]. intros x Hx.
    unfold in_any_buffer, in_buffers, DIR_BUF_SIZE, FILE_BUF_SIZE, DEFAULT_SECTOR_SIZE, ROOT_DIR_ENTRY_SIZE. lia.
  - exists e, fs', m'. repeat (split; [assumption|]). exact H3.
Defined.

Lemma empty_file_panics_witness :
  try_load_file 0x7000 0x8000 0xD000 3 ex_fs empty_name 0x200000 (fun _ => 0) = Panic ArithOverflow.
Proof.
  destruct ex_find_empty as (e & He & Hd & Hc).
  apply (empty_file_panics ex_fs Fat12 ex_fat 0x7000 0x8000 0xD000 0x200000 2 1 ex_volume_ok ex_buffers_ok
    3 empty_name e (fun _ => 0) He Hd Hc). apply Nat.ltb_lt. reflexivity.
Defined.

(** Two consecutive reads of one sector each, from a partition at sector 1. *)
Lemma second_read_misplaced_witness :
  exists m1 d1 m2 d2,
    read_sectors (mkDisk 0x80 512 0 512 512) 1 0xD000 512 (fun _ => 0) = Ret (m1, d1) /\
    read_sectors d1 1 0xD000 512 m1 = Ret (m2, d2) /\
    forall i, 0 <= i < 1 * 512 ->
      m2 (0xD000 + i) = disk_image 0x80 (512 + (512 + (0 + 1 * 512)) + i).
Proof.
  assert (Hd : disk_ok (mkDisk 0x80 512 0 512 512)) by (split; cbn; try reflexivity; lia).
  destruct (read_sectors_spec (mkDisk 0x80 512 0 512 512) 1 0xD000 512 (fun _ => 0) Hd) as (m1 & E & _);
    [lia | lia | reflexivity | lia | lia | cbn; lia | vm_compute; discriminate |].
  exists m1. eexists.
  assert (Hs : (2 * 512 + 0 + 1 * 512) / 512 + 1 <= disk_sectors 0x80) by (vm_compute; discriminate).
  destruct (second_read_misplaced (mkDisk 0x80 512 0 512 512) 1 1 0xD000 512 (fun _ => 0) m1 _ Hd
    ltac:(lia) ltac:(lia) ltac:(lia) ltac:(lia) eq_refl ltac:(lia) ltac:(lia) eq_refl
    ltac:(cbn; lia) Hs E) as (m2 & d2 & E2 & Hm2).
  exists m2, d2. split; [exact E|]. split; [exact E2 | exact Hm2].
Defined.

Lemma short_entry_roundtrip_witness :
  DirectoryEntry_parse (short_slot short_name 0x20 2 700 ++ [1; 2; 3])
  = Ret (NORMAL_ENTRY_SIZE, NormalDirEntry (mkDirEntry short_name 0x20 2 700)).
Proof.
  apply (short_entry_roundtrip short_name 0x20 2 700 [1; 2; 3]).
  - split; [reflexivity | discriminate | lia | lia].
  - intros c [= <-]. split; discriminate.
Defined.

Lemma plain_names : Forall plain_char kernel_name /\ Forall plain_char (replicate 13 97).
Proof. unfold plain_char. split; repeat constructor; lia. Qed.

Lemma long_entry_found_witness :
  exists e, DirectoryEntry_parse (lfn_slot 0x41 (pad13 kernel_name) ++ short_slot short_name 0x20 2 700 ++ [])
      = Ret (2 * NORMAL_ENTRY_SIZE, LongNameDirEntry e) /\
    (forall n, eq_name (LongNameDirEntry e) n = true <-> n = kernel_name) /\
    attributes e = 0x20 /\ first_cluster_number e = 2 /\ size_in_bytes e = 700.
Proof.
  apply (long_entry_found 0x41 kernel_name short_name 0x20 2 700 []).
  - discriminate.
  - discriminate.
  - apply plain_names.
  - apply Nat.leb_le. reflexivity.
  - split; [reflexivity | discriminate | lia | lia].
Defined.

(** A name of 19 characters: thirteen times "a", then "kernel". *)
Lemma long_names_scrambled_witness :
  exists e, DirectoryEntry_parse
        (lfn_slot 0x42 (pad13 kernel_name) ++ lfn_slot 0x01 (pad13 (replicate 13 97)) ++ short_slot short_name 0x20 2 700 ++ [])
      = Ret (3 * NORMAL_ENTRY_SIZE, LongNameDirEntry e) /\
    forall n, eq_name (LongNameDirEntry e) n = true <-> n = kernel_name ++ replicate 13 97.
Proof.
  apply (long_names_scrambled 0x01 0x42 (replicate 13 97) kernel_name short_name 0x20 2 700 []).
  - discriminate.
  - discriminate.
  - apply plain_names.
  - reflexivity.
  - apply plain_names.
  - apply Nat.leb_le. reflexivity.
  - split; [reflexivity | discriminate | lia | lia].
Defined.

Lemma fat12_roundtrip_witness :
  fat_extract Fat12 3 (from_le_bytes (take 2 (drop (Z.to_nat (fat_offset Fat12 3))
    (fat12_encode [(0xFF8, 0xFFF); (0x003, 0xFFF)])))) = 0xFFF.
Proof.
  apply (fat12_roundtrip [(0xFF8, 0xFFF); (0x003, 0xFFF)] 3 0xFFF).
  - repeat constructor; cbn; lia.
  - lia.
  - reflexivity.
Defined.
