(* ===== verification/Teletype.v ===== *)
(** Printing through the BIOS: [stage2/src/print.rs], [print_char] and [print] of
    [mbr/src/util.rs], and the memory map as stage 2 prints it.

    Interrupt 0x10 with function 0x0E shows a character and moves the cursor.  What
    was sent to it is a list of characters; [display] is what the screen shows of
    it, in rows: a carriage return moves to the first column, a line feed to the
    next row.  Rows that are longer than the screen is wide, and scrolling, are left
    aside. *)
From Stdlib Require Import ZArith Lia.
From stdpp Require Import base tactics numbers list strings.
From S2P Require Import Prelude Memory BootInfo Serial Fmt.
#[local] Open Scope Z_scope.

(** ** Sending characters *)

(** [mov ah, 0x0E; xor bh, bh; int 0x10] *)
Definition print_char (c : Z) (out : list Z) : list Z := out ++ [c].

(** [util::print] of the boot sector *)
Definition print_bytes (s : list Z) (out : list Z) : list Z := foldl (fun out c => print_char c out) out s.

(** [Writer::print_str] *)
Fixpoint print_str (s : list Z) (out : list Z) : list Z :=
  match s with
  | [] => out
  | c :: s =>
      print_str s
        (if is_ascii c
         then let out := print_char (ucast 8 c) out in if c =? 10 then print_char 13 out else out
         else print_char 46 out)
  end.

(** [_print]: [write_fmt] passes the pieces on in order. *)
Definition tele_print (args : list (list Z)) (out : list Z) : list Z := foldl (fun out s => print_str s out) out args.

Definition tele_println (args : list (list Z)) (out : list Z) : list Z := tele_print (args ++ [[13; 10]]) out.

(** [Debug] of the type of a region *)
Definition fmt_region_type (t : E820MemoryRegionType) : list Z :=
  match t with
  | E820_None => text "None"
  | E820_Normal => text "Normal"
  | E820_Reserved => text "Reserved"
  | E820_AcpiReclaimable => text "AcpiReclaimable"
  | E820_AcpiNvs => text "AcpiNvs"
  | E820_Unusable => text "Unusable"
  end.

Definition e820_line (region : E820MemoryRegion) : list (list Z) :=
  [text "Memory region, start: "; fmt_hex_alt (e820_start region); text ", length: "; fmt_hex_alt (e820_size region);
   text ", type: "; fmt_region_type (e820_typ region); text ", attributes: ";
   fmt_hex_alt (acpi_extended_attributes region); text " "].

(** [print_memory_map] of stage 2 *)
Definition print_e820_map (map : list E820MemoryRegion) (out : list Z) : list Z :=
  foldl (fun out region => tele_println (e820_line region) out) out map.

(** ** What the screen shows *)

(** The rows above the cursor, the row of the cursor, and its column. *)
Record terminal := mkTerminal { t_rows : list (list Z); t_row : list Z; t_col : nat }.

Definition put_char (col : nat) (c : Z) (row : list Z) : list Z :=
  take col (row ++ replicate (col - length row) 32) ++ c :: drop (S col) row.

Definition show_char (t : terminal) (c : Z) : terminal :=
  if c =? 13 then mkTerminal (t_rows t) (t_row t) 0
  else if c =? 10 then mkTerminal (t_rows t ++ [t_row t]) [] (t_col t)
  else mkTerminal (t_rows t) (put_char (t_col t) c (t_row t)) (S (t_col t)).

Definition blank : terminal := mkTerminal [] [] 0.
Definition show (t : terminal) (out : list Z) : terminal := foldl show_char t out.
Definition display (out : list Z) : terminal := show blank out.

(** ** Theorems *)

(** Characters with a shape of their own. *)
Definition graphic (l : list Z) : Prop := Forall (fun c => 32 <= c <= 126) l.

Lemma graphic_dec l : forallb (fun c => (32 <=? c) && (c <=? 126)) l = true -> graphic l.
Proof. intros Hl. rewrite List.forallb_forall in Hl. apply Forall_forall. intros c Hc%list_elem_of_In%Hl. lia. Qed.

Lemma digits_graphic base n : 2 <= base <= 16 -> graphic (digits base n).
Proof.
  intros Hb. apply Forall_forall. intros c Hc. pose proof (digits_shape base n c Hb Hc). lia.
Qed.

Lemma hex_alt_graphic n : graphic (fmt_hex_alt n).
Proof. unfold fmt_hex_alt, fmt_hex. apply Forall_app. split; [now apply graphic_dec | apply digits_graphic; lia]. Qed.

Lemma hex_padded_graphic w n : graphic (fmt_hex_padded w n).
Proof.
  unfold fmt_hex_padded, fmt_hex, graphic. rewrite !Forall_app. split; [now apply graphic_dec|].
  split; [apply Forall_replicate; lia | apply digits_graphic; lia].
Qed.

Create HintDb graphic discriminated.
#[export] Hint Resolve hex_alt_graphic hex_padded_graphic Forall_nil_2 Forall_cons_2 : graphic.
#[export] Hint Extern 1 (graphic (text _)) => apply graphic_dec; vm_compute; reflexivity : graphic.

Lemma graphic_concat args : Forall graphic args -> graphic (concat args).
Proof. induction 1; cbn [concat]; [constructor|]. now apply Forall_app. Qed.

Lemma e820_line_graphic r : graphic (concat (e820_line r)).
Proof.
  assert (Ht : graphic (fmt_region_type (e820_typ r))) by (destruct (e820_typ r); cbn [fmt_region_type]; auto with graphic).
  apply graphic_concat. unfold e820_line. auto 12 with graphic.
Qed.

(** Printing only adds to what was sent. *)
Lemma print_str_app s s' out : print_str (s ++ s') out = print_str s' (print_str s out).
Proof. revert out. induction s as [|c s IH]; intros out; [reflexivity|]. cbn [app print_str]. apply IH. Qed.

Lemma tele_print_concat args out : tele_print args out = print_str (concat args) out.
Proof.
  unfold tele_print. revert out. induction args as [|a args IH]; intros out; [reflexivity|].
  cbn [foldl concat]. now rewrite IH, print_str_app.
Qed.

Lemma show_app t l l' : show t (l ++ l') = show (show t l) l'.
Proof. apply foldl_app. Qed.

(** A printed text, as its characters arrive. *)
Lemma show_graphic l rows row :
  graphic l -> show (mkTerminal rows row (length row)) l = mkTerminal rows (row ++ l) (length (row ++ l)).
Proof.
  intros Hl. revert row. induction Hl as [|c l Hc _ IH]; intros row; cbn [show foldl]; [now rewrite app_nil_r|].
  unfold show_char at 2. cbn [t_rows t_row t_col]. rewrite (proj2 (Z.eqb_neq c 13)), (proj2 (Z.eqb_neq c 10)) by lia.
  assert (E : put_char (length row) c row = row ++ [c]).
  { unfold put_char. rewrite Nat.sub_diag. cbn [replicate]. rewrite app_nil_r, firstn_all, drop_ge by lia. reflexivity. }
  rewrite E. replace (S (length row)) with (length (row ++ [c])) by (rewrite length_app; cbn; lia).
  change (foldl show_char ?t l) with (show t l). rewrite IH, <- app_assoc. reflexivity.
Qed.

Lemma print_str_graphic s out : graphic s -> print_str s out = out ++ s.
Proof.
  intros Hs. revert out. induction Hs as [|c s Hc _ IH]; intros out; cbn [print_str]; [now rewrite app_nil_r|].
  unfold is_ascii, print_char, ucast. rewrite (proj2 (Z.leb_le c _)), (proj2 (Z.eqb_neq c 10)), Z.mod_small by lia.
  now rewrite IH, <- app_assoc.
Qed.

(** A line goes to a row of its own, and the next one starts in the first column. *)
Lemma tele_println_row args out rows :
  graphic (concat args) -> display out = mkTerminal rows [] 0 ->
  display (tele_println args out) = mkTerminal (rows ++ [concat args]) [] 0.
Proof.
  intros Hg Ho. unfold tele_println. rewrite tele_print_concat, concat_app, print_str_app, (print_str_graphic (concat args)) by exact Hg.
  unfold display in *. cbn [concat app print_str]. change (is_ascii 13) with true. change (is_ascii 10) with true.
  cbv beta iota zeta. unfold print_char. change (ucast 8 13) with 13. change (ucast 8 10) with 10. cbn [Z.eqb Pos.eqb].
  rewrite !show_app, Ho. change 0%nat with (length (@nil Z)) at 1. rewrite (show_graphic _ rows [] Hg). reflexivity.
Qed.

(** Every region of the memory map is shown on a row. *)
Lemma print_e820_map_rows map out rows :
  display out = mkTerminal rows [] 0 ->
  display (print_e820_map map out) = mkTerminal (rows ++ ((fun r => concat (e820_line r)) <$> map)) [] 0.
Proof.
  unfold print_e820_map. revert out rows. induction map as [|r map IH]; intros out rows Ho; cbn [foldl].
  - now rewrite app_nil_r.
  - rewrite (IH _ (rows ++ [concat (e820_line r)])) by (apply tele_println_row; [apply e820_line_graphic | exact Ho]).
    now rewrite <- app_assoc.
Qed.
