(* ===== verification/Stage2.v ===== *)
(** Stage 2 as a whole: [start] of [stage2/src/main.rs].

    Stage 2 finds the second partition, loads stage 3, stage 4 and the kernel
    from its file system, asks the firmware for the memory map, sets a video mode
    and collects what stage 4 needs to know.  [stage2_start] returns the state in
    which stage 3 is entered.  The addresses of its buffers, on
    the stack or static, are parameters. *)
From Stdlib Require Import ZArith Lia.
From stdpp Require Import base tactics numbers list strings.
From S2P Require Import Prelude Crates Memory BootInfo Processor Disk Mbr MemoryMap.
From S2P Require Import Vesa Fat FatSpec FatLoad Fmt Teletype.
#[local] Open Scope Z_scope.

Definition STAGE3_DST : Z := 0x0010_0000.
Definition STAGE4_DST : Z := 0x0012_0000.
Definition KERNEL_DST : Z := 0x0020_0000.

(** The file names as characters. *)
Definition stage3_name : list Z := [115; 116; 97; 103; 101; 51].
Definition stage4_name : list Z := [115; 116; 97; 103; 101; 52].
Definition kernel_file_name : list Z := [107; 101; 114; 110; 101; 108].

(** [for i in 0..4]: the entries of the partition table. *)
Definition read_partition_table (raw : list Z) : outcome (list PartitionTableEntry) :=
  e0 ← get_partition_table_entry raw 0;
  e1 ← get_partition_table_entry raw 1;
  e2 ← get_partition_table_entry raw 2;
  e3 ← get_partition_table_entry raw 3;
  Ret [e0; e1; e2; e3].

Section Start.
Context `{BF : BitField} `{FL : Bitflags} `{BIOS : Bios} `{E820 : BiosE820} `{VBE : Vbe}.
Context (tmp_buf dir_buf file_buf mode_buf memory_map_ptr bios_info_ptr : Z).

(** ["Stage3 loaded at: {:#p}, size: {:#x}"]; a pointer of 32 bits has eight digits. *)
Definition loaded_line (name : list Z) (dst len : Z) : list (list Z) :=
  [name; text " loaded at: "; fmt_hex_padded 10 dst; text ", size: "; fmt_hex_alt len].

(** The part of [start] that loads the files: the lengths of stage 4 and of the
    kernel; [out] is what was sent to the screen. *)
Definition load_stages (fuel : nat) (disk_number : Z) (fat_partition : PartitionTableEntry) (out : list Z) (m : mem) :
    outcome (Z * Z * list Z * mem) :=
  disk ← DiskAccess_new disk_number (logical_block_address fat_partition) 0;
  '(fs, m) ← fs_parse tmp_buf disk m;
  '(r, (fs, m)) ← try_load_file tmp_buf dir_buf file_buf fuel fs stage3_name STAGE3_DST m;
  stage3_len ← expect r;
  let out := tele_println (loaded_line (text "Stage3") STAGE3_DST stage3_len) out in
  '(r, (fs, m)) ← try_load_file tmp_buf dir_buf file_buf fuel fs stage4_name STAGE4_DST m;
  stage4_len ← expect r;
  let out := tele_println (loaded_line (text "Stage4") STAGE4_DST stage4_len) out in
  '(r, (fs, m)) ← try_load_file tmp_buf dir_buf file_buf fuel fs kernel_file_name KERNEL_DST m;
  kernel_len ← expect r;
  let out := tele_println (loaded_line (text "Kernel") KERNEL_DST kernel_len) out in
  Ret (stage4_len, kernel_len, out, m).

Definition stage2_start (fuel : nat) (disk_number partition_table_start : Z) (memory_map : MemoryMap)
    (c : cpu) (stack : stack32) (out : list Z) (video : option Z) (m : mem) :
    outcome (mem * MemoryMap * (list Z * option Z) * BiosInfo * (cpu * (Z * stack32))) :=
  c ← enter_unreal_mode c;
  let out := tele_println [text "Stage2 " ++ [13; 10]] out in
  let partition_table_raw := read_list m partition_table_start
    (Z.to_nat (PARTITION_TABLE_ENTRY_COUNT * PARTITION_TABLE_ENTRY_SIZE)) in
  partition_table ← read_partition_table partition_table_raw;
  fat_partition ← unwrap (partition_table !! 1%nat);
  _ ← assert_true (partition_type fat_partition =? 0xc);
  '(stage4_len, kernel_len, out, m) ← load_stages fuel disk_number fat_partition out m;
  '(r, memory_map) ← memory_map_get fuel memory_map;
  _ ← expect r;
  map ← memory_map_iter memory_map;
  let out := print_e820_map map out in
  vesa_info ← expect VbeInfo_get;
  mode ← get_best_mode fuel mode_buf vesa_info m 1280 1024 24;
  mode ← unwrap mode;
  mode_info ← expect (VbeModeInfo_get mode_buf mode);
  let '(r, video) := set_mode mode video in
  _ ← expect r;
  framebuffer ← to_framebuffer_info mode_info;
  last ← uadd 64 KERNEL_DST kernel_len;
  let bios_info :=
    {| stage4 := PhysicalMemoryRegion_new STAGE4_DST stage4_len Reserved;
       bios_kernel := PhysicalMemoryRegion_new KERNEL_DST kernel_len Reserved;
       bios_framebuffer := framebuffer;
       last_physical_address := last;
       memory_map_address := memory_map_ptr;
       memory_map_size := mm_size memory_map |} in
  Ret (m, memory_map, (out, video), bios_info, enter_protected_mode_and_jump_to_stage3 STAGE3_DST bios_info_ptr c stack).
End Start.

(** ** What stage 2 leaves behind *)

Section StartSpec.
Context `{BF : BitField} `{BFS : !BitFieldSpec BF} `{FL : Bitflags} `{FLS : !BitflagsSpec FL}.
Context `{BS : BiosSpec} `{ES : E820Spec} `{VBE : Vbe}.
Context (tmp_buf dir_buf file_buf mode_buf memory_map_ptr bios_info_ptr : Z) (fuel : nat).
(** The volume: drive, partition, parameter block and table. *)
Context (dn : Z) (part : PartitionTableEntry) (bpb : BiosParameterBlock).
Context (t : FatType) (fat : FileAllocationTable) (root_sector : Z).

Abbreviation spc := (sectors_per_cluster bpb).
Abbreviation fs0 := (mkFs (mkDisk dn (logical_block_address part * 512) 0 512 (spc * 512)) bpb).

Context (Hpart : entry_ok part) (Hspc : 0 < spc <= 8) (Hbps : bytes_per_sector bpb = 512).
Context (Hbpb : bpb_of_sector (partition_bytes (fs_disk fs0) 0 512) = Ret bpb).
Context (Hv : volume_ok fs0 t fat root_sector spc) (Hb : buffers_ok tmp_buf dir_buf file_buf).

(** A file that fits between its destination and [limit], complete on the disk. *)
Record loadable (name : list Z) (dest limit : Z) (e : DirectoryEntry) (l ss : list Z) : Prop := {
  lo_file : file_ok fs0 fat root_sector spc name e l ss;
  lo_fuel : (length l < fuel)%nat;
  lo_room : dest + Z.of_nat (length l) * spc * 512 <= limit;
  lo_complete : (entry_file_size e + 511) / 512 <= Z.of_nat (length l) * spc;
}.

(** The buffers are below 1 MiB, the destinations above. *)
Lemma buffers_low x : in_any_buffer tmp_buf dir_buf file_buf x -> x < 2 ^ 20.
Proof. destruct Hb. unfold in_any_buffer, in_buffers. lia. Qed.

Lemma here_trans d d' : here (fs_disk fs0) spc d -> here d spc d' -> here (fs_disk fs0) spc d'.
Proof. intros (_ & [E1 E2] & _) (H & [E3 E4] & H'). repeat split; try apply H; congruence. Qed.

(** The place of a file with the clusters [l]. *)
Definition in_file (dest : Z) (l : list Z) (x : Z) : Prop := dest <= x < dest + Z.of_nat (length l) * spc * 512.

Lemma in_file_limit name dest limit e l ss x : loadable name dest limit e l ss -> in_file dest l x -> dest <= x < limit.
Proof. intros [_ _ Hroom _]. unfold in_file. lia. Qed.

(** One of the three loads. *)
Lemma load_step name dest limit e l ss d m :
  loadable name dest limit e l ss -> here (fs_disk fs0) spc d -> 2 ^ 20 <= dest -> limit <= 2 ^ 32 ->
  exists d' m', try_load_file tmp_buf dir_buf file_buf fuel (mkFs d bpb) name dest m
      = Ret (Ok (entry_file_size e), (mkFs d' bpb, m')) /\ here (fs_disk fs0) spc d' /\
    file_loaded fs0 dest spc m' ss /\
    forall x, ~ in_any_buffer tmp_buf dir_buf file_buf x -> ~ in_file dest l x -> m' x = m x.
Proof.
  intros [Hf Hfuel Hroom Hc] Hd Hdest Hlim.
  destruct (try_load_file_spec (mkFs d bpb) t fat tmp_buf dir_buf file_buf dest root_sector spc
    (volume_ok_moved fs0 t fat root_sector spc d Hv Hd) Hb fuel name e l ss m Hspc
    (file_ok_moved fs0 fat root_sector spc d name e l ss Hd Hf) Hfuel) as (d' & m' & E & Hd' & Hnew & Hold); try lia.
  { intros x Hx Hin%buffers_low. lia. }
  rewrite (proj2 (Z.ltb_ge _ _)) in E by lia. exists d', m'. split; [exact E|].
  split; [now apply here_trans with d|]. split.
  - intros i s Hi j Hj. rewrite (Hnew i s Hi j Hj). destruct Hd as (_ & [En Eb] & _). cbn [fs_disk].
    now rewrite En, Eb.
  - intros x Hx Hx'. apply Hold; [assumption | exact Hx'].
Qed.

(** A loaded file stays loaded while its place is not written. *)
Lemma file_loaded_keep name dest limit e l ss m m' :
  loadable name dest limit e l ss -> (forall x, in_file dest l x -> m' x = m x) ->
  file_loaded fs0 dest spc m ss -> file_loaded fs0 dest spc m' ss.
Proof.
  intros [Hf _ Hroom _] Hkeep Hl i s Hi j Hj. unfold in_file in Hkeep. rewrite Hkeep; [now apply Hl|].
  pose proof (Forall2_length _ _ _ (fo_clusters _ _ _ _ _ _ _ _ Hf)) as El.
  apply lookup_lt_Some in Hi. nia.
Qed.

(** The three files, each below the next one's place. *)
Context (e3 e4 ek : DirectoryEntry) (l3 l4 lk ss3 ss4 ssk : list Z).
Context (H3 : loadable stage3_name STAGE3_DST STAGE4_DST e3 l3 ss3).
Context (H4 : loadable stage4_name STAGE4_DST KERNEL_DST e4 l4 ss4).
Context (Hk : loadable kernel_file_name KERNEL_DST (2 ^ 32) ek lk ssk).

Definition all_loaded (m : mem) : Prop :=
  file_loaded fs0 STAGE3_DST spc m ss3 /\ file_loaded fs0 STAGE4_DST spc m ss4 /\
  file_loaded fs0 KERNEL_DST spc m ssk.

Definition in_files (x : Z) : Prop := in_file STAGE3_DST l3 x \/ in_file STAGE4_DST l4 x \/ in_file KERNEL_DST lk x.

Lemma in_files_high x : in_files x -> 2 ^ 20 <= x.
Proof. unfold in_files, in_file, STAGE3_DST, STAGE4_DST, KERNEL_DST. lia. Qed.

(** The rows about the three files. *)
Definition loaded_rows : list (list Z) :=
  [concat (loaded_line (text "Stage3") STAGE3_DST (entry_file_size e3));
   concat (loaded_line (text "Stage4") STAGE4_DST (entry_file_size e4));
   concat (loaded_line (text "Kernel") KERNEL_DST (entry_file_size ek))].

Lemma loaded_line_row name dst len out rows :
  graphic name -> display out = mkTerminal rows [] 0 ->
  display (tele_println (loaded_line name dst len) out) = mkTerminal (rows ++ [concat (loaded_line name dst len)]) [] 0.
Proof. intros Hn. apply tele_println_row, graphic_concat. unfold loaded_line. auto 10 with graphic. Qed.

(** Parsing the volume and loading the three files. *)
Lemma load_files out rows m :
  display out = mkTerminal rows [] 0 ->
  exists out' m', load_stages tmp_buf dir_buf file_buf fuel dn part out m
      = Ret (entry_file_size e4, entry_file_size ek, out', m') /\
    display out' = mkTerminal (rows ++ loaded_rows) [] 0 /\
    all_loaded m' /\
    forall x, ~ in_any_buffer tmp_buf dir_buf file_buf x -> ~ in_files x -> m' x = m x.
Proof.
  intros Hout. pose proof Hpart as [[Hl0 Hl] _]. pose proof (vo_disk _ _ _ _ _ Hv) as Hd. pose proof Hd as [_ Hb0 _ _].
  cbn [fs_disk base_offset] in Hb0.
  pose proof (vo_root_pos _ _ _ _ _ Hv). pose proof (vo_root_limit _ _ _ _ _ Hv) as Hlim.
  pose proof (vo_root_disk _ _ _ _ _ Hv) as Hds. unfold DIR_BUF_SIZE, DEFAULT_SECTOR_SIZE, ROOT_DIR_ENTRY_SIZE in Hlim.
  cbn [fs_disk base_offset disk_number] in *.
  unfold load_stages, DiskAccess_new, umul, DEFAULT_SECTOR_SIZE.
  rewrite (checked_ok 64 (logical_block_address part * 512)), (checked_ok 64 (0 * 512)) by lia. cbn [mbind outcome_bind].
  destruct (fs_parse_spec tmp_buf (mkDisk dn (logical_block_address part * 512) (0 * 512) 512 0) bpb m)
    as (m0 & o & -> & Ho & Hm0); try assumption; try apply Hb; cbn [base_offset disk_number]; try lia.
  { split; cbn; try lia. apply Z.mod_mul. lia. }
  cbn [mbind outcome_bind].
  assert (Hh : here (fs_disk fs0) spc (mkDisk dn (logical_block_address part * 512) o 512 (spc * 512))).
  { split; [|now repeat split]. split; cbn; try lia. apply Z.mod_mul. lia. }
  destruct (load_step _ _ _ _ _ _ _ m0 H3 Hh) as (d3 & m3 & -> & Hh3 & L3 & F3);
    [unfold STAGE3_DST; lia | unfold STAGE4_DST; lia |]. cbn [mbind outcome_bind expect].
  destruct (load_step _ _ _ _ _ _ _ m3 H4 Hh3) as (d4 & m4 & -> & Hh4 & L4 & F4);
    [unfold STAGE4_DST; lia | unfold KERNEL_DST; lia |]. cbn [mbind outcome_bind expect].
  destruct (load_step _ _ _ _ _ _ _ m4 Hk Hh4) as (dk & mk & -> & _ & Lk & Fk);
    [unfold KERNEL_DST; lia | lia |]. cbn [mbind outcome_bind expect].
  assert (Hhigh : forall x, 2 ^ 20 <= x -> ~ in_any_buffer tmp_buf dir_buf file_buf x)
    by (intros x Hx Hin%buffers_low; lia).
  unfold STAGE3_DST, STAGE4_DST, KERNEL_DST in *. eexists. exists mk. split; [reflexivity|]. split; [|split].
  - unfold loaded_rows. change [?a; ?b; ?c] with ([a] ++ [b] ++ [c]). rewrite !app_assoc.
    repeat (apply loaded_line_row; [auto with graphic|]). exact Hout.
  - split; [|split; [|exact Lk]].
    + apply (file_loaded_keep _ _ _ _ _ _ m3 mk H3); [|exact L3].
      intros x Hx%(in_file_limit _ _ _ _ _ _ _ H3). rewrite Fk, F4; [reflexivity | | | |]; [apply Hhigh; lia | | apply Hhigh; lia |].
      * intros Hin%(in_file_limit _ _ _ _ _ _ _ H4). lia.
      * intros Hin%(in_file_limit _ _ _ _ _ _ _ Hk). lia.
    + apply (file_loaded_keep _ _ _ _ _ _ m4 mk H4); [|exact L4].
      intros x Hx%(in_file_limit _ _ _ _ _ _ _ H4). apply Fk; [apply Hhigh; lia|]. intros Hin%(in_file_limit _ _ _ _ _ _ _ Hk). lia.
  - intros x Hx Hn. unfold in_files in Hn. rewrite Fk, F4, F3, Hm0; [reflexivity | | tauto..].
    intros Hin. apply Hx. left. now left.
Qed.

(** The video modes: the array of their numbers survives the loading, one of them
    can be used, and usable ones have whole bytes per pixel. *)
Context (info : VbeInfo) (modes : list Z).
Context (Hinfo : vbe_controller_info = (VESA_SUCCESS, info)) (Hptr : 0 <= mode_buf < 2 ^ 16).
Context (Hset : forall n i, n ∈ modes -> usable_mode n i -> vbe_set_mode (mode_command n) = VESA_SUCCESS).
Context (Hmi : forall n, n ∈ modes -> info_ok (vbe_mode_info n).2).
Context (Hbpp : forall n i, n ∈ modes -> usable_mode n i -> 8 <= bits_per_pixel i).
Context (Hsome : exists n i, n ∈ modes /\ usable_mode n i) (Hmodes : (length modes < fuel)%nat).
Context (Hfw : (0 < length firmware_map <= 32)%nat) (Hfw_fuel : (length firmware_map <= fuel)%nat).

(** The frame buffer of a mode. *)
Definition framebuffer_of (i : VbeModeInfo) : FramebufferInfo :=
  mkFramebufferInfo
    (PhysicalMemoryRegion_new (mode_framebuffer i) (mode_height i * bytes_per_scanline i) Reserved)
    (mode_width i) (mode_height i) (bits_per_pixel i / 8) (bytes_per_scanline i / (bits_per_pixel i / 8))
    (get_pixel_format i).

Lemma to_framebuffer_info_spec i :
  info_ok i -> 8 <= bits_per_pixel i -> to_framebuffer_info i = Ret (framebuffer_of i).
Proof.
  intros (Hw & Hh & Hd & Hs) H8. unfold to_framebuffer_info, udiv, umul, in_width in *.
  cbn [Z.eqb mbind outcome_bind]. rewrite checked_ok by nia. cbn [mbind outcome_bind].
  assert (1 <= bits_per_pixel i / 8) by (apply Z.div_le_lower_bound; lia).
  rewrite (proj2 (Z.eqb_neq _ _)) by lia. reflexivity.
Qed.

(** Choosing, describing and setting the mode. *)
Lemma video_mode m :
  mode_array info m modes ->
  exists n i, n ∈ modes /\ usable_mode n i /\ best_result 1280 1024 24 modes (Some n) /\
    get_best_mode fuel mode_buf info m 1280 1024 24 = Ret (Some n) /\
    VbeModeInfo_get mode_buf n = Ok i /\ (forall v, set_mode n v = (Ok tt, Some (mode_command n))) /\ to_framebuffer_info i = Ret (framebuffer_of i).
Proof.
  intros Hm. destruct (get_best_mode_spec mode_buf info m 1280 1024 24 modes Hm Hptr Hmi) with (fuel := fuel)
    as ([n|] & E & Hr); [unfold in_width; lia.. | assumption | |].
  - pose proof Hr as (j & i & Hin%list_elem_of_lookup_2 & Hu & _). exists n, i. do 4 (split; [assumption|]).
    pose proof Hu as (Ei & _). split.
    + rewrite VbeModeInfo_get_low, Ei by assumption. reflexivity.
    + split; [intros v; unfold set_mode; fold (mode_command n); now rewrite (Hset n i Hin Hu)|]. specialize (Hmi n Hin). rewrite Ei in Hmi.
      apply to_framebuffer_info_spec; eauto.
  - destruct Hsome as (n & i & Hin & Hu). now destruct (Hr n i).
Qed.

(** What stage 2 hands over: the places of stage 4 and of the kernel, the frame buffer
    of a mode, and where the memory map is. *)
Definition boot_information (i : VbeModeInfo) : BiosInfo :=
  {| stage4 := PhysicalMemoryRegion_new STAGE4_DST (entry_file_size e4) Reserved;
     bios_kernel := PhysicalMemoryRegion_new KERNEL_DST (entry_file_size ek) Reserved;
     bios_framebuffer := framebuffer_of i;
     last_physical_address := KERNEL_DST + entry_file_size ek;
     memory_map_address := memory_map_ptr;
     memory_map_size := Z.of_nat (length firmware_map) - 1 |}.

Lemma stage2_start_spec partition_table_start table c stack m :
  Z.land (cpu_cr0 c) Cr0Flags_all = cpu_cr0 c -> Z.testbit (cpu_cr0 c) 0 = false -> in_width 32 bios_info_ptr ->
  read_partition_table (read_list m partition_table_start 64) = Ret table ->
  table !! 1%nat = Some part -> partition_type part = 0xc ->
  (forall m', (forall x, ~ in_any_buffer tmp_buf dir_buf file_buf x -> x < 2 ^ 20 -> m' x = m x) ->
     mode_array info m' modes) ->
  exists m' mm out video i l c',
    stage2_start tmp_buf dir_buf file_buf mode_buf memory_map_ptr bios_info_ptr fuel dn partition_table_start MEMORY_MAP c stack [] None m
      = Ret (m', mm, (out, video),
          boot_information i,
          (c', (STAGE3_DST, argument_stack bios_info_ptr stack))) /\
    (cpu_cr0 c' = Z.lor (cpu_cr0 c) 1 /\ cpu_interrupts c' = false /\ cpu_cs c' = mkSegment 0x8 (2 ^ 32 - 1) /\
     cpu_ds c' = mkSegment 0x10 (2 ^ 32 - 1) /\ cpu_es c' = mkSegment 0x10 (2 ^ 32 - 1) /\
     cpu_ss c' = mkSegment 0x10 (2 ^ 32 - 1)) /\
    all_loaded m' /\
    (forall x, ~ in_any_buffer tmp_buf dir_buf file_buf x -> ~ in_files x -> m' x = m x) /\
    (exists n, n ∈ modes /\ usable_mode n i /\ best_result 1280 1024 24 modes (Some n) /\ video = Some (mode_command n)) /\
    memory_map_iter mm = Ret l /\ Forall2 same_region l (take (length firmware_map - 1) firmware_map) /\
    display out = mkTerminal ([text "Stage2 "; []] ++ loaded_rows ++ ((fun r => concat (e820_line r)) <$> l)) [] 0.
Proof.
  intros Hcr Hreal Hbi Htable Hpt Htype Harr. unfold stage2_start.
  destruct (unreal_mode_spec c Hcr Hreal) as (c1 & code & data & -> & E0 & _ & _ & _ & _ & _ & _ & _ & G & Lc & Ld).
  cbn [mbind outcome_bind]. rewrite <- E0 in Hcr.
  destruct (protected_mode_spec STAGE3_DST bios_info_ptr c1 stack code data Hcr ltac:(unfold in_width, STAGE3_DST; lia) Hbi G Lc Ld)
    as (c2 & Ejump & Hc2). rewrite E0 in Hc2.
  change (Z.to_nat (PARTITION_TABLE_ENTRY_COUNT * PARTITION_TABLE_ENTRY_SIZE)) with 64%nat.
  rewrite Htable. cbn [mbind outcome_bind]. rewrite Hpt. cbn [unwrap mbind outcome_bind]. rewrite Htype.
  cbn [Z.eqb Pos.eqb assert_true mbind outcome_bind].
  destruct (load_files (tele_println [text "Stage2 " ++ [13; 10]] []) [text "Stage2 "; []] m ltac:(vm_compute; reflexivity))
    as (out & m' & -> & Hout & Hall & Hkeep). cbn [mbind outcome_bind].
  destruct (memory_map_get_spec fuel Hfw Hfw_fuel) as (map & -> & Hlen & Hmap). cbn [mbind outcome_bind expect].
  destruct (memory_map_iter_spec map Hfw Hlen Hmap) as (l & El & Hl). rewrite El. cbn [mbind outcome_bind].
  unfold VbeInfo_get. rewrite Hinfo. cbn [Z.eqb Pos.eqb VESA_SUCCESS expect mbind outcome_bind].
  assert (Hlow : forall x, ~ in_any_buffer tmp_buf dir_buf file_buf x -> x < 2 ^ 20 -> m' x = m x).
  { intros x Hx Hlow. apply Hkeep; [exact Hx|]. intros Hin%in_files_high. lia. }
  destruct (video_mode m' (Harr m' Hlow)) as (n & i & Hin & Hu & Hbest & -> & Ei & Es & Ef).
  cbn [mbind outcome_bind unwrap]. rewrite Ei. cbn [expect mbind outcome_bind]. rewrite Es.
  cbn [expect mbind outcome_bind]. rewrite Ef. cbn [mbind outcome_bind].
  pose proof (fo_size _ _ _ _ _ _ _ _ (lo_file _ _ _ _ _ _ Hk)). unfold uadd, KERNEL_DST.
  rewrite checked_ok by lia. cbn [mbind outcome_bind mm_size]. rewrite Ejump.
  exists m'. do 6 eexists. split; [reflexivity|]. split; [exact Hc2|]. do 2 (split; [assumption|]). split; [eauto 10|].
  split; [exact El|]. split; [exact Hl|]. rewrite app_assoc. now apply print_e820_map_rows.
Qed.

(** C9: stage 2 succeeds on a disk whose second partition is a FAT12 or FAT16 volume, with
    clusters of at most eight sectors, with complete non-empty files for stage 3, stage 4
    and the kernel, and on firmware with at most 32 regions of memory and a usable video
    mode: all three are in memory at their
    places, no other memory is changed but the reader's buffers, and
    stage 3 is entered in protected mode, with flat segments and interrupts off,
    with the regions of stage 4 and the kernel, the frame buffer of the video mode,
    and the number of regions of the memory map, which is the firmware's without its
    last region; the video mode that is set is the best usable one for 1280 by 1024
    pixels of 24 bits, with a linear frame buffer; on the screen were shown, a row
    each, the three files with their places and sizes and the memory map. *)
Theorem stage2_start_correct partition_table_start table c stack m :
  Z.land (cpu_cr0 c) Cr0Flags_all = cpu_cr0 c -> Z.testbit (cpu_cr0 c) 0 = false -> in_width 32 bios_info_ptr ->
  read_partition_table (read_list m partition_table_start 64) = Ret table ->
  table !! 1%nat = Some part -> partition_type part = 0xc ->
  (forall m', (forall x, ~ in_any_buffer tmp_buf dir_buf file_buf x -> x < 2 ^ 20 -> m' x = m x) ->
     mode_array info m' modes) ->
  exists m' mm out video i l c',
    stage2_start tmp_buf dir_buf file_buf mode_buf memory_map_ptr bios_info_ptr fuel dn partition_table_start MEMORY_MAP c stack [] None m
      = Ret (m', mm, (out, video),
          boot_information i,
          (c', (STAGE3_DST, argument_stack bios_info_ptr stack))) /\
    (cpu_cr0 c' = Z.lor (cpu_cr0 c) 1 /\ cpu_interrupts c' = false /\ cpu_cs c' = mkSegment 0x8 (2 ^ 32 - 1) /\
     cpu_ds c' = mkSegment 0x10 (2 ^ 32 - 1) /\ cpu_es c' = mkSegment 0x10 (2 ^ 32 - 1) /\
     cpu_ss c' = mkSegment 0x10 (2 ^ 32 - 1)) /\
    all_loaded m' /\
    (forall x, ~ in_any_buffer tmp_buf dir_buf file_buf x -> ~ in_files x -> m' x = m x) /\
    (exists n, n ∈ modes /\ usable_mode n i /\ best_result 1280 1024 24 modes (Some n) /\ video = Some (mode_command n)) /\
    memory_map_iter mm = Ret l /\ Forall2 same_region l (take (length firmware_map - 1) firmware_map) /\
    display out = mkTerminal ([text "Stage2 "; []] ++ loaded_rows ++ ((fun r => concat (e820_line r)) <$> l)) [] 0.
Proof. exact (stage2_start_spec partition_table_start table c stack m). Qed.
End StartSpec.
