(* ===== verification/Stage2Example.v ===== *)
(** A disk that boots: a partition table, a FAT12 volume with stage 3 and stage 4 of
    one cluster each and a kernel of three, a firmware map of four regions and a
    video controller with one mode. *)
From Stdlib Require Import ZArith Lia.
From stdpp Require Import base tactics numbers list strings.
From S2P Require Import Prelude Crates Memory BootInfo Processor Disk Mbr MemoryMap Fmt Teletype.
From S2P Require Import Vesa Fat FatSpec FatDir FatLoad Stage2.
#[local] Open Scope Z_scope.

(** The entries differ in their long name, first cluster and size. *)
Definition boot_short : list Z := [66; 79; 79; 84; 32; 32; 32; 32; 32; 32; 32].
Definition boot_dir : list Z :=
  lfn_slot 0x41 (pad13 stage3_name) ++ short_slot boot_short 0x20 2 100
  ++ lfn_slot 0x41 (pad13 stage4_name) ++ short_slot boot_short 0x20 3 200
  ++ lfn_slot 0x41 (pad13 kernel_file_name) ++ short_slot boot_short 0x20 4 0x2800.

(** Eight sectors per cluster, one reserved sector, one table of one sector, 512
    directory entries and 100 sectors. *)
Definition boot_bpb : BiosParameterBlock := mkBpb 512 8 1 1 512 100 0 1 0 0.
Definition boot_sector : list Z :=
  replicate 11 0 ++ [0; 2; 8; 1; 0; 1; 0; 2; 100; 0; 0; 1; 0] ++ replicate 488 0.

(** The volume starts at sector 1. *)
Definition boot_image (off : Z) : Z :=
  let o := off - 512 in
  if (0 <=? o) && (o <? 512) then nth (Z.to_nat o) boot_sector 0
  else if (512 <=? o) && (o <? 1024) then nth (Z.to_nat (o - 512)) [0xF8; 0xFF; 0xFF; 0xFF; 0xFF; 0xFF; 0x05; 0x60; 0x00; 0xFF; 0x0F; 0x00] 0
  else if (1024 <=? o) && (o <? 1024 + 192) then nth (Z.to_nat (o - 1024)) boot_dir 0
  else if 17408 <=? o then o else 0.

#[local] Instance boot_bios : Bios := image_bios boot_image.
#[local] Instance boot_bios_spec : BiosSpec boot_bios := image_bios_spec boot_image.

(** Low memory, memory from 1 MiB on, and two reserved regions. *)
Definition boot_regions : list E820MemoryRegion :=
  [mkE820 0x1000 0x9e000 E820_Normal 1; mkE820 0x9f000 0x1000 E820_Reserved 1; mkE820 0x100000 0x700000 E820_Normal 1;
   mkE820 0xfffc0000 0x40000 E820_Reserved 1].
#[local] Instance boot_e820 : BiosE820 := list_e820 boot_regions.
#[local] Instance boot_e820_spec : E820Spec boot_e820 := list_e820_spec boot_regions.

Definition boot_part : PartitionTableEntry := mkPartitionTableEntry true 0xc 1 100.
Definition boot_fs : FATFileSystem := mkFs (mkDisk 0x80 512 0 512 4096) boot_bpb.
Definition boot_fat : FileAllocationTable := mkFat Fat12 512.

Lemma boot_volume_ok : volume_ok boot_fs Fat12 boot_fat 2 8.
Proof.
  split; try reflexivity; [|discriminate | lia | vm_compute; discriminate].
  split; cbn; try reflexivity; lia.
Qed.

Lemma boot_buffers_ok : buffers_ok 0x7000 0x8000 0xD000.
Proof. split; unfold DIR_BUF_SIZE, FILE_BUF_SIZE, DEFAULT_SECTOR_SIZE, ROOT_DIR_ENTRY_SIZE; lia. Qed.

Lemma boot_bpb_parsed : bpb_of_sector (partition_bytes (fs_disk boot_fs) 0 512) = Ret boot_bpb.
Proof. vm_compute. reflexivity. Qed.

Lemma boot_cluster_ok c : 2 <= c <= 6 -> cluster_ok (fs_disk boot_fs) boot_fat boot_bpb 8 c (34 + (c - 2) * 8).
Proof.
  intros Hc. assert (Hin : c ∈ seqZ 2 5) by (apply elem_of_seqZ; lia). apply list_elem_of_In in Hin.
  destruct Hin as [<-|[<-|[<-|[<-|[<-|[]]]]]];
    (split; [split; (reflexivity || (vm_compute; discriminate) || lia) | reflexivity | lia | reflexivity | vm_compute; discriminate]).
Qed.

(** The directory entry of a name, by evaluation. *)
Definition boot_entry (name : list Z) : outcome (option DirectoryEntry) :=
  find_entry (S (Z.to_nat (DIR_BUF_SIZE / NORMAL_ENTRY_SIZE))) (mkRootDirIter (root_dir boot_fs 2) 0) name.

Lemma boot_find3 : exists e, boot_entry stage3_name = Ret (Some e) /\ is_dir e = false /\ first_cluster e = 2 /\ entry_file_size e = 100.
Proof. eexists. split; [lazy; reflexivity|]. repeat split. Qed.
Lemma boot_find4 : exists e, boot_entry stage4_name = Ret (Some e) /\ is_dir e = false /\ first_cluster e = 3 /\ entry_file_size e = 200.
Proof. eexists. split; [lazy; reflexivity|]. repeat split. Qed.
Lemma boot_findk : exists e, boot_entry kernel_file_name = Ret (Some e) /\ is_dir e = false /\ first_cluster e = 4 /\ entry_file_size e = 0x2800.
Proof. eexists. split; [lazy; reflexivity|]. repeat split. Qed.

Lemma boot_chains : cluster_chain (fat_lookup (fs_disk boot_fs) boot_fat) 2 [2] /\
  cluster_chain (fat_lookup (fs_disk boot_fs) boot_fat) 3 [3] /\ cluster_chain (fat_lookup (fs_disk boot_fs) boot_fat) 4 [4; 5; 6].
Proof.
  split; [apply chain_last; reflexivity|]. split; [apply chain_last; reflexivity|].
  apply chain_next with 5; [reflexivity|]. apply chain_next with 6; [reflexivity|]. apply chain_last. reflexivity.
Qed.

(** A file with the clusters [l]. *)
Lemma boot_loadable fuel name dest limit e c l size :
  boot_entry name = Ret (Some e) -> is_dir e = false -> first_cluster e = c -> entry_file_size e = size ->
  cluster_chain (fat_lookup (fs_disk boot_fs) boot_fat) c l -> Forall (fun c => 2 <= c <= 6) l -> (length l < fuel)%nat ->
  0 <= size <= Z.of_nat (length l) * 4096 -> Z.of_nat (length l) < 10 -> dest + Z.of_nat (length l) * 4096 <= limit ->
  loadable fuel 0x80 boot_part boot_bpb boot_fat 2 name dest limit e l ((fun c => 34 + (c - 2) * 8) <$> l).
Proof.
  unfold boot_entry. intros He Hd Hc Hs Hl Hr Hf Hsz Hlen Hlim. split.
  - change (file_ok boot_fs boot_fat 2 8 name e l ((fun c => 34 + (c - 2) * 8) <$> l)).
    split; [exact He | exact Hd | now rewrite Hc | | rewrite Hs; lia].
    apply Forall2_fmap_r, Forall_Forall2_diag. eapply Forall_impl; [exact Hr|]. exact boot_cluster_ok.
  - exact Hf.
  - cbn [boot_bpb sectors_per_cluster]. lia.
  - rewrite Hs. cbn [boot_bpb sectors_per_cluster]. Z.to_euclidean_division_equations; lia.
Qed.

(** The three files of the volume. *)
Lemma boot_files fuel : (3 < fuel)%nat -> exists e3 e4 ek,
  entry_file_size e4 = 200 /\ entry_file_size ek = 0x2800 /\
  loadable fuel 0x80 boot_part boot_bpb boot_fat 2 stage3_name STAGE3_DST STAGE4_DST e3 [2] [34] /\
  loadable fuel 0x80 boot_part boot_bpb boot_fat 2 stage4_name STAGE4_DST KERNEL_DST e4 [3] [42] /\
  loadable fuel 0x80 boot_part boot_bpb boot_fat 2 kernel_file_name KERNEL_DST (2 ^ 32) ek [4; 5; 6] [50; 58; 66].
Proof.
  intros Hf. destruct boot_find3 as (e3 & F3 & D3 & C3 & S3), boot_find4 as (e4 & F4 & D4 & C4 & S4),
    boot_findk as (ek & Fk & Dk & Ck & Sk). destruct boot_chains as (H3 & H4 & Hk). exists e3, e4, ek.
  split; [exact S4|]. split; [exact Sk|]. unfold STAGE3_DST, STAGE4_DST, KERNEL_DST. split; [|split].
  - apply (boot_loadable fuel _ _ _ _ 2 [2] 100); try assumption; [repeat constructor; lia | cbn [length]; lia..].
  - apply (boot_loadable fuel _ _ _ _ 3 [3] 200); try assumption; [repeat constructor; lia | cbn [length]; lia..].
  - apply (boot_loadable fuel _ _ _ _ 4 [4; 5; 6] 0x2800); try assumption; [repeat constructor; lia | cbn [length]; lia..].
Qed.

(** ** Memory and video *)

Definition boot_vbe_info : VbeInfo := mkVbeInfo 0x0F000000.
Definition boot_mode_info : VbeModeInfo := mkVbeModeInfo 0x90 3840 1280 1024 24 6 16 8 0 0xfd000000.

#[local] Instance boot_vbe : Vbe := {|
  vbe_controller_info := (VESA_SUCCESS, boot_vbe_info);
  vbe_mode_info _ := (VESA_SUCCESS, boot_mode_info);
  vbe_set_mode _ := VESA_SUCCESS
|}.

(** Stage 2 itself: three sectors behind the volume. *)
Definition boot_stage2_part : PartitionTableEntry := mkPartitionTableEntry true 0x20 200 3.

Definition boot_table : list Z :=
  encode_partition (boot_stage2_part) [0; 0; 0] [0; 0; 0]
  ++ encode_partition boot_part [0; 0; 0] [0; 0; 0] ++ replicate 32 0.

(** The partition table at [0x7dbe], the array of modes at [0xf000]. *)
Definition boot_mem : mem :=
  write_list (write_list (fun _ => 0) 0x7dbe boot_table) 0xf000 [0x1b; 0x01; 0xff; 0xff].

(** The array of modes is away from the buffers. *)
Lemma boot_modes_apart x : 0xf000 <= x < 0xf004 -> ~ in_any_buffer 0x7000 0x8000 0xD000 x.
Proof. unfold in_any_buffer, in_buffers, DIR_BUF_SIZE, FILE_BUF_SIZE, DEFAULT_SECTOR_SIZE, ROOT_DIR_ENTRY_SIZE. lia. Qed.

Lemma boot_modes m' :
  (forall x, 0xf000 <= x < 0xf004 -> m' x = boot_mem x) ->
  mode_array boot_vbe_info m' [0x11b].
Proof.
  intros Hm. assert (Hl : forall i, 0 <= i <= 2 ->
    load_le m' (0xf000 + i) 2 = load_le boot_mem (0xf000 + i) 2).
  { intros i Hi. apply load_le_agree. intros x Hx. apply Hm. lia. }
  split.
  - intros [|i] n; [intros [= <-] | intros E; discriminate E].
    change (get_mode boot_vbe_info m' (Z.of_nat 0)) with
      (Ret (if load_le m' (0xf000 + 0) 2 =? 0xffff then None else Some (load_le m' (0xf000 + 0) 2))).
    rewrite Hl by lia. reflexivity.
  - change (get_mode boot_vbe_info m' (Z.of_nat (length [0x11b]))) with
      (Ret (if load_le m' (0xf000 + 2) 2 =? 0xffff then None else Some (load_le m' (0xf000 + 2) 2))).
    rewrite Hl by lia. reflexivity.
  - cbn. lia.
Qed.

#[local] Existing Instances ref_bit_field ref_bit_field_ok ref_bitflags ref_bitflags_ok.

Lemma stage2_start_correct_witness :
  exists e4 ek m' mm out video c',
    entry_file_size e4 = 200 /\ entry_file_size ek = 0x2800 /\
    stage2_start 0x7000 0x8000 0xD000 0x6000 0xE000 0xE800 10 0x80 0x7dbe MEMORY_MAP real_mode_cpu (mkStack 0x7bf2 []) [] None boot_mem
      = Ret (m', mm, (out, video),
          {| stage4 := PhysicalMemoryRegion_new STAGE4_DST (entry_file_size e4) Reserved;
             bios_kernel := PhysicalMemoryRegion_new KERNEL_DST (entry_file_size ek) Reserved;
             bios_framebuffer := framebuffer_of boot_mode_info;
             last_physical_address := KERNEL_DST + entry_file_size ek;
             memory_map_address := 0xE000;
             memory_map_size := 3 |}, (c', (STAGE3_DST, mkStack 0x7afc [0xE800]))) /\
    video = Some 0x411b /\
    all_loaded 0x80 boot_part boot_bpb [34] [42] [50; 58; 66] m' /\
    exists rows, t_rows (display out) = text "Stage2 " :: [] :: rows.
Proof.
  destruct (boot_files 10 ltac:(lia)) as (e3 & e4 & ek & S4 & Sk & L3 & L4 & Lk).
  destruct (stage2_start_correct 0x7000 0x8000 0xD000 0x6000 0xE000 0xE800 10 0x80 boot_part boot_bpb Fat12 boot_fat 2)
    with (e3 := e3) (e4 := e4) (ek := ek) (l3 := [2]) (l4 := [3]) (lk := [4; 5; 6]) (ss3 := [34]) (ss4 := [42]) (ssk := [50; 58; 66])
      (info := boot_vbe_info) (modes := [0x11b]) (partition_table_start := 0x7dbe)
      (table := [boot_stage2_part; boot_part; mkPartitionTableEntry false 0 0 0; mkPartitionTableEntry false 0 0 0])
      (c := real_mode_cpu) (stack := mkStack 0x7bf2 []) (m := boot_mem)
    as (m' & mm & out & video & i & l & c' & E & _ & Hall & _ & (n & Hn%list_elem_of_singleton & Hi & _ & Hv) & _ & _ & Hout).
  - split; unfold in_width; cbn [boot_part logical_block_address sector_count]; lia.
  - cbn [boot_bpb sectors_per_cluster]. lia.
  - reflexivity.
  - exact boot_bpb_parsed.
  - exact boot_volume_ok.
  - exact boot_buffers_ok.
  - exact L3.
  - exact L4.
  - exact Lk.
  - reflexivity.
  - lia.
  - reflexivity.
  - intros k _. repeat split; vm_compute; discriminate || reflexivity.
  - intros k i _ [[= <-] _]. vm_compute. discriminate.
  - exists 0x11b, boot_mode_info. split; [now left|]. repeat split. now right.
  - apply Nat.ltb_lt. reflexivity.
  - split; apply Nat.leb_le; reflexivity.
  - apply Nat.leb_le. reflexivity.
  - reflexivity.
  - reflexivity.
  - split; cbn; lia.
  - vm_compute. reflexivity.
  - reflexivity.
  - reflexivity.
  - intros m' Hm. apply boot_modes. intros x Hx. apply Hm; [now apply boot_modes_apart | lia].
  - destruct Hi as [[= <-] _]. exists e4, ek, m', mm, out, video, c'. split; [exact S4|]. split; [exact Sk|]. split; [exact E|].
    split; [rewrite Hv, Hn; reflexivity|]. split; [exact Hall|].
    rewrite Hout. eexists. reflexivity.
Defined.
