(* ===== verification/BootChain.v ===== *)
(** The machine from the boot sector to the idle loop of the kernel.

    [power_on] runs the stages one after the other, each on the memory, the
    processor and the serial line that the one before it left: the boot sector and
    stage 2 with the BIOS, stage 3, stage 4 and the kernel.  Its theorem composes those
    of the stages. *)
From Stdlib Require Import ZArith Lia.
From stdpp Require Import base tactics numbers list sets strings.
From S2P Require Import Prelude Crates Memory Paging BumpAlloc AddressSpace.
From S2P Require Import MapperClient WindowMapper Buddy BuddyHeap KernelHeap HeapSetup FrameSupply BootInfo Ports SpinLock Fmt Serial Pic8259.
From S2P Require Import KernelLoader KernelImage KernelLoad KernelExample Descriptors Processor InterruptStubs Stage3 KernelInterrupts Exceptions.
From S2P Require Import Stage4 Stage4Theorems SelfTest KernelMain KernelStart Stage4Start Stage4Complete Stage4Example HandOver Boot.
From S2P Require Import Disk Mbr MemoryMap Vesa Fat FatSpec FatDir FatLoad Teletype Stage2 Stage2Example.
#[local] Open Scope Z_scope.

Section Chain.
Context `{BF : BitField} `{FL : Bitflags} `{BIOS : Bios} `{E820 : BiosE820} `{VBE : Vbe} `{EB : ElfBinary Bin Er} `{IO : IoPorts W}.
(** Where the compiler and the linker put things: the buffers of stage 2, the tables of
    stage 3, the stubs and the switch function of stage 4, the stubs and tables of the
    kernel; and the layout of the boot information. *)
Context (tmp_buf dir_buf file_buf mode_buf memory_map_ptr bios_info_ptr : Z) (PML4T PDPT PDT : Z).
Context (display_flags : ProgramHeader -> list Z) (boot_info_size : Z) (store_boot_info : mem -> Z -> BootInfo -> mem).
Context (read_boot_info : mem -> Z -> BootInfo) (stub_address : stub -> Z) (stage4_idt_address context_switch_address : Z).
Context (kernel_stub : stub -> Z) (tss_address idt_address : Z) (error_text : Z -> list Z) (code_at : Z -> option stub).
Context (fuel : nat).

(** [_start] of each stage, on what the one before it left; the statics of a stage, the
    serial line among them, have their initial values then.  The kernel's argument is
    the address in [rdi]. *)
Definition kernel_entry (frame : ExceptionStackFrame) (c : cpu) (e : entered) (w : W) (m hm : mem) : outcome (stop * @kernel_state W) :=
  kernel_start kernel_stub tss_address idt_address error_text code_at fuel (read_boot_info m (at_rdi e)) frame (kernel_entered c w) m
    (Buddy_new hm).

Definition stage4_entry (frame : ExceptionStackFrame) (info : BiosInfo) (e820 : list E820MemoryRegion) (c : cpu) (w : W) (m hm : mem) :
    outcome (stop * @kernel_state W) :=
  '((c, e), _, (m, _), con) ←
    start fuel display_flags boot_info_size store_boot_info stub_address stage4_idt_address context_switch_address info e820 c m (mkConsole None w);
  kernel_entry frame c e (c_world con) (kernel_memory m) hm.

Definition stage3_entry (frame : ExceptionStackFrame) (info_ptr : Z) (info : BiosInfo) (e820 : list E820MemoryRegion) (c : cpu) (stack : stack32)
    (w : W) (m hm : mem) : outcome (stop * @kernel_state W) :=
  '(c, _, con, m) ← stage3_start PML4T PDPT PDT fuel info_ptr (pmr_start (stage4 info)) c stack (mkConsole None w) m;
  stage4_entry frame info e820 c (c_world con) m hm.

(** What stage 2 sent to the screen, the video mode, where the kernel stops and its
    state.  The boot sector's own line is not part of it. *)
Definition stage2_entry (dn partition_table : Z) (frame : ExceptionStackFrame) (c : cpu) (stack : stack32) (w : W) (m hm : mem) :
    outcome (list Z * option Z * stop * @kernel_state W) :=
  '(m, memory_map, (screen, video), info, (c, (_, stack))) ←
    stage2_start tmp_buf dir_buf file_buf mode_buf memory_map_ptr bios_info_ptr fuel dn partition_table MEMORY_MAP c stack [] None m;
  e820 ← memory_map_iter memory_map;
  '(s, ks) ← stage3_entry frame (hd 0 (known_words stack)) info e820 c stack w m hm;
  Ret (screen, video, s, ks).

(** The BIOS starts the boot sector with the number of its drive; it calls stage 2. *)
Definition power_on (partition_table second_stage_start dn : Z) (frame : ExceptionStackFrame) (c : cpu) (stack : stack32) (w : W) (m hm : mem) :
    halts (outcome (list Z * option Z * stop * @kernel_state W)) :=
  '(m, (dn, partition_table)) ← first_stage partition_table second_stage_start dn m;
  Runs (stage2_entry dn partition_table frame c stack w m hm).
End Chain.

(** ** The chain reaches the kernel's idle loop *)

Section ChainTheorem.
Context `{BF : BitField} `{BFS : !BitFieldSpec BF} `{FL : Bitflags} `{FLS : !BitflagsSpec FL}.
Context `{BS : BiosSpec} `{ES : E820Spec} `{VBE : Vbe} `{EBS : ElfBinarySpec Bin Er} `{MW : MachineWorld W} (b : Bin).
Context (tmp_buf dir_buf file_buf mode_buf memory_map_ptr bios_info_ptr : Z) (PML4T PDPT PDT : Z).
Context (display_flags : ProgramHeader -> list Z) (boot_info_size : Z) (store_boot_info : mem -> Z -> BootInfo -> mem).
Context (read_boot_info : mem -> Z -> BootInfo) (representable : BootInfo -> Prop).
Context (Hlo : layout_ok boot_info_size store_boot_info read_boot_info representable).
Context (stub_address : stub -> Z) (stage4_idt_address context_switch_address : Z) (fuel : nat).

(** The disk, as for [stage2_start_correct]. *)
Context (dn : Z) (part : PartitionTableEntry) (bpb : BiosParameterBlock) (t : FatType) (fat : FileAllocationTable) (root_sector : Z).
Abbreviation spc := (sectors_per_cluster bpb).
Abbreviation fs0 := (mkFs (mkDisk dn (logical_block_address part * 512) 0 512 (spc * 512)) bpb).
Context (Hpart : entry_ok part) (Hspc : 0 < spc <= 8) (Hbps : bytes_per_sector bpb = 512).
Context (Hbpb : bpb_of_sector (partition_bytes (fs_disk fs0) 0 512) = Ret bpb).
Context (Hv : volume_ok fs0 t fat root_sector spc) (Hb : buffers_ok tmp_buf dir_buf file_buf).
Context (e3 e4 ek : DirectoryEntry) (l3 l4 lk ss3 ss4 ssk : list Z).
Context (H3 : loadable fuel dn part bpb fat root_sector stage3_name STAGE3_DST STAGE4_DST e3 l3 ss3).
Context (H4 : loadable fuel dn part bpb fat root_sector stage4_name STAGE4_DST KERNEL_DST e4 l4 ss4).
Context (Hk : loadable fuel dn part bpb fat root_sector kernel_file_name KERNEL_DST (2 ^ 32) ek lk ssk).

(** The firmware, likewise. *)
Context (vinfo : VbeInfo) (modes : list Z).
Context (Hinfo : vbe_controller_info = (VESA_SUCCESS, vinfo)) (Hptr : 0 <= mode_buf < 2 ^ 16).
Context (Hset : forall n i, n ∈ modes -> usable_mode n i -> vbe_set_mode (mode_command n) = VESA_SUCCESS).
Context (Hmi : forall n, n ∈ modes -> info_ok (vbe_mode_info n).2).
Context (Hbpp : forall n i, n ∈ modes -> usable_mode n i -> 8 <= bits_per_pixel i).
Context (Hsome : exists n i, n ∈ modes /\ usable_mode n i) (Hmodes : (length modes < fuel)%nat).
Context (Hfw : (0 < length firmware_map <= 32)%nat) (Hfw_fuel : (length firmware_map <= fuel)%nat).

(** The tables of stage 3 are apart from the kernel's file, and zero when stage 3 starts. *)
Context (Hstatics : statics_ok PML4T PDPT PDT).
Context (Hapart : forall x, in_statics PML4T PDPT PDT x -> ~ in_file bpb KERNEL_DST lk x).

Abbreviation loaded := (all_loaded dn part bpb ss3 ss4 ssk).
Abbreviation information i := (boot_information memory_map_ptr e4 ek i).

(** Stage 4 and the kernel can run: with the kernel's file in memory, whatever usable
    mode was chosen and whatever attributes the firmware reports for its regions. *)
Definition bootable (i : VbeModeInfo) (l : list E820MemoryRegion) : Prop :=
  exists frames max,
    (forall m, file_loaded fs0 KERNEL_DST spc m ssk ->
       stage4_ok b fuel boot_info_size representable context_switch_address (information i) l frames m max) /\
    room_ok b (information i) l max /\ PHYSICAL_MEMORY_OFFSET + max < 136 * 2 ^ 39 /\
    104 <= fa_avail (bump_new (kernel_used (information i) l)).
Context (Hboot : forall i l, (exists n, n ∈ modes /\ usable_mode n i) ->
  Forall2 same_region l (take (length firmware_map - 1) firmware_map) -> bootable i l).

(** The kernel, as for [kernel_start_correct]. *)
Context (kernel_stub : stub -> Z) (tss_address idt_address : Z) (error_text : Z -> list Z) (code_at : Z -> option stub).
Context (Hstub : forall s, in_width 64 (kernel_stub s) /\ code_at (kernel_stub s) = Some s) (Htss : in_width 64 tss_address).
Context (Hheap : HEAP_SIZE / 16 < Z.of_nat fuel) (Hpoll : (polls_bound < fuel)%nat).

(** From stage 2 on. *)
Lemma stage2_entry_spec partition_table_start table frame c stack (w : W) m hm :
  Z.land (cpu_cr0 c) Cr0Flags_all = cpu_cr0 c -> Z.testbit (cpu_cr0 c) 0 = false -> in_width 32 bios_info_ptr ->
  read_partition_table (read_list m partition_table_start 64) = Ret table ->
  table !! 1%nat = Some part -> partition_type part = 0xc ->
  (forall m', (forall x, ~ in_any_buffer tmp_buf dir_buf file_buf x -> x < 2 ^ 20 -> m' x = m x) ->
     mode_array vinfo m' modes) ->
  (forall m', loaded m' -> (forall x, ~ in_any_buffer tmp_buf dir_buf file_buf x -> ~ in_files bpb l3 l4 lk x -> m' x = m x) ->
     empty_tables PML4T PDPT m') ->
  stage (chips w).1 = Ready /\ stage (chips w).2 = Ready ->
  exists screen video ks l bf map root mk info,
    stage2_entry tmp_buf dir_buf file_buf mode_buf memory_map_ptr bios_info_ptr PML4T PDPT PDT display_flags boot_info_size store_boot_info
      read_boot_info stub_address stage4_idt_address context_switch_address kernel_stub tss_address idt_address error_text code_at fuel dn partition_table_start
      frame c stack w m hm = Ret (screen, video, Halting, ks) /\
    (exists n, best_result 1280 1024 24 modes (Some n) /\ video = Some (mode_command n)) /\
    Forall2 same_region l (take (length firmware_map - 1) firmware_map) /\
    display screen = mkTerminal ([text "Stage2 "; []] ++ loaded_rows e3 e4 ek ++ ((fun r => concat (e820_line r)) <$> l)) [] 0 /\
    build_memory_map l (mkFrame Size4KiB bf) = Ret map /\ memory_regions_deref mk (memory_regions info) = present_regions map /\
    sent (km_world (ks_machine ks)) = sent w ++
      (char_byte <$> concat ([text "Stage3"; newline] ++ stage4_log b display_flags stage4_idt_address root ++ kernel_log idt_address info mk frame)) /\
    cpu_interrupts (km_cpu (ks_machine ks)) = true /\ traps_ready kernel_stub code_at (ks_machine ks) /\
    ks_page_table ks = kernel_table info root /\ heap_inv HEAP_START HEAP_SIZE (mkHeap (ks_heap ks) []).
Proof.
  intros Hcr Hreal Hbi Htable Hpt Htype Harr Hempty Hchips. unfold stage2_entry.
  destruct (stage2_start_spec tmp_buf dir_buf file_buf mode_buf memory_map_ptr bios_info_ptr fuel dn part bpb t fat root_sector
    Hpart Hspc Hbps Hbpb Hv Hb e3 e4 ek l3 l4 lk ss3 ss4 ssk H3 H4 Hk vinfo modes Hinfo Hptr Hset Hmi Hbpp Hsome Hmodes Hfw Hfw_fuel
    partition_table_start table c stack m Hcr Hreal Hbi Htable Hpt Htype Harr)
    as (m2 & mm & screen & video & i & l & c2 & -> & (Hc2 & _) & Hall & Hkeep & (n & Hn & Hu & Hbest & Hvideo) & El & Hl & Hscreen).
  rewrite bind_Ret, El, bind_Ret. change (hd 0 (known_words (argument_stack bios_info_ptr stack))) with (ucast 32 bios_info_ptr).
  replace (ucast 32 bios_info_ptr) with bios_info_ptr by (symmetry; apply Z.mod_small, Hbi).
  destruct (Hboot i l (ex_intro _ n (conj Hn Hu)) Hl) as (frames & max & Hready & Hroom & Hmax & Hav).
  destruct (stage3_run PML4T PDPT PDT Hstatics fuel bios_info_ptr STAGE4_DST c2 (argument_stack bios_info_ptr stack) (mkConsole None w) m2
    (Hempty m2 Hall Hkeep) Hbi ltac:(unfold in_width, STAGE4_DST; lia) Hpoll I)
    as (c3 & con3 & m3 & E3 & (_ & Hsent3 & Hblind3) & _ & _ & _ & Hc3 & _ & _ & _ & _ & Hkeep3).
  unfold stage3_entry. change (pmr_start (stage4 (information i))) with STAGE4_DST. rewrite E3, bind_Ret. unfold stage4_entry.
  assert (Hfile : file_loaded fs0 KERNEL_DST spc m3 ssk).
  { eapply file_loaded_keep with (m := m2); [eassumption | exact Hk | | apply Hall].
    intros x Hx. apply Hkeep3. intros Hin. exact (Hapart x Hin Hx). }
  destruct (kernel_reached b fuel boot_info_size store_boot_info read_boot_info representable Hlo stub_address stage4_idt_address context_switch_address
    (information i) l frames display_flags Hpoll kernel_stub tss_address idt_address error_text code_at fuel Hstub Htss Hheap Hpoll
    c3 m3 max (mkConsole None (c_world con3)) frame hm (Hready m3 Hfile) Hroom I)
    as (c4 & e & idt & m4 & a4 & con4 & map & -> & _ & Hview & Emap & Hkernel).
  { rewrite Hc3, Hc2, !Z.lor_spec. now rewrite orb_true_r. }
  { cbn [c_world]. now rewrite (Hblind3 _ chips mw_uart_pics). }
  { exact Hmax. }
  { exact Hav. }
  rewrite bind_Ret. destruct (Hkernel _ Hview) as (ks & Eks & Hregs & Hsent & Hrest). unfold kernel_entry. rewrite Eks, bind_Ret.
  exists screen, video, ks, l, (at_rdi e), map, (cpu_cr3 c4), (kernel_memory m4), (read_boot_info (kernel_memory m4) (at_rdi e)).
  split; [reflexivity|]. split; [eauto|]. do 4 (split; [assumption|]). split; [|exact Hrest].
  rewrite Hsent. cbn [c_world]. rewrite Hsent3. cbn [c_world]. now rewrite <- app_assoc, <- fmap_app, <- concat_app.
Qed.

(** C2: a bootable machine boots.  Take a disk with stage 2 in the first partition and, in
    the FAT12 or FAT16 volume of the second, non-empty files for stage 3, stage 4 and the
    kernel, whose clusters have at most eight sectors and are all there; a kernel that
    can be loaded; firmware with a usable video mode and with a memory map whose
    regions in front of the loaded files, not counting one at address 0, hold the 104
    frames the kernel takes; and idle interrupt controllers.  From the boot sector on,
    the stages then run one after the other, each on what the one before it left, and the kernel
    reaches its idle loop: with interrupts on, every exception and device interrupt
    leading to its handler, its own page table, and its heap in order with nothing
    allocated.  The screen showed the three files and the memory map of the firmware,
    without its last region, before the best usable video mode for 1280 by 1024 pixels
    was set.  What went out on the serial line is exactly the text of stage 3, of stage
    4 and of the kernel: the kernel prints the memory map that stage 4 built from the
    firmware's, the messages of its self tests, and the breakpoint it returned from. *)
Theorem machine_boots partition_table second_stage_start e2 chs1 chs2 post table frame c stack (w : W) m hm :
  entry_ok e2 -> length chs1 = 3%nat -> length chs2 = 3%nat ->
  read_list m partition_table 64 = encode_partition e2 chs1 chs2 ++ post ->
  read_partition_table (read_list m partition_table 64) = Ret table -> table !! 1%nat = Some part -> partition_type part = 0xc ->
  0 <= second_stage_start -> partition_table + 64 <= second_stage_start -> second_stage_start + sector_count e2 * 512 <= 2 ^ 20 ->
  logical_block_address e2 + sector_count e2 <= disk_sectors dn ->
  Z.land (cpu_cr0 c) Cr0Flags_all = cpu_cr0 c -> Z.testbit (cpu_cr0 c) 0 = false -> in_width 32 bios_info_ptr ->
  let apart x := ~ in_any_buffer tmp_buf dir_buf file_buf x /\ ~ (second_stage_start <= x < second_stage_start + sector_count e2 * 512) in
  (forall m', (forall x, apart x -> x < 2 ^ 20 -> m' x = m x) -> mode_array vinfo m' modes) ->
  (forall m', loaded m' -> (forall x, apart x -> ~ in_files bpb l3 l4 lk x -> m' x = m x) -> empty_tables PML4T PDPT m') ->
  stage (chips w).1 = Ready /\ stage (chips w).2 = Ready ->
  exists screen video ks l bf map root mk info,
    power_on tmp_buf dir_buf file_buf mode_buf memory_map_ptr bios_info_ptr PML4T PDPT PDT display_flags boot_info_size store_boot_info
      read_boot_info stub_address stage4_idt_address context_switch_address kernel_stub tss_address idt_address error_text code_at fuel
      partition_table second_stage_start dn frame c stack w m hm = Runs (Ret (screen, video, Halting, ks)) /\
    (exists n, best_result 1280 1024 24 modes (Some n) /\ video = Some (mode_command n)) /\
    Forall2 same_region l (take (length firmware_map - 1) firmware_map) /\
    display screen = mkTerminal ([text "Stage2 "; []] ++ loaded_rows e3 e4 ek ++ ((fun r => concat (e820_line r)) <$> l)) [] 0 /\
    build_memory_map l (mkFrame Size4KiB bf) = Ret map /\ memory_regions_deref mk (memory_regions info) = present_regions map /\
    sent (km_world (ks_machine ks)) = sent w ++
      (char_byte <$> concat ([text "Stage3"; newline] ++ stage4_log b display_flags stage4_idt_address root ++ kernel_log idt_address info mk frame)) /\
    cpu_interrupts (km_cpu (ks_machine ks)) = true /\ traps_ready kernel_stub code_at (ks_machine ks) /\
    ks_page_table ks = kernel_table info root /\ heap_inv HEAP_START HEAP_SIZE (mkHeap (ks_heap ks) []).
Proof.
  intros He2 Hc1 Hc2 Hread Htable Hpt Htype Hs0 Hs1 Hs2 Hds Hcr Hreal Hbi apart Harr Hempty Hchips. unfold power_on.
  destruct (first_stage_spec partition_table second_stage_start dn m e2 chs1 chs2 post He2 Hc1 Hc2 Hread Hs0 Hs2 Hds)
    as (m1 & -> & _ & Hkeep1). cbn [mbind halts_bind].
  assert (Hsame : read_list m1 partition_table 64 = read_list m partition_table 64).
  { apply read_list_agree. intros y Hy. apply Hkeep1. lia. }
  destruct (stage2_entry_spec partition_table table frame c stack w m1 hm Hcr Hreal Hbi) as (screen & video & ks & l & bf & map & root & mk & info & -> & Hrest);
    [now rewrite Hsame | assumption | assumption | | | assumption |].
  - intros m' Hm'. apply Harr. intros x [Hx Hx2] Hlow. rewrite Hm' by assumption. now apply Hkeep1.
  - intros m' Hall Hm'. apply Hempty; [exact Hall|]. intros x [Hx Hx2] Hn. rewrite Hm' by assumption. now apply Hkeep1.
  - exists screen, video, ks, l, bf, map, root, mk, info. split; [reflexivity | exact Hrest].
Qed.
End ChainTheorem.

(** ** A machine that boots: the disk and firmware of [Stage2Example], with the kernel
    file of [KernelExample] and the devices of [KernelInterrupts] *)

Section Example.
#[local] Existing Instances ref_bit_field ref_bitflags ref_bit_field_ok ref_bitflags_ok chip_ports chip_machine kernel_elf kernel_elf_ok.
#[local] Existing Instances boot_bios boot_bios_spec boot_e820 boot_e820_spec boot_vbe.

(** The regions that are counted, whatever their attributes. *)
Lemma counted_regions l :
  Forall2 same_region l (take (length boot_regions - 1) boot_regions) -> exists x y z, l = ex_map_with x y z.
Proof.
  cbn [boot_regions length Nat.sub take]. intros Hl. pose proof (Forall2_length _ _ _ Hl) as Hlen.
  destruct l as [|[s1 n1 t1 x] [|[s2 n2 t2 y] [|[s3 n3 t3 z] [|r l]]]]; try discriminate Hlen.
  apply Forall2_cons in Hl as [(E1 & E2 & E3) Hl]. apply Forall2_cons in Hl as [(E4 & E5 & E6) Hl]. apply Forall2_cons in Hl as [(E7 & E8 & E9) _].
  cbn in *. subst. now exists x, y, z.
Qed.

Lemma chain_bootable e4 ek fuel i l :
  (40 <= fuel)%nat -> entry_file_size ek = 0x2800 -> (exists n, n ∈ [0x11b] /\ usable_mode n i) ->
  Forall2 same_region l (take (length boot_regions - 1) boot_regions) ->
  bootable ex_kernel_file 0xE000 ex_size ex_representable ex_switch fuel 0x80 boot_part boot_bpb e4 ek [50; 58; 66] i l.
Proof.
  intros Hf Hs (n & _ & [[= <-] _]) (x & y & z & ->)%counted_regions. set (info := boot_information 0xE000 e4 ek boot_mode_info).
  assert (Hkernel : pmr_start (bios_kernel info) = 0x200000 /\ pmr_size (bios_kernel info) = 0x2800) by (split; [reflexivity | exact Hs]).
  assert (Hnext : last_physical_address info - last_physical_address info mod 4096 + 4096 = 0x203000).
  { cbn [info boot_information last_physical_address]. rewrite Hs. reflexivity. }
  exists (ex_frames_from 0x203000 z), (0x203000 + 0x700000). split; [|split; [|split]].
  - intros m _. apply (ex_ready x y z info 0x203000 Hkernel Hnext (or_introl eq_refl)); [|exact Hf].
    intros p k Hp Hk. unfold ex_representable, boot_info_words, region_words. cbn [boot_kernel boot_framebuffer memory_regions regions_ptr regions_len app].
    cbn [info boot_information bios_kernel bios_framebuffer framebuffer_of boot_mode_info]. rewrite Hs. cbn.
    repeat (apply Forall_cons_2; [first [exact Hp | exact Hk | unfold in_width; first [lia | split; [discriminate | reflexivity]]]|]). constructor.
  - exact (ex_room info x y z 0x203000 Hnext (or_introl eq_refl)).
  - reflexivity.
  - change (104 <= fa_avail (bump_new (kernel_used info (ex_map_with x y z)))). unfold kernel_used. rewrite Hnext. vm_compute. discriminate.
Qed.

Lemma boot_mem_high x : 2 ^ 20 <= x -> boot_mem x = 0.
Proof.
  intros Hx. assert (El : Z.of_nat (length boot_table) = 64) by reflexivity.
  unfold boot_mem. rewrite write_list_outside by (cbn [length]; lia). rewrite write_list_outside by lia. reflexivity.
Qed.

Lemma machine_boots_witness : exists screen video ks,
  power_on 0x7000 0x8000 0xD000 0x6000 0xE000 0xE800 0x102000 0x103000 0x104000 ex_display ex_size ex_store ex_read (fun _ => 0x120000) 0x128000 ex_switch
    ex_stub_address 0x5000 0x7000 (fun _ => text "(empty)") ex_code_at (Z.to_nat 6401) 0x7dbe 0x10000 0x80 ex_frame real_mode_cpu (mkStack 0x7bf2 [])
    (ex_chips, ex_line) boot_mem (fun _ => 0) = Runs (Ret (screen, video, Halting, ks)) /\
  cpu_interrupts (km_cpu (ks_machine ks)) = true /\ heap_inv HEAP_START HEAP_SIZE (mkHeap (ks_heap ks) []) /\
  exists rows, t_rows (display screen) = text "Stage2 " :: [] :: rows.
Proof.
  assert (Hfuel : (40 <= Z.to_nat 6401)%nat) by (apply Nat.leb_le; reflexivity).
  destruct (boot_files (Z.to_nat 6401) ltac:(lia)) as (e3 & e4 & ek & S4 & Sk & L3 & L4 & Lk).
  destruct (machine_boots ex_kernel_file 0x7000 0x8000 0xD000 0x6000 0xE000 0xE800 0x102000 0x103000 0x104000 ex_display ex_size ex_store ex_read
      ex_representable ex_boot_layout_ok (fun _ => 0x120000) 0x128000 ex_switch (Z.to_nat 6401) 0x80 boot_part boot_bpb Fat12 boot_fat 2)
    with (e3 := e3) (e4 := e4) (ek := ek) (l3 := [2]) (l4 := [3]) (lk := [4; 5; 6]) (ss3 := [34]) (ss4 := [42]) (ssk := [50; 58; 66])
      (vinfo := boot_vbe_info) (modes := [0x11b]) (kernel_stub := ex_stub_address) (tss_address := 0x5000) (idt_address := 0x7000)
      (error_text := fun _ : Z => text "(empty)") (code_at := ex_code_at) (partition_table := 0x7dbe)
      (second_stage_start := 0x10000) (e2 := boot_stage2_part) (chs1 := [0; 0; 0]) (chs2 := [0; 0; 0]) (post := drop 16 boot_table)
      (table := [boot_stage2_part; boot_part; mkPartitionTableEntry false 0 0 0; mkPartitionTableEntry false 0 0 0])
      (frame := ex_frame) (c := real_mode_cpu) (stack := mkStack 0x7bf2 []) (w := (ex_chips, ex_line)) (m := boot_mem) (hm := fun _ : Z => 0)
    as (screen & video & ks & l & bf & map & root & mk & binfo & E & _ & _ & Hscreen & _ & _ & _ & Hi & _ & _ & Hh).
  - split; unfold in_width; cbn [boot_part logical_block_address sector_count]; lia.
  - cbn [boot_bpb sectors_per_cluster]. lia.
  - reflexivity.
  - exact boot_bpb_parsed.
  - exact boot_volume_ok.
  - exact boot_buffers_ok.
  - exact L3.
  - exact L4.
  - exact Lk.
  - reflexivity.
  - lia.
  - reflexivity.
  - intros k _. repeat split; vm_compute; discriminate || reflexivity.
  - intros k i _ [[= <-] _]. vm_compute. discriminate.
  - exists 0x11b, boot_mode_info. split; [now left|]. repeat split. now right.
  - apply Nat.ltb_lt. reflexivity.
  - split; apply Nat.leb_le; reflexivity.
  - apply Nat.leb_le. reflexivity.
  - split; repeat split; try reflexivity; unfold ranges_disjoint; lia.
  - intros x Hx Hin. unfold in_statics, in_file, KERNEL_DST in *. cbn in Hin. lia.
  - intros i l Hi Hl. exact (chain_bootable e4 ek _ i l Hfuel Sk Hi Hl).
  - exact (fun s => conj (ex_stub_width s) (ex_code s)).
  - split; cbn; lia.
  - rewrite Z2Nat.id by lia. reflexivity.
  - apply Nat.ltb_lt. reflexivity.
  - split; unfold in_width; cbn [boot_stage2_part logical_block_address sector_count]; lia.
  - reflexivity.
  - reflexivity.
  - vm_compute. reflexivity.
  - vm_compute. reflexivity.
  - reflexivity.
  - reflexivity.
  - lia.
  - lia.
  - cbn [boot_stage2_part sector_count]. lia.
  - vm_compute. discriminate.
  - reflexivity.
  - reflexivity.
  - split; cbn; lia.
  - intros m' Hm. apply boot_modes. intros x Hx. apply Hm; [|lia].
    split; [now apply boot_modes_apart | cbn [boot_stage2_part sector_count]; lia].
  - intros m' _ Hm. intros i Hi. split; apply (load_le_zero _ _ 8); intros x Hx.
    all: rewrite Hm; [rewrite boot_mem_high by lia; reflexivity | split; [|cbn [boot_stage2_part sector_count]; lia] |].
    all: unfold in_any_buffer, in_buffers, in_files, in_file, DIR_BUF_SIZE, FILE_BUF_SIZE, DEFAULT_SECTOR_SIZE, ROOT_DIR_ENTRY_SIZE.
    all: unfold STAGE3_DST, STAGE4_DST, KERNEL_DST; cbn [length boot_bpb sectors_per_cluster]; lia.
  - split; reflexivity.
  - exists screen, video, ks. split; [exact E|]. split; [exact Hi|]. split; [exact Hh|]. rewrite Hscreen. eexists. reflexivity.
Defined.
End Example.
