(* ===== verification/DiskImage.v ===== *)
(** The host program that builds the disk image: [bootloader/src/lib.rs] and
    [bootloader/src/bios].

    The files of the host are a finite map from paths to bytes.  Its calls fail
    when a file does not exist, and otherwise succeed; [anyhow] errors are their
    outermost context.  The crates [mbrman] and [fatfs] are classes.  The theorem
    connects the image with the boot sector: what is written here is found there. *)
From Stdlib Require Import ZArith Lia.
From stdpp Require Import base tactics numbers list strings gmap.
From S2P Require Import Prelude Memory BootInfo Disk Mbr Stage2.
#[local] Open Scope Z_scope.

(** ** The host *)

Abbreviation host := (gmap string (list Z)).
Abbreviation error := string.

(** A computation on the host that may fail: what was written stays written. *)
Definition io (A : Type) : Type := host -> outcome (Result A error * host).

#[global] Instance io_ret : MRet io := fun A a h => Ret (Ok a, h).
#[global] Instance io_bind : MBind io := fun A B k c h =>
  '(r, h) ← c h; match r with Ok a => k a h | Err e => Ret (Err e, h) end.

Definition run {A} (c : outcome A) : io A := fun h => a ← c; Ret (Ok a, h).
Definition context {A} (c : io A) (message : error) : io A := fun h =>
  '(r, h) ← c h; Ret (match r with Ok a => Ok a | Err _ => Err message end, h).
(** A call of a crate. *)
Definition call {A} (r : Result A error) : io A := fun h => Ret (r, h).

Section Files.
#[local] Open Scope string_scope.

(** [File::open] and reading to the end; [fs::metadata(path).len()] *)
Definition open_file (path : string) : io (list Z) := fun h =>
  Ret (match h !! path with Some bytes => Ok bytes | None => Err "No such file or directory" end, h).
Definition metadata_len (path : string) : io Z := bytes ← open_file path; mret (Z.of_nat (length bytes)).

(** [OpenOptions] with [create] and [truncate]; [File::set_len] of an empty file *)
Definition create_file (path : string) : io unit := fun h => Ret (Ok tt, <[path := []]> h).
Definition set_contents (path : string) (bytes : list Z) : io unit := fun h => Ret (Ok tt, <[path := bytes]> h).
Definition remove_file (path : string) : io unit := fun h => Ret (Ok tt, delete path h).
End Files.

(** An open file for writing: its contents and the position.  Writing behind the
    end fills the gap with zeroes. *)
Record stream := mkStream { contents : list Z; position : Z }.

Definition put (old : list Z) (at_ : nat) (bs : list Z) : list Z :=
  take at_ (old ++ replicate (at_ - length old) 0) ++ bs ++ drop (at_ + length bs) old.

Definition stream_write (s : stream) (bs : list Z) : stream :=
  mkStream (put (contents s) (Z.to_nat (position s)) bs) (position s + Z.of_nat (length bs)).
Definition seek_start (s : stream) (p : Z) : stream := mkStream (contents s) p.

(** ** The crate [mbrman] *)

Record MBRPartitionEntry := mkMBRPartitionEntry {
  boot : Z;
  first_chs : list Z;
  sys : Z;
  last_chs : list Z;
  starting_lba : Z;
  sectors : Z;
}.

Class Mbrman (MBR : Type) := {
  BOOT_ACTIVE : Z;
  (** the three bytes of [CHS::empty()] *)
  CHS_empty : list Z;
  mbr_read_from : list Z -> Z -> Result MBR error;
  (** [mbr[i] = entry] *)
  mbr_set : MBR -> Z -> MBRPartitionEntry -> MBR;
  (** also the stream after a failure *)
  mbr_write_into : MBR -> stream -> Result unit error * stream;
}.

(** ** The crate [fatfs] *)

Class Fatfs (Vol : Type) := {
  (** [format_volume] with a volume label, on the bytes of the file *)
  fat_format : list Z -> list Z -> Result (list Z) error;
  fat_new : list Z -> Result Vol error;
  (** in the root directory *)
  fat_create_file : Vol -> string -> Result unit error * Vol;
  fat_truncate : Vol -> string -> Result unit error * Vol;
  fat_write : Vol -> string -> list Z -> Result unit error * Vol;
  (** the bytes of the volume when the file system is dropped *)
  fat_bytes : Vol -> list Z;
}.

Definition SECTOR_SIZE : Z := 512.

Section Build.
Context `{MM : Mbrman MBR} `{FF : Fatfs Vol}.
#[local] Open Scope string_scope.

(** ["MiniatureOs"] *)
Definition volume_label : list Z := [0x4d; 0x69; 0x6e; 0x69; 0x61; 0x74; 0x75; 0x72; 0x65; 0x4f; 0x73].

(** [needed_size += metadata.len()] over the files *)
Fixpoint needed_size (files : list (string * string)) (acc : Z) : io Z :=
  match files with
  | [] => mret acc
  | (_, path) :: files =>
      len ← context (metadata_len path) "Failed to get metadata";
      acc ← run (uadd 64 acc len);
      needed_size files acc
  end.

Definition MB : Z := 1024 * 1024.

Definition fat_size_padded_and_rounded (needed_size : Z) : outcome Z :=
  a ← uadd 64 needed_size (1024 * 64);
  a ← usub 64 a 1;
  a ← uadd 64 (a / MB) 1;
  a ← umul 64 a MB;
  uadd 64 a MB.

(** One file: create, truncate and copy; the file system is kept on failure. *)
Definition copy_file (name path : string) (fs : Vol) : io (Result unit error * Vol) :=
  fun h =>
    '(r, h) ← context (open_file path) "Failed to open stage file" h;
    Ret (Ok match r with
            | Err e => (Err e, fs)
            | Ok bytes =>
                match fat_create_file fs name with
                | (Err _, fs) => (Err "Failed to create file in FAT root", fs)
                | (Ok _, fs) =>
                    match fat_truncate fs name with
                    | (Err e, fs) => (Err e, fs)
                    | (Ok _, fs) =>
                        match fat_write fs name bytes with
                        | (Err _, fs) => (Err "Failed to copy file contents", fs)
                        | (Ok _, fs) => (Ok tt, fs)
                        end
                    end
                end
            end, h).

Fixpoint copy_files (files : list (string * string)) (fs : Vol) : io (Result unit error * Vol) :=
  match files with
  | [] => mret (Ok tt, fs)
  | (name, path) :: files =>
      '(r, fs) ← copy_file name path fs;
      match r with Ok _ => copy_files files fs | Err e => mret (Err e, fs) end
  end.

Definition create_fat_filesystem (files : list (string * string)) (out_path : string) : io unit :=
  _ ← context (create_file out_path) "Failed to open tmp file";
  needed ← needed_size files 0;
  size ← run (fat_size_padded_and_rounded needed);
  let bytes := replicate (Z.to_nat size) 0 in
  _ ← context (set_contents out_path bytes) "Failed to set fat file length";
  bytes ← context (call (fat_format bytes volume_label)) "Failed tor format volume";
  _ ← set_contents out_path bytes;
  fs ← context (call (fat_new bytes)) "fatfs::Filesystem new";
  '(r, fs) ← copy_files files fs;
  _ ← set_contents out_path (fat_bytes fs);
  call r.

(** [((len + (SECTOR_SIZE - 1) as u64) / SECTOR_SIZE as u64) as u32] *)
Definition sectors_of (len : Z) : outcome Z :=
  a ← uadd 64 len (SECTOR_SIZE - 1); Ret (ucast 32 (a / SECTOR_SIZE)).

Definition partition_entry (lba count typ : Z) : MBRPartitionEntry :=
  mkMBRPartitionEntry BOOT_ACTIVE CHS_empty typ CHS_empty lba count.

(** The stream is the open output file: its contents are on the host at once. *)
Definition flush (out_path : string) (s : stream) : io unit := set_contents out_path (contents s).

(** [mbr.write_into(&mut disk)] *)
Definition write_record (mbr : MBR) (out_path : string) (disk : stream) : io stream :=
  let '(r, disk) := mbr_write_into mbr disk in
  _ ← flush out_path disk;
  _ ← call r;
  mret disk.

(** The part of [create_mbr_disk] in which the temporary file exists. *)
Definition add_boot_partition (kernel_path third_stage_path fourth_stage_path tmp_path out_path : string)
    (second_stage_start_sector second_stage_sectors : Z) (mbr : MBR) (disk : stream) : io unit :=
  _ ← create_fat_filesystem [("stage3", third_stage_path); ("stage4", fourth_stage_path); ("kernel", kernel_path)] tmp_path;
  boot_partition_len ← context (metadata_len tmp_path) "Unable to get tmp file metadata";
  boot_partition_start_sector ← run (uadd 32 second_stage_start_sector second_stage_sectors);
  boot_partition_sectors ← run (sectors_of boot_partition_len);
  let mbr := mbr_set mbr 2 (partition_entry boot_partition_start_sector boot_partition_sectors 0xc) in
  disk ← context (write_record mbr out_path disk) "Writing boot parition info to mbr failed";
  offset ← run (umul 32 boot_partition_start_sector SECTOR_SIZE);
  let disk := seek_start disk offset in
  boot_partition ← open_file tmp_path;
  flush out_path (stream_write disk boot_partition).

(** The temporary file goes when the function returns. *)
Definition with_temp_file {A} (tmp_path : string) (c : io A) : io A := fun h =>
  '(r, h) ← c (<[tmp_path := []]> h); Ret (r, delete tmp_path h).

Definition create_mbr_disk (kernel_path mbr_path second_stage_path third_stage_path fourth_stage_path tmp_path out_path : string) :
    io unit :=
  mbr_file ← context (open_file mbr_path) "Failed to open mbr bin file";
  mbr ← context (call (mbr_read_from mbr_file SECTOR_SIZE)) "Failed to read mbr";
  second_stage_len ← context (metadata_len second_stage_path) "Failed to open second stage file";
  let second_stage_start_sector := 1 in
  second_stage_sectors ← run (sectors_of second_stage_len);
  let mbr := mbr_set mbr 1 (partition_entry second_stage_start_sector second_stage_sectors 0x20) in
  _ ← context (create_file out_path) "Failed to create MBR disk";
  disk ← context (write_record mbr out_path (mkStream [] 0)) "Writing to mbr disk failed";
  expected ← run (umul 32 second_stage_start_sector SECTOR_SIZE);
  _ ← run (assert_true (position disk =? expected)%Z);
  second_stage ← open_file second_stage_path;
  let disk := stream_write disk second_stage in
  _ ← flush out_path disk;
  with_temp_file tmp_path
    (add_boot_partition kernel_path third_stage_path fourth_stage_path tmp_path out_path
       second_stage_start_sector second_stage_sectors mbr disk).

(** [BiosBoot::create_disk_image]: the paths of the stages are those the build
    script passes, and an error panics. *)
Definition create_bios_image (kernel_path bios_boot_sector_path bios_stage_2_path bios_stage_3_path bios_stage_4_path
    tmp_path out_path : string) (h : host) : outcome host :=
  '(r, h) ← create_mbr_disk kernel_path bios_boot_sector_path bios_stage_2_path bios_stage_3_path bios_stage_4_path
      tmp_path out_path h;
  _ ← expect r;
  Ret h.
End Build.

(** ** What the crates document *)

(** The bytes of entry [i] of the table, and of an entry. *)
Definition entry_bytes (bytes : list Z) (i : Z) : list Z := take 16 (drop (Z.to_nat (446 + 16 * (i - 1))) bytes).
Definition encode_entry (e : MBRPartitionEntry) : list Z :=
  boot e :: first_chs e ++ sys e :: last_chs e ++ to_le_bytes 4 (starting_lba e) ++ to_le_bytes 4 (sectors e).

Definition entry_wf (e : MBRPartitionEntry) : Prop := length (first_chs e) = 3%nat /\ length (last_chs e) = 3%nat.

(** A boot record is 512 bytes with the boot code in front; setting an entry
    changes its bytes only; a record that passes the crate's checks is written to
    the start of the stream, which is left behind it. *)
Class MbrmanSpec (MBR : Type) `{Mbrman MBR} := {
  mbr_bytes : MBR -> list Z;
  mbr_writable : MBR -> Prop;
  boot_active : BOOT_ACTIVE = 0x80;
  chs_empty_length : length CHS_empty = 3%nat;
  mbr_bytes_length mbr : length (mbr_bytes mbr) = 512%nat;
  mbr_read_code bytes mbr : mbr_read_from bytes 512 = Ok mbr -> take 440 (mbr_bytes mbr) = take 440 bytes;
  mbr_set_code mbr i e : 1 <= i <= 4 -> take 440 (mbr_bytes (mbr_set mbr i e)) = take 440 (mbr_bytes mbr);
  mbr_set_entry mbr i e : 1 <= i <= 4 -> entry_wf e -> entry_bytes (mbr_bytes (mbr_set mbr i e)) i = encode_entry e;
  mbr_set_other mbr i j e : 1 <= i <= 4 -> entry_wf e -> 1 <= j <= 4 -> i <> j ->
    entry_bytes (mbr_bytes (mbr_set mbr i e)) j = entry_bytes (mbr_bytes mbr) j;
  mbr_write_spec mbr s : mbr_writable mbr -> mbr_write_into mbr s = (Ok tt, mkStream (put (contents s) 0 (mbr_bytes mbr)) 512);
}.

(** ** Theorems *)

(** One step of a computation on the host. *)
Lemma io_step {A B} (c : io A) (k : A -> io B) h a h' : c h = Ret (Ok a, h') -> mbind k c h = k a h'.
Proof. intros E. unfold mbind, io_bind. now rewrite E. Qed.

Lemma context_Ok {A} (c : io A) message h a h' : c h = Ret (Ok a, h') -> context c message h = Ret (Ok a, h').
Proof. intros E. unfold context. now rewrite E. Qed.

Lemma run_Ret {A} (c : outcome A) a h : c = Ret a -> run c h = Ret (Ok a, h).
Proof. now intros ->. Qed.

Lemma open_file_Some path h bytes : h !! path = Some bytes -> open_file path h = Ret (Ok bytes, h).
Proof. intros E. unfold open_file. now rewrite E. Qed.

Lemma metadata_len_Some path h bytes :
  h !! path = Some bytes -> metadata_len path h = Ret (Ok (Z.of_nat (length bytes)), h).
Proof. intros E. unfold metadata_len. now rewrite (io_step _ _ _ _ _ (open_file_Some _ _ _ E)). Qed.

Create HintDb io discriminated.
#[export] Hint Resolve context_Ok run_Ret open_file_Some metadata_len_Some : io.
#[export] Hint Extern 1 (create_file _ _ = _) => reflexivity : io.
#[export] Hint Extern 1 (set_contents _ _ _ = _) => reflexivity : io.
#[export] Hint Extern 1 (flush _ _ _ = _) => reflexivity : io.

(** Performs the first step, by a hint or by the equation given. *)
Ltac io_run := erewrite io_step by eauto with io; cbv beta iota.
Ltac io_run_with E := erewrite io_step by (first [ apply context_Ok; eapply E | eapply E | unfold call; rewrite E; reflexivity
                                                | apply context_Ok; unfold call; rewrite E; reflexivity ]; eauto with io); cbv beta iota.

Lemma put_behind old at_ bs :
  (length old <= at_)%nat -> put old at_ bs = old ++ replicate (at_ - length old) 0 ++ bs.
Proof.
  intros Hl. unfold put. rewrite take_ge by (rewrite length_app, length_replicate; lia).
  rewrite drop_ge by lia. now rewrite app_nil_r, <- app_assoc.
Qed.

Lemma put_front old rest bs : length old = length bs -> put (old ++ rest) 0 bs = bs ++ rest.
Proof.
  intros Hl. unfold put. rewrite take_0. cbn [app]. replace (0 + length bs)%nat with (length old) by lia.
  now rewrite drop_app_length.
Qed.

(** The volume is large enough for the files and a MiB more, in whole MiB. *)
Lemma fat_size_padded_spec n : 0 <= n -> n < 2 ^ 63 ->
  exists s, fat_size_padded_and_rounded n = Ret s /\ s mod MB = 0 /\ n + MB <= s <= n + 3 * MB.
Proof.
  intros H0 H1. unfold fat_size_padded_and_rounded, uadd, usub, umul. rewrite checked_ok by lia. cbn [mbind outcome_bind].
  rewrite checked_ok by lia. cbn [mbind outcome_bind]. change MB with 1048576.
  assert (Hd : 0 <= (n + 1024 * 64 - 1) / 1048576 < 2 ^ 43 + 2).
  { split; [apply Z.div_pos; lia | apply Z.div_lt_upper_bound; lia]. }
  rewrite checked_ok by lia. cbn [mbind outcome_bind]. rewrite checked_ok by lia. cbn [mbind outcome_bind].
  rewrite checked_ok by lia. eexists. split; [reflexivity|]. split; [|Z.to_euclidean_division_equations; lia].
  set (q := _ / _). replace ((q + 1) * 1048576 + 1048576) with ((q + 2) * 1048576) by lia. now apply Z.mod_mul.
Qed.

Section Volume.
Context `{FF : Fatfs Vol}.

(** The calls to [fatfs] for files with these contents. *)
Fixpoint add_files (files : list (string * list Z)) (fs : Vol) : Result unit error * Vol :=
  match files with
  | [] => (Ok tt, fs)
  | (name, bytes) :: files =>
      match fat_create_file fs name with
      | (Err e, fs) => (Err e, fs)
      | (Ok _, fs) =>
          match fat_truncate fs name with
          | (Err e, fs) => (Err e, fs)
          | (Ok _, fs) =>
              match fat_write fs name bytes with
              | (Err e, fs) => (Err e, fs)
              | (Ok _, fs) => add_files files fs
              end
          end
      end
  end.

(** The paths and contents of files on the host. *)
Definition on_host (h : host) (files : list (string * string)) (data : list (string * list Z)) : Prop :=
  Forall2 (fun f d => f.1 = d.1 /\ h !! f.2 = Some d.2) files data.

Definition total_size (data : list (string * list Z)) : Z := foldr (fun d n => Z.of_nat (length d.2) + n) 0 data.

Lemma total_size_nonneg data : 0 <= total_size data.
Proof. induction data as [|d data IH]; cbn; [lia | fold (total_size data); lia]. Qed.

(** The volume built from the files: nothing on [fatfs] is assumed but that its
    calls succeed. *)
Definition volume_built (data : list (string * list Z)) (size : Z) (volume : list Z) : Prop :=
  exists bytes fs fs', fat_format (replicate (Z.to_nat size) 0) volume_label = Ok bytes /\
    fat_new bytes = Ok fs /\ add_files data fs = (Ok tt, fs') /\ volume = fat_bytes fs'.

Lemma needed_size_run files data acc h :
  on_host h files data -> 0 <= acc -> acc + total_size data < 2 ^ 64 ->
  needed_size files acc h = Ret (Ok (acc + total_size data), h).
Proof.
  intros Hf. revert acc. induction Hf as [|[n p] [n' bs] files data [En Eb] _ IH]; intros acc H0 Hlt.
  - cbn [total_size foldr]. rewrite Z.add_0_r. reflexivity.
  - cbn [total_size foldr snd] in *. fold (total_size data) in *. cbn [needed_size].
    pose proof (total_size_nonneg data).
    io_run. erewrite io_step by (apply run_Ret; unfold uadd; apply checked_ok; lia).
    rewrite IH by lia. do 3 f_equal. lia.
Qed.

Lemma copy_files_run files data h fs fs' :
  on_host h files data -> add_files data fs = (Ok tt, fs') -> copy_files files fs h = Ret (Ok (Ok tt, fs'), h).
Proof.
  intros Hf. revert fs. induction Hf as [|[n p] [n' bs] files data [En Eb] _ IH]; intros fs Ha.
  - injection Ha as ->. reflexivity.
  - cbn [fst snd] in *. subst n'. cbn [copy_files add_files] in *. unfold mbind at 1, io_bind at 1, copy_file, context, open_file.
    rewrite Eb. cbn [mbind outcome_bind].
    destruct (fat_create_file fs n) as [[[]|] fs1]; [|discriminate].
    destruct (fat_truncate fs1 n) as [[[]|] fs2]; [|discriminate].
    destruct (fat_write fs2 n bs) as [[[]|] fs3]; [|discriminate]. now apply IH.
Qed.

Lemma on_host_insert h path bytes files data :
  on_host h files data -> Forall (fun f => f.2 <> path) files -> on_host (<[path := bytes]> h) files data.
Proof.
  intros Hf. induction Hf as [|f d files data [En Eb] _ IH]; intros Hne; [constructor|].
  apply Forall_cons in Hne as [Hn Hne]. constructor; [|now apply IH].
  split; [assumption|]. now rewrite lookup_insert_ne by congruence.
Qed.

(** Building the volume changes the output file only. *)
Lemma create_fat_filesystem_run files data out_path size volume h :
  on_host h files data -> Forall (fun f => f.2 <> out_path) files -> total_size data < 2 ^ 63 ->
  fat_size_padded_and_rounded (total_size data) = Ret size -> volume_built data size volume ->
  create_fat_filesystem files out_path h = Ret (Ok tt, <[out_path := volume]> h).
Proof.
  intros Hf Hne Hlt Hs (bytes & fs & fs' & E1 & E2 & E3 & ->).
  assert (Hkeep : forall b, on_host (<[out_path := b]> h) files data) by (intros; now apply on_host_insert).
  pose proof (total_size_nonneg data).
  unfold create_fat_filesystem. io_run.
  erewrite io_step by (apply (needed_size_run files data); [auto | lia..]). rewrite Z.add_0_l.
  io_run. io_run. io_run_with E1. io_run. io_run_with E2. rewrite !insert_insert_eq.
  io_run_with (copy_files_run files data). io_run.
  unfold call. now rewrite insert_insert_eq.
Qed.
End Volume.

(** ** The image *)

Section Image.
Context `{MM : Mbrman MBR} `{!MbrmanSpec MBR} `{FF : Fatfs Vol}.

Definition sector_round (n : nat) : Z := (Z.of_nat n + 511) / 512.

(** The two partitions, as the loaders see them. *)
Definition stage2_partition (stage2 : list Z) : PartitionTableEntry :=
  mkPartitionTableEntry true 0x20 1 (sector_round (length stage2)).
Definition boot_partition (stage2 volume : list Z) : PartitionTableEntry :=
  mkPartitionTableEntry true 0xc (1 + sector_round (length stage2)) (sector_round (length volume)).

Definition record1 (mbr : MBR) (stage2 : list Z) : MBR :=
  mbr_set mbr 1 (partition_entry 1 (sector_round (length stage2)) 0x20).
Definition record2 (mbr : MBR) (stage2 volume : list Z) : MBR :=
  mbr_set (record1 mbr stage2) 2
    (partition_entry (1 + sector_round (length stage2)) (sector_round (length volume)) 0xc).

(** The record, stage 2 filled to a whole sector, and the volume. *)
Definition disk_bytes (mbr : MBR) (stage2 volume : list Z) : list Z :=
  mbr_bytes (record2 mbr stage2 volume) ++ stage2 ++
  replicate (Z.to_nat (sector_round (length stage2) * 512) - length stage2) 0 ++ volume.

Lemma sector_round_spec n : Z.of_nat n <= sector_round n * 512 < Z.of_nat n + 512.
Proof. unfold sector_round. Z.to_euclidean_division_equations; lia. Qed.

Lemma sectors_of_spec n : Z.of_nat n + 511 < 2 ^ 41 -> sectors_of (Z.of_nat n) = Ret (sector_round n).
Proof.
  intros Hn. unfold sectors_of, uadd, SECTOR_SIZE. rewrite checked_ok by lia. cbn [mbind outcome_bind].
  unfold ucast. rewrite Z.mod_small; [reflexivity|].
  split; [apply Z.div_pos; lia | apply Z.div_lt_upper_bound; lia].
Qed.

(** What the builder relies on: the inputs exist, [mbrman] and [fatfs] accept
    them, the output and the temporary file are no inputs, and the numbers fit the
    fields of 32 bits they are stored in. *)
Record build_ok (kernel_path mbr_path stage2_path stage3_path stage4_path tmp_path out_path : string) (h : host)
    (code stage2 volume : list Z) (mbr : MBR) (data : list (string * list Z)) (size : Z) : Prop := {
  bo_code : h !! mbr_path = Some code;
  bo_mbr : mbr_read_from code 512 = Ok mbr;
  bo_stage2 : h !! stage2_path = Some stage2;
  bo_files : on_host h [("stage3"%string, stage3_path); ("stage4"%string, stage4_path); ("kernel"%string, kernel_path)] data;
  bo_out : Forall (fun p => p <> out_path) [stage2_path; stage3_path; stage4_path; kernel_path; tmp_path];
  bo_tmp : Forall (fun p => p <> tmp_path) [stage3_path; stage4_path; kernel_path; out_path];
  bo_writable1 : mbr_writable (record1 mbr stage2);
  bo_writable2 : mbr_writable (record2 mbr stage2 volume);
  bo_small : total_size data < 2 ^ 63;
  bo_size : fat_size_padded_and_rounded (total_size data) = Ret size;
  bo_volume : volume_built data size volume;
  bo_fits2 : (1 + sector_round (length stage2)) * 512 < 2 ^ 32;
  bo_fits : Z.of_nat (length volume) + 511 < 2 ^ 41;
}.

Lemma write_record_Ok mbr out_path bytes position_ h :
  mbr_writable mbr ->
  write_record mbr out_path (mkStream bytes position_) h =
    Ret (Ok (mkStream (put bytes 0 (mbr_bytes mbr)) 512), <[out_path := put bytes 0 (mbr_bytes mbr)]> h).
Proof. intros Hw. unfold write_record. rewrite mbr_write_spec by assumption. reflexivity. Qed.

Section Run.
Context kernel_path mbr_path stage2_path stage3_path stage4_path tmp_path out_path h code stage2 volume mbr data size
  (B : build_ok kernel_path mbr_path stage2_path stage3_path stage4_path tmp_path out_path h code stage2 volume mbr data size).

Lemma add_boot_partition_run h1 :
  on_host h1 [("stage3"%string, stage3_path); ("stage4"%string, stage4_path); ("kernel"%string, kernel_path)] data ->
  add_boot_partition kernel_path stage3_path stage4_path tmp_path out_path 1 (sector_round (length stage2))
    (record1 mbr stage2) (mkStream (mbr_bytes (record1 mbr stage2) ++ stage2) (512 + Z.of_nat (length stage2))) h1 =
  Ret (Ok tt, <[out_path := disk_bytes mbr stage2 volume]> (<[tmp_path := volume]> h1)).
Proof.
  intros Hh. destruct B as [_ _ _ _ Ho Ht _ Hw2 Hsm Hs Hv Hf2 Hf]. unfold add_boot_partition.
  pose proof (sector_round_spec (length stage2)) as Hr.
  repeat apply Forall_cons in Ho as [? Ho]. repeat apply Forall_cons in Ht as [? Ht].
  io_run_with (create_fat_filesystem_run (Vol := Vol)).
  erewrite io_step by (apply context_Ok, metadata_len_Some, lookup_insert_eq); cbv beta.
  erewrite io_step by (apply run_Ret; unfold uadd; apply checked_ok; lia); cbv beta.
  erewrite io_step by (apply run_Ret, sectors_of_spec; lia); cbv beta zeta.
  fold (record2 mbr stage2 volume).
  erewrite io_step by (apply context_Ok, write_record_Ok; exact Hw2); cbv beta.
  erewrite io_step by (apply run_Ret; unfold umul, SECTOR_SIZE; apply checked_ok; lia); cbv beta zeta.
  erewrite io_step by (apply open_file_Some; rewrite lookup_insert_ne by congruence; apply lookup_insert_eq); cbv beta.
  unfold flush, set_contents, stream_write, seek_start, contents, position. rewrite insert_insert_eq. do 3 f_equal.
  rewrite put_front by (now rewrite !mbr_bytes_length).
  rewrite put_behind by (rewrite length_app, mbr_bytes_length; lia).
  unfold disk_bytes. rewrite <- app_assoc, length_app, mbr_bytes_length. do 4 f_equal. lia.
Qed.

Lemma create_bios_image_run :
  create_bios_image kernel_path mbr_path stage2_path stage3_path stage4_path tmp_path out_path h =
  Ret (<[out_path := disk_bytes mbr stage2 volume]> (delete tmp_path h)).
Proof.
  pose proof B as [Hc Hm H2 Hfs Ho Ht Hw1 _ _ _ _ Hf2 _].
  repeat apply Forall_cons in Ho as [? Ho]. repeat apply Forall_cons in Ht as [? Ht].
  pose proof (sector_round_spec (length stage2)) as Hr.
  unfold create_bios_image, create_mbr_disk. change SECTOR_SIZE with 512. io_run. io_run_with Hm. io_run.
  erewrite io_step by (apply run_Ret, sectors_of_spec; lia); cbv beta zeta. fold (record1 mbr stage2).
  io_run. erewrite io_step by (apply context_Ok, write_record_Ok; exact Hw1); cbv beta.
  erewrite io_step by (apply run_Ret; unfold umul, SECTOR_SIZE; apply checked_ok; lia); cbv beta.
  erewrite io_step by (apply run_Ret; reflexivity); cbv beta.
  erewrite io_step by (apply open_file_Some; rewrite !lookup_insert_ne by congruence; exact H2); cbv beta zeta.
  io_run. unfold with_temp_file, stream_write, contents, position.
  replace (put (put [] 0 _) (Z.to_nat 512) stage2) with (mbr_bytes (record1 mbr stage2) ++ stage2).
  2:{ unfold put at 2. rewrite take_0, drop_nil. cbn [app]. rewrite app_nil_r, put_behind by (rewrite mbr_bytes_length; lia).
      rewrite mbr_bytes_length. reflexivity. }
  rewrite add_boot_partition_run.
  2:{ repeat apply on_host_insert; [exact Hfs|..]; repeat (constructor; [cbn; congruence|]); constructor. }
  cbn [mbind outcome_bind expect]. f_equal.
  apply map_eq. intros p. destruct (decide (p = tmp_path)) as [->|Hp].
  - rewrite lookup_delete_eq, lookup_insert_ne, lookup_delete_eq by congruence. reflexivity.
  - rewrite lookup_delete_ne by congruence. destruct (decide (p = out_path)) as [->|Hq].
    + now rewrite !lookup_insert_eq.
    + rewrite !lookup_insert_ne by congruence. now rewrite lookup_delete_ne by congruence.
Qed.
End Run.

(** *** What the image holds *)

Lemma encode_entry_partition lba n typ :
  encode_entry (partition_entry lba n typ) = encode_partition (mkPartitionTableEntry true typ lba n) CHS_empty CHS_empty.
Proof. unfold encode_entry, encode_partition, partition_entry. cbn. now rewrite boot_active. Qed.

Lemma partition_entry_wf lba n typ : entry_wf (partition_entry lba n typ).
Proof. split; apply chs_empty_length. Qed.

Lemma take_drop_split {A} (l : list A) (a n k : nat) :
  take (n + k) (drop a l) = take n (drop a l) ++ take k (drop (a + n) l).
Proof. now rewrite <- drop_drop, take_take_drop. Qed.

(** The partition table of the image. *)
Lemma disk_bytes_table mbr stage2 volume : exists post,
  take 64 (drop 446 (disk_bytes mbr stage2 volume)) =
    encode_partition (stage2_partition stage2) CHS_empty CHS_empty ++
    encode_partition (boot_partition stage2 volume) CHS_empty CHS_empty ++ post.
Proof.
  unfold disk_bytes. set (r := record2 mbr stage2 volume).
  rewrite drop_app_le, take_app_le by (rewrite ?length_drop, mbr_bytes_length; lia).
  change 64%nat with (16 + (16 + 32))%nat.
  rewrite (take_drop_split _ 446 16), (take_drop_split _ (446 + 16) 16).
  assert (E1 : take 16 (drop 446 (mbr_bytes r)) = encode_partition (stage2_partition stage2) CHS_empty CHS_empty).
  { change (take 16 (drop 446 (mbr_bytes r))) with (entry_bytes (mbr_bytes r) 1). unfold r, record2, record1.
    rewrite mbr_set_other, mbr_set_entry by (lia || apply partition_entry_wf). apply encode_entry_partition. }
  assert (E2 : take 16 (drop (446 + 16) (mbr_bytes r)) = encode_partition (boot_partition stage2 volume) CHS_empty CHS_empty).
  { change (take 16 (drop (446 + 16) (mbr_bytes r))) with (entry_bytes (mbr_bytes r) 2). unfold r, record2.
    rewrite mbr_set_entry by (lia || apply partition_entry_wf). apply encode_entry_partition. }
  rewrite E1, E2. eauto.
Qed.

Lemma disk_bytes_code mbr stage2 volume code :
  mbr_read_from code 512 = Ok mbr -> take 440 (disk_bytes mbr stage2 volume) = take 440 code.
Proof.
  intros Hr. unfold disk_bytes. rewrite take_app_le by (rewrite mbr_bytes_length; lia).
  unfold record2, record1. rewrite !mbr_set_code by lia. now apply mbr_read_code.
Qed.

Lemma disk_bytes_stage2 mbr stage2 volume :
  take (length stage2) (drop 512 (disk_bytes mbr stage2 volume)) = stage2.
Proof.
  unfold disk_bytes. rewrite drop_app_length' by (now rewrite mbr_bytes_length). now rewrite take_app_length.
Qed.

Lemma disk_bytes_volume mbr stage2 volume :
  drop (Z.to_nat (logical_block_address (boot_partition stage2 volume) * 512)) (disk_bytes mbr stage2 volume) = volume.
Proof.
  pose proof (sector_round_spec (length stage2)) as Hr. unfold disk_bytes. cbn [boot_partition logical_block_address].
  rewrite app_assoc, app_assoc. apply drop_app_length'. rewrite !length_app, length_replicate, mbr_bytes_length. lia.
Qed.

Lemma disk_bytes_length mbr stage2 volume :
  Z.of_nat (length (disk_bytes mbr stage2 volume)) = (1 + sector_round (length stage2)) * 512 + Z.of_nat (length volume).
Proof.
  pose proof (sector_round_spec (length stage2)) as Hr. unfold disk_bytes.
  rewrite !length_app, length_replicate, mbr_bytes_length. lia.
Qed.
End Image.

(** ** Booting from the image *)

(** The drive holds the image. *)
Definition holds `{BiosSpec} (disk : Z) (image : list Z) : Prop :=
  (forall i b, image !! i = Some b -> disk_image disk (Z.of_nat i) = b) /\
  Z.of_nat (length image) <= disk_sectors disk * 512.

Lemma read_list_lookup m a n i : (i < n)%nat -> read_list m a n !! i = Some (load8 m (a + Z.of_nat i)).
Proof. intros Hi. unfold read_list. rewrite list_lookup_fmap, lookup_seqZ_lt by lia. cbn. now rewrite Z.add_0_l. Qed.

Lemma length_read_list m a n : length (read_list m a n) = n.
Proof. unfold read_list. rewrite length_fmap, length_seqZ. lia. Qed.

(** A range of a memory that is read as a part of a longer one. *)
Lemma read_list_take_drop m a n off k :
  (off + k <= n)%nat -> read_list m (a + Z.of_nat off) k = take k (drop off (read_list m a n)).
Proof.
  intros Hk. apply list_eq. intros i. destruct (decide (i < k)%nat) as [Hi|Hi].
  - rewrite read_list_lookup, lookup_take_lt, lookup_drop, read_list_lookup by lia. do 2 f_equal. lia.
  - rewrite !lookup_ge_None_2 by (rewrite ?length_take, ?length_drop, ?length_read_list; lia). reflexivity.
Qed.

(** Stage 2 can read the table the boot sector read, in which entry 1 is [e]. *)
Lemma read_partition_table_second table e chs1 chs2 pre post :
  length table = 64%nat -> entry_ok e -> length chs1 = 3%nat -> length chs2 = 3%nat -> length pre = 16%nat ->
  table = pre ++ encode_partition e chs1 chs2 ++ post ->
  exists entries, read_partition_table table = Ret entries /\ entries !! 1%nat = Some e.
Proof.
  intros Hl He H1 H2 Hp Ht.
  pose proof (get_partition_encoded pre e chs1 chs2 post 1 He H1 H2 ltac:(lia) Hp) as E1. rewrite <- Ht in E1.
  destruct (get_partition_total table 0) as [e0 E0]; [lia..|].
  destruct (get_partition_total table 2) as [e2 E2]; [lia..|].
  destruct (get_partition_total table 3) as [e3 E3]; [lia..|].
  apply partition_readers_agree in E0, E1, E2, E3; [|lia..].
  unfold read_partition_table. rewrite E0, E1, E2, E3. cbn. eauto.
Qed.

Section Boot.
Context `{MM : Mbrman MBR} `{!MbrmanSpec MBR} `{FF : Fatfs Vol} `{BS : BiosSpec}.

(** The boot sector of the image, started by the BIOS, with the code of the boot
    sector linked so that stage 2 starts behind it. *)
Lemma image_boots mbr stage2 volume disk m second_stage_start :
  (1 + sector_round (length stage2)) * 512 < 2 ^ 32 -> Z.of_nat (length volume) + 511 < 2 ^ 41 ->
  holds disk (disk_bytes mbr stage2 volume) -> read_list m 0x7c00 512 = take 512 (disk_bytes mbr stage2 volume) ->
  0x7e00 <= second_stage_start -> second_stage_start + sector_round (length stage2) * 512 <= 2 ^ 20 ->
  exists m' entries, first_stage (0x7c00 + 446) second_stage_start disk m = Runs (m', (disk, 0x7c00 + 446)) /\
    read_list m' second_stage_start (length stage2) = stage2 /\
    read_partition_table (read_list m' (0x7c00 + 446) 64) = Ret entries /\
    entries !! 1%nat = Some (boot_partition stage2 volume).
Proof.
  intros Hf2 Hf [Himg Hlen] Hm Hs Hend. pose proof (sector_round_spec (length stage2)) as Hr.
  pose proof (sector_round_spec (length volume)) as Hv. rewrite disk_bytes_length in Hlen.
  destruct (disk_bytes_table mbr stage2 volume) as [post Htable].
  assert (Hread : read_list m (0x7c00 + 446) 64 = take 64 (drop 446 (disk_bytes mbr stage2 volume))).
  { change (0x7c00 + 446) with (0x7c00 + Z.of_nat 446).
    rewrite (read_list_take_drop m 0x7c00 512 446 64), Hm, skipn_firstn_comm, take_take by lia. reflexivity. }
  rewrite Htable in Hread.
  destruct (first_stage_spec (0x7c00 + 446) second_stage_start disk m (stage2_partition stage2) CHS_empty CHS_empty
    (encode_partition (boot_partition stage2 volume) CHS_empty CHS_empty ++ post)) as (m' & Erun & Hin & Hout);
    [split; unfold in_width; cbn; lia | apply chs_empty_length.. | exact Hread | lia | exact Hend | cbn; lia |].
  destruct (read_partition_table_second (read_list m' (0x7c00 + 446) 64) (boot_partition stage2 volume) CHS_empty CHS_empty
    (encode_partition (stage2_partition stage2) CHS_empty CHS_empty) post) as (entries & Et & E1).
  - apply length_read_list.
  - split; unfold in_width; cbn; lia.
  - apply chs_empty_length.
  - apply chs_empty_length.
  - unfold encode_partition. repeat (rewrite length_app || rewrite length_to_le_bytes || rewrite chs_empty_length || cbn [length app]). reflexivity.
  - rewrite <- Hread. apply list_eq. intros i. destruct (decide (i < 64)%nat) as [Hi|Hi].
    + rewrite !read_list_lookup by lia. unfold load8. rewrite Hout by (cbn; lia). reflexivity.
    + rewrite !lookup_ge_None_2 by (rewrite length_read_list; lia). reflexivity.
  - exists m', entries. split; [exact Erun|]. split; [|now split].
    apply list_eq. intros i. destruct (decide (i < length stage2)%nat) as [Hi|Hi].
    + rewrite read_list_lookup by lia. unfold load8. rewrite Hin by (cbn; lia).
      destruct (lookup_lt_is_Some_2 stage2 i Hi) as [b Eb]. rewrite Eb. f_equal.
      assert (Ed : disk_bytes mbr stage2 volume !! (512 + i)%nat = Some b).
      { rewrite <- lookup_drop, <- (lookup_take_lt _ (length stage2)) by lia. now rewrite disk_bytes_stage2. }
      apply Himg in Ed. cbn [stage2_partition logical_block_address].
      replace (1 * 512 + Z.of_nat i) with (Z.of_nat (512 + i)) by lia. rewrite <- Ed.
      apply Z.mod_small, image_byte.
    + rewrite !lookup_ge_None_2 by (rewrite ?length_read_list; lia). reflexivity.
Qed.

(** C21: the image builder succeeds: it changes no file but the image and its
    temporary file, which is gone; the image has the code of the boot sector, and
    the volume with stage 3, stage 4 and the kernel from the sector of its second
    partition on; and a machine that starts from the image runs a boot sector that
    loads exactly stage 2, and stage 2 finds that partition. *)
Theorem create_bios_image_correct kernel_path mbr_path stage2_path stage3_path stage4_path tmp_path out_path h code stage2 volume mbr data size :
  build_ok kernel_path mbr_path stage2_path stage3_path stage4_path tmp_path out_path h code stage2 volume mbr data size ->
  exists h' image,
    create_bios_image kernel_path mbr_path stage2_path stage3_path stage4_path tmp_path out_path h = Ret h' /\
    (forall p, p <> out_path -> p <> tmp_path -> h' !! p = h !! p) /\ h' !! tmp_path = None /\
    h' !! out_path = Some image /\
    take 440 image = take 440 code /\
    drop (Z.to_nat (logical_block_address (boot_partition stage2 volume) * 512)) image = volume /\
    forall disk m second_stage_start,
      holds disk image -> read_list m 0x7c00 512 = take 512 image ->
      0x7e00 <= second_stage_start -> second_stage_start + sector_round (length stage2) * 512 <= 2 ^ 20 ->
      exists m' entries, first_stage (0x7c00 + 446) second_stage_start disk m = Runs (m', (disk, 0x7c00 + 446)) /\
        read_list m' second_stage_start (length stage2) = stage2 /\
        read_partition_table (read_list m' (0x7c00 + 446) 64) = Ret entries /\
        entries !! 1%nat = Some (boot_partition stage2 volume).
Proof.
  intros Hok. eexists _, (disk_bytes mbr stage2 volume). split; [exact (create_bios_image_run _ _ _ _ _ _ _ _ _ _ _ _ _ _ Hok)|].
  destruct Hok as [_ Hm _ _ Ho _ _ _ _ _ _ Hf2 Hf].
  assert (Hto : tmp_path <> out_path) by (now rewrite !Forall_cons in Ho).
  split; [intros p Hp Hq; now rewrite lookup_insert_ne, lookup_delete_ne by congruence|].
  split; [now rewrite lookup_insert_ne, lookup_delete_eq by congruence|].
  split; [apply lookup_insert_eq|]. split; [now apply (disk_bytes_code mbr stage2 volume code)|].
  split; [apply disk_bytes_volume|]. intros disk m start ? ? ? ?. now apply (image_boots mbr).
Qed.
End Boot.

(** ** An image of small files *)

(** Boot records that are their bytes. *)
Definition bytes512 (l : list Z) : list Z := take 512 (l ++ replicate 512 0).

Definition set_entry (l : list Z) (i : Z) (e : MBRPartitionEntry) : list Z :=
  let at_ := Z.to_nat (446 + 16 * (i - 1)) in
  take at_ (bytes512 l) ++ encode_entry e ++ drop (at_ + 16) (bytes512 l).

Definition bytes_mbrman : Mbrman (list Z) := {|
  BOOT_ACTIVE := 0x80;
  CHS_empty := [0; 0; 0];
  mbr_read_from bytes _ := if (length bytes =? 512)%nat then Ok bytes else Err "no boot record"%string;
  mbr_set := set_entry;
  mbr_write_into l s := (Ok tt, mkStream (put (contents s) 0 (bytes512 l)) 512);
|}.

Lemma length_bytes512 l : length (bytes512 l) = 512%nat.
Proof. unfold bytes512. rewrite length_take, length_app, length_replicate. lia. Qed.

Lemma bytes512_id l : length l = 512%nat -> bytes512 l = l.
Proof. intros Hl. unfold bytes512. now rewrite take_app_length' by congruence. Qed.

Lemma length_encode_entry e : entry_wf e -> length (encode_entry e) = 16%nat.
Proof.
  intros [H1 H2]. unfold encode_entry.
  repeat (rewrite length_app || rewrite length_to_le_bytes || rewrite H1 || rewrite H2 || cbn [length]). reflexivity.
Qed.

Lemma length_set_entry l i e : 1 <= i <= 4 -> entry_wf e -> length (set_entry l i e) = 512%nat.
Proof.
  intros Hi He. unfold set_entry. rewrite !length_app, length_take, length_drop, length_encode_entry, length_bytes512 by assumption. lia.
Qed.

#[program] Definition bytes_mbrman_spec : @MbrmanSpec (list Z) bytes_mbrman := {|
  mbr_bytes := bytes512 : list Z -> list Z;
  mbr_writable _ := True;
  mbr_bytes_length := length_bytes512;
|}.
Next Obligation. reflexivity. Qed.
Next Obligation. reflexivity. Qed.
Next Obligation.
  intros bytes mbr. cbn [bytes_mbrman mbr_read_from mbr_set]. destruct (Nat.eqb_spec (length bytes) 512); [|discriminate].
  intros [= <-]. now rewrite bytes512_id.
Qed.
Next Obligation.
  intros l i e Hi. cbn [bytes_mbrman mbr_read_from mbr_set]. unfold bytes512 at 1. rewrite take_take. unfold set_entry. rewrite <- app_assoc, take_app_le.
  - rewrite take_take. f_equal. lia.
  - rewrite length_take, length_bytes512. lia.
Qed.
Next Obligation.
  intros l i e Hi He. cbn [bytes_mbrman mbr_read_from mbr_set]. rewrite bytes512_id by (now apply length_set_entry). unfold entry_bytes, set_entry.
  rewrite drop_app_length', take_app_length'; [reflexivity| |].
  - now rewrite length_encode_entry.
  - rewrite length_take, length_bytes512. lia.
Qed.
Next Obligation.
  intros l i j e Hi He Hj Hij. cbn [bytes_mbrman mbr_read_from mbr_set]. rewrite bytes512_id by (now apply length_set_entry). unfold entry_bytes.
  set (at_ := Z.to_nat (446 + 16 * (j - 1))). apply list_eq. intros k. destruct (decide (k < 16)%nat).
  2:{ rewrite !lookup_take_ge by lia. reflexivity. }
  rewrite !lookup_take_lt, !lookup_drop by lia. unfold set_entry. set (ai := Z.to_nat (446 + 16 * (i - 1))).
  assert (La : length (take ai (bytes512 l)) = ai) by (rewrite length_take, length_bytes512; lia).
  destruct (decide (at_ + k < ai)%nat).
  - rewrite lookup_app_l, lookup_take_lt by lia. reflexivity.
  - rewrite lookup_app_r, lookup_app_r, lookup_drop by (rewrite ?La, ?length_encode_entry by assumption; lia).
    rewrite La, length_encode_entry by assumption. f_equal. lia.
Qed.
Next Obligation. reflexivity. Qed.

(** A volume that keeps its files one after the other. *)
Definition plain_fatfs : Fatfs (list Z * list Z) := {|
  fat_format bytes _ := Ok bytes;
  fat_new bytes := Ok (bytes, []);
  fat_create_file fs _ := (Ok tt, fs);
  fat_truncate fs _ := (Ok tt, fs);
  fat_write fs _ bytes := (Ok tt, (fs.1, fs.2 ++ bytes));
  fat_bytes fs := fs.2 ++ drop (length fs.2) fs.1;
|}.

Section Example.
#[local] Open Scope string_scope.
#[local] Existing Instance bytes_mbrman.
#[local] Existing Instance bytes_mbrman_spec.
#[local] Existing Instance plain_fatfs.

Definition ex_code : list Z := replicate 510 0x90 ++ [0x55; 0xaa].
Definition ex_stage2 : list Z := replicate 700 1.
Definition ex_data : list (string * list Z) := [("stage3", [3; 3; 3]); ("stage4", [4; 4]); ("kernel", [5])].
Definition ex_files : host :=
  {[ "mbr.bin" := ex_code; "stage2.bin" := ex_stage2; "stage3.bin" := [3; 3; 3]; "stage4.bin" := [4; 4]; "kernel.elf" := [5] ]}.

Definition ex_size : Z := 2 * 1024 * 1024.
Definition ex_volume : list Z := fat_bytes (replicate (Z.to_nat ex_size) 0, [3; 3; 3; 4; 4; 5]).
Definition ex_image : list Z := disk_bytes ex_code ex_stage2 ex_volume.

Lemma ex_volume_length : Z.of_nat (length ex_volume) = ex_size.
Proof.
  unfold ex_volume. cbn [fat_bytes plain_fatfs fst snd]. rewrite length_app, length_drop, length_replicate.
  unfold ex_size. cbn [length]. lia.
Qed.

Lemma ex_volume_built : volume_built ex_data ex_size ex_volume.
Proof.
  unfold volume_built, ex_volume. generalize (replicate (Z.to_nat ex_size) 0). intros bytes.
  exists bytes, (bytes, []), (bytes, [3; 3; 3; 4; 4; 5]). repeat split.
Qed.

Lemma ex_build_ok :
  build_ok "kernel.elf" "mbr.bin" "stage2.bin" "stage3.bin" "stage4.bin" "/tmp/fat" "disk.img" ex_files
    ex_code ex_stage2 ex_volume ex_code ex_data ex_size.
Proof.
  split; [reflexivity.. | repeat constructor | repeat constructor; discriminate | repeat constructor; discriminate
         | exact I | exact I | reflexivity | reflexivity | exact ex_volume_built | reflexivity |].
  rewrite ex_volume_length. reflexivity.
Qed.

Lemma ex_image_bytes i b : ex_image !! i = Some b -> 0 <= b < 256.
Proof.
  intros Hb. apply list_elem_of_lookup_2 in Hb. revert b Hb. apply Forall_forall.
  unfold ex_image, disk_bytes. rewrite !Forall_app. split; [|split; [|split]].
  - unfold record2, boot_partition, sector_round. rewrite ex_volume_length.
    match goal with |- Forall _ ?l =>
      assert (F : forallb (fun b => (0 <=? b)%Z && (b <? 256)%Z) l = true) by (vm_compute; reflexivity) end.
    rewrite List.forallb_forall in F. apply Forall_forall. intros b Hb%list_elem_of_In%F. lia.
  - apply Forall_replicate. lia.
  - apply Forall_replicate. lia.
  - unfold ex_volume. cbn [fat_bytes plain_fatfs fst snd]. rewrite Forall_app. split.
    + repeat constructor; lia.
    + apply Forall_drop, Forall_replicate. lia.
Qed.

Definition ex_drive : Bios := image_bios (fun off => nth (Z.to_nat off) ex_image 0).
Definition ex_drive_spec : BiosSpec ex_drive := image_bios_spec _.

Lemma ex_image_bounds : (512 <= length ex_image)%nat /\ Z.of_nat (length ex_image) <= disk_sectors (BiosSpec := ex_drive_spec) 0x80 * 512.
Proof.
  unfold ex_image. pose proof (disk_bytes_length ex_code ex_stage2 ex_volume) as El. rewrite ex_volume_length in El.
  cbn [ex_drive_spec image_bios_spec disk_sectors]. change (sector_round (length ex_stage2)) with 2 in El.
  unfold ex_size in El. lia.
Qed.

Lemma ex_holds : holds (H := ex_drive_spec) 0x80 ex_image.
Proof.
  split; [|apply ex_image_bounds]. intros i b Hb. cbn [ex_drive_spec image_bios_spec disk_image]. unfold byte_image.
  rewrite Nat2Z.id, (nth_lookup_Some _ _ _ _ Hb). apply Z.mod_small. exact (ex_image_bytes _ _ Hb).
Qed.

(** The memory after the firmware has loaded sector 0. *)
Definition ex_boot_memory : mem := write_list (fun _ => 0) 0x7c00 (take 512 ex_image).

Lemma ex_boot_memory_read : read_list ex_boot_memory 0x7c00 512 = take 512 ex_image.
Proof.
  destruct ex_image_bounds as [Hl _].
  apply list_eq. intros i. destruct (decide (i < 512)%nat) as [Hi|Hi].
  2:{ rewrite !lookup_ge_None_2 by (rewrite ?length_read_list, ?length_take; lia). reflexivity. }
  rewrite read_list_lookup, lookup_take_lt by lia. destruct (lookup_lt_is_Some_2 ex_image i) as [b Hb]; [lia|].
  rewrite Hb. f_equal. unfold load8, ex_boot_memory, write_list. rewrite length_take.
  rewrite (proj2 (Z.leb_le _ _)), (proj2 (Z.ltb_lt _ _)) by lia. cbn [andb]. replace (Z.to_nat (0x7c00 + Z.of_nat i - 0x7c00)) with i by lia.
  rewrite (nth_lookup_Some _ _ _ b) by (now rewrite lookup_take_lt). apply Z.mod_small. exact (ex_image_bytes _ _ Hb).
Qed.

(** The image of the example boots. *)
Lemma create_bios_image_correct_witness : exists h' image m',
  create_bios_image "kernel.elf" "mbr.bin" "stage2.bin" "stage3.bin" "stage4.bin" "/tmp/fat" "disk.img" ex_files = Ret h' /\
  h' !! "disk.img" = Some image /\
  @first_stage ex_drive (0x7c00 + 446) 0x7e00 0x80 ex_boot_memory = Runs (m', (0x80, 0x7c00 + 446)%Z) /\
  read_list m' 0x7e00 700 = ex_stage2.
Proof.
  destruct (@create_bios_image_correct _ _ bytes_mbrman_spec _ _ ex_drive ex_drive_spec _ _ _ _ _ _ _ _ _ _ _ _ _ _ ex_build_ok)
    as (h' & image & E & _ & _ & Ei & _ & _ & Hboot).
  assert (image = ex_image) as ->.
  { pose proof (create_bios_image_run _ _ _ _ _ _ _ _ _ _ _ _ _ _ ex_build_ok) as E'. rewrite E in E'.
    injection E' as ->. rewrite lookup_insert_eq in Ei. now injection Ei. }
  destruct (Hboot 0x80 ex_boot_memory 0x7e00 ex_holds ex_boot_memory_read) as (m' & _ & Er & Es & _); [lia | vm_compute; discriminate |].
  exists h', ex_image, m'. split; [exact E|]. split; [exact Ei|]. split; [exact Er|exact Es].
Defined.
End Example.
