(* ===== verification/BuildScripts.v ===== *)
(** The build scripts and the host programs that start the emulator:
    [bootloader/build.rs] with [build_helpers/x86_64.rs], [build.rs], [src/main.rs],
    [src/lib.rs] and [tests/test.rs].

    [build_bios] has cargo compile the boot sector and the stages, turns each into a
    flat binary with objcopy, and tells cargo their paths; the script of the
    workspace then writes a disk image for the kernel and for each test kernel with
    [create_bios_image] of [DiskImage].  The programs that are called, the
    directories and the environment are a class. *)
From Stdlib Require Import ZArith Lia Ascii.
From Stdlib Require String.
From stdpp Require Import base tactics numbers list strings gmap.
From S2P Require Import Prelude Memory BootInfo Disk Mbr Stage2 DiskImage Ports.
#[local] Open Scope Z_scope.
#[local] Open Scope string_scope.

(** ** The host *)

Class HostTools := {
  (** the absolute path of a path, which is what the files are kept under *)
  resolve : string -> string;
  (** [Command::status] of a program with its arguments: success, and its display *)
  spawn : list string -> host -> Result (bool * string) error * host;
  (** [Command::output]: the exit code *)
  output_code : list string -> Result (option Z) error;
  is_dir : string -> host -> bool;
  (** the files the crate [walkdir] finds *)
  walk_files : string -> host -> list string;
  (** the names in a directory, and whether they are directories *)
  read_dir : string -> host -> Result (list (string * bool)) error;
  var_os : string -> option string;
  os_is_linux : bool;
}.

(** A script: the files, and the lines it has written for cargo. *)
Record session := mkSession { files : host; stdout : list string }.

Definition script (A : Type) : Type := session -> outcome (Result A error * session).

#[global] Instance script_ret : MRet script := fun A a s => Ret (Ok a, s).
#[global] Instance script_bind : MBind script := fun A B k c s =>
  '(r, s) ← c s; match r with Ok a => k a s | Err e => Ret (Err e, s) end.

(** [println!] *)
Definition say (line : string) : script unit := fun s => Ret (Ok tt, mkSession (files s) (stdout s ++ [line])).
(** [return Err(anyhow!(..))] *)
Definition fail {A} (message : error) : script A := fun s => Ret (Err message, s).
(** [unwrap] of a result *)
Definition unwrapped {A} (c : script A) (s : session) : outcome (A * session) :=
  '(r, s) ← c s; a ← expect r; Ret (a, s).

Definition unwrap_result {A} (c : script A) : script A := fun s => '(a, s) ← unwrapped c s; Ret (Ok a, s).

(** ** Paths *)

(** In front of and behind the last [c]. *)
Fixpoint split_last (c : ascii) (s : string) : option (string * string) :=
  match s with
  | EmptyString => None
  | String a s =>
      match split_last c s with
      | Some (before, after) => Some (String a before, after)
      | None => if bool_decide (a = c) then Some (EmptyString, s) else None
      end
  end.

(** [Path::file_name] *)
Definition file_name (path : string) : string := match split_last "/"%char path with Some (_, name) => name | None => path end.

(** [Path::file_stem] of a file name *)
Definition file_stem (name : string) : string :=
  match split_last "."%char name with
  | Some (EmptyString, _) | None => name
  | Some (stem, _) => stem
  end.

(** [Path::with_extension] *)
Definition with_extension (path ext : string) : string :=
  match split_last "/"%char path with
  | Some (dir, name) => dir +:+ "/" +:+ file_stem name +:+ "." +:+ ext
  | None => file_stem path +:+ "." +:+ ext
  end.

Definition join (path part : string) : string := path +:+ "/" +:+ part.

Definition to_uppercase (s : string) : string :=
  String.string_of_list_ascii ((fun a => let n := nat_of_ascii a in if (97 <=? n)%nat && (n <=? 122)%nat then ascii_of_nat (n - 32) else a)
    <$> String.list_ascii_of_string s).

Fixpoint strip_prefix (p s : string) : option string :=
  match p, s with
  | EmptyString, _ => Some s
  | String a p, String b s => if bool_decide (a = b) then strip_prefix p s else None
  | String _ _, EmptyString => None
  end.

(** ** [build_helpers/x86_64.rs] *)

Section Scripts.
Context `{HT : HostTools}.

Definition status (command : list string) : script (bool * string) := fun s =>
  let '(r, h) := spawn command (files s) in Ret (r, mkSession h (stdout s)).

(** [Path::canonicalize], which fails when there is no such file *)
Definition canonicalize (path : string) : script string := fun s =>
  Ret (match files s !! resolve path with Some _ => Ok (resolve path) | None => Err "No such file or directory" end, s).

Definition objcopy (filename bin_name : string) : list string :=
  ["objcopy"; "-I"; "elf64-x86-64"; "-O"; "binary"; "--binary-architecture=i386:x86-64"; filename; bin_name].

Definition convert_elf_to_bin (filename : string) : script unit :=
  let bin_name := with_extension filename "bin" in
  '(success, display) ← status (objcopy filename bin_name);
  if success : bool then mret tt else fail ("objcopy failed with exit code " +:+ display).

Definition cargo_install (path target profile : string) : list string :=
  ["cargo"; "+nightly"; "install"; "--path"; path; "--target"; target; "-Zbuild-std=core";
   "-Zbuild-std-features=compiler-builtins-mem"; "--profile"; profile].

(** What the four functions have in common. *)
Definition build_package (path target profile elf_file : string) : script string :=
  _ ← say ("cargo:rerun-if-changed=" +:+ path);
  '(success, _) ← status (cargo_install path (join path target) profile);
  if success : bool then
    _ ← convert_elf_to_bin elf_file;
    unwrap_result (canonicalize (with_extension elf_file "bin"))
  else fail "failed to run install on mbr".

Definition build_mbr : script string := build_package "x86_64/bios/mbr" "x86-mbr.json" "mbr" "../target/x86-mbr/mbr/mbr".
Definition build_stage2 : script string :=
  build_package "x86_64/bios/stage2" "x86-stage2.json" "stage2" "../target/x86-stage2/stage2/stage2".
Definition build_stage3 : script string :=
  build_package "x86_64/bios/stage3" "x86-stage3.json" "stage3" "../target/x86-stage3/stage3/stage3".
Definition build_stage4 : script string :=
  build_package "x86_64/bios/stage4" "x86-stage4.json" "stage4" "../target/x86-stage4/stage4/stage4".

Definition env_line (var value : string) : string := "cargo:rustc-env=" +:+ var +:+ "=" +:+ value.

Definition says (lines : list string) (s : session) : session := mkSession (files s) (stdout s ++ lines).

Definition build_bios (s : session) : outcome session :=
  let s := says ["cargo:rerun-if-changed=../x86_64"] s in
  '(mbr_path, s) ← unwrapped build_mbr s;
  '(stage2_path, s) ← unwrapped build_stage2 s;
  '(stage3_path, s) ← unwrapped build_stage3 s;
  '(stage4_path, s) ← unwrapped build_stage4 s;
  Ret (says [env_line "BIOS_BOOT_SECTOR_PATH" mbr_path; env_line "BIOS_STAGE_2_PATH" stage2_path;
             env_line "BIOS_STAGE_3_PATH" stage3_path; env_line "BIOS_STAGE_4_PATH" stage4_path] s).

(** What [env!] gives the crate whose build script wrote these lines. *)
Definition rustc_env (lines : list string) (var : string) : option string :=
  last (omap (strip_prefix ("cargo:rustc-env=" +:+ var +:+ "=")) lines).

(** ** [build.rs] of the workspace *)

Context `{MM : Mbrman MBR} `{FF : Fatfs Vol}.

(** [BiosBoot::new(kernel_path).create_disk_image(out_path)]; the paths of the stages
    are in the lines of [build_bios]. *)
Definition create_disk_image (boot_lines : list string) (tmp_path kernel_path out_path : string) (h : host) : outcome host :=
  mbr_path ← unwrap (rustc_env boot_lines "BIOS_BOOT_SECTOR_PATH");
  stage2_path ← unwrap (rustc_env boot_lines "BIOS_STAGE_2_PATH");
  stage3_path ← unwrap (rustc_env boot_lines "BIOS_STAGE_3_PATH");
  stage4_path ← unwrap (rustc_env boot_lines "BIOS_STAGE_4_PATH");
  create_bios_image kernel_path mbr_path stage2_path stage3_path stage4_path tmp_path (resolve out_path) h.

(** The body of the loop over the test kernels. *)
Definition build_test_kernel (boot_lines : list string) (tmp_path test_kernel : string) (s : session) : outcome session :=
  test_kernel_path ← unwrap (var_os ("CARGO_BIN_FILE_" +:+ to_uppercase test_kernel +:+ "_" +:+ test_kernel));
  let path := test_kernel +:+ ".img" in
  h ← create_disk_image boot_lines tmp_path test_kernel_path path (files s);
  Ret (says [env_line (to_uppercase test_kernel +:+ "_BIOS_PATH") path] (mkSession h (stdout s))).

Definition is_test_kernel (e : string * bool) : bool :=
  e.2 && match strip_prefix "test_kernel_" e.1 with Some _ => true | None => false end.

Definition build_images (boot_lines : list string) (tmp_path : string) (s : session) : outcome session :=
  _ ← assert_true (is_dir "x86_64/src" (files s));
  let s := says ((fun f => "cargo:rerun-if-changed=" +:+ f) <$> walk_files "x86_64/src" (files s)) s in
  kernel_path ← unwrap (var_os "CARGO_BIN_FILE_KERNEL_kernel");
  h ← create_disk_image boot_lines tmp_path kernel_path "bios.img" (files s);
  let s := says [env_line "BIOS_PATH" "bios.img"] (mkSession h (stdout s)) in
  entries ← expect (read_dir "tests" (files s));
  fold_outcome (build_test_kernel boot_lines tmp_path) (fst <$> List.filter is_test_kernel entries) s.

(** ** Starting the emulator: [src/main.rs] and [src/lib.rs] *)

Definition emulator (bios_path : string) : list string :=
  ["qemu-system-x86_64"; "-drive"; "format=raw,file=" +:+ bios_path; "-no-reboot"; "-monitor"; "/dev/null"]
  ++ (if os_is_linux then ["-enable-kvm"] else []) ++ ["-s"].

Definition test_emulator (img_path : string) : list string :=
  ["qemu-system-x86_64"; "-drive"; "format=raw,file=" +:+ img_path; "-no-reboot"; "-nographic"; "-monitor"; "/dev/null";
   "-device"; "isa-debug-exit,iobase=0xf4,iosize=0x04"]
  ++ (if os_is_linux then ["-enable-kvm"] else []).

Definition run_test_kernel (img_path : string) : outcome unit :=
  code ← expect (output_code (test_emulator img_path));
  assert_true (bool_decide (code = Some 33%Z)).

(** [tests/test.rs], compiled with the lines of [build_images] *)
Definition test_kernel_unittests (lines : list string) : outcome unit :=
  img_path ← unwrap (rustc_env lines "TEST_KERNEL_UNITTESTS_BIOS_PATH");
  run_test_kernel img_path.
End Scripts.

(** ** The boot loader's script *)

Section BuildBios.
Context `{HT : HostTools}.
(** What cargo may write, and what objcopy makes of an ELF file. *)
Context (cargo_writes : string -> bool) (flat : list Z -> list Z).

Abbreviation bin_of elf := (resolve (with_extension elf "bin")).

Lemma script_step {A B} (c : script A) (k : A -> script B) s a s' : c s = Ret (Ok a, s') -> mbind k c s = k a s'.
Proof. intros E. unfold mbind, script_bind. now rewrite E. Qed.

Lemma status_run command s r h : spawn command (files s) = (r, h) -> status command s = Ret (r, mkSession h (stdout s)).
Proof. intros E. unfold status. now rewrite E. Qed.

(** The package compiles: cargo succeeds and leaves its ELF file, and objcopy
    accepts that file and writes the binary, which cargo does not touch. *)
Record package_ok (path target profile elf : string) (bytes : list Z) : Prop := {
  pk_cargo h : exists display h', spawn (cargo_install path (join path target) profile) h = (Ok (true, display), h') /\
    h' !! resolve elf = Some bytes /\ forall p, cargo_writes p = false -> h' !! p = h !! p;
  pk_objcopy h : h !! resolve elf = Some bytes -> exists display,
    spawn (objcopy elf (with_extension elf "bin")) h = (Ok (true, display), <[bin_of elf := flat bytes]> h);
  pk_bin : cargo_writes (bin_of elf) = false;
}.

Lemma build_package_run path target profile elf bytes s :
  package_ok path target profile elf bytes ->
  exists s', build_package path target profile elf s = Ret (Ok (bin_of elf), s') /\
    stdout s' = (stdout s ++ ["cargo:rerun-if-changed=" +:+ path])%list /\ files s' !! bin_of elf = Some (flat bytes) /\
    forall p, cargo_writes p = false -> p <> bin_of elf -> files s' !! p = files s !! p.
Proof.
  intros [Hcargo Hobj _]. destruct (Hcargo (files s)) as (d & h1 & E1 & Helf & Hkeep). destruct (Hobj h1 Helf) as (d' & E2).
  unfold build_package. erewrite script_step by reflexivity. erewrite script_step by (apply status_run; exact E1). cbv beta iota.
  assert (E3 : convert_elf_to_bin elf (mkSession h1 (stdout s ++ ["cargo:rerun-if-changed=" +:+ path])) =
      Ret (Ok tt, mkSession (<[bin_of elf := flat bytes]> h1) (stdout s ++ ["cargo:rerun-if-changed=" +:+ path]))).
  { unfold convert_elf_to_bin. erewrite script_step by (apply status_run; exact E2). reflexivity. }
  erewrite script_step by exact E3. unfold unwrap_result, unwrapped, canonicalize. cbn [files].
  rewrite lookup_insert_eq. cbn [mbind outcome_bind expect].
  eexists. split; [reflexivity|]. cbn [stdout files]. split; [reflexivity|]. split; [apply lookup_insert_eq|].
  intros p Hp Hne. rewrite lookup_insert_ne by congruence. now apply Hkeep.
Qed.

(** A package that does not compile stops the script. *)
Lemma build_package_fails path target profile elf s display h' :
  spawn (cargo_install path (join path target) profile) (files s) = (Ok (false, display), h') ->
  exists s', build_package path target profile elf s = Ret (Err "failed to run install on mbr", s').
Proof.
  intros E. unfold build_package. erewrite script_step by reflexivity. erewrite script_step by (apply status_run; exact E).
  eexists. reflexivity.
Qed.

Definition mbr_elf : string := "../target/x86-mbr/mbr/mbr".
Definition stage2_elf : string := "../target/x86-stage2/stage2/stage2".
Definition stage3_elf : string := "../target/x86-stage3/stage3/stage3".
Definition stage4_elf : string := "../target/x86-stage4/stage4/stage4".

(** The four packages. *)
Record packages_ok (mbr stage2 stage3 stage4 : list Z) : Prop := {
  pa_mbr : package_ok "x86_64/bios/mbr" "x86-mbr.json" "mbr" mbr_elf mbr;
  pa_stage2 : package_ok "x86_64/bios/stage2" "x86-stage2.json" "stage2" stage2_elf stage2;
  pa_stage3 : package_ok "x86_64/bios/stage3" "x86-stage3.json" "stage3" stage3_elf stage3;
  pa_stage4 : package_ok "x86_64/bios/stage4" "x86-stage4.json" "stage4" stage4_elf stage4;
  pa_apart : NoDup [bin_of mbr_elf; bin_of stage2_elf; bin_of stage3_elf; bin_of stage4_elf];
}.

(** The lines tell cargo where the binaries are. *)
Definition names_stages (lines : list string) : Prop :=
  rustc_env lines "BIOS_BOOT_SECTOR_PATH" = Some (bin_of mbr_elf) /\
  rustc_env lines "BIOS_STAGE_2_PATH" = Some (bin_of stage2_elf) /\
  rustc_env lines "BIOS_STAGE_3_PATH" = Some (bin_of stage3_elf) /\
  rustc_env lines "BIOS_STAGE_4_PATH" = Some (bin_of stage4_elf).

(** The binaries are on the host. *)
Definition has_stages (h : host) (mbr stage2 stage3 stage4 : list Z) : Prop :=
  h !! bin_of mbr_elf = Some (flat mbr) /\ h !! bin_of stage2_elf = Some (flat stage2) /\
  h !! bin_of stage3_elf = Some (flat stage3) /\ h !! bin_of stage4_elf = Some (flat stage4).

Lemma build_bios_run mbr stage2 stage3 stage4 h :
  packages_ok mbr stage2 stage3 stage4 ->
  exists s', build_bios (mkSession h []) = Ret s' /\ names_stages (stdout s') /\ has_stages (files s') mbr stage2 stage3 stage4 /\
    forall p, cargo_writes p = false -> p ∉ [bin_of mbr_elf; bin_of stage2_elf; bin_of stage3_elf; bin_of stage4_elf] ->
      files s' !! p = h !! p.
Proof.
  intros [P1 P2 P3 P4 Hnd]. unfold build_bios, unwrapped.
  unfold build_mbr. fold mbr_elf. destruct (build_package_run _ _ _ _ _ (says ["cargo:rerun-if-changed=../x86_64"] (mkSession h [])) P1)
    as (s1 & -> & O1 & F1 & K1). cbn [mbind outcome_bind expect].
  unfold build_stage2. fold stage2_elf. destruct (build_package_run _ _ _ _ _ s1 P2) as (s2 & -> & O2 & F2 & K2). cbn [mbind outcome_bind expect].
  unfold build_stage3. fold stage3_elf. destruct (build_package_run _ _ _ _ _ s2 P3) as (s3 & -> & O3 & F3 & K3). cbn [mbind outcome_bind expect].
  unfold build_stage4. fold stage4_elf. destruct (build_package_run _ _ _ _ _ s3 P4) as (s4 & -> & O4 & F4 & K4). cbn [mbind outcome_bind expect].
  rewrite !NoDup_cons, !not_elem_of_cons in Hnd. destruct Hnd as ((N12 & N13 & N14 & _) & (N23 & N24 & _) & (N34 & _) & _).
  pose proof (pk_bin _ _ _ _ _ P1). pose proof (pk_bin _ _ _ _ _ P2). pose proof (pk_bin _ _ _ _ _ P3).
  eexists. split; [reflexivity|]. cbn [says stdout files]. split; [|split].
  - rewrite O4, O3, O2, O1. cbn [says stdout app]. repeat split.
  - split; [now rewrite K4, K3, K2|]. split; [now rewrite K4, K3|]. split; [now rewrite K4 | exact F4].
  - intros p Hp Hout. rewrite !not_elem_of_cons in Hout. destruct Hout as (Q1 & Q2 & Q3 & Q4 & _).
    rewrite K4, K3, K2, K1 by assumption. reflexivity.
Qed.
End BuildBios.

(** ** The images *)

Section Images.
Context `{HT : HostTools} `{MM : Mbrman MBR} `{!MbrmanSpec MBR} `{FF : Fatfs Vol} `{BS : BiosSpec}.
Context (cargo_writes : string -> bool) (flat : list Z -> list Z).
Context (mbr stage2 stage3 stage4 : list Z) (tmp_path : string) (boot_lines : list string).
Context (Hlines : names_stages boot_lines).

Abbreviation bin_of elf := (resolve (with_extension elf "bin")).

(** What the images are made of. *)
Context (inputs : list string) (h0 : host).

Definition inputs_kept (h : host) : Prop := forall p, p ∈ inputs -> h !! p = h0 !! p.

(** The image of a kernel can be built whenever the inputs are there. *)
Definition image_ok (kernel_path out_path : string) (image : list Z) : Prop :=
  (resolve out_path ∉ inputs) /\ tmp_path <> resolve out_path /\
  exists record volume data size, image = disk_bytes record (flat stage2) volume /\
    forall h, inputs_kept h ->
      build_ok kernel_path (bin_of mbr_elf) (bin_of stage2_elf) (bin_of stage3_elf) (bin_of stage4_elf) tmp_path (resolve out_path) h
        (flat mbr) (flat stage2) volume record data size.

Lemma create_disk_image_run kernel_path out_path image h :
  image_ok kernel_path out_path image -> inputs_kept h -> tmp_path ∉ inputs ->
  create_disk_image boot_lines tmp_path kernel_path out_path h = Ret (<[resolve out_path := image]> (delete tmp_path h)) /\
  inputs_kept (<[resolve out_path := image]> (delete tmp_path h)).
Proof.
  intros (Hout & _ & record & volume & data & size & -> & Hok) Hin Htmp. destruct Hlines as (E1 & E2 & E3 & E4). split.
  - unfold create_disk_image. rewrite E1, E2, E3, E4. cbn [unwrap mbind outcome_bind].
    eapply create_bios_image_run. exact (Hok h Hin).
  - intros p Hp. rewrite lookup_insert_ne, lookup_delete_ne; [now apply Hin | |]; intros <-; contradiction.
Qed.

(** The test kernels: their paths, and the images that come out. *)
Context (kernel_of : string -> string) (image_of : string -> list Z).

Definition image_name (test_kernel : string) : string := test_kernel +:+ ".img".

Definition test_ok (test_kernel : string) : Prop :=
  var_os ("CARGO_BIN_FILE_" +:+ to_uppercase test_kernel +:+ "_" +:+ test_kernel) = Some (kernel_of test_kernel) /\
  image_ok (kernel_of test_kernel) (image_name test_kernel) (image_of test_kernel).

Lemma build_tests_run names s :
  Forall test_ok names -> NoDup ((fun n => resolve (image_name n)) <$> names) -> inputs_kept (files s) -> tmp_path ∉ inputs ->
  exists s', fold_outcome (build_test_kernel boot_lines tmp_path) names s = Ret s' /\
    stdout s' = (stdout s ++ ((fun n => env_line (to_uppercase n +:+ "_BIOS_PATH") (image_name n)) <$> names))%list /\
    (forall n, n ∈ names -> files s' !! resolve (image_name n) = Some (image_of n)) /\
    forall p, p <> tmp_path -> p ∉ (fun n => resolve (image_name n)) <$> names -> files s' !! p = files s !! p.
Proof.
  intros Hok. revert s. induction Hok as [|n names [Hvar Himg] _ IH]; intros s Hnd Hin Htmp.
  { exists s. split; [reflexivity|]. split; [symmetry; apply app_nil_r|]. split; [intros n []%not_elem_of_nil | auto]. }
  rewrite fmap_cons, NoDup_cons in Hnd. destruct Hnd as [Hni Hnd].
  destruct (create_disk_image_run _ _ _ (files s) Himg Hin Htmp) as [E Hin']. pose proof Himg as (_ & Hne & _).
  set (s1 := says [env_line (to_uppercase n +:+ "_BIOS_PATH") (image_name n)]
    (mkSession (<[resolve (image_name n) := image_of n]> (delete tmp_path (files s))) (stdout s))).
  assert (E1 : build_test_kernel boot_lines tmp_path n s = Ret s1).
  { unfold build_test_kernel. rewrite Hvar. cbn [unwrap mbind outcome_bind]. fold (image_name n). rewrite E. reflexivity. }
  cbn [fold_outcome]. rewrite E1. cbn [mbind outcome_bind].
  destruct (IH s1 Hnd Hin' Htmp) as (s' & E' & O & F & K). exists s'. split; [exact E'|]. split; [|split].
  - rewrite O. cbn [s1 says stdout]. rewrite <- app_assoc. reflexivity.
  - intros n' [->|Hn']%elem_of_cons; [|now apply F]. rewrite K; [apply lookup_insert_eq | congruence | exact Hni].
  - intros p Hp Hout. rewrite fmap_cons, not_elem_of_cons in Hout. destruct Hout as [Hpn Hout].
    rewrite K by assumption. cbn [s1 says files]. rewrite lookup_insert_ne, lookup_delete_ne by congruence. reflexivity.
Qed.

(** A machine that starts from the image runs the compiled boot sector, which loads
    stage 2, and stage 2 finds the volume. *)
Definition image_starts (image : list Z) : Prop :=
  take 440 image = take 440 (flat mbr) /\
  exists volume, drop (Z.to_nat (logical_block_address (boot_partition (flat stage2) volume) * 512)) image = volume /\
  forall disk m second_stage_start,
    holds disk image -> read_list m 0x7c00 512 = take 512 image -> (0x7e00 <= second_stage_start)%Z ->
    (second_stage_start + sector_round (length (flat stage2)) * 512 <= 2 ^ 20)%Z ->
    exists m' entries, first_stage (0x7c00 + 446) second_stage_start disk m = Runs (m', (disk, (0x7c00 + 446)%Z)) /\
      read_list m' second_stage_start (length (flat stage2)) = flat stage2 /\
      read_partition_table (read_list m' (0x7c00 + 446) 64) = Ret entries /\
      entries !! 1%nat = Some (boot_partition (flat stage2) volume).

Lemma image_ok_starts kernel_path out_path image h :
  image_ok kernel_path out_path image -> inputs_kept h -> image_starts image.
Proof.
  intros (_ & _ & record & volume & data & size & -> & Hok) Hin. destruct (Hok h Hin) as [_ Hm _ _ _ _ _ _ _ _ _ Hf2 Hf]. split.
  - exact (disk_bytes_code record (flat stage2) volume _ Hm).
  - exists volume. split; [apply disk_bytes_volume|]. intros disk m start ? ? ? ?. now apply (image_boots record).
Qed.
End Images.

Section Build.
Context `{HT : HostTools} `{MM : Mbrman MBR} `{!MbrmanSpec MBR} `{FF : Fatfs Vol} `{BS : BiosSpec}.
Context (cargo_writes : string -> bool) (flat : list Z -> list Z).

Abbreviation bin_of elf := (resolve (with_extension elf "bin")).

(** The names of the test kernels in a listing of [tests]. *)
Definition test_kernels (entries : list (string * bool)) : list string := fst <$> List.filter is_test_kernel entries.

(** C22: the build is complete: the script of the boot loader compiles the boot sector
    and the stages and names their binaries; with these the script of the workspace
    writes an image for the kernel and one for each test kernel and names them; and
    a machine that starts from any of these images runs the compiled boot sector,
    which loads the compiled stage 2. *)
Theorem build_correct mbr stage2 stage3 stage4 tmp_path h inputs kernel_path image kernel_of image_of entries :
  packages_ok cargo_writes flat mbr stage2 stage3 stage4 ->
  (forall p, p ∈ inputs -> p ∈ [bin_of mbr_elf; bin_of stage2_elf; bin_of stage3_elf; bin_of stage4_elf] \/ cargo_writes p = false) ->
  (forall h, is_dir "x86_64/src" h = true) -> (forall h, read_dir "tests" h = Ok entries) ->
  var_os "CARGO_BIN_FILE_KERNEL_kernel" = Some kernel_path -> tmp_path ∉ inputs ->
  (forall h0, has_stages flat h0 mbr stage2 stage3 stage4 ->
     (forall p, p ∈ inputs -> p ∉ [bin_of mbr_elf; bin_of stage2_elf; bin_of stage3_elf; bin_of stage4_elf] -> h0 !! p = h !! p) ->
     image_ok flat mbr stage2 tmp_path inputs h0 kernel_path "bios.img" image /\
     Forall (test_ok flat mbr stage2 tmp_path inputs h0 kernel_of image_of) (test_kernels entries)) ->
  NoDup (resolve "bios.img" :: ((fun n => resolve (image_name n)) <$> test_kernels entries)) ->
  exists s1 s2, build_bios (mkSession h []) = Ret s1 /\ build_images (stdout s1) tmp_path (mkSession (files s1) []) = Ret s2 /\
    has_stages flat (files s1) mbr stage2 stage3 stage4 /\
    files s2 !! resolve "bios.img" = Some image /\ env_line "BIOS_PATH" "bios.img" ∈ stdout s2 /\ image_starts flat mbr stage2 image /\
    forall n, n ∈ test_kernels entries ->
      files s2 !! resolve (image_name n) = Some (image_of n) /\
      env_line (to_uppercase n +:+ "_BIOS_PATH") (image_name n) ∈ stdout s2 /\ image_starts flat mbr stage2 (image_of n).
Proof.
  intros Hp Hinputs Hdir Hread Hkernel Htmp Himages Hnd.
  destruct (build_bios_run cargo_writes flat mbr stage2 stage3 stage4 h Hp) as (s1 & E1 & Hl & Hst & Hkeep).
  destruct (Himages (files s1) Hst) as [Hk Ht].
  { intros p Hin Hnot. destruct (Hinputs p Hin) as [H|H]; [contradiction | now apply Hkeep]. }
  set (h1 := files s1) in *. assert (Hin1 : inputs_kept inputs h1 h1) by (intros p _; reflexivity).
  destruct (create_disk_image_run flat mbr stage2 tmp_path (stdout s1) Hl inputs h1 _ _ _ h1 Hk Hin1 Htmp) as [E2 Hin2].
  rewrite NoDup_cons in Hnd. destruct Hnd as [Hni Hnd].
  set (lines := ((fun f => "cargo:rerun-if-changed=" +:+ f) <$> walk_files "x86_64/src" h1) : list string).
  set (s2 := says [env_line "BIOS_PATH" "bios.img"] (mkSession (<[resolve "bios.img" := image]> (delete tmp_path h1)) lines)).
  destruct (build_tests_run flat mbr stage2 tmp_path (stdout s1) Hl inputs h1 kernel_of image_of (test_kernels entries) s2 Ht Hnd Hin2 Htmp)
    as (s3 & E3 & O3 & F3 & K3).
  exists s1, s3. split; [exact E1|]. split.
  { unfold build_images. cbn [files]. rewrite Hdir. cbn [assert_true mbind outcome_bind]. cbn [says files stdout app]. fold h1. fold lines.
    rewrite Hkernel. cbn [unwrap mbind outcome_bind]. rewrite E2. cbn [mbind outcome_bind]. rewrite Hread. cbn [expect mbind outcome_bind].
    exact E3. }
  pose proof Hk as (_ & Hne & _). split; [exact Hst|]. split; [rewrite K3 by (congruence || assumption); apply lookup_insert_eq|].
  split; [rewrite O3; cbn [s2 says stdout]; set_solver|].
  split; [exact (image_ok_starts flat mbr stage2 tmp_path inputs h1 _ _ _ h1 Hk Hin1)|].
  intros n Hn. rewrite Forall_forall in Ht. destruct (Ht n Hn) as [_ Hi]. split; [now apply F3|]. split.
  - rewrite O3. apply elem_of_app. right. apply list_elem_of_fmap. now exists n.
  - exact (image_ok_starts flat mbr stage2 tmp_path inputs h1 _ _ _ h1 Hi Hin1).
Qed.
End Build.

(** ** The verdict on a test kernel *)

(** The exit device makes the emulator end with an odd status. *)
Lemma run_test_kernel_spec `{HT : HostTools} img_path c :
  output_code (test_emulator img_path) = Ok (Some (2 * exit_code_bits c + 1)%Z) ->
  run_test_kernel img_path = match c with Success => Ret tt | Failed => Panic AssertFailed end.
Proof. intros E. unfold run_test_kernel. rewrite E. destruct c; reflexivity. Qed.

(** ** A repository with one test kernel, and the image of [DiskImage] *)

Section Example.
#[local] Existing Instance bytes_mbrman.
#[local] Existing Instance bytes_mbrman_spec.
#[local] Existing Instance plain_fatfs.

(** What the compilers make of the packages. *)
Definition ex_package (profile : string) : string * list Z :=
  if bool_decide (profile = "mbr") then (mbr_elf, ex_code)
  else if bool_decide (profile = "stage2") then (stage2_elf, ex_stage2)
  else if bool_decide (profile = "stage3") then (stage3_elf, [3; 3; 3]%Z)
  else (stage4_elf, [4; 4]%Z).

Definition ex_spawn (command : list string) (h : host) : Result (bool * string) error * host :=
  match command with
  | [_; _; _; _; _; _; _; _; _; _; profile] => (Ok (true, "exit status: 0"), <[(ex_package profile).1 := (ex_package profile).2]> h)
  | [_; _; _; _; _; _; filename; bin_name] =>
      match h !! filename with
      | Some bytes => (Ok (true, "exit status: 0"), <[bin_name := bytes]> h)
      | None => (Ok (false, "exit status: 1"), h)
      end
  | _ => (Err "No such file or directory", h)
  end.

#[local] Instance ex_tools : HostTools := {|
  resolve p := p;
  spawn := ex_spawn;
  output_code _ := Ok (Some 33%Z);
  is_dir _ _ := true;
  walk_files _ _ := ["x86_64/src/lib.rs"];
  read_dir _ _ := Ok [("test.rs", false); ("test_kernel_unittests", true)];
  var_os v := if bool_decide (v = "CARGO_BIN_FILE_KERNEL_kernel") then Some "kernel.elf"
              else if bool_decide (v = "CARGO_BIN_FILE_TEST_KERNEL_UNITTESTS_test_kernel_unittests") then Some "test.elf"
              else None;
  os_is_linux := true;
|}.

Definition ex_cargo_writes (p : string) : bool := bool_decide (p ∈ [mbr_elf; stage2_elf; stage3_elf; stage4_elf]).
Definition ex_bins : list string :=
  ["../target/x86-mbr/mbr/mbr.bin"; "../target/x86-stage2/stage2/stage2.bin"; "../target/x86-stage3/stage3/stage3.bin";
   "../target/x86-stage4/stage4/stage4.bin"].
Definition ex_inputs : list string := ex_bins ++ ["kernel.elf"; "test.elf"].
Definition ex_repository : host := {[ "kernel.elf" := [5]%Z; "test.elf" := [5]%Z ]}.

Lemma ex_package_ok path target profile :
  (ex_package profile).1 ∈ [mbr_elf; stage2_elf; stage3_elf; stage4_elf] ->
  ex_cargo_writes (with_extension (ex_package profile).1 "bin") = false ->
  package_ok ex_cargo_writes id path target profile (ex_package profile).1 (ex_package profile).2.
Proof.
  intros Helf Hbin. split.
  - intros h. do 2 eexists. split; [reflexivity|]. cbn [resolve ex_tools]. split; [apply lookup_insert_eq|].
    intros p Hp%bool_decide_eq_false. apply lookup_insert_ne. intros <-. contradiction.
  - intros h Hh. exists "exit status: 0". cbn [spawn ex_tools ex_spawn objcopy resolve] in *. now rewrite Hh.
  - exact Hbin.
Qed.

Lemma ex_packages_ok : packages_ok ex_cargo_writes id ex_code ex_stage2 [3; 3; 3]%Z [4; 4]%Z.
Proof.
  split.
  - apply (ex_package_ok _ _ "mbr"); [apply (bool_decide_eq_true_1 _) | ]; reflexivity.
  - apply (ex_package_ok _ _ "stage2"); [apply (bool_decide_eq_true_1 _) | ]; reflexivity.
  - apply (ex_package_ok _ _ "stage3"); [apply (bool_decide_eq_true_1 _) | ]; reflexivity.
  - apply (ex_package_ok _ _ "stage4"); [apply (bool_decide_eq_true_1 _) | ]; reflexivity.
  - apply (bool_decide_eq_true_1 _). reflexivity.
Qed.

(** Either kernel is one byte long, as in the image of [DiskImage]. *)
Lemma ex_image_ok h0 kernel_path out_path :
  has_stages id h0 ex_code ex_stage2 [3; 3; 3]%Z [4; 4]%Z -> kernel_path ∈ ["kernel.elf"; "test.elf"] ->
  h0 !! kernel_path = Some [5]%Z -> out_path ∈ ["bios.img"; "test_kernel_unittests.img"] ->
  image_ok id ex_code ex_stage2 "/tmp/fat" ex_inputs h0 kernel_path out_path ex_image.
Proof.
  intros (B1 & B2 & B3 & B4) Hk H0 Ho. assert (Hout : out_path ∉ "/tmp/fat" :: ex_inputs).
  { rewrite !elem_of_cons, elem_of_nil in Ho. destruct Ho as [->|[->|[]]]; apply (bool_decide_eq_false_1 _); reflexivity. }
  assert (Htmp : "/tmp/fat" ∉ ex_inputs) by (apply (bool_decide_eq_false_1 _); reflexivity).
  assert (Hkin : kernel_path ∈ ex_inputs) by (apply elem_of_app; now right).
  assert (Hbins : forall p, p ∈ ex_bins -> p ∈ ex_inputs) by (intros p Hp; apply elem_of_app; now left).
  rewrite not_elem_of_cons in Hout. destruct Hout as [Hto Hout].
  assert (Hne : forall q p, p ∈ ex_inputs -> q ∉ ex_inputs -> p <> q) by (intros q p Hp Hq ->; contradiction).
  split; [exact Hout|]. split; [exact (fun E => Hto (eq_sym E))|].
  exists ex_code, ex_volume, ex_data, ex_size. split; [reflexivity|]. intros h Hh.
  assert (S1 : "../target/x86-mbr/mbr/mbr.bin" ∈ ex_bins) by (apply (bool_decide_eq_true_1 _); reflexivity).
  assert (S2 : "../target/x86-stage2/stage2/stage2.bin" ∈ ex_bins) by (apply (bool_decide_eq_true_1 _); reflexivity).
  assert (S3 : "../target/x86-stage3/stage3/stage3.bin" ∈ ex_bins) by (apply (bool_decide_eq_true_1 _); reflexivity).
  assert (S4 : "../target/x86-stage4/stage4/stage4.bin" ∈ ex_bins) by (apply (bool_decide_eq_true_1 _); reflexivity).
  pose proof (Hh _ Hkin) as Gk. rewrite H0 in Gk.
  pose proof (Hh _ (Hbins _ S1)) as G1. pose proof (Hh _ (Hbins _ S2)) as G2.
  pose proof (Hh _ (Hbins _ S3)) as G3. pose proof (Hh _ (Hbins _ S4)) as G4.
  assert (T1 : Forall (fun p => p <> out_path) ["../target/x86-stage2/stage2/stage2.bin"; "../target/x86-stage3/stage3/stage3.bin";
      "../target/x86-stage4/stage4/stage4.bin"; kernel_path; "/tmp/fat"]).
  { repeat apply Forall_cons_2; try (apply Hne; auto; fail); auto using Forall_nil_2. }
  assert (T2 : Forall (fun p => p <> "/tmp/fat") ["../target/x86-stage3/stage3/stage3.bin"; "../target/x86-stage4/stage4/stage4.bin";
      kernel_path; out_path]).
  { repeat apply Forall_cons_2; try (apply Hne; auto; fail); auto using Forall_nil_2. }
  pose proof ex_build_ok as [_ Hm _ _ _ _ W1 W2 Hsm Hsz Hv Hf2 Hf].
  split; [exact (eq_trans G1 B1) | exact Hm | exact (eq_trans G2 B2) | | exact T1 | exact T2 | exact W1 | exact W2 | exact Hsm
         | exact Hsz | exact Hv | exact Hf2 | exact Hf].
  constructor; [split; [reflexivity | exact (eq_trans G3 B3)]|].
  constructor; [split; [reflexivity | exact (eq_trans G4 B4)]|].
  constructor; [split; [reflexivity | exact Gk] | constructor].
Qed.

Lemma build_correct_witness : exists s1 s2,
  build_bios (mkSession ex_repository []) = Ret s1 /\ build_images (stdout s1) "/tmp/fat" (mkSession (files s1) []) = Ret s2 /\
  files s2 !! "bios.img" = Some ex_image /\ files s2 !! "test_kernel_unittests.img" = Some ex_image.
Proof.
  destruct (@build_correct _ _ _ bytes_mbrman_spec _ _ _ ex_drive_spec ex_cargo_writes id ex_code ex_stage2 [3; 3; 3]%Z [4; 4]%Z "/tmp/fat"
    ex_repository ex_inputs "kernel.elf" ex_image (fun _ => "test.elf") (fun _ => ex_image)
    [("test.rs", false); ("test_kernel_unittests", true)] ex_packages_ok) as (s1 & s2 & E1 & E2 & _ & Hi & _ & _ & Ht).
  - intros p Hp. apply elem_of_app in Hp as [Hp|Hp]; [left; exact Hp|]. right.
    rewrite !elem_of_cons, elem_of_nil in Hp. destruct Hp as [->|[->|[]]]; reflexivity.
  - reflexivity.
  - reflexivity.
  - reflexivity.
  - apply (bool_decide_eq_false_1 _). reflexivity.
  - intros h0 Hst Hkeep.
    assert (Hk : forall p, p ∈ ["kernel.elf"; "test.elf"] -> h0 !! p = Some [5]%Z).
    { intros p Hp. rewrite Hkeep.
      - rewrite !elem_of_cons, elem_of_nil in Hp. destruct Hp as [->|[->|[]]]; reflexivity.
      - apply elem_of_app. now right.
      - rewrite !elem_of_cons, elem_of_nil in Hp. destruct Hp as [->|[->|[]]]; apply (bool_decide_eq_false_1 _); reflexivity. }
    split; [apply ex_image_ok; [exact Hst | left | apply Hk; left | left]|].
    constructor; [|constructor]. split; [reflexivity|]. apply ex_image_ok; [exact Hst | right; left | apply Hk; right; left | right; left].
  - apply (bool_decide_eq_true_1 _). reflexivity.
  - exists s1, s2. split; [exact E1|]. split; [exact E2|]. split; [exact Hi|].
    apply (Ht "test_kernel_unittests"). left.
Defined.
End Example.
